(* ===== verification/_CoqProject ===== *)
-Q . S2P
Prelude.v
GoString.v
Json.v
JsonFuel.v
JsonDecode.v
JsonCanon.v
Base64.v
Net.v
Models.v
Config.v
XrayTypes.v
Parser.v
ConfigWriter.v
ConfigWriterProps.v
Admin.v
AdminProps.v
Generator.v
GeneratorProps.v
Schema.v
Database.v
Migrate.v
DatabaseFacts.v
DatabaseProps.v
Directory.v
DirectoryFacts.v
DirectoryProps.v
DirectoryQueries.v
Syncer.v
Watcher.v
Server.v
Routes.v
Nodes.v
SubLinks.v
Subscription.v
ServerFacts.v
SubscriptionProps.v
SubLinksProps.v
RoutesProps.v
NodesProps.v
SyncerProps.v
SyncerImport.v
SyncStatusProps.v
WrittenClients.v
Users.v
Emergency.v
Killswitch.v
RateLimit.v
Liveness.v
Startup.v
Router.v
SystemFacts.v
SystemSteps.v
UsersProps.v
TokenRotation.v
LivenessProps.v
RouterProps.v
System.v
RateLimitProps.v
StartupProps.v
Demo.v
KillswitchProps.v
SystemWitness.v
