(* ===== verification/Prelude.v ===== *)
(** * Raven-subscribe: a verification library

    Raven-subscribe is a service beside one or several Xray proxy engines. It
    reads the engine's configuration directory, keeps users and their client
    credentials in SQLite, serves each user a generated client configuration
    or share links under a secret token, and offers an HTTP API to manage
    users, placements, routing rules, an emergency rotation and a kill switch.

    ** The program and the files that model it

    Every function of [src/internal] and of [src/main.go] that is modelled is a
    definition of the same name, in the file that stands for its source file.
    Go's [(A, error)] over a mutable object is the monad [M S A] of this file
    ([bind] is the early return on [err], [try] the place where the code looks
    at it); [error] is the text of [Error()].

    - Go's standard library, as far as the program uses it: [GoString]
      (strings, strconv, hex), [Json], [JsonDecode], [JsonCanon]
      (encoding/json: texts, documents, struct decoding, canonical documents),
      [JsonFuel], [Base64], [Net] (net.SplitHostPort, ParseIP, address classes).
    - Data: [Models] (models/models.go), [XrayTypes] (xray/types.go), [Config]
      (config/config.go: loading, defaults, validation, accessors).
    - Engine configuration: [Parser] (xray/parser.go: directory to inbounds and
      clients), [ConfigWriter] (xray/configwriter.go: adding and removing a
      client of a file, atomic replacement of the file), [Generator]
      (xray/generator.go: inbounds and clients to a client configuration).
    - Engines: [Admin] (core/admin.go, xray/apiclient.go, impl.go, fanout.go,
      restore.go). [AdminAPI] is the record of the operations; [grpcAdmin],
      [fileAdmin] and [fanoutAdmin] are its implementations, [buildAdmin] of
      [Server] chooses one. The engine itself is the class [HandlerService].
    - Database: [Schema] (the tables and constraints of [migrate]), [Database]
      (every method of [DB]), [Migrate] (files of earlier versions), [Directory]
      (the abstract specification of these methods: accounts, grants, nodes and
      placements as finite maps, changed by events).
    - Synchroniser: [Syncer] (syncer/syncer.go, status.go, token.go: one pass,
      the health record), [Watcher] (when a pass runs).
    - HTTP: [Server] (state and helpers of the handlers), [Routes], [Users],
      [Nodes], [Emergency], [Killswitch], [Subscription], [SubLinks] (the
      handlers of api/server.go, nodes.go, emergency.go, fallback.go,
      hysteria.go, sub_links.go), [RateLimit], [Liveness] (ratelimit.go,
      liveness.go, metrics.go), [Router] (the route table with its guards).
    - The process: [Startup] (main.go and xray/tls.go: what [main] brings up,
      in its order), [System] (the transition system of requests, background
      passes, restarts and environment).

    A handler is a computation over [Server.State]: the database, the host
    with its configuration directory and random source, the engines, and the
    status of the nodes. [go Sync()] inside a handler is [Users.go_Sync]: a
    schedule in the state says whether the pass runs at that point or stays
    pending, so a theorem over every state covers both orders. A statement sent
    to SQLite, a write to a file and a call to an engine may each fail: their
    outcomes to come are part of the state ([db_faults], [h_writes]).

    ** What is shown

    - The running system ([System], [SystemFacts], [SystemSteps], [RouterProps],
      [KillswitchProps], [StartupProps]): the constraints of the schema hold in
      every reachable state, whose directory replays from the empty one by
      allowed events; a request without the admin token changes no table, file
      or engine; while the switch is off, its inbounds are closed
      again and again; no enabled node is dialled in the clear over a public
      address, unless the configuration asks for it.
    - The directory ([DirectoryFacts], [DirectoryProps], [DirectoryQueries]):
      the data-access layer refines it. Each method, failing statements
      included, plays the events it is for, or an initial part of them when it
      fails; the queries that authenticate, serve and reconcile answer from it.
    - Users ([UsersProps], [DatabaseFacts], [DatabaseProps], [Migrate]):
      creating, disabling and deleting a user do what they say to tables and
      engines alike; token rotation, placement, backfill; an interrupted
      migration resumes.
    - Serving ([SubscriptionProps], [GeneratorProps], [SubLinksProps],
      [NodesProps], [RateLimitProps], [RoutesProps], [TokenRotation],
      [LivenessProps]): who is answered and with which clients; a new token
      moves the subscription and changes nothing else; a scrape reports the
      last fetches; generated configurations are closed under references and
      carry the stored credential and no server secret; links parse back; rules
      and overrides are read back as written; the limiter is one bucket for
      each client.
    - Keeping in step ([SyncerProps], [SyncerImport], [SyncStatusProps],
      [WrittenClients], [Watcher], [ConfigWriterProps], [AdminProps],
      [NodesProps]): a pass imports what the files hold and harms no user; what
      it writes it reads back, so that passes settle; no change of the files
      goes unseen; editing a file changes one client list and nothing else;
      fan-out and reconciliation reach every node.
    - Decoding ([Parser], [Config], [JsonFuel], [JsonCanon], [Base64]): what a
      successful load or extraction guarantees; documents and credentials
      survive being printed and read.

    [SystemFacts.calls] is the interface between handlers and data access: the
    sequences of data-access methods of a class, any statement of them
    failing. What holds of each method ([DatabaseFacts]) holds along them.
    [SyncerProps.SyncAlong] does the same for the parts of a pass.
    [SystemWitness] and [Demo] instantiate the theorems on a small deployment.

    ** Bounds

    [json_parse] has fuel [2 + 2 * length], shown to be enough in [JsonFuel];
    [Net.ParseIP] makes at most eight rounds, as its loop does; octal escapes
    and decimal prints recurse on a number of digits that 64-bit values do not
    exceed. Integers are [Z]; where the width is visible (ports, seconds of the
    limiter, alterId) the range check of the code is part of the definition.

    ** What is not modelled

    Sockets, TLS handshakes, flags, signals and the graceful shutdown of
    [main]; response headers, log lines and the text around the values of a
    metrics scrape; opening and closing the database file; the interfaces of
    [internal/core] other than [AdminAPI], which nothing implements yet. Third
    parties are parameters, with what the code relies on as hypotheses of the
    theorems: xray-core ([HandlerService]), golang.org/x/time/rate
    ([RateLimiter]), curve25519, SHA-256, crypto/tls; so are the order in which
    Go ranges over a map ([MapOrder], [FileOrder]) and RFC 3339 times ([Clock]).
    Strings are byte strings; case mapping and white space are the ASCII ones.
    Time stands still during a request or a pass. *)

From stdpp Require Export base list gmap strings sorting.
From Stdlib Require Export ZArith Lia.

#[global] Set Default Proof Using "Type".

(** ** Hint databases and tactics of the development *)

Create HintDb raven discriminated.
Create Rewrite HintDb raven_simp.

(** Case analysis on the tests of executable definitions. *)
Ltac case_if :=
  match goal with
  | |- context [if ?b then _ else _] => destruct b eqn:?
  | H : context [if ?b then _ else _] |- _ => destruct b eqn:?
  end.

Ltac bool_simp :=
  repeat match goal with
  | H : _ && _ = true |- _ => apply andb_true_iff in H as [? ?]
  | H : _ || _ = false |- _ => apply orb_false_iff in H as [? ?]
  | H : negb _ = true |- _ => apply negb_true_iff in H
  | H : negb _ = false |- _ => apply negb_false_iff in H
  | H : bool_decide _ = true |- _ => apply bool_decide_eq_true in H
  | H : bool_decide _ = false |- _ => apply bool_decide_eq_false in H
  | H : String.eqb _ _ = true |- _ => apply String.eqb_eq in H
  | H : String.eqb _ _ = false |- _ => apply String.eqb_neq in H
  | H : Z.eqb _ _ = true |- _ => apply Z.eqb_eq in H
  | H : Z.eqb _ _ = false |- _ => apply Z.eqb_neq in H
  end.

(** Evaluate a closed goal. *)
Ltac eval_done := vm_compute; repeat split; try reflexivity; try discriminate.

(** Decide a closed decidable goal, or one that ranges over a closed list. *)
Ltac decide_closed :=
  first [ apply (bool_decide_unpack _); vm_compute; exact I
        | apply Forall_forall, (bool_decide_unpack _); vm_compute; exact I ].

(** ** Go errors and the state-and-error monad

    A Go [error] is modelled by the text its [Error()] method returns. A Go
    function that threads a state [S] and returns [(A, error)] is a
    computation [M S A]: it always yields the state, and either a value or an
    error. *)

Abbreviation error := string (only parsing).

Definition M (S A : Type) : Type := S → (error + A) * S.

Definition ret {S A} (a : A) : M S A := λ s, (inr a, s).
Definition throw {S A} (e : error) : M S A := λ s, (inl e, s).
Definition bind {S A B} (m : M S A) (k : A → M S B) : M S B := λ s,
  match m s with
  | (inl e, s') => (inl e, s')
  | (inr a, s') => k a s'
  end.
(** [try m] hands the outcome of [m] to its continuation, for the places
    where the code inspects or ignores [err]. *)
Definition try {S A} (m : M S A) : M S (error + A) := λ s,
  let '(r, s') := m s in (inr r, s').
Definition get {S} : M S S := λ s, (inr s, s).
Definition modify {S} (f : S → S) : M S () := λ s, (inr tt, f s).

Declare Scope raven_scope.
Delimit Scope raven_scope with raven.
Open Scope raven_scope.
Notation "x <-- m ;; k" := (bind m (λ x, k))
  (at level 100, m at next level, right associativity) : raven_scope.
Notation "m ;;; k" := (bind m (λ _, k))
  (at level 100, right associativity) : raven_scope.

(** [for _, x := range l { body x }] where an error returns at once. *)
Fixpoint for_each {S A} (l : list A) (body : A → M S ()) : M S () :=
  match l with
  | [] => ret tt
  | x :: r => body x ;;; for_each r body
  end.

(** *** Invariants of the threaded state *)

Section Preserves.
Context {S : Type} (I : S → Prop).

(** The computation keeps [I], whether it succeeds or fails. *)
Definition preserves {A} (m : M S A) : Prop := ∀ s, I s → I (m s).2.

Lemma preserves_ret {A} (a : A) : preserves (ret a).
Proof. by intros s Hs. Qed.
Lemma preserves_fail {A} e : preserves (throw (A := A) e).
Proof. by intros s Hs. Qed.
Lemma preserves_get : preserves get.
Proof. by intros s Hs. Qed.
Lemma preserves_bind {A B} (m : M S A) (k : A → M S B) :
preserves m → (∀ a, preserves (k a)) → preserves (bind m k).
Proof.
intros Hm Hk s Hs. unfold bind.
pose proof (Hm s Hs) as H1. destruct (m s) as [[e|a] s1]; simpl in *; [done|].
by apply Hk.
Qed.
Lemma preserves_try {A} (m : M S A) : preserves m → preserves (try m).
Proof. intros Hm s Hs. unfold try. specialize (Hm s Hs). by destruct (m s). Qed.
Lemma preserves_for {A} (l : list A) body :
(∀ x, x ∈ l → preserves (body x)) → preserves (for_each l body).
Proof.
induction l as [|x r IH]; intros H; simpl; [apply preserves_ret|].
apply preserves_bind; [apply H; set_solver|].
intros _. apply IH. intros y Hy. apply H. set_solver.
Qed.
End Preserves.

#[export] Hint Resolve preserves_ret preserves_fail preserves_get preserves_bind
  preserves_try preserves_for : raven.

(** *** Relations between the state before and after *)

Section Advances.
Context {T : Type} (R : T → T → Prop) {HR : PreOrder R} {S : Type} (π : S → T).

(** Whether it succeeds or fails, the computation takes the part [π] of the
  state along [R]. *)
Definition advances {A} (m : M S A) : Prop := ∀ s, R (π s) (π (m s).2).

Lemma advances_ret {A} (a : A) : advances (ret a).
Proof using HR. by intros s. Qed.
Lemma advances_throw {A} e : advances (throw (A := A) e).
Proof using HR. by intros s. Qed.
Lemma advances_get : advances get.
Proof using HR. by intros s. Qed.
Lemma advances_bind {A B} (m : M S A) (k : A → M S B) :
advances m → (∀ a, advances (k a)) → advances (bind m k).
Proof using HR.
intros Hm Hk s. unfold bind. specialize (Hm s). destruct (m s) as [[e|a] s1]; simpl in *; [done|].
etrans; [done|apply Hk].
Qed.
Lemma advances_try {A} (m : M S A) : advances m → advances (try m).
Proof. intros Hm s. unfold try. specialize (Hm s). by destruct (m s). Qed.
Lemma advances_for {A} (l : list A) body :
(∀ x, x ∈ l → advances (body x)) → advances (for_each l body).
Proof using HR.
induction l as [|x r IH]; intros H; simpl; [apply advances_ret|].
apply advances_bind; [apply H; set_solver|]. intros _. apply IH. intros y Hy. apply H. set_solver.
Qed.
End Advances.

#[export] Hint Resolve advances_ret advances_throw advances_get advances_bind
  advances_try advances_for : raven.

(** *** What a success has done *)

Lemma bind_ok {S A B} (m : M S A) (k : A → M S B) s b s' :
  bind m k s = (inr b, s') → ∃ a s1, m s = (inr a, s1) ∧ k a s1 = (inr b, s').
Proof. unfold bind. destruct (m s) as [[e|a] s1]; [done|]. by exists a, s1. Qed.

Lemma try_run {S A} (m : M S A) s r s' : try m s = (inr r, s') → m s = (r, s').
Proof. unfold try. destruct (m s). by intros [= -> ->]. Qed.
(** Whenever the computation succeeds from a state with [P], it ends in one with [Q]. *)
Definition leads {S A} (P Q : S → Prop) (m : M S A) : Prop :=
  ∀ s a s', m s = (inr a, s') → P s → Q s'.
Lemma leads_bind {S A B} (P Q R : S → Prop) (m : M S A) (k : A → M S B) :
  leads P Q m → (∀ a, leads Q R (k a)) → leads P R (bind m k).
Proof. intros Hm Hk s b s' (a & s1 & E & H)%bind_ok Hs. exact (Hk a _ _ _ H (Hm _ _ _ E Hs)). Qed.

(** ** Option and list helpers *)

Lemma find_Some_iff {A} (f : A → bool) (l : list A) x :
  List.find f l = Some x → x ∈ l ∧ f x = true.
Proof. intros H%List.find_some. by rewrite list_elem_of_In. Qed.

Lemma find_None_iff {A} (f : A → bool) (l : list A) :
  List.find f l = None ↔ ∀ x, x ∈ l → f x = false.
Proof.
  split.
  - intros H x Hx%list_elem_of_In. by eapply List.find_none.
  - induction l as [|y l IH]; intros H; [done|]. simpl.
    rewrite (H y) by set_solver. apply IH. intros x Hx. apply H. set_solver.
Qed.

(** Boolean filtering, as the [for ... { if p { out = append(out, x) } }]
    loops of the code. *)
Abbreviation bfilter := List.filter.

Lemma elem_of_bfilter {A} (f : A → bool) (l : list A) x :
  x ∈ bfilter f l ↔ f x = true ∧ x ∈ l.
Proof. rewrite !list_elem_of_In, List.filter_In. tauto. Qed.

Lemma bfilter_app {A} (f : A → bool) (l k : list A) :
  bfilter f (l ++ k) = bfilter f l ++ bfilter f k.
Proof. apply List.filter_app. Qed.

Lemma bfilter_all {A} (f : A → bool) (l : list A) :
  (∀ x, x ∈ l → f x = true) → bfilter f l = l.
Proof.
  induction l as [|x l IH]; intros H; [done|]. simpl.
  rewrite (H x) by set_solver. f_equal. apply IH. intros y Hy. apply H. set_solver.
Qed.

Lemma bfilter_none {A} (f : A → bool) (l : list A) :
  (∀ x, x ∈ l → f x = false) → bfilter f l = [].
Proof.
  induction l as [|x l IH]; intros H; [done|]. simpl.
  rewrite (H x) by set_solver. apply IH. intros y Hy. apply H. set_solver.
Qed.

Lemma bfilter_bfilter {A} (f g : A → bool) (l : list A) :
  bfilter f (bfilter g l) = bfilter (λ x, g x && f x) l.
Proof.
  induction l as [|x l IH]; [done|]. simpl.
  destruct (g x); simpl; [destruct (f x); simpl; by rewrite IH|done].
Qed.

Lemma bfilter_ext {A} (f g : A → bool) (l : list A) :
  (∀ x, x ∈ l → f x = g x) → bfilter f l = bfilter g l.
Proof.
  induction l as [|x l IH]; intros H; [done|]. simpl.
  rewrite (H x) by set_solver. rewrite IH; [done|]. intros y Hy. apply H. set_solver.
Qed.

Lemma bfilter_sublist {A} (f : A → bool) (l : list A) : sublist (bfilter f l) l.
Proof. induction l as [|x l IH]; simpl; [constructor|]. destruct (f x); by constructor. Qed.

Lemma sublist_omap {A B} (f : A → option B) (l k : list A) :
  sublist l k → sublist (omap f l) (omap f k).
Proof. induction 1; simpl; [done|destruct (f x); [by constructor|done]|destruct (f x); [by constructor|done]]. Qed.

Lemma NoDup_bfilter {A} (f : A → bool) (l : list A) : NoDup l → NoDup (bfilter f l).
Proof. intros H. eapply sublist_NoDup; [done|]. apply bfilter_sublist. Qed.

Lemma NoDup_fmap_bfilter {A B} (g : A → B) (f : A → bool) (l : list A) :
  NoDup (g <$> l) → NoDup (g <$> bfilter f l).
Proof. intros H. eapply sublist_NoDup; [done|]. apply fmap_sublist, bfilter_sublist. Qed.

Lemma NoDup_map_inj_on {A B} (g : A → B) (l : list A) x y :
  NoDup (g <$> l) → x ∈ l → y ∈ l → g x = g y → x = y.
Proof.
  induction l as [|z l IH]; intros Hd Hx Hy Hg; [by apply not_elem_of_nil in Hx|].
  rewrite fmap_cons, NoDup_cons in Hd. destruct Hd as [Hz Hd].
  rewrite elem_of_cons in Hx, Hy.
  destruct Hx as [->|Hx], Hy as [->|Hy]; [done| | |by apply IH].
  - exfalso. apply Hz. rewrite Hg. by apply list_elem_of_fmap_2.
  - exfalso. apply Hz. rewrite <- Hg. by apply list_elem_of_fmap_2.
Qed.

(** ** Stable insertion sort

    [sort.SliceStable], [sort.Strings] and SQL's [ORDER BY] over rows listed
    in rowid order. *)

Section StableSort.
Context {A : Type} (leb : A → A → bool).

Fixpoint sort_insert (x : A) (l : list A) : list A :=
match l with
| [] => [x]
| y :: r => if leb x y then x :: l else y :: sort_insert x r
end.

Definition stable_sort (l : list A) : list A := foldr sort_insert [] l.

Lemma sort_insert_perm x l : sort_insert x l ≡ₚ x :: l.
Proof.
induction l as [|y r IH]; simpl; [done|]. destruct (leb x y); [done|].
rewrite IH. apply Permutation_swap.
Qed.

Lemma stable_sort_perm l : stable_sort l ≡ₚ l.
Proof. induction l as [|x l IH]; simpl; [done|]. by rewrite sort_insert_perm, IH. Qed.

Lemma elem_of_stable_sort x l : x ∈ stable_sort l ↔ x ∈ l.
Proof. by rewrite stable_sort_perm. Qed.

Lemma length_stable_sort l : length (stable_sort l) = length l.
Proof. by rewrite stable_sort_perm. Qed.

Hypothesis leb_total : ∀ x y, leb x y = false → leb y x = true.

Lemma sort_insert_sorted x l :
Sorted (λ a b, leb a b = true) l → Sorted (λ a b, leb a b = true) (sort_insert x l).
Proof using leb_total.
induction 1 as [|y r Hs IH Hd]; simpl; [by repeat constructor|].
destruct (leb x y) eqn:E; [by repeat constructor|].
constructor; [done|]. destruct r as [|z r]; simpl in *; [constructor; auto|].
destruct (leb x z); constructor; auto. by inversion Hd.
Qed.

Lemma stable_sort_sorted l : Sorted (λ a b, leb a b = true) (stable_sort l).
Proof using leb_total.
induction l as [|x l IH]; simpl; [constructor|]. by apply sort_insert_sorted.
Qed.

(** Sorting does nothing to a sorted list. *)
Lemma stable_sort_id l : Sorted (λ a b, leb a b = true) l → stable_sort l = l.
Proof.
induction 1 as [|x r Hs IH Hd]; simpl; [done|]. rewrite IH.
destruct Hd as [|z r' Hz]; simpl; [done|]. by rewrite Hz.
Qed.
End StableSort.

(** Sorting on a two-valued key is a stable partition. *)
Lemma stable_sort_partition {A} (p : A → bool) (l : list A) :
  stable_sort (λ x y, p x || negb (p y)) l
  = bfilter p l ++ bfilter (λ x, negb (p x)) l.
Proof.
  induction l as [|x l IH]; simpl; [done|]. rewrite IH. destruct (p x) eqn:Ex; simpl.
  - destruct (bfilter p l ++ _) as [|y r]; simpl; [done|]. by rewrite Ex.
  - assert (H : ∀ k, (∀ y, y ∈ k → p y = true) → ∀ m, (∀ y, y ∈ m → p y = false) →
      sort_insert (λ x y, p x || negb (p y)) x (k ++ m) = k ++ x :: m).
    { induction k as [|y k IHk]; intros Hk m Hm; simpl.
      - destruct m as [|z m]; simpl; [done|]. by rewrite Ex, (Hm z) by set_solver.
      - rewrite Ex, (Hk y) by set_solver. simpl. f_equal. apply IHk; [|done].
        intros z Hz. apply Hk. set_solver. }
    apply H; intros y Hy%elem_of_bfilter; [tauto|].
    by destruct Hy as [Hy%negb_true_iff _].
Qed.

#[export] Hint Rewrite @stable_sort_perm @length_stable_sort : raven_simp.

Lemma elem_of_concat {A} (x : A) ls : x ∈ concat ls ↔ ∃ l, l ∈ ls ∧ x ∈ l.
Proof. rewrite list_elem_of_In, in_concat. by setoid_rewrite list_elem_of_In. Qed.
