(* ===== verification/GoString.v ===== *)
(** * The parts of Go's [strings], [strconv] and [encoding/hex|base64] the program uses

    A Go string is a byte string, here [String.string]. Case mapping and white
    space are the ASCII ones: the model of [strings.ToLower] and
    [strings.TrimSpace] agrees with Go's on every string without upper-case or
    white-space characters outside ASCII. *)

From S2P Require Import Prelude.
From Stdlib Require Import Ascii String DecimalString DecimalZ DecimalN DecimalPos DecimalFacts.

#[global] Arguments String.append : simpl nomatch.

(** ** Bytes *)

Definition code (c : ascii) : N := N_of_ascii c.

Definition is_space (c : ascii) : bool :=
  let n := code c in ((9 <=? n) && (n <=? 13))%N || (n =? 32)%N.
Definition is_digit (c : ascii) : bool := let n := code c in ((48 <=? n) && (n <=? 57))%N.
Definition is_upper (c : ascii) : bool := let n := code c in ((65 <=? n) && (n <=? 90))%N.
Definition is_lower (c : ascii) : bool := let n := code c in ((97 <=? n) && (n <=? 122))%N.
Definition lower_char (c : ascii) : ascii :=
  if is_upper c then ascii_of_N (code c + 32) else c.

(** Decide a statement about one byte by trying all 256. *)
Ltac all_bytes c := destruct c as [[] [] [] [] [] [] [] []]; vm_compute; try done.

(** ** [strings] *)

Fixpoint string_map (f : ascii → ascii) (s : string) : string :=
  match s with EmptyString => EmptyString | String c r => String (f c) (string_map f r) end.

Fixpoint string_forallb (p : ascii → bool) (s : string) : bool :=
  match s with EmptyString => true | String c r => p c && string_forallb p r end.

Definition ToLower (s : string) : string := string_map lower_char s.

Fixpoint trim_left (s : string) : string :=
  match s with
  | EmptyString => EmptyString
  | String c r => if is_space c then trim_left r else s
  end.

Fixpoint trim_right (s : string) : string :=
  match s with
  | EmptyString => EmptyString
  | String c r =>
      let t := trim_right r in
      if is_space c && String.eqb t "" then EmptyString else String c t
  end.

Definition TrimSpace (s : string) : string := trim_right (trim_left s).

(** [strings.EqualFold] *)
Definition EqualFold (a b : string) : bool := String.eqb (ToLower a) (ToLower b).

Definition HasPrefix (s p : string) : bool := String.prefix p s.

Fixpoint HasSuffix (s suf : string) : bool :=
  String.eqb s suf ||
  match s with EmptyString => false | String _ r => HasSuffix r suf end.

Fixpoint Contains (s sub : string) : bool :=
  String.prefix sub s ||
  match s with EmptyString => false | String _ r => Contains r sub end.

(** [strings.TrimPrefix] and [strings.TrimSuffix] *)
Fixpoint drop_string (n : nat) (s : string) : string :=
  match n, s with
  | S n, String _ r => drop_string n r
  | _, _ => s
  end.
Definition TrimPrefix (s p : string) : string :=
  if HasPrefix s p then drop_string (String.length p) s else s.
Definition TrimSuffix (s suf : string) : string :=
  if HasSuffix s suf then String.substring 0 (String.length s - String.length suf) s else s.

(** [strings.Join] *)
Definition Join (l : list string) (sep : string) : string := String.concat sep l.

(** The part of [s] before the first byte of [seps], when there is one. *)
Fixpoint before_any (seps : ascii → bool) (s : string) : option string :=
  match s with
  | EmptyString => None
  | String c r => if seps c then Some EmptyString else String c <$> before_any seps r
  end.

(** [strings.NewReplacer(old1, new1, ...).Replace(s)]: at each position the
    first pair whose [old] matches is applied; [skip] counts the bytes of a
    match that remain to be passed over. *)
Fixpoint replace_from (pairs : list (string * string)) (s : string) (skip : nat) : string :=
  match s with
  | EmptyString => EmptyString
  | String c r =>
      match skip with
      | S k => replace_from pairs r k
      | O =>
          match List.find (λ p : string * string, HasPrefix s p.1) pairs with
          | Some (old, new) => new +:+ replace_from pairs r (String.length old - 1)
          | None => String c (replace_from pairs r O)
          end
      end
  end.
Definition Replace (pairs : list (string * string)) (s : string) : string :=
  replace_from pairs s O.

(** The byte-wise order of Go strings and of SQLite's [BINARY] collation. *)
Definition string_leb (a b : string) : bool :=
  match String.compare a b with Gt => false | _ => true end.

Lemma string_leb_total a b : string_leb a b = false → string_leb b a = true.
Proof.
  unfold string_leb. rewrite (String.compare_antisym b a).
  by destruct (String.compare a b).
Qed.

Definition sort_strings : list string → list string := stable_sort string_leb.

(** ** [strconv] *)

Definition int64_ok (z : Z) : bool := ((- 2 ^ 63 <=? z) && (z <? 2 ^ 63))%Z.

(** [strconv.Itoa] and [%d] *)
Definition Itoa (z : Z) : string := NilZero.string_of_int (Z.to_int z).

(** The decimal syntax [strconv.ParseInt(s, 10, 64)] accepts: an optional sign
    and at least one digit. *)
Definition parse_dec (s : string) : option Z :=
  match s with
  | String "+" r => Z.of_uint <$> NilZero.uint_of_string r
  | _ => Z.of_int <$> NilZero.int_of_string s
  end.
Definition ParseInt (s : string) : option Z :=
  z ← parse_dec s; if int64_ok z then Some z else None.
(** [strconv.Atoi] on a 64-bit platform *)
Definition Atoi : string → option Z := ParseInt.

(** ** Laws *)

Lemma string_app_nil_r (s : string) : s +:+ "" = s.
Proof. induction s as [|c s IH]; simpl; [done|by rewrite IH]. Qed.
Lemma string_app_assoc (a b c : string) : a +:+ b +:+ c = (a +:+ b) +:+ c.
Proof. induction a as [|x a IH]; simpl; [done|by rewrite IH]. Qed.
Lemma string_length_app (a b : string) :
  String.length (a +:+ b) = String.length a + String.length b.
Proof. induction a as [|x a IH]; simpl; [done|by rewrite IH]. Qed.
Lemma string_app_inj_l (a b c : string) : a +:+ b = a +:+ c → b = c.
Proof. induction a as [|x a IH]; simpl; [done|]. intros [= H]. auto. Qed.

Lemma prefix_app (p s : string) : String.prefix p (p +:+ s) = true.
Proof.
  induction p as [|c p IH]; simpl; [by destruct s|].
  destruct (ascii_dec c c); [done|congruence].
Qed.

Lemma lower_char_idem c : lower_char (lower_char c) = lower_char c.
Proof. all_bytes c. Qed.
Lemma ToLower_idem s : ToLower (ToLower s) = ToLower s.
Proof.
  unfold ToLower. induction s as [|c s IH]; simpl; [done|]. by rewrite lower_char_idem, IH.
Qed.
Lemma lower_char_space c : is_space (lower_char c) = is_space c.
Proof. all_bytes c. Qed.

Lemma trim_right_idem s : trim_right (trim_right s) = trim_right s.
Proof.
  induction s as [|c s IH]; simpl; [done|].
  destruct (is_space c && String.eqb (trim_right s) "") eqn:E; [done|].
  simpl. by rewrite IH, E.
Qed.

Lemma trim_left_idem s : trim_left (trim_left s) = trim_left s.
Proof.
  induction s as [|c s IH]; simpl; [done|].
  destruct (is_space c) eqn:E; [done|]. simpl. by rewrite E.
Qed.

Lemma trim_left_right s : trim_left (trim_right (trim_left s)) = trim_right (trim_left s).
Proof.
  induction s as [|c s IH]; simpl; [done|]. destruct (is_space c) eqn:E; [done|].
  simpl. rewrite E. simpl. by rewrite E.
Qed.

Lemma TrimSpace_idem s : TrimSpace (TrimSpace s) = TrimSpace s.
Proof. unfold TrimSpace. by rewrite trim_left_right, trim_right_idem. Qed.

Lemma TrimSpace_empty : TrimSpace "" = "".
Proof. reflexivity. Qed.

Lemma trim_left_no_space s : string_forallb (λ c, negb (is_space c)) s = true → trim_left s = s.
Proof. destruct s as [|c s]; simpl; [done|]. by intros [->%negb_true_iff _]%andb_true_iff. Qed.

Lemma trim_right_no_space s :
  string_forallb (λ c, negb (is_space c)) s = true → trim_right s = s.
Proof.
  induction s as [|c s IH]; simpl; [done|].
  intros [->%negb_true_iff H]%andb_true_iff. simpl. by rewrite IH.
Qed.

(** A string without white space is its own trimming. *)
Lemma TrimSpace_no_space s :
  string_forallb (λ c, negb (is_space c)) s = true → TrimSpace s = s.
Proof.
  intros H. unfold TrimSpace. rewrite (trim_left_no_space s) by done.
  by apply trim_right_no_space.
Qed.

Lemma ToLower_TrimSpace s : ToLower (TrimSpace s) = TrimSpace (ToLower s).
Proof.
  assert (Hl : ∀ s, ToLower (trim_left s) = trim_left (ToLower s)).
  { intros t. induction t as [|c t IH]; [done|].
    change (trim_left (ToLower (String c t))) with
      (if is_space (lower_char c) then trim_left (ToLower t) else ToLower (String c t)).
    rewrite lower_char_space. simpl. by destruct (is_space c). }
  assert (He : ∀ s, String.eqb (ToLower s) "" = String.eqb s "") by (by intros []).
  unfold TrimSpace. rewrite <- Hl. generalize (trim_left s); intros t.
  induction t as [|c t IH]; [done|]. unfold ToLower in *. simpl.
  rewrite lower_char_space, <- IH. fold (ToLower (trim_right t)). rewrite He.
  by destruct (is_space c && _).
Qed.

(** *** Decimal numerals *)

Lemma to_uint_nonnil z : Z.to_int z ≠ Decimal.Pos Decimal.Nil ∧ Z.to_int z ≠ Decimal.Neg Decimal.Nil.
Proof.
  destruct z as [|p|p]; simpl; split; intros H; try done.
  - injection H as H. by apply DecimalPos.Unsigned.to_uint_nonnil in H.
  - injection H as H. by apply DecimalPos.Unsigned.to_uint_nonnil in H.
Qed.

Lemma int_of_Itoa z : NilZero.int_of_string (Itoa z) = Some (Z.to_int z).
Proof. unfold Itoa. destruct (to_uint_nonnil z). by apply NilZero.isi. Qed.

Lemma Itoa_inj a b : Itoa a = Itoa b → a = b.
Proof.
  intros H%(f_equal NilZero.int_of_string). rewrite !int_of_Itoa in H.
  injection H as H. by apply DecimalZ.to_int_inj.
Qed.

Lemma string_of_uint_head d : ∃ c r, NilZero.string_of_uint d = String c r ∧ is_digit c = true.
Proof. destruct d; simpl; eauto. Qed.

Lemma Itoa_head z : ∃ c r, Itoa z = String c r ∧ (is_digit c = true ∨ c = "-"%char).
Proof.
  unfold Itoa, NilZero.string_of_int. destruct (Z.to_int z) as [d|d]; [|eauto].
  destruct (string_of_uint_head d) as (c & r & -> & H). eauto.
Qed.

Lemma parse_dec_Itoa z : parse_dec (Itoa z) = Some z.
Proof.
  pose proof (int_of_Itoa z) as H. pose proof (Itoa_head z) as (c & r & Hi & Hc).
  unfold parse_dec. rewrite Hi in *.
  assert (c ≠ "+"%char) as Hp by (destruct Hc as [Hc| ->]; [intros ->; by vm_compute in Hc|done]).
  assert (Z.of_int <$> NilZero.int_of_string (String c r) = Some z) as Hz.
  { rewrite H. simpl. by rewrite DecimalZ.of_to. }
  destruct c as [[] [] [] [] [] [] [] []]; try exact Hz. by destruct Hp.
Qed.

(** [strconv.Atoi(strconv.Itoa(z)) = z] on every 64-bit integer. *)
Lemma Atoi_Itoa z : int64_ok z = true → Atoi (Itoa z) = Some z.
Proof. intros H. unfold Atoi, ParseInt. rewrite parse_dec_Itoa. simpl. by rewrite H. Qed.

Lemma ParseInt_int64 s z : ParseInt s = Some z → int64_ok z = true.
Proof.
  unfold ParseInt. destruct (parse_dec s) as [y|]; simpl; [|done].
  destruct (int64_ok y) eqn:E; [|done]. by intros [= <-].
Qed.

#[export] Hint Rewrite TrimSpace_idem ToLower_idem TrimSpace_empty : raven_simp.
