(* ===== verification/Json.v ===== *)
(** * Go's [encoding/json] as the program uses it

    [json] is the abstract syntax of a document, [json_parse] and
    [json_marshal] (or [json_marshal_indent]) the text level, and the decoder
    combinators at the end the rules of [json.Unmarshal] into Go structs:
    unknown keys are skipped, keys match field names up to case, [null] leaves
    the zero value, and a value of the wrong type makes the whole call fail
    but does not stop the other fields from being filled.

    Limits of the model: a byte string is taken as it is (Go replaces invalid
    UTF-8 by U+FFFD), U+2028 and U+2029 are printed unescaped, and among
    duplicate keys the last one decides. *)

From S2P Require Import Prelude GoString.
From Stdlib Require Import Ascii String DecimalString.

Inductive json : Type :=
  | JNull
  | JBool (b : bool)
  | JInt (z : Z)            (** an integer literal in canonical decimal form *)
  | JLit (lit : string)     (** any other number literal, kept as text *)
  | JStr (s : string)
  | JArr (l : list json)
  | JObj (kvs : list (string * json)).

Section JsonInd.
Variable P : json → Prop.
Hypothesis Hnull : P JNull.
Hypothesis Hbool : ∀ b, P (JBool b).
Hypothesis Hint : ∀ z, P (JInt z).
Hypothesis Hlit : ∀ s, P (JLit s).
Hypothesis Hstr : ∀ s, P (JStr s).
Hypothesis Harr : ∀ l, Forall P l → P (JArr l).
Hypothesis Hobj : ∀ kvs, Forall (λ kv, P kv.2) kvs → P (JObj kvs).

Fixpoint json_nested_ind (v : json) : P v :=
match v with
| JNull => Hnull | JBool b => Hbool b | JInt z => Hint z
| JLit s => Hlit s | JStr s => Hstr s
| JArr l => Harr l ((fix go (l : list json) : Forall P l := match l with
    | [] => Forall_nil_2 _
    | x :: r => Forall_cons_2 _ _ _ (json_nested_ind x) (go r) end) l)
| JObj kvs => Hobj kvs ((fix go (l : list (string * json)) : Forall (λ kv, P kv.2) l := match l with
    | [] => Forall_nil_2 _
    | kv :: r => Forall_cons_2 _ _ _ (json_nested_ind kv.2) (go r) end) kvs)
end.
End JsonInd.

(** ** Printing *)

Definition quote_char : ascii := ascii_of_N 34.
Definition backslash : ascii := ascii_of_N 92.
Definition chr (n : N) : ascii := ascii_of_N n.

Definition hex_digit (n : N) : ascii := if (n <? 10)%N then chr (48 + n) else chr (87 + n).

Definition escape_char (c : ascii) : string :=
  let n := code c in
  let esc (m : N) := String backslash (String (chr m) "") in
  if (n =? 34)%N || (n =? 92)%N then esc n
  else if (n =? 8)%N then esc 98%N else if (n =? 12)%N then esc 102%N
  else if (n =? 10)%N then esc 110%N else if (n =? 13)%N then esc 114%N
  else if (n =? 9)%N then esc 116%N
  else if (n <? 32)%N || (n =? 60)%N || (n =? 62)%N || (n =? 38)%N then
    String backslash (String "u" (String "0" (String "0"
      (String (hex_digit (n / 16)) (String (hex_digit (n mod 16)) "")))))
  else String c "".

Fixpoint escape (s : string) : string :=
  match s with EmptyString => "" | String c r => escape_char c +:+ escape r end.

Definition quote (s : string) : string := String quote_char (escape s +:+ String quote_char "").

Section RenderTail.
Context {A : Type} (sep : string) (f : A → string) (close : string).
(** The elements after the first one, each after a comma, and the closing. *)
Fixpoint render_tail (l : list A) : string :=
match l with [] => close | y :: r => "," +:+ sep +:+ f y +:+ render_tail r end.
End RenderTail.

Section Render.
(** [nl d] is what separates the elements at depth [d], [colon] what stands
  after the colon between a key and its value. *)
Variable nl : nat → string.
Variable colon : string.

Fixpoint render (d : nat) (v : json) : string :=
match v with
| JNull => "null"
| JBool true => "true"
| JBool false => "false"
| JInt z => Itoa z
| JLit s => s
| JStr s => quote s
| JArr [] => "[]"
| JArr (x :: r) => "[" +:+ nl (S d) +:+ render (S d) x +:+
    render_tail (nl (S d)) (render (S d)) (nl d +:+ "]") r
| JObj [] => "{}"
| JObj (kv :: r) =>
    let member (p : string * json) := quote p.1 +:+ ":" +:+ colon +:+ render (S d) p.2 in
    "{" +:+ nl (S d) +:+ member kv +:+ render_tail (nl (S d)) member (nl d +:+ "}") r
end.
End Render.

(** [json.Marshal] and [json.MarshalIndent(v, "", "  ")] *)
Definition json_marshal (v : json) : string := render (λ _, "") "" 0 v.

Fixpoint indent (d : nat) : string := match d with O => "" | S d => "  " +:+ indent d end.
Definition json_marshal_indent (v : json) : string :=
  render (λ d, String (chr 10) (indent d)) " " 0 v.

(** ** Parsing *)

Definition is_ws (c : ascii) : bool :=
  let n := code c in (n =? 32)%N || (n =? 10)%N || (n =? 13)%N || (n =? 9)%N.

Fixpoint skip_ws (s : string) : string :=
  match s with EmptyString => "" | String c r => if is_ws c then skip_ws r else s end.

Definition hex_val (c : ascii) : option N :=
  let n := code c in
  if ((48 <=? n) && (n <=? 57))%N then Some (n - 48)%N
  else if ((97 <=? n) && (n <=? 102))%N then Some (n - 87)%N
  else if ((65 <=? n) && (n <=? 70))%N then Some (n - 55)%N
  else None.

Definition hex4 (a b c d : ascii) : option N :=
  a ← hex_val a; b ← hex_val b; c ← hex_val c; d ← hex_val d;
  Some (((a * 16 + b) * 16 + c) * 16 + d)%N.

(** UTF-8 encoding of a code point *)
Definition utf8 (n : N) : string :=
  if (n <? 128)%N then String (chr n) ""
  else if (n <? 2048)%N then String (chr (192 + n / 64)) (String (chr (128 + n mod 64)) "")
  else if (n <? 65536)%N then
    String (chr (224 + n / 4096)) (String (chr (128 + n / 64 mod 64)) (String (chr (128 + n mod 64)) ""))
  else String (chr (240 + n / 262144)) (String (chr (128 + n / 4096 mod 64))
    (String (chr (128 + n / 64 mod 64)) (String (chr (128 + n mod 64)) ""))).

Definition is_char (c : ascii) (n : N) : bool := (code c =? n)%N.

(** The simple escapes: the byte a backslash followed by [e] stands for. *)
Definition unescape (e : ascii) : option ascii :=
  let n := code e in
  if (n =? 34)%N || (n =? 92)%N || (n =? 47)%N then Some e
  else if (n =? 98)%N then Some (chr 8) else if (n =? 102)%N then Some (chr 12)
  else if (n =? 110)%N then Some (chr 10) else if (n =? 114)%N then Some (chr 13)
  else if (n =? 116)%N then Some (chr 9) else None.

Definition prepend (t : string) (r : option (string * string)) : option (string * string) :=
  '(s, rest) ← r; Some (t +:+ s, rest).

(** The rest of a string literal, after its opening quote. *)
Fixpoint parse_str (s : string) : option (string * string) :=
  match s with
  | EmptyString => None
  | String c r =>
      if is_char c 34 then Some ("", r)
      else if is_char c 92 then
        match r with
        | EmptyString => None
        | String e r1 =>
            match unescape e with
            | Some b => prepend (String b "") (parse_str r1)
            | None =>
                if is_char e 117 then
                  match r1 with
                  | String h1 (String h2 (String h3 (String h4 r2))) =>
                      match hex4 h1 h2 h3 h4 with
                      | None => None
                      | Some n =>
                          if ((55296 <=? n) && (n <=? 57343))%N then
                            match r2 with
                            | String b (String u (String l1 (String l2 (String l3 (String l4 r3))))) =>
                                match hex4 l1 l2 l3 l4 with
                                | Some m =>
                                    if is_char b 92 && is_char u 117 && (n <=? 56319)%N
                                       && ((56320 <=? m) && (m <=? 57343))%N
                                    then prepend (utf8 (65536 + (n - 55296) * 1024 + (m - 56320))%N) (parse_str r3)
                                    else prepend (utf8 65533) (parse_str r2)
                                | None => prepend (utf8 65533) (parse_str r2)
                                end
                            | _ => prepend (utf8 65533) (parse_str r2)
                            end
                          else prepend (utf8 n) (parse_str r2)
                      end
                  | _ => None
                  end
                else None
            end
        end
      else if (code c <? 32)%N then None
      else prepend (String c "") (parse_str r)
  end.

(** *** Numbers: the longest run of number bytes, then a check of its syntax *)

Definition num_char (c : ascii) : bool :=
  is_digit c || is_char c 45 || is_char c 43 || is_char c 46 || is_char c 101 || is_char c 69.

Fixpoint span_num (s : string) : string * string :=
  match s with
  | EmptyString => ("", "")
  | String c r => if num_char c then let '(a, b) := span_num r in (String c a, b) else ("", s)
  end.

Fixpoint skip_digits (s : string) : string :=
  match s with EmptyString => "" | String c r => if is_digit c then skip_digits r else s end.
Definition digits1 (s : string) : option string :=
  match s with String c r => if is_digit c then Some (skip_digits r) else None | _ => None end.

(** JSON's number grammar *)
Definition valid_number (s : string) : bool :=
  let s := match s with String c r => if is_char c 45 then r else s | _ => s end in
  let int := match s with
    | String c r => if is_char c 48 then Some r else digits1 s | _ => None end in
  let frac := s ← int; match s with String c r => if is_char c 46 then digits1 r else Some s | _ => Some s end in
  let exp := s ← frac; match s with
    | String c r => if is_char c 101 || is_char c 69 then
        match r with
        | String c' r' => if is_char c' 43 || is_char c' 45 then digits1 r' else digits1 r
        | _ => None end else Some s
    | _ => Some s end in
  match exp with Some EmptyString => true | _ => false end.

Definition parse_num (lit : string) : option json :=
  match parse_dec lit with
  | Some z => if String.eqb (Itoa z) lit then Some (JInt z)
              else if valid_number lit then Some (JLit lit) else None
  | None => if valid_number lit then Some (JLit lit) else None
  end.

Fixpoint parse_val (n : nat) (s : string) {struct n} : option (json * string) :=
  match n with
  | O => None
  | S n =>
      match skip_ws s with
      | EmptyString => None
      | String c r as s' =>
          if is_char c 34 then '(t, r') ← parse_str r; Some (JStr t, r')
          else if is_char c 123 then
            match skip_ws r with
            | String c' r' =>
                if is_char c' 125 then Some (JObj [], r')
                else '(m, r'') ← parse_members n r; Some (JObj m, r'')
            | _ => None end
          else if is_char c 91 then
            match skip_ws r with
            | String c' r' =>
                if is_char c' 93 then Some (JArr [], r')
                else '(m, r'') ← parse_elems n r; Some (JArr m, r'')
            | _ => None end
          else if HasPrefix s' "null" then Some (JNull, drop_string 4 s')
          else if HasPrefix s' "true" then Some (JBool true, drop_string 4 s')
          else if HasPrefix s' "false" then Some (JBool false, drop_string 5 s')
          else let '(lit, rest) := span_num s' in v ← parse_num lit; Some (v, rest)
      end
  end
with parse_members (n : nat) (s : string) {struct n} : option (list (string * json) * string) :=
  match n with
  | O => None
  | S n =>
      match skip_ws s with
      | String q r =>
          if is_char q 34 then
            '(k, r1) ← parse_str r;
            match skip_ws r1 with
            | String c r2 =>
                if is_char c 58 then
                  '(v, r3) ← parse_val n r2;
                  match skip_ws r3 with
                  | String c r4 =>
                      if is_char c 44 then '(m, r5) ← parse_members n r4; Some ((k, v) :: m, r5)
                      else if is_char c 125 then Some ([(k, v)], r4) else None
                  | _ => None end
                else None
            | _ => None end
          else None
      | _ => None end
  end
with parse_elems (n : nat) (s : string) {struct n} : option (list json * string) :=
  match n with
  | O => None
  | S n =>
      '(v, r3) ← parse_val n s;
      match skip_ws r3 with
      | String c r4 =>
          if is_char c 44 then '(m, r5) ← parse_elems n r4; Some (v :: m, r5)
          else if is_char c 93 then Some ([v], r4) else None
      | _ => None end
  end.

(** Every recursive call is made on a strictly shorter text, two levels at
    most per byte, so this fuel is never exhausted ([JsonFuel] proves it). *)
Definition json_parse (s : string) : option json :=
  '(v, rest) ← parse_val (2 + 2 * String.length s) s;
  if String.eqb (skip_ws rest) "" then Some v else None.

(** ** The text of a document parses back to the document *)

(** A number literal that is kept as text: JSON syntax, not a canonical integer. *)
Definition lit_ok (lit : string) : bool :=
  match lit with EmptyString => false | _ => true end && string_forallb num_char lit
  && match parse_num lit with Some (JLit l) => String.eqb l lit | _ => false end.

Fixpoint json_wf (v : json) : bool :=
  match v with
  | JLit lit => lit_ok lit
  | JArr l => forallb json_wf l
  | JObj kvs => forallb (λ kv, json_wf kv.2) kvs
  | _ => true
  end.

Lemma parse_str_escape_char c t : parse_str (escape_char c +:+ t) = prepend (String c "") (parse_str t).
Proof. destruct c as [[] [] [] [] [] [] [] []]; reflexivity. Qed.

Lemma prepend_comp a b r : prepend a (prepend b r) = prepend (a +:+ b) r.
Proof. destruct r as [[s t]|]; simpl; [by rewrite string_app_assoc|done]. Qed.

Lemma parse_str_escape s rest : parse_str (escape s +:+ String quote_char rest) = Some (s, rest).
Proof.
  induction s as [|c s IH]; simpl; [done|].
  by rewrite <- string_app_assoc, parse_str_escape_char, IH.
Qed.

Lemma span_num_app lit rest :
  string_forallb num_char lit = true →
  (∀ c r, rest = String c r → num_char c = false) →
  span_num (lit +:+ rest) = (lit, rest).
Proof.
  intros Hl Hr. induction lit as [|c lit IH]; simpl in *.
  - destruct rest as [|c r]; simpl; [done|]. by rewrite (Hr c r).
  - apply andb_true_iff in Hl as [Hc Hl]. by rewrite Hc, IH.
Qed.

Lemma uint_num_chars d : string_forallb num_char (NilEmpty.string_of_uint d) = true.
Proof. by induction d. Qed.

Lemma Itoa_num_chars z : string_forallb num_char (Itoa z) = true.
Proof.
  unfold Itoa, NilZero.string_of_int. destruct (Z.to_int z) as [d|d]; simpl.
  - destruct d; try done; apply (uint_num_chars _).
  - destruct d; try done; apply (uint_num_chars _).
Qed.

Lemma parse_num_Itoa z : parse_num (Itoa z) = Some (JInt z).
Proof. unfold parse_num. by rewrite parse_dec_Itoa, String.eqb_refl. Qed.

Lemma skip_ws_app w s : string_forallb is_ws w = true → skip_ws (w +:+ s) = skip_ws s.
Proof. induction w as [|c w IH]; simpl; [done|]. intros [-> H]%andb_true_iff. auto. Qed.

Lemma parse_val_ws n w s : string_forallb is_ws w = true → parse_val n (w +:+ s) = parse_val n s.
Proof. intros H. destruct n; [done|]. simpl. by rewrite skip_ws_app. Qed.

Lemma parse_members_ws n w s :
  string_forallb is_ws w = true → parse_members n (w +:+ s) = parse_members n s.
Proof. intros H. destruct n; [done|]. simpl. by rewrite skip_ws_app. Qed.

Lemma parse_elems_ws n w s :
  string_forallb is_ws w = true → parse_elems n (w +:+ s) = parse_elems n s.
Proof. intros H. destruct n; [done|]. simpl. by rewrite parse_val_ws. Qed.

(** What may follow a value: nothing, or a byte that no number contains. *)
Definition delim (s : string) : Prop := ∀ c r, s = String c r → num_char c = false.

Lemma parse_val_num n lit v rest :
  string_forallb num_char lit = true → lit ≠ "" → parse_num lit = Some v → delim rest →
  parse_val (S n) (lit +:+ rest) = Some (v, rest).
Proof.
  intros Hl Hne Hp Hd. pose proof (span_num_app lit rest Hl Hd) as Hspan.
  destruct lit as [|c lit]; [done|]. simpl in Hl. apply andb_true_iff in Hl as [Hc _].
  assert (is_ws c = false ∧ is_char c 34 = false ∧ is_char c 123 = false ∧
    is_char c 91 = false ∧ ∀ r, HasPrefix (String c r) "null" = false ∧
    HasPrefix (String c r) "true" = false ∧ HasPrefix (String c r) "false" = false)
    as (H1 & H2 & H3 & H4 & H5).
  { clear -Hc. revert Hc. all_bytes c. }
  destruct (H5 (lit +:+ rest)) as (H6 & H7 & H8).
  simpl in *. rewrite H1, H2, H3, H4, H6, H7, H8, Hspan, Hp. done.
Qed.

Lemma parse_val_quote n s rest :
  parse_val (S n) (String quote_char (escape s +:+ String quote_char rest)) = Some (JStr s, rest).
Proof.
  transitivity ('(t, r') ← parse_str (escape s +:+ String quote_char rest); Some (JStr t, r'));
    [reflexivity|]. by rewrite parse_str_escape.
Qed.

Definition members_after (n : nat) (k : string) (v : json) (r3 : string) :=
  match skip_ws r3 with
  | String c r4 =>
      if is_char c 44 then '(m, r5) ← parse_members n r4; Some ((k, v) :: m, r5)
      else if is_char c 125 then Some ([(k, v)], r4) else None
  | _ => None
  end.

Lemma members_after_comma n k v s :
  members_after n k v (String "," s) = '(m, r5) ← parse_members n s; Some ((k, v) :: m, r5).
Proof. reflexivity. Qed.

Lemma parse_members_quote n k s :
  parse_members (S n) (String quote_char (escape k +:+ String quote_char (String ":" s)))
  = '(v, r3) ← parse_val n s; members_after n k v r3.
Proof.
  transitivity ('(k', r1) ← parse_str (escape k +:+ String quote_char (String ":" s));
    match skip_ws r1 with
    | String c r2 => if is_char c 58 then '(v, r3) ← parse_val n r2; members_after n k' v r3 else None
    | _ => None end); [reflexivity|]. by rewrite parse_str_escape.
Qed.

Lemma parse_val_brace n r c s :
  skip_ws r = String c s → is_char c 125 = false →
  parse_val (S n) (String "{" r) = '(m, r') ← parse_members n r; Some (JObj m, r').
Proof.
  intros H Hc. transitivity (match skip_ws r with
    | String c' r' => if is_char c' 125 then Some (JObj [], r')
      else '(m, r'') ← parse_members n r; Some (JObj m, r'')
    | _ => None end); [reflexivity|]. by rewrite H, Hc.
Qed.

Lemma parse_val_bracket n r c s :
  skip_ws r = String c s → is_char c 93 = false →
  parse_val (S n) (String "[" r) = '(m, r') ← parse_elems n r; Some (JArr m, r').
Proof.
  intros H Hc. transitivity (match skip_ws r with
    | String c' r' => if is_char c' 93 then Some (JArr [], r')
      else '(m, r'') ← parse_elems n r; Some (JArr m, r'')
    | _ => None end); [reflexivity|]. by rewrite H, Hc.
Qed.

Lemma num_char_not_ws c : num_char c = true → is_ws c = false ∧ is_char c 93 = false.
Proof. all_bytes c. Qed.
Lemma ws_not_num c : is_ws c = true → num_char c = false.
Proof. all_bytes c. Qed.

(** The first byte of a rendered value is not white space and not a bracket. *)
Lemma render_head nl colon d v s :
  json_wf v = true →
  ∃ c r, skip_ws (render nl colon d v +:+ s) = String c r ∧ is_char c 93 = false.
Proof.
  intros Hw. destruct v as [|[]|z|lit|t|[|]|[|]]; try by do 2 eexists.
  - cbn [render]. destruct (Itoa_head z) as (c & r & Hz & _).
    pose proof (Itoa_num_chars z) as Hn. rewrite Hz in *. simpl in *. bool_simp.
    destruct (num_char_not_ws c) as [-> ?]; [done|]. by do 2 eexists.
  - simpl in Hw. unfold lit_ok in Hw. cbn [render]. destruct lit as [|c lit]; [done|].
    simpl in *. bool_simp.
    destruct (num_char_not_ws c) as [-> ?]; [done|]. by do 2 eexists.
Qed.

(** Lengths and appends of concrete and symbolic strings in normal form. *)
Ltac len_simp H := repeat (cbn [String.append String.length] in H; rewrite ?string_length_app in H).
Ltac len_goal := repeat (cbn [String.append String.length]; rewrite ?string_length_app).
Ltac app_simp := repeat (rewrite <- ?string_app_assoc; cbn [String.append]).

Section RenderParse.
Variables (nl : nat → string) (colon : string).
Hypothesis nl_ws : ∀ d, string_forallb is_ws (nl d) = true.
Hypothesis colon_ws : string_forallb is_ws colon = true.

Let parses (v : json) : Prop := json_wf v = true → ∀ d n rest,
String.length (render nl colon d v) ≤ n → delim rest →
parse_val n (render nl colon d v +:+ rest) = Some (v, rest).

Lemma parse_elems_render d l x n rest :
Forall parses (x :: l) → forallb json_wf (x :: l) = true →
String.length (render nl colon (S d) x) +
  String.length (render_tail (nl (S d)) (render nl colon (S d)) (nl d +:+ "]") l) ≤ n →
parse_elems n (render nl colon (S d) x +:+
  render_tail (nl (S d)) (render nl colon (S d)) (nl d +:+ "]") l +:+ rest)
= Some (x :: l, rest).
Proof using nl_ws.
revert x n. induction l as [|y l IH]; intros x n Hp Hw Hn;
  (destruct n as [|n]; [exfalso; cbn [render_tail] in Hn; len_simp Hn; lia|]).
- apply Forall_cons in Hp as [Hx _]. simpl in *. apply andb_true_iff in Hw as [Hw _].
  len_simp Hn.
  rewrite Hx; [|done|lia|].
  + simpl. rewrite <- string_app_assoc, skip_ws_app by done. reflexivity.
  + specialize (nl_ws d). destruct (nl d) as [|c w]; simpl in *; intros c' r' [= <- _]; [done|].
    apply andb_true_iff in nl_ws as [H _]. by apply ws_not_num.
- apply Forall_cons in Hp as [Hx Hp]. simpl in Hw. apply andb_true_iff in Hw as [Hw Hws].
  cbn [render_tail] in *. len_simp Hn. app_simp. simpl.
  rewrite Hx; [|done|lia|by intros c r [= <- _]]. simpl.
  rewrite parse_elems_ws by done. rewrite IH; [done|done|done|lia].
Qed.

Let member (d : nat) (p : string * json) : string :=
quote p.1 +:+ ":" +:+ colon +:+ render nl colon (S d) p.2.

Lemma quote_app k s : quote k +:+ s = String quote_char (escape k +:+ String quote_char s).
Proof. unfold quote. simpl. by rewrite <- string_app_assoc. Qed.

Lemma parse_members_render d l x n rest :
Forall (λ kv, parses kv.2) (x :: l) → forallb (λ kv, json_wf kv.2) (x :: l) = true →
String.length (member d x) +
  String.length (render_tail (nl (S d)) (member d) (nl d +:+ "}") l) ≤ n →
parse_members n (member d x +:+
  render_tail (nl (S d)) (member d) (nl d +:+ "}") l +:+ rest)
= Some (x :: l, rest).
Proof using nl_ws colon_ws.
revert x n. induction l as [|y l IH]; intros [k v] n Hp Hw Hn;
  (destruct n as [|n]; [exfalso; cbn [render_tail] in Hn; len_simp Hn; lia|]);
  apply Forall_cons in Hp as [Hx Hp]; simpl in Hw; apply andb_true_iff in Hw as [Hw Hws];
  cbn [render_tail] in *; unfold member at 1; cbn [fst snd];
  app_simp; rewrite quote_app;
  assert (Hm : String.length (render nl colon (S d) v) ≤ String.length (member d (k, v)))
    by (unfold member; cbn [snd]; len_goal; lia).
- len_simp Hn.
  rewrite parse_members_quote, parse_val_ws by done. cbn [snd] in Hx.
  rewrite Hx; [|done|lia|].
  + simpl. unfold members_after. by rewrite skip_ws_app.
  + specialize (nl_ws d). destruct (nl d) as [|c w]; simpl in *; intros c' r' [= <- _]; [done|].
    apply andb_true_iff in nl_ws as [H _]. by apply ws_not_num.
- len_simp Hn.
  rewrite parse_members_quote, parse_val_ws by done. cbn [snd] in Hx.
  rewrite Hx; [|done|lia|by intros c r [= <- _]].
  change (Some ?a ≫= ?f) with (f a). cbn beta iota.
  rewrite members_after_comma, parse_members_ws by done. rewrite IH; [done|done|done|lia].
Qed.

(** Whatever the white space of the printer, its output parses back. *)
Lemma parse_render v : parses v.
Proof using nl_ws colon_ws.
induction v as [|b|z|lit|s|l IH|kvs IH] using json_nested_ind;
  intros Hw d n rest Hn Hd.
- destruct n; [simpl in Hn; lia|]. destruct rest; reflexivity.
- destruct n; [destruct b; simpl in Hn; lia|]. destruct b, rest; reflexivity.
- destruct (Itoa_head z) as (c & r & Hz & _).
  destruct n; [simpl in Hn; rewrite Hz in Hn; simpl in Hn; lia|].
  cbn [render]. apply parse_val_num;
    [apply Itoa_num_chars|by rewrite Hz|apply parse_num_Itoa|done].
- simpl in Hw. unfold lit_ok in Hw. bool_simp.
  destruct n; [simpl in Hn; destruct lit; simpl in *; [done|lia]|].
  cbn [render]. apply parse_val_num; [done|by destruct lit| |done].
  destruct (parse_num lit) as [[]|]; try done. by bool_simp; subst.
- destruct n; [simpl in Hn; lia|]. cbn [render]. by rewrite quote_app, parse_val_quote.
- destruct n; [destruct l; simpl in Hn; lia|]. destruct l as [|x l]; [done|].
  cbn [render] in *. len_simp Hn.
  app_simp.
  simpl in Hw. pose proof Hw as Hw'. apply andb_true_iff in Hw' as [Hw' _].
  destruct (render_head nl colon (S d) x (render_tail (nl (S d)) (render nl colon (S d))
    (nl d +:+ "]") l +:+ rest) Hw') as (c & r & Hs & Hc).
  erewrite parse_val_bracket; [|by rewrite skip_ws_app|done].
  rewrite parse_elems_ws by done. rewrite parse_elems_render; [done|done|done|lia].
- destruct n; [destruct kvs; simpl in Hn; lia|]. destruct kvs as [|x kvs]; [done|].
  cbn [render] in *. len_simp Hn.
  app_simp. rewrite quote_app. erewrite parse_val_brace; [|by rewrite skip_ws_app|done].
  rewrite <- quote_app, parse_members_ws by done.
  pose proof (parse_members_render d kvs x n rest IH Hw) as Hmem.
  unfold member at 1 3 in Hmem. len_simp Hmem.
  revert Hmem. app_simp. intros Hmem.
  match goal with |- context [render_tail _ ?f (_ +:+ "}") _] => change f with (member d) end.
  match type of Hn with context [render_tail _ ?f _ _] => change f with (member d) in Hn end.
  rewrite Hmem; [done|lia].
Qed.
End RenderParse.

Lemma json_parse_render nl colon v :
  (∀ d, string_forallb is_ws (nl d) = true) → string_forallb is_ws colon = true →
  json_wf v = true → json_parse (render nl colon 0 v) = Some v.
Proof.
  intros Hnl Hc Hw. unfold json_parse.
  pose proof (parse_render nl colon Hnl Hc v Hw 0
    (2 + 2 * String.length (render nl colon 0 v)) "") as H.
  rewrite string_app_nil_r in H. rewrite H; [done|lia|by intros c r].
Qed.

Lemma json_parse_marshal v : json_wf v = true → json_parse (json_marshal v) = Some v.
Proof. by apply json_parse_render. Qed.

Lemma json_parse_marshal_indent v : json_wf v = true → json_parse (json_marshal_indent v) = Some v.
Proof.
  apply json_parse_render; [|done]. intros d. simpl. induction d as [|d IH]; simpl; auto.
Qed.

(** ** What is parsed prints back *)

Lemma span_num_chars s : string_forallb num_char (span_num s).1 = true.
Proof.
  induction s as [|c s IH]; simpl; [done|]. destruct (num_char c) eqn:E; [|done].
  destruct (span_num s) as [a b]. simpl in *. by rewrite E, IH.
Qed.

Lemma parse_num_wf lit v : string_forallb num_char lit = true → parse_num lit = Some v → json_wf v = true.
Proof.
  intros Hc Hp. destruct v as [| | |l| | |]; try done;
    [|unfold parse_num in Hp; repeat case_match; simplify_eq..].
  assert (l = lit) as ->.
  { unfold parse_num in Hp. repeat case_match; by simplify_eq. }
  simpl. unfold lit_ok. rewrite Hp, String.eqb_refl, Hc. by destruct lit.
Qed.

(** Invert a chain of option binds and tests that ends in [Some]. *)
Ltac opt_inv :=
  repeat match goal with
  | H : _ ≫= _ = Some _ |- _ => apply bind_Some in H as (? & ? & ?)
  | H : (let '(_, _) := ?p in _) = Some _ |- _ => destruct p eqn:?
  | H : (if ?b then _ else _) = Some _ |- _ => destruct b eqn:?
  | H : (match ?s with EmptyString => _ | String _ _ => _ end) = Some _ |- _ => destruct s eqn:?
  | H : None = Some _ |- _ => discriminate H
  | H : Some _ = Some _ |- _ => injection H as; subst
  end.

Definition wf_result {A} (wf : A → bool) (o : option (A * string)) : Prop :=
  ∀ v r, o = Some (v, r) → wf v = true.

Lemma parse_wf n :
  (∀ s, wf_result json_wf (parse_val n s)) ∧
  (∀ s, wf_result (forallb (λ kv, json_wf kv.2)) (parse_members n s)) ∧
  (∀ s, wf_result (forallb json_wf) (parse_elems n s)).
Proof.
  induction n as [|n (IHv & IHm & IHe)]; [by split_and!; intros ? ? ?|].
  split_and!; intros s v r H; cbn [parse_val parse_members parse_elems] in H; opt_inv; try done;
    cbn [json_wf forallb snd]; rewrite ?andb_true_iff, ?andb_true_r;
    repeat split; try (by eapply IHv); try (by eapply IHm); try (by eapply IHe).
  eapply parse_num_wf; [|done].
  match goal with H : span_num ?t = (?l, _) |- _ => pose proof (span_num_chars t) as Hs; by rewrite H in Hs end.
Qed.

Lemma json_parse_wf s v : json_parse s = Some v → json_wf v = true.
Proof. unfold json_parse. intros H. opt_inv. eapply (proj1 (parse_wf _)); done. Qed.
