(* ===== verification/JsonFuel.v ===== *)
(** * The fuel of the JSON parser

    [json_parse] gives its recursion [2 + 2 * length] units. Here it is shown
    that they are enough: more never changes the result, so a text is refused
    only because it is no document. *)

From S2P Require Import Prelude GoString Json.
From Stdlib Require Import Ascii String.

(** ** What is left is not longer *)

Definition shrinks {A} (s : string) (o : option (A * string)) : Prop :=
  ∀ v r, o = Some (v, r) → String.length r ≤ String.length s.

Lemma skip_ws_length s : String.length (skip_ws s) ≤ String.length s.
Proof. induction s as [|c s IH]; simpl; [done|]. destruct (is_ws c); simpl; lia. Qed.

Lemma prepend_shrinks t s o : shrinks s o → shrinks s (prepend t o).
Proof. intros H v r Hp. unfold prepend in Hp. destruct o as [[v' r']|]; simplify_eq/=. by eapply H. Qed.
Lemma shrinks_le {A} s s' (o : option (A * string)) :
  shrinks s o → String.length s ≤ String.length s' → shrinks s' o.
Proof. intros H Hle v r Ho. specialize (H _ _ Ho). lia. Qed.

Lemma parse_str_shrinks s : shrinks s (parse_str s).
Proof.
  remember (String.length s) as n eqn:En. revert s En.
  induction (lt_wf n) as [n _ IH]. intros s ->.
  assert (Hrec : ∀ t s', String.length s' < String.length s → shrinks s (prepend t (parse_str s'))).
  { intros t s' Hlt. apply prepend_shrinks. eapply shrinks_le; [by eapply IH|lia]. }
  destruct s as [|c s]; intros v r H; [done|]. cbn [parse_str] in H.
  repeat match type of H with
  | (if ?b then _ else _) = _ => destruct b
  | (match ?x with _ => _ end) = _ => destruct x
  | None = _ => discriminate H
  | prepend _ (parse_str _) = _ => revert H; apply Hrec; simpl; lia
  end; simplify_eq; simpl; lia.
Qed.

Lemma span_num_length s : String.length (span_num s).2 ≤ String.length s.
Proof.
  induction s as [|c s IH]; simpl; [done|]. destruct (num_char c); [|done].
  destruct (span_num s); simpl in *; lia.
Qed.
Lemma drop_string_length n s : String.length (drop_string n s) ≤ String.length s.
Proof. revert s. induction n as [|n IH]; intros [|c s]; simpl; try lia. specialize (IH s). lia. Qed.

(** Lengths of the texts that the equations of the context name. *)
Ltac text_lengths :=
  repeat match goal with
  | H : skip_ws ?s = ?t |- _ =>
      let Hl := fresh "Hl" in pose proof (skip_ws_length s) as Hl; rewrite H in Hl; clear H
  | H : parse_str ?s = Some (_, ?r) |- _ => apply parse_str_shrinks in H
  | H : span_num ?s = (_, ?r) |- _ =>
      let Hl := fresh "Hl" in pose proof (span_num_length s) as Hl; rewrite H in Hl; clear H
  end; cbn [String.length snd] in *.

Lemma parse_shrinks n :
  (∀ s, shrinks s (parse_val n s)) ∧ (∀ s, shrinks s (parse_members n s)) ∧
  (∀ s, shrinks s (parse_elems n s)).
Proof.
  induction n as [|n (IHv & IHm & IHe)]; [by split_and!; intros ? ? ?|].
  split_and!; intros s v r H; cbn [parse_val parse_members parse_elems] in H; opt_inv;
    repeat match goal with
    | H : parse_val n _ = Some _ |- _ => apply IHv in H
    | H : parse_members n _ = Some _ |- _ => apply IHm in H
    | H : parse_elems n _ = Some _ |- _ => apply IHe in H
    end; text_lengths; try lia.
  all: repeat case_match; simpl in *; lia.
Qed.

(** ** More fuel changes nothing *)

Definition same_value (s : string) : Prop := ∀ n m,
  2 + 2 * String.length s ≤ n → 2 + 2 * String.length s ≤ m → parse_val n s = parse_val m s.
Definition same_members (s : string) : Prop := ∀ n m,
  2 + 2 * String.length s ≤ n → 2 + 2 * String.length s ≤ m → parse_members n s = parse_members m s.
(** The elements of an array start with a value of the same text. *)
Definition same_elems (s : string) : Prop := ∀ n m,
  3 + 2 * String.length s ≤ n → 3 + 2 * String.length s ≤ m → parse_elems n s = parse_elems m s.
Definition same_parse (s : string) : Prop := same_value s ∧ same_members s ∧ same_elems s.

Section Step.
Context (s : string) (IH : ∀ s', String.length s' < String.length s → same_parse s').

Lemma value_step : same_value s.
Proof using IH.
  intros [|n] [|m] Hn Hm; try lia. cbn [parse_val].
  destruct (skip_ws s) as [|c r] eqn:E; [done|]. text_lengths.
  destruct (IH r) as (_ & Hmem & Hel); [lia|].
  rewrite (Hmem n m), (Hel n m) by lia. reflexivity.
Qed.

Lemma members_step : same_members s.
Proof using IH.
  intros [|n] [|m] Hn Hm; try lia. cbn [parse_members].
  destruct (skip_ws s) as [|c r] eqn:E; [done|]. destruct (is_char c 34); [|done].
  destruct (parse_str r) as [[k r1]|] eqn:E1; [|done]. cbn [mbind option_bind].
  destruct (skip_ws r1) as [|c2 r2] eqn:E2; [done|]. destruct (is_char c2 58); [|done]. text_lengths.
  rewrite (proj1 (IH r2 ltac:(lia)) n m) by lia.
  destruct (parse_val m r2) as [[v r3]|] eqn:E3; [|done]. cbn [mbind option_bind].
  apply (proj1 (parse_shrinks m)) in E3. destruct (skip_ws r3) as [|c4 r4] eqn:E4; [done|]. text_lengths.
  by rewrite (proj1 (proj2 (IH r4 ltac:(lia))) n m) by lia.
Qed.

Lemma elems_step : same_elems s.
Proof using IH.
  intros [|n] [|m] Hn Hm; try lia. cbn [parse_elems]. rewrite (value_step n m) by lia.
  destruct (parse_val m s) as [[v r3]|] eqn:E3; [|done]. cbn [mbind option_bind].
  apply (proj1 (parse_shrinks m)) in E3. destruct (skip_ws r3) as [|c4 r4] eqn:E4; [done|]. text_lengths.
  by rewrite (proj2 (proj2 (IH r4 ltac:(lia))) n m) by lia.
Qed.
End Step.

Lemma parse_enough s : same_parse s.
Proof.
  remember (String.length s) as n eqn:En. revert s En. induction (lt_wf n) as [n _ IH]. intros s ->.
  assert (IH' : ∀ s', String.length s' < String.length s → same_parse s') by eauto.
  split_and!; [by apply value_step|by apply members_step|by apply elems_step].
Qed.

(** Less fuel only refuses more. *)
Definition at_most {A} (o o' : option A) : Prop := o = None ∨ o = o'.
Lemma at_most_bind {A B} (o o' : option A) (f g : A → option B) :
  at_most o o' → (∀ a, at_most (f a) (g a)) → at_most (o ≫= f) (o' ≫= g).
Proof. intros [->| ->] Hfg; [by left|]. destruct o' as [a|]; [apply Hfg|by left]. Qed.
Lemma at_most_refl {A} (o : option A) : at_most o o.
Proof. by right. Qed.

Lemma parse_more n :
  (∀ m s, n ≤ m → at_most (parse_val n s) (parse_val m s)) ∧
  (∀ m s, n ≤ m → at_most (parse_members n s) (parse_members m s)) ∧
  (∀ m s, n ≤ m → at_most (parse_elems n s) (parse_elems m s)).
Proof.
  induction n as [|n (IHv & IHm & IHe)]; [by split_and!; left|].
  split_and!; intros [|m] s Hle; try lia; apply le_S_n in Hle;
    cbn [parse_val parse_members parse_elems];
    repeat first [apply at_most_refl|apply IHv, Hle|apply IHm, Hle|apply IHe, Hle
                 |apply at_most_bind; [|intros [] ]|case_match].
Qed.

(** The parser refuses a text only if no amount of fuel parses it. *)
Lemma json_parse_complete s v :
  json_parse s = Some v ↔ ∃ n rest, parse_val n s = Some (v, rest) ∧ skip_ws rest = "".
Proof.
  unfold json_parse. split.
  - intros H. opt_inv. do 2 eexists. split; [done|]. by apply String.eqb_eq.
  - intros (n & rest & H & Hws). set (f := 2 + 2 * String.length s).
    destruct (proj1 (parse_more n) (n `max` f) s) as [E|E]; [lia|congruence|].
    rewrite (proj1 (parse_enough s) f (n `max` f)), <- E, H by lia. simpl. by rewrite Hws.
Qed.
