(* ===== verification/JsonDecode.v ===== *)
(** * [json.Unmarshal] and [json.Marshal] on Go structs

    A decoder returns the Go value it leaves behind together with whether the
    call succeeded: on a type mismatch [json.Unmarshal] reports an error but
    still fills what it can, and some callers drop that error. *)

From S2P Require Import Prelude GoString Json.

Definition D (A : Type) : Type := A * bool.
Definition decoder (A : Type) : Type := json → D A.

Definition dret {A} (a : A) : D A := (a, true).
Definition dbind {A B} (m : D A) (k : A → D B) : D B :=
  let '(a, ok1) := m in let '(b, ok2) := k a in (b, ok1 && ok2).
Notation "x <~ m ;; k" := (dbind m (λ x, k))
  (at level 100, m at next level, right associativity) : raven_scope.

(** The members of a JSON object, for a struct or a map target. *)
Definition d_object (j : json) : D (list (string * json)) :=
  match j with JObj kvs => (kvs, true) | JNull => ([], true) | _ => ([], false) end.

(** A struct field takes the value of the last key equal to its name up to case. *)
Fixpoint lookup_fold (name : string) (kvs : list (string * json)) : option json :=
  match kvs with
  | [] => None
  | (k, v) :: r =>
      match lookup_fold name r with
      | Some w => Some w
      | None => if EqualFold k name then Some v else None
      end
  end.

(** A map entry takes the value of the last key equal to it. *)
Fixpoint lookup_last (name : string) (kvs : list (string * json)) : option json :=
  match kvs with
  | [] => None
  | (k, v) :: r =>
      match lookup_last name r with
      | Some w => Some w
      | None => if String.eqb k name then Some v else None
      end
  end.

Definition d_field {A} (d : decoder A) (name : string) (kvs : list (string * json)) : D A :=
  match lookup_fold name kvs with Some v => d v | None => d JNull end.

Definition d_string : decoder string := λ j,
  match j with JStr s => (s, true) | JNull => ("", true) | _ => ("", false) end.
Definition d_bool : decoder bool := λ j,
  match j with JBool b => (b, true) | JNull => (false, true) | _ => (false, false) end.
(** An integer target of the given range. *)
Definition d_int_in (ok : Z → bool) : decoder Z := λ j,
  match j with
  | JInt z => if ok z then (z, true) else (0%Z, false)
  | JLit lit =>
      match parse_dec lit with
      | Some z => if ok z then (z, true) else (0%Z, false)
      | None => (0%Z, false)
      end
  | JNull => (0%Z, true)
  | _ => (0%Z, false)
  end.
Definition d_int : decoder Z := d_int_in int64_ok.
Definition uint32_ok (z : Z) : bool := ((0 <=? z) && (z <? 2 ^ 32))%Z.
Definition d_uint32 : decoder Z := d_int_in uint32_ok.

Definition d_elems {A} (d : decoder A) (l : list json) : D (list A) :=
  (map (λ j, (d j).1) l, forallb (λ j, (d j).2) l).
(** A slice; [null] and an absent field leave it nil. *)
Definition d_slice {A} (d : decoder A) : decoder (option (list A)) := λ j,
  match j with
  | JArr l => let '(r, ok) := d_elems d l in (Some r, ok)
  | JNull => (None, true)
  | _ => (None, false)
  end.
(** A slice whose users do not tell nil from empty. *)
Definition d_list {A} (d : decoder A) : decoder (list A) := λ j,
  let '(r, ok) := d_slice d j in (default [] r, ok).
(** A pointer to a struct: nil for [null] or an absent field. *)
Definition d_ptr {A} (d : decoder A) : decoder (option A) := λ j,
  match j with JNull => (None, true) | _ => let '(a, ok) := d j in (Some a, ok) end.
(** [json.RawMessage]: nil when absent, the text [null] when null. *)
Definition d_raw_field (name : string) (kvs : list (string * json)) : D (option json) :=
  (lookup_fold name kvs, true).

(** An [interface{}] field: nil when absent or null. *)
Definition d_iface_field (name : string) (kvs : list (string * json)) : D (option json) :=
  match lookup_fold name kvs with
  | None | Some JNull => (None, true)
  | Some j => (Some j, true)
  end.

(** The error text [encoding/json] reports is not part of the model. *)
Definition json_error : error := "json: cannot unmarshal".

Definition decode {A} (d : decoder A) (j : json) : error + A :=
  let '(a, ok) := d j in if ok then inr a else inl json_error.
(** [json.Unmarshal([]byte(s), &v)] on a zero [v]. *)
Definition Unmarshal {A} (d : decoder A) (s : string) : error + A :=
  match json_parse s with Some j => decode d j | None => inl json_error end.
(** The same when the caller drops the error. *)
Definition Unmarshal_lax {A} (d : decoder A) (s : string) : A :=
  match json_parse s with Some j => (d j).1 | None => (d JNull).1 end.

(** ** [map[string]interface{}]

    A decoded object as a Go map: one entry per key, the last one wins. The
    entries are kept sorted by key, the order in which [json.Marshal] prints a
    map. *)

Fixpoint map_set {V} (k : string) (v : V) (m : list (string * V)) : list (string * V) :=
  match m with
  | [] => [(k, v)]
  | (k', v') :: r =>
      if String.eqb k k' then (k, v) :: r
      else if string_leb k k' then (k, v) :: m
      else (k', v') :: map_set k v r
  end.
Definition map_get {V} (k : string) (m : list (string * V)) : option V :=
  snd <$> List.find (λ kv, String.eqb k kv.1) m.

(** What decoding into [interface{}] and printing again makes of a document. *)
Fixpoint normalize (v : json) : json :=
  match v with
  | JArr l => JArr (map normalize l)
  | JObj kvs => JObj ((fix go (l : list (string * json)) (m : list (string * json)) :=
      match l with [] => m | (k, x) :: r => go r (map_set k (normalize x) m) end) kvs [])
  | _ => v
  end.

Definition d_map : decoder (option (list (string * json))) := λ j,
  match j with
  | JNull => (None, true)
  | _ => match normalize j with JObj m => (Some m, true) | _ => (None, false) end
  end.

(** ** Encoding helpers *)

Definition omit_str (name s : string) : list (string * json) :=
  if String.eqb s "" then [] else [(name, JStr s)].
Definition omit_int (name : string) (z : Z) : list (string * json) :=
  if Z.eqb z 0 then [] else [(name, JInt z)].
Definition omit_bool (name : string) (b : bool) : list (string * json) :=
  if b then [(name, JBool true)] else [].
Definition omit_strs (name : string) (l : list string) : list (string * json) :=
  match l with [] => [] | _ => [(name, JArr (map JStr l))] end.
Definition omit_raw (name : string) (r : option json) : list (string * json) :=
  match r with Some j => [(name, j)] | None => [] end.

(** ** Laws *)

Lemma dbind_ok {A B} (m : D A) (k : A → D B) a b :
  m = (a, true) → k a = (b, true) → dbind m k = (b, true).
Proof. intros -> H. unfold dbind. by rewrite H. Qed.

Lemma lookup_fold_app name l k :
  lookup_fold name (l ++ k) =
  match lookup_fold name k with Some v => Some v | None => lookup_fold name l end.
Proof.
  induction l as [|[n v] l IH]; simpl; [by destruct (lookup_fold name k)|].
  rewrite IH. by destruct (lookup_fold name k).
Qed.

Lemma lookup_fold_none name l :
  forallb (λ kv : string * json, negb (EqualFold kv.1 name)) l = true → lookup_fold name l = None.
Proof.
  induction l as [|[n v] l IH]; simpl; [done|]. intros [H%negb_true_iff Hl]%andb_true_iff.
  by rewrite IH, H.
Qed.

Lemma Unmarshal_marshal {A} (d : decoder A) v :
  json_wf v = true → Unmarshal d (json_marshal v) = decode d v.
Proof. intros H. unfold Unmarshal. by rewrite json_parse_marshal. Qed.

Lemma Unmarshal_marshal_indent {A} (d : decoder A) v :
  json_wf v = true → Unmarshal d (json_marshal_indent v) = decode d v.
Proof. intros H. unfold Unmarshal. by rewrite json_parse_marshal_indent. Qed.

Lemma map_get_set_eq {V} k (v : V) m : map_get k (map_set k v m) = Some v.
Proof.
  unfold map_get. induction m as [|[k' v'] r IH]; simpl; [by rewrite String.eqb_refl|].
  destruct (String.eqb_spec k k') as [->|Hne]; simpl; [by rewrite String.eqb_refl|].
  destruct (string_leb k k'); simpl; [by rewrite String.eqb_refl|].
  destruct (String.eqb_spec k k'); [done|exact IH].
Qed.

Lemma map_get_set_ne {V} k k' (v : V) m : k ≠ k' → map_get k (map_set k' v m) = map_get k m.
Proof.
  intros Hne. unfold map_get.
  assert (Hk : String.eqb k k' = false) by by apply String.eqb_neq.
  induction m as [|[k2 v2] r IH]; simpl; [by rewrite Hk|].
  destruct (String.eqb_spec k' k2) as [->|]; simpl; [by rewrite Hk|].
  destruct (string_leb k' k2); simpl; [by rewrite Hk|].
  by destruct (String.eqb k k2).
Qed.

Lemma omit_str_wf n s : forallb (λ kv, json_wf kv.2) (omit_str n s) = true.
Proof. unfold omit_str. by case_if. Qed.
Lemma omit_int_wf n z : forallb (λ kv, json_wf kv.2) (omit_int n z) = true.
Proof. unfold omit_int. by case_if. Qed.
Lemma omit_bool_wf n b : forallb (λ kv, json_wf kv.2) (omit_bool n b) = true.
Proof. by destruct b. Qed.
Lemma map_JStr_wf l : forallb json_wf (map JStr l) = true.
Proof. by induction l. Qed.
Lemma omit_strs_wf n l : forallb (λ kv, json_wf kv.2) (omit_strs n l) = true.
Proof. destruct l; [done|]. unfold omit_strs. cbn -[map]. by rewrite map_JStr_wf. Qed.

(** Reading back an optional field: found with the right value, or absent. *)
Lemma lookup_omit_str n m s :
  lookup_fold n (omit_str m s) = if EqualFold m n then (if String.eqb s "" then None else Some (JStr s)) else None.
Proof. unfold omit_str. destruct (String.eqb s ""); simpl; by destruct (EqualFold m n). Qed.
Lemma lookup_omit_int n m z :
  lookup_fold n (omit_int m z) = if EqualFold m n then (if Z.eqb z 0 then None else Some (JInt z)) else None.
Proof. unfold omit_int. destruct (Z.eqb z 0); simpl; by destruct (EqualFold m n). Qed.
Lemma lookup_omit_bool n m b :
  lookup_fold n (omit_bool m b) = if EqualFold m n then (if b then Some (JBool true) else None) else None.
Proof. unfold omit_bool. destruct b; simpl; by destruct (EqualFold m n). Qed.
Lemma lookup_omit_strs n m l :
  lookup_fold n (omit_strs m l) =
  if EqualFold m n then match l with [] => None | _ => Some (JArr (map JStr l)) end else None.
Proof. destruct l; simpl; by destruct (EqualFold m n). Qed.

Lemma d_string_omit s :
  match (if String.eqb s "" then None else Some (JStr s)) with Some v => d_string v | None => d_string JNull end
  = (s, true).
Proof. by destruct (String.eqb_spec s "") as [->|]. Qed.
Lemma d_int_omit ok z : ok z = true →
  match (if Z.eqb z 0 then None else Some (JInt z)) with Some v => d_int_in ok v | None => d_int_in ok JNull end
  = (z, true).
Proof. intros H. destruct (Z.eqb_spec z 0) as [->|]; simpl; [done|]. by rewrite H. Qed.
Lemma d_bool_omit (b : bool) :
  match (if b then Some (JBool true) else None) with Some v => d_bool v | None => d_bool JNull end = (b, true).
Proof. by destruct b. Qed.

Lemma d_elems_string l : d_elems d_string (map JStr l) = (l, true).
Proof.
  unfold d_elems. rewrite map_map, map_id. f_equal. by induction l.
Qed.
Lemma d_strs_omit l :
  match (match l with [] => None | _ => Some (JArr (map JStr l)) end)
  with Some v => d_list d_string v | None => d_list d_string JNull end = (l, true).
Proof. destruct l; [done|]. cbn [d_list d_slice]. unfold d_list, d_slice. by rewrite d_elems_string. Qed.

Create Rewrite HintDb json_fields.
#[export] Hint Rewrite lookup_fold_app lookup_omit_str lookup_omit_int lookup_omit_bool
  lookup_omit_strs : json_fields.

Lemma option_match_id {A} (x : option A) : match x with Some v => Some v | None => None end = x.
Proof. by destruct x. Qed.

(** Evaluate the key comparisons of a lookup in an encoded struct. *)
Ltac eval_keys :=
  repeat match goal with |- context [EqualFold ?a ?b] =>
    let r := eval vm_compute in (EqualFold a b) in change (EqualFold a b) with r end.

(** Solve [d_field d name (encoding) = (field, true)]. *)
Ltac read_field :=
  unfold d_field; autorewrite with json_fields; cbn [lookup_fold]; eval_keys;
  cbv iota; rewrite ?option_match_id;
  first [ apply d_string_omit | apply d_bool_omit | apply d_strs_omit
        | (apply d_int_omit; done) | reflexivity
        | (unfold d_int, d_uint32, d_int_in; simpl; case_match; [done|congruence]) ].

(** Solve [decode (encode r) = (r, true)] for a destructed record [r]. *)
Ltac read_struct :=
  cbn beta iota; cbn [d_object];
  repeat (eapply dbind_ok; [first [reflexivity | read_field] | cbn beta]); reflexivity.

(** Solve [json_wf (encode r) = true]. *)
Ltac wf_struct :=
  cbn [json_wf]; rewrite ?forallb_app, ?omit_str_wf, ?omit_int_wf, ?omit_bool_wf, ?omit_strs_wf;
  reflexivity.
