(* ===== verification/JsonCanon.v ===== *)
(** * Canonical documents

    What [map[string]interface{}] makes of a document: objects with one entry
    per key, in key order. A canonical document survives being printed and
    decoded again, which is what lets an edited configuration file be edited
    a second time. *)

From S2P Require Import Prelude GoString Json JsonDecode.

Definition key_lt (a b : string) : Prop := string_leb a b = true ∧ a ≠ b.

#[export] Instance key_lt_trans : Transitive key_lt.
Proof.
  intros a b c [Hab Nab] [Hbc Nbc].
  pose proof (transitivity (R := String.le) (x := a) (y := b) (z := c)) as Ht.
  unfold String.le, String.leb in Ht. unfold key_lt, string_leb in *. split.
  - destruct (String.compare a b), (String.compare b c), (String.compare a c);
      try done; by destruct (Ht I I).
  - intros <-. apply Nab. pose proof (anti_symm (R := (=)) String.le a b) as Ha.
    unfold String.le, String.leb in Ha.
    destruct (String.compare a b), (String.compare b a); try done; by apply Ha.
Qed.

Inductive canon : json → Prop :=
  | canon_null : canon JNull
  | canon_bool b : canon (JBool b)
  | canon_int z : canon (JInt z)
  | canon_lit s : canon (JLit s)
  | canon_str s : canon (JStr s)
  | canon_arr l : Forall canon l → canon (JArr l)
  | canon_obj kvs : StronglySorted key_lt (map fst kvs) → Forall (λ kv, canon kv.2) kvs → canon (JObj kvs).
#[export] Hint Constructors canon : raven.

(** A decoded object: sorted keys, values that satisfy [P]. *)
Definition gomap (P : json → Prop) (m : list (string * json)) : Prop :=
  StronglySorted key_lt (map fst m) ∧ Forall (λ kv, P kv.2) m.

Lemma elem_of_map_set {V} k (v : V) m x :
  x ∈ map_set k v m → x = (k, v) ∨ x ∈ m.
Proof.
  induction m as [|[k' v'] r IH]; simpl; [set_solver|].
  repeat case_if; rewrite ?elem_of_cons; naive_solver.
Qed.

Lemma key_lt_total a b : a ≠ b → string_leb a b = false → key_lt b a.
Proof. intros Hn Hl. split; [by apply string_leb_total|congruence]. Qed.

Lemma map_set_sorted {V} k (v : V) m :
  StronglySorted key_lt (map fst m) → StronglySorted key_lt (map fst (map_set k v m)).
Proof.
  induction m as [|[k' v'] r IH]; simpl; intros Hs; [by repeat constructor|].
  apply StronglySorted_inv in Hs as [Hs Hf]. destruct (String.eqb_spec k k') as [->|Hne].
  { by constructor. }
  destruct (string_leb k k') eqn:El; simpl.
  - constructor; [by constructor|]. constructor; [done|].
    eapply Forall_impl; [exact Hf|]. intros x Hx. by transitivity k'.
  - constructor; [auto|]. apply Forall_forall. intros x Hx.
    apply list_elem_of_In, in_map_iff in Hx as ([k2 v2] & <- & Hx%list_elem_of_In). simpl.
    apply elem_of_map_set in Hx as [[= -> ->]|Hx]; [by apply key_lt_total|].
    rewrite Forall_forall in Hf. apply Hf, list_elem_of_In, in_map_iff.
    exists (k2, v2). by rewrite <- list_elem_of_In.
Qed.

Lemma map_set_gomap (P : json → Prop) k v m : P v → gomap P m → gomap P (map_set k v m).
Proof.
  intros Hv [Hs Hf]. split; [by apply map_set_sorted|]. rewrite Forall_forall in *.
  intros x [->|Hx]%elem_of_map_set; auto.
Qed.

Lemma map_get_gomap (P : json → Prop) k v m : gomap P m → map_get k m = Some v → P v.
Proof.
  intros [_ Hf] Hg. unfold map_get in Hg. apply fmap_Some in Hg as (kv & Hk & ->).
  apply find_Some_iff in Hk as [Hk _]. rewrite Forall_forall in Hf. by apply Hf.
Qed.

(** A key above all the others goes to the end. *)
Lemma map_set_last {V} k (v : V) m :
  Forall (λ k', key_lt k' k) (map fst m) → map_set k v m = m ++ [(k, v)].
Proof.
  induction m as [|[k' v'] r IH]; simpl; intros Hf; [done|].
  apply Forall_cons in Hf as [[Hl Hn] Hf]. destruct (String.eqb_spec k k') as [->|_]; [done|].
  destruct (string_leb k k') eqn:E; [|by rewrite IH].
  exfalso. assert (key_lt k k') by (split; congruence).
  assert (key_lt k k) as [_ ?] by (by transitivity k'). done.
Qed.

Lemma normalize_obj kvs :
  normalize (JObj kvs) = JObj (foldl (λ m kv, map_set kv.1 (normalize kv.2) m) [] kvs).
Proof.
  cbn [normalize]. f_equal. generalize (@nil (string * json)).
  induction kvs as [|[k v] r IH]; intros m; [done|]. apply IH.
Qed.

(** The invariant of a decoded object that [P] values fill. *)
Lemma fold_map_set_gomap (P : json → Prop) (f : json → json) kvs m :
  Forall (λ kv, P (f kv.2)) kvs → gomap P m →
  gomap P (foldl (λ m kv, map_set kv.1 (f kv.2) m) m kvs).
Proof.
  revert m. induction kvs as [|kv r IH]; intros m Hf Hm; simpl; [done|].
  apply Forall_cons in Hf as [? Hf]. apply IH; [done|]. by apply map_set_gomap.
Qed.

Lemma gomap_nil (P : json → Prop) : gomap P [].
Proof. by split; constructor. Qed.
#[export] Hint Resolve gomap_nil map_set_gomap : raven.

Lemma normalize_canon v : canon (normalize v).
Proof.
  induction v as [| | | | |l IH|kvs IH] using json_nested_ind; try (simpl; by auto with raven).
  - simpl. constructor. by apply Forall_map.
  - rewrite normalize_obj.
    destruct (fold_map_set_gomap canon normalize kvs [] IH (gomap_nil _)). by constructor.
Qed.

Lemma fold_map_set_sorted kvs m :
  Forall (λ kv, normalize kv.2 = kv.2) kvs → StronglySorted key_lt (map fst (m ++ kvs)) →
  foldl (λ m kv, map_set kv.1 (normalize kv.2) m) m kvs = m ++ kvs.
Proof.
  revert m. induction kvs as [|[k v] r IH]; intros m Hf Hs; simpl; [by rewrite app_nil_r|].
  apply Forall_cons in Hf as [Hv Hf]. simpl in Hv. rewrite Hv.
  rewrite map_set_last.
  - rewrite IH; [by rewrite <- app_assoc|done|by rewrite <- app_assoc].
  - rewrite map_app in Hs. simpl in Hs. clear -Hs.
    induction (map fst m) as [|x l IH]; [constructor|]. simpl in Hs.
    apply StronglySorted_inv in Hs as [Hs Hf]. constructor; [|by apply IH].
    rewrite Forall_app, Forall_cons in Hf. tauto.
Qed.

Lemma canon_normalize v : canon v → normalize v = v.
Proof.
  induction v as [| | | | |l IH|kvs IH] using json_nested_ind; intros Hc; try done.
  - inversion Hc as [| | | | |? Hl|]; subst. simpl. f_equal.
    clear Hc. induction IH as [|x l Hx _ IHl]; simpl; [done|].
    apply Forall_cons in Hl as [? ?]. by rewrite Hx, IHl.
  - inversion Hc as [| | | | | |? Hs Hl]; subst. rewrite normalize_obj. f_equal.
    apply (fold_map_set_sorted kvs []); [|done].
    clear -IH Hl. induction IH; [constructor|]. apply Forall_cons in Hl as [? ?]. constructor; auto.
Qed.

Lemma forallb_Forall {A} (f : A → bool) l : forallb f l = true ↔ Forall (λ x, f x = true) l.
Proof. rewrite Forall_forall, forallb_forall. by setoid_rewrite list_elem_of_In. Qed.

(** Decoding keeps the literals well formed. *)
Lemma normalize_wf v : json_wf v = true → json_wf (normalize v) = true.
Proof.
  induction v as [| | | | |l IH|kvs IH] using json_nested_ind; try done.
  - cbn [json_wf normalize]. rewrite !forallb_Forall. intros Hw. apply Forall_map.
    rewrite Forall_forall in *. intros x Hx. by apply IH, Hw.
  - rewrite normalize_obj. cbn [json_wf]. rewrite !forallb_Forall. intros Hw.
    apply (fold_map_set_gomap (λ x, json_wf x = true) normalize); [|apply gomap_nil].
    rewrite Forall_forall in *. intros x Hx. by apply IH, Hw.
Qed.

(** ** Documents as a decoder into [interface{}] returns them *)

Definition good (v : json) : Prop := canon v ∧ json_wf v = true.

Lemma good_arr l : good (JArr l) ↔ Forall good l.
Proof.
  unfold good. cbn [json_wf]. rewrite forallb_Forall. split.
  - intros [Hc Hw]. inversion Hc; subst. by apply Forall_and.
  - intros H. apply Forall_and in H as [? ?]. by split; [constructor|].
Qed.

Lemma good_obj kvs : good (JObj kvs) ↔ gomap good kvs.
Proof.
  unfold good, gomap. cbn [json_wf]. rewrite forallb_Forall. split.
  - intros [Hc Hw]. inversion Hc; subst. split; [done|]. by apply Forall_and.
  - intros [Hs H]. apply (Forall_and (λ kv, canon kv.2)) in H as [? ?]. by split; [constructor|].
Qed.

Lemma normalize_good s v : json_parse s = Some v → good (normalize v).
Proof. intros H. split; [apply normalize_canon|]. by eapply normalize_wf, json_parse_wf. Qed.

(** A good document written with [json.MarshalIndent] decodes to itself. *)
Lemma reread v : good v → (v' ← json_parse (json_marshal_indent v); Some (normalize v')) = Some v.
Proof. intros [Hc Hw]. rewrite json_parse_marshal_indent by done. simpl. by rewrite canon_normalize. Qed.

Lemma good_str s : good (JStr s).
Proof. split; [constructor|done]. Qed.
Lemma good_int z : good (JInt z).
Proof. split; [constructor|done]. Qed.
Lemma good_null : good JNull.
Proof. split; [constructor|done]. Qed.
#[export] Hint Resolve good_str good_int good_null : raven.

(** ** Fields of a canonical object

    Among the keys that differ by case only, the lower-case one is the last,
    so a struct field with a lower-case name is filled from it. *)

Lemma lower_char_leb c : match Ascii.compare c (lower_char c) with Lt => True | Eq => c = lower_char c | Gt => False end.
Proof. all_bytes c. Qed.
Lemma ToLower_leb s : string_leb s (ToLower s) = true.
Proof.
  unfold string_leb, ToLower. induction s as [|c s IH]; [done|]. simpl.
  pose proof (lower_char_leb c) as Hc. destruct (Ascii.compare c (lower_char c)); done.
Qed.

Lemma lookup_fold_elem name m v :
  lookup_fold name m = Some v → ∃ k, (k, v) ∈ m ∧ EqualFold k name = true.
Proof.
  induction m as [|[k w] m IH]; [done|]. simpl. destruct (lookup_fold name m) as [u|].
  - intros [= ->]. destruct (IH eq_refl) as (k' & Hk & He). exists k'. split; [by right|done].
  - case_if; [|done]. intros [= ->]. exists k. split; [by left|done].
Qed.

Lemma lookup_fold_canon name m v :
  ToLower name = name → StronglySorted key_lt (map fst m) →
  map_get name m = Some v → lookup_fold name m = Some v.
Proof.
  intros Hlow. unfold map_get. induction m as [|[k w] m IH]; [done|]. simpl. intros [Hs Hf]%StronglySorted_inv Hg.
  destruct (String.eqb_spec name k) as [<-|Hne].
  - simpl in Hg. destruct (lookup_fold name m) as [u|] eqn:E.
    + exfalso. apply lookup_fold_elem in E as (k' & Hk & He).
      rewrite Forall_forall in Hf. destruct (Hf k') as [Hle Hnk].
      { apply list_elem_of_In, in_map_iff. exists (k', u). by rewrite <- list_elem_of_In. }
      unfold EqualFold in He. rewrite Hlow in He. apply String.eqb_eq in He.
      assert (key_lt k' k') as [_ ?]; [|done]. transitivity name; [|done].
      split; [|congruence]. rewrite <- He. apply ToLower_leb.
    + unfold EqualFold. by rewrite String.eqb_refl.
  - by rewrite (IH Hs Hg).
Qed.

Lemma lookup_fold_None name m :
  lookup_fold name m = None → ∀ kv, kv ∈ m → EqualFold kv.1 name = false.
Proof.
  induction m as [|[k w] m IH]; simpl; [by intros _ kv ?%elem_of_nil|].
  destruct (lookup_fold name m); [done|]. case_if; [done|]. intros _ kv [->|Hkv]%elem_of_cons; [done|]. by apply IH.
Qed.
(** The entry a field is filled from is the greatest of those that match. *)
Lemma lookup_fold_max name m v :
  StronglySorted key_lt (map fst m) → lookup_fold name m = Some v →
  ∃ k, (k, v) ∈ m ∧ EqualFold k name = true ∧ ∀ kv, kv ∈ m → EqualFold kv.1 name = true → kv.1 = k ∨ key_lt kv.1 k.
Proof.
  induction m as [|[k0 w] m IH]; [done|]. simpl. intros [Hs Hf]%StronglySorted_inv.
  destruct (lookup_fold name m) as [u|] eqn:E.
  - intros [= ->]. destruct (IH Hs eq_refl) as (k & Hk & He & Hmax). exists k. split_and!; [by right|done|].
    intros kv [->|Hkv]%elem_of_cons Hn; [|by apply Hmax]. right. simpl.
    rewrite Forall_forall in Hf. apply Hf, list_elem_of_In, in_map_iff. exists (k, v). by rewrite <- list_elem_of_In.
  - case_if; [|done]. intros [= ->]. exists k0. split_and!; [by left|done|].
    intros kv [->|Hkv]%elem_of_cons Hn; [by left|]. by rewrite (lookup_fold_None _ _ E _ Hkv) in Hn.
Qed.

Lemma map_get_elem k v (m : list (string * json)) : map_get k m = Some v → (k, v) ∈ m.
Proof.
  unfold map_get. intros ([k' v'] & Hf & ->)%fmap_Some. apply find_Some_iff in Hf as [Hin Hk%String.eqb_eq].
  simpl in *. by subst.
Qed.
Lemma elem_map_get k v (m : list (string * json)) : StronglySorted key_lt (map fst m) → (k, v) ∈ m → map_get k m = Some v.
Proof.
  unfold map_get. induction m as [|[k0 w] m IH]; simpl; [by intros _ ?%elem_of_nil|].
  intros [Hs Hf]%StronglySorted_inv [[= -> ->]|Hin]%elem_of_cons; [by rewrite String.eqb_refl|].
  destruct (String.eqb_spec k k0) as [->|]; [|by apply IH]. exfalso.
  rewrite Forall_forall in Hf. destruct (Hf k0) as [_ ?]; [|done].
  apply list_elem_of_In, in_map_iff. exists (k0, v). by rewrite <- list_elem_of_In.
Qed.

(** A field with another name does not see a change of one entry. *)
Lemma lookup_fold_ext name k0 m m' :
  StronglySorted key_lt (map fst m) → StronglySorted key_lt (map fst m') →
  (∀ k, k ≠ k0 → map_get k m' = map_get k m) → EqualFold k0 name = false →
  lookup_fold name m' = lookup_fold name m.
Proof.
  intros Hs Hs' Hk Hn.
  assert (Hne : ∀ k, EqualFold k name = true → k ≠ k0) by (intros k Hk' ->; congruence).
  destruct (lookup_fold name m) as [v|] eqn:E, (lookup_fold name m') as [v'|] eqn:E'; [..|done].
  - apply lookup_fold_max in E as (k & Hin & He & Hmax), E' as (k' & Hin' & He' & Hmax'); [|done..].
    apply elem_map_get in Hin, Hin'; [|done..]. pose proof Hin as H1. pose proof Hin' as H2.
    rewrite <- Hk in H1 by auto. rewrite Hk in H2 by auto. apply map_get_elem in H1, H2.
    assert (k = k') as <-; [|rewrite Hk in Hin' by auto; congruence].
    destruct (Hmax _ H2 He') as [?|L1], (Hmax' _ H1 He) as [?|L2]; try done.
    assert (key_lt k k) as [_ ?]; [by etrans|done].
  - apply lookup_fold_elem in E as (k & Hin & He). apply elem_map_get in Hin; [|done].
    rewrite <- Hk in Hin by auto. apply map_get_elem in Hin.
    pose proof (lookup_fold_None _ _ E' _ Hin). simpl in *. congruence.
  - apply lookup_fold_elem in E' as (k & Hin & He). apply elem_map_get in Hin; [|done].
    rewrite Hk in Hin by auto. apply map_get_elem in Hin.
    pose proof (lookup_fold_None _ _ E _ Hin). simpl in *. congruence.
Qed.
