(* ===== verification/Base64.v ===== *)
(** * Go's [encoding/base64] on byte strings

    [StdEncoding] (padded) and [RawURLEncoding] (unpadded). *)

From S2P Require Import Prelude GoString.
From Stdlib Require Import Ascii.

Record Encoding := mkEncoding { enc_c62 : ascii; enc_c63 : ascii; enc_pad : bool }.
Definition StdEncoding : Encoding := mkEncoding "+" "/" true.
Definition RawURLEncoding : Encoding := mkEncoding "-" "_" false.

Definition sextet_char (e : Encoding) (n : N) : ascii :=
  if (n <? 26)%N then ascii_of_N (65 + n)
  else if (n <? 52)%N then ascii_of_N (71 + n)
  else if (n <? 62)%N then ascii_of_N (n - 4)
  else if (n =? 62)%N then enc_c62 e else enc_c63 e.
Definition sextet_val (e : Encoding) (c : ascii) : option N :=
  if is_upper c then Some (code c - 65)%N
  else if is_lower c then Some (code c - 71)%N
  else if is_digit c then Some (code c + 4)%N
  else if Ascii.eqb c (enc_c62 e) then Some 62%N
  else if Ascii.eqb c (enc_c63 e) then Some 63%N
  else None.

Definition padding (e : Encoding) (p : string) : string := if enc_pad e then p else "".

(** [EncodeToString] *)
Fixpoint EncodeToString (e : Encoding) (s : string) : string :=
  match s with
  | EmptyString => EmptyString
  | String a EmptyString =>
      String (sextet_char e (code a / 4)) (String (sextet_char e (code a mod 4 * 16)) (padding e "=="))
  | String a (String b EmptyString) =>
      String (sextet_char e (code a / 4)) (String (sextet_char e (code a mod 4 * 16 + code b / 16))
        (String (sextet_char e (code b mod 16 * 4)) (padding e "=")))
  | String a (String b (String c r)) =>
      String (sextet_char e (code a / 4)) (String (sextet_char e (code a mod 4 * 16 + code b / 16))
        (String (sextet_char e (code b mod 16 * 4 + code c / 64))
          (String (sextet_char e (code c mod 64)) (EncodeToString e r))))
  end.

Definition byte1 (x y : N) : ascii := ascii_of_N (x * 4 + y / 16).
Definition byte2 (y z : N) : ascii := ascii_of_N (y mod 16 * 16 + z / 4).
Definition byte3 (z w : N) : ascii := ascii_of_N (z mod 4 * 64 + w).

Fixpoint decode_quanta (e : Encoding) (s : string) : option string :=
  match s with
  | EmptyString => Some EmptyString
  | String a (String b (String c (String d r))) =>
      x ← sextet_val e a; y ← sextet_val e b;
      if enc_pad e && Ascii.eqb c "=" then
        if Ascii.eqb d "=" && String.eqb r "" then Some (String (byte1 x y) "") else None
      else
        z ← sextet_val e c;
        if enc_pad e && Ascii.eqb d "=" then
          if String.eqb r "" then Some (String (byte1 x y) (String (byte2 y z) "")) else None
        else
          w ← sextet_val e d; t ← decode_quanta e r;
          Some (String (byte1 x y) (String (byte2 y z) (String (byte3 z w) t)))
  | String a (String b (String c EmptyString)) =>
      if enc_pad e then None
      else x ← sextet_val e a; y ← sextet_val e b; z ← sextet_val e c;
           Some (String (byte1 x y) (String (byte2 y z) ""))
  | String a (String b EmptyString) =>
      if enc_pad e then None
      else x ← sextet_val e a; y ← sextet_val e b; Some (String (byte1 x y) "")
  | String _ EmptyString => None
  end.

Fixpoint drop_newlines (s : string) : string :=
  match s with
  | EmptyString => EmptyString
  | String c r =>
      if (code c =? 10)%N || (code c =? 13)%N then drop_newlines r else String c (drop_newlines r)
  end.
(** [DecodeString]: line breaks are skipped; [None] is [CorruptInputError]. *)
Definition DecodeString (e : Encoding) (s : string) : option string :=
  decode_quanta e (drop_newlines s).

(** ** Round trip *)

#[local] Ltac Zify.zify_post_hook ::= Z.to_euclidean_division_equations.

(** The two special characters are distinct and are no alphanumerics, [=] or
    line breaks. *)
Definition encoding_ok (e : Encoding) : bool :=
  forallb (λ n, let c := sextet_char e (N.of_nat n) in
    bool_decide (sextet_val e c = Some (N.of_nat n)) && negb (Ascii.eqb c "=")
    && negb ((code c =? 10)%N || (code c =? 13)%N)) (seq 0 64).

Section RoundTrip.
Context (e : Encoding) (Hok : encoding_ok e = true).

Lemma sextet_ok n : (n < 64)%N →
sextet_val e (sextet_char e n) = Some n ∧ Ascii.eqb (sextet_char e n) "=" = false
∧ ((code (sextet_char e n) =? 10)%N || (code (sextet_char e n) =? 13)%N) = false.
Proof using Hok.
intros Hn. unfold encoding_ok in Hok. rewrite forallb_forall in Hok.
specialize (Hok (N.to_nat n)). rewrite N2Nat.id in Hok.
assert (List.In (N.to_nat n) (seq 0 64)) as Hin by (apply List.in_seq; lia).
specialize (Hok Hin). simpl in Hok.
apply andb_true_iff in Hok as [[H1%bool_decide_eq_true H2%negb_true_iff]%andb_true_iff H3%negb_true_iff].
done.
Qed.

Lemma code_bound (a : ascii) : (code a < 256)%N.
Proof using Type. unfold code. all_bytes a. Qed.
Lemma of_code (a : ascii) n : n = code a → ascii_of_N n = a.
Proof using Type. intros ->. unfold code. apply ascii_N_embedding. Qed.

Lemma byte1_enc a k : (k < 16)%N → byte1 (code a / 4) (code a mod 4 * 16 + k) = a.
Proof using Type. intros H. pose proof (code_bound a). apply of_code. lia. Qed.
Lemma byte2_enc a b k : (k < 4)%N → byte2 (a mod 4 * 16 + code b / 16) (code b mod 16 * 4 + k) = b.
Proof using Type. intros H. pose proof (code_bound b). apply of_code. lia. Qed.
Lemma byte3_enc a c : byte3 (a mod 16 * 4 + code c / 64) (code c mod 64) = c.
Proof using Type. pose proof (code_bound c). apply of_code. lia. Qed.

Lemma drop_newlines_encode s : drop_newlines (EncodeToString e s) = EncodeToString e s.
Proof using Hok.
assert (Hc : ∀ n r, (n < 64)%N →
  drop_newlines (String (sextet_char e n) r) = String (sextet_char e n) (drop_newlines r)).
{ intros n r Hn. simpl. by destruct (sextet_ok n Hn) as (_ & _ & ->). }
assert (Hp : ∀ p, p = "==" ∨ p = "=" → drop_newlines (padding e p) = padding e p).
{ intros p [-> | ->]; unfold padding; by destruct (enc_pad e). }
revert s. fix IH 1. intros [|a [|b [|c r]]]; [done|..];
  cbn [EncodeToString]; try pose proof (code_bound a); try pose proof (code_bound b);
  try pose proof (code_bound c); rewrite !Hc by lia; rewrite ?Hp by auto; rewrite ?IH; done.
Qed.

(** Decoding an encoded byte string gives it back. *)
Lemma DecodeString_EncodeToString s : DecodeString e (EncodeToString e s) = Some s.
Proof using Hok.
unfold DecodeString. rewrite drop_newlines_encode. revert s. fix IH 1.
intros [|a [|b [|c r]]]; [done|..]; cbn [EncodeToString];
  try pose proof (code_bound a); try pose proof (code_bound b); try pose proof (code_bound c).
- assert (H1 : (code a / 4 < 64)%N) by lia. assert (H2 : (code a mod 4 * 16 < 64)%N) by lia.
  apply sextet_ok in H1 as (E1 & _), H2 as (E2 & _).
  unfold padding. destruct (enc_pad e) eqn:Ep; simpl; rewrite E1, E2, ?Ep; simpl;
    do 2 f_equal; rewrite <- (N.add_0_r (code a mod 4 * 16)); by rewrite byte1_enc.
- assert (H1 : (code a / 4 < 64)%N) by lia.
  assert (H2 : (code a mod 4 * 16 + code b / 16 < 64)%N) by lia.
  assert (H3 : (code b mod 16 * 4 < 64)%N) by lia.
  apply sextet_ok in H1 as (E1 & _), H2 as (E2 & _), H3 as (E3 & E3' & _).
  unfold padding. destruct (enc_pad e) eqn:Ep; simpl; rewrite E1, E2, ?Ep; simpl;
    rewrite ?E3'; simpl; rewrite E3; simpl; rewrite byte1_enc by lia;
    rewrite <- (N.add_0_r (code b mod 16 * 4)); by rewrite byte2_enc.
- assert (H1' : (code a / 4 < 64)%N) by lia.
  assert (H2' : (code a mod 4 * 16 + code b / 16 < 64)%N) by lia.
  assert (H3' : (code b mod 16 * 4 + code c / 64 < 64)%N) by lia.
  assert (H4' : (code c mod 64 < 64)%N) by lia.
  apply sextet_ok in H1' as (E1 & _), H2' as (E2 & _), H3' as (E3 & E3' & _), H4' as (E4 & E4' & _).
  simpl. rewrite E1, E2, E3', E4', !andb_false_r. simpl. rewrite E3, E4. simpl.
  rewrite IH. simpl. by rewrite byte1_enc, byte2_enc, byte3_enc by lia.
Qed.
End RoundTrip.

Lemma StdEncoding_ok : encoding_ok StdEncoding = true.
Proof. vm_compute. reflexivity. Qed.
Lemma RawURLEncoding_ok : encoding_ok RawURLEncoding = true.
Proof. vm_compute. reflexivity. Qed.
