(* ===== verification/Net.v ===== *)
(** * The parts of Go's [net] package the program uses

    [net.SplitHostPort], [net.ParseIP] and the address classes, on ASCII
    strings. An address is its 16 bytes; an IPv4 address is the mapped form
    [::ffff:a.b.c.d], as in Go. *)

From S2P Require Import Prelude GoString.
From Stdlib Require Import Ascii DecimalString.

Fixpoint contains_char (c : ascii) (s : string) : bool :=
  match s with EmptyString => false | String x r => Ascii.eqb x c || contains_char c r end.

(** The text before and after the last [c]. *)
Fixpoint split_last (c : ascii) (s : string) : option (string * string) :=
  match s with
  | EmptyString => None
  | String x r =>
      match split_last c r with
      | Some (a, b) => Some (String x a, b)
      | None => if Ascii.eqb x c then Some (EmptyString, r) else None
      end
  end.
(** The text before and after the first [c]. *)
Fixpoint split_first (c : ascii) (s : string) : option (string * string) :=
  match s with
  | EmptyString => None
  | String x r =>
      if Ascii.eqb x c then Some (EmptyString, r)
      else '(a, b) ← split_first c r; Some (String x a, b)
  end.

(** [net.SplitHostPort]; [None] is its error. *)
Definition SplitHostPort (hostport : string) : option (string * string) :=
  match split_last ":" hostport with
  | None => None
  | Some (before, port) =>
      match hostport with
      | String "[" inner =>
          match split_first "]" inner with
          | None => None
          | Some (host, after) =>
              if negb (String.eqb after (String ":" port)) then None
              else if contains_char "[" inner || contains_char "]" after then None
              else Some (host, port)
          end
      | _ =>
          if contains_char ":" before then None
          else if contains_char "[" hostport || contains_char "]" hostport then None
          else Some (before, port)
      end
  end.

(** ** [net.ParseIP] *)

Definition digit (c : ascii) : Z := (Z.of_N (code c) - 48)%Z.

(** [fields] (reversed) are the finished octets, [val] the current one. *)
Fixpoint parseIPv4_from (fields : list Z) (val : Z) (digLen : nat) (s : string) : option (list Z) :=
  match s with
  | EmptyString =>
      if Nat.eqb (length fields) 3 && negb (Nat.eqb digLen 0) then Some (rev (val :: fields)) else None
  | String c r =>
      if is_digit c then
        if Nat.eqb digLen 1 && Z.eqb val 0 then None
        else let val := (val * 10 + digit c)%Z in
             if (255 <? val)%Z then None else parseIPv4_from fields val (S digLen) r
      else if Ascii.eqb c "." then
        if Nat.eqb digLen 0 || Nat.eqb (length fields) 3 then None
        else parseIPv4_from (val :: fields) 0 0 r
      else None
  end.
Definition parseIPv4Fields (s : string) : option (list Z) := parseIPv4_from [] 0 0 s.

Definition hex_digit (c : ascii) : option Z :=
  let k := Z.of_N (code c) in
  if is_digit c then Some (k - 48)%Z
  else if ((97 <=? k) && (k <=? 102))%Z then Some (k - 87)%Z
  else if ((65 <=? k) && (k <=? 70))%Z then Some (k - 55)%Z
  else None.

(** The leading hexadecimal digits: their value, their number and the rest. *)
Fixpoint hex_prefix (acc : Z) (off : nat) (s : string) : Z * nat * string :=
  match s with
  | String c r =>
      match hex_digit c with
      | Some d => hex_prefix (acc * 16 + d) (S off) r
      | None => (acc, off, s)
      end
  | EmptyString => (acc, off, s)
  end.

(** The groups of an IPv6 address. [ip] are the bytes so far, [ellipsis] the
    index of [::]; every round appends two bytes, so [fuel = 8] rounds suffice. *)
Fixpoint parseIPv6_groups (fuel : nat) (ip : list Z) (ellipsis : option nat) (s : string)
    : option (list Z * option nat) :=
  match fuel with
  | O => if String.eqb s "" then Some (ip, ellipsis) else None
  | S fuel =>
      let '(acc, off, rest) := hex_prefix 0 0 s in
      if Nat.eqb off 0 then None
      else match rest with
      | String "." _ =>
          if (4 <? off)%nat then None
          else if match ellipsis with None => negb (Nat.eqb (length ip) 12) | Some _ => false end then None
          else if (16 <? length ip + 4)%nat then None
          else fields ← parseIPv4Fields s; Some (ip ++ fields, ellipsis)
      | _ =>
          if (4 <? off)%nat then None
          else
            let ip := ip ++ [Z.shiftr acc 8; Z.land acc 255] in
            match rest with
            | EmptyString => Some (ip, ellipsis)
            | String ":" EmptyString => None
            | String ":" (String ":" s) =>
                match ellipsis with
                | Some _ => None
                | None =>
                    if String.eqb s "" then Some (ip, Some (length ip))
                    else parseIPv6_groups fuel ip (Some (length ip)) s
                end
            | String ":" s => parseIPv6_groups fuel ip ellipsis s
            | _ => None
            end
      end
  end.

Definition parseIPv6 (s : string) : option (list Z) :=
  if contains_char "%" s then None  (* a zone; [net.ParseIP] rejects it *)
  else
    let '(ellipsis, s, stop) :=
      match s with
      | String ":" (String ":" r) => (Some 0, r, String.eqb r "")
      | _ => (None, s, false)
      end in
    '(ip, ellipsis) ← (if stop : bool then Some ([], ellipsis) else parseIPv6_groups 8 [] ellipsis s);
    if (length ip <? 16)%nat then
      e ← ellipsis; Some (take e ip ++ replicate (16 - length ip) 0%Z ++ drop e ip)
    else match ellipsis with Some _ => None | None => Some ip end.

Definition v4_mapped (fields : list Z) : list Z := replicate 10 0%Z ++ [255; 255]%Z ++ fields.

(** The first of [.], [:] and [%] tells the family. *)
Fixpoint ip_family (s : string) : option ascii :=
  match s with
  | EmptyString => None
  | String c r => if Ascii.eqb c "." || Ascii.eqb c ":" || Ascii.eqb c "%" then Some c else ip_family r
  end.
Definition ParseIP (s : string) : option (list Z) :=
  match ip_family s with
  | Some "."%char => v4_mapped <$> parseIPv4Fields s
  | Some ":"%char => parseIPv6 s
  | _ => None
  end.

Definition To4 (ip : list Z) : option (list Z) :=
  if bool_decide (take 12 ip = replicate 10 0%Z ++ [255; 255]%Z) then Some (drop 12 ip) else None.
Definition byte_at (i : nat) (ip : list Z) : Z := nth i ip 0%Z.

Definition IsLoopback (ip : list Z) : bool :=
  match To4 ip with
  | Some ip4 => Z.eqb (byte_at 0 ip4) 127
  | None => bool_decide (ip = replicate 15 0%Z ++ [1]%Z)
  end.
Definition IsPrivate (ip : list Z) : bool :=
  match To4 ip with
  | Some ip4 =>
      Z.eqb (byte_at 0 ip4) 10
      || (Z.eqb (byte_at 0 ip4) 172 && Z.eqb (Z.land (byte_at 1 ip4) 240) 16)
      || (Z.eqb (byte_at 0 ip4) 192 && Z.eqb (byte_at 1 ip4) 168)
  | None => Z.eqb (Z.land (byte_at 0 ip) 254) 252
  end.
Definition IsLinkLocalUnicast (ip : list Z) : bool :=
  match To4 ip with
  | Some ip4 => Z.eqb (byte_at 0 ip4) 169 && Z.eqb (byte_at 1 ip4) 254
  | None => Z.eqb (byte_at 0 ip) 254 && Z.eqb (Z.land (byte_at 1 ip) 192) 128
  end.

(** ** Laws *)

Lemma string_forallb_app p a b : string_forallb p (a +:+ b) = string_forallb p a && string_forallb p b.
Proof. induction a as [|c a IH]; simpl; [done|]. rewrite IH. by destruct (p c). Qed.
Lemma string_forallb_impl (p q : ascii → bool) s :
  (∀ c, p c = true → q c = true) → string_forallb p s = true → string_forallb q s = true.
Proof.
  intros H. induction s as [|c s IH]; simpl; [done|]. intros [H1 H2]%andb_true_iff.
  by rewrite (H c), IH.
Qed.

Lemma contains_char_forallb p c s :
  p c = false → string_forallb p s = true → contains_char c s = false.
Proof.
  intros Hc. induction s as [|x s IH]; simpl; [done|]. intros [H1 H2]%andb_true_iff.
  rewrite IH by done. destruct (Ascii.eqb_spec x c); [congruence|done].
Qed.
Lemma split_last_none c s : contains_char c s = false → split_last c s = None.
Proof.
  induction s as [|x s IH]; simpl; [done|]. intros [H1 H2]%orb_false_iff. by rewrite IH, H1.
Qed.
Lemma split_last_app c a b :
  contains_char c b = false → split_last c (a +:+ String c b) = Some (a, b).
Proof.
  intros H. induction a as [|x a IH]; simpl.
  - by rewrite split_last_none, Ascii.eqb_refl.
  - by rewrite IH.
Qed.
Lemma contains_char_app c a b : contains_char c (a +:+ b) = contains_char c a || contains_char c b.
Proof. induction a as [|x a IH]; simpl; [done|]. by rewrite IH, orb_assoc. Qed.

Lemma split_first_none c s : contains_char c s = false → split_first c s = None.
Proof.
  induction s as [|x s IH]; simpl; [done|]. intros [-> H]%orb_false_iff. by rewrite IH.
Qed.
Lemma split_first_app c a b :
  contains_char c a = false → split_first c (a +:+ String c b) = Some (a, b).
Proof.
  induction a as [|x a IH]; simpl; [by rewrite Ascii.eqb_refl|].
  intros [-> H]%orb_false_iff. by rewrite IH.
Qed.
Lemma Itoa_no_dash z : (0 <= z)%Z → contains_char "-" (Itoa z) = false.
Proof.
  intros Hz. assert (∀ d, contains_char "-" (NilEmpty.string_of_uint d) = false) as H
    by (induction d; simpl; congruence).
  unfold Itoa, NilZero.string_of_int. destruct z as [|p|p]; [done| |done]. simpl.
  destruct (Pos.to_uint p) eqn:E; simpl; by rewrite ?H.
Qed.


Definition octet (z : Z) : Prop := (0 <= z <= 255)%Z.

(** Decide a statement about every octet by evaluating it on all 256. *)
Lemma octet_all (P : Z → Prop) :
  (∀ n, (n < 256)%nat → P (Z.of_nat n)) → ∀ z, octet z → P z.
Proof. intros H z [H1 H2]. rewrite <- (Z2Nat.id z) by done. apply H. lia. Qed.

Lemma parseIPv4_octet fields a r :
  octet a → length fields ≠ 3 →
  parseIPv4_from fields 0 0 (Itoa a +:+ String "." r) = parseIPv4_from (a :: fields) 0 0 r.
Proof.
  intros Ha Hf. revert a Ha. apply octet_all. intros n Hn.
  destruct fields as [|? [|? [|? [|? ?]]]]; [| | |done|];
    do 256 (destruct n as [|n]; [reflexivity|]); lia.
Qed.

Lemma parseIPv4_last fields a :
  octet a → length fields = 3 → parseIPv4_from fields 0 0 (Itoa a) = Some (rev (a :: fields)).
Proof.
  intros Ha Hf. revert a Ha. apply octet_all. intros n Hn.
  destruct fields as [|? [|? [|? [|? ?]]]]; try done.
  do 256 (destruct n as [|n]; [reflexivity|]); lia.
Qed.

Definition dotted (a b c d : Z) : string :=
  Itoa a +:+ String "." (Itoa b +:+ String "." (Itoa c +:+ String "." (Itoa d))).

(** Dotted decimal is parsed back to the four octets. *)
Lemma parseIPv4_dotted a b c d :
  octet a → octet b → octet c → octet d → parseIPv4Fields (dotted a b c d) = Some [a; b; c; d].
Proof.
  intros Ha Hb Hc Hd. unfold parseIPv4Fields, dotted.
  by rewrite !parseIPv4_octet, parseIPv4_last.
Qed.
