(* ===== verification/Models.v ===== *)
(** * Shared data structures: [internal/models/models.go]

    Times are integers (nanoseconds since the epoch, UTC). *)

From S2P Require Import Prelude GoString Json JsonDecode.

Record User := mkUser {
  User_ID : Z; User_Username : string; User_Email : string; User_Token : string;
  User_FallbackToken : string; User_FallbackAccessedAt : option Z;
  User_Enabled : bool; User_Hy2Enabled : bool; User_ClientRoutes : string;
  User_CreatedAt : Z; User_UpdatedAt : Z }.

(** The method on a nil receiver is the [None] case. *)
Definition ClientIdentity (u : option User) : string :=
  match u with
  | None => ""
  | Some u =>
      let e := TrimSpace (User_Email u) in
      if negb (String.eqb e "") then e else TrimSpace (User_Username u)
  end.

Record Inbound := mkInbound {
  Inbound_ID : Z; Inbound_Tag : string; Inbound_Protocol : string; Inbound_Port : Z;
  Inbound_ConfigFile : string; Inbound_RawConfig : string; Inbound_UpdatedAt : Z }.

Record Node := mkNode {
  Node_ID : Z; Node_Name : string; Node_APIAddr : string; Node_InboundTag : string;
  Node_PublicHost : string; Node_PublicPort : Z; Node_Enabled : bool; Node_CreatedAt : Z }.

Record WantedClient := mkWantedClient { Wanted_Email : string; Wanted_ClientConfig : string }.

Record UserClient := mkUserClient {
  UC_ID : Z; UC_UserID : Z; UC_InboundID : Z; UC_ClientConfig : string; UC_Enabled : bool }.

(** [UserClientFull] embeds [UserClient]. *)
Record UserClientFull := mkUserClientFull {
  UCF_UserClient :> UserClient;
  UCF_InboundTag : string; UCF_InboundProtocol : string; UCF_InboundPort : Z;
  UCF_InboundRaw : string;
  UCF_NodeName : string; UCF_NodeHost : string; UCF_NodePort : Z }.

(** The copy the node expansion makes, and the generator's port override. *)
Definition UCF_with_node (c : UserClientFull) (name host : string) (port : Z) : UserClientFull :=
  mkUserClientFull (UCF_UserClient c) (UCF_InboundTag c) (UCF_InboundProtocol c)
    (UCF_InboundPort c) (UCF_InboundRaw c) name host port.
Definition UCF_with_port (c : UserClientFull) (port : Z) : UserClientFull :=
  mkUserClientFull (UCF_UserClient c) (UCF_InboundTag c) (UCF_InboundProtocol c)
    port (UCF_InboundRaw c) (UCF_NodeName c) (UCF_NodeHost c) (UCF_NodePort c).

Record InboundSpec := mkInboundSpec { Spec_Tag : string; Spec_Protocol : string }.

Record CreateUserRequest := mkCreateUserRequest {
  Req_Username : string; Req_Inbounds : list InboundSpec; Req_Nodes : list string }.

Record SubURLs := mkSubURLs {
  SubURLs_Full : string; SubURLs_LinksText : string; SubURLs_LinksB64 : string;
  SubURLs_Compact : string; SubURLs_CompactText : string; SubURLs_CompactB64 : string;
  SubURLs_Hy2 : string;
  SubURLs_Fallback : string; SubURLs_FallbackText : string; SubURLs_FallbackB64 : string;
  SubURLs_FallbackCompact : string; SubURLs_FallbackCompactText : string;
  SubURLs_FallbackCompactB64 : string }.

Record UserResponse := mkUserResponse {
  Resp_User : User; Resp_SubURL : string; Resp_SubURLs : SubURLs }.

Record EmergencyProfile := mkEmergencyProfile {
  Profile_ID : Z; Profile_Name : string; Profile_Description : string;
  Profile_InboundTags : list string; Profile_CreatedAt : Z; Profile_UpdatedAt : Z }.

Record EmergencyStatus := mkEmergencyStatus {
  Emergency_Active : bool; Emergency_ProfileID : option Z;
  Emergency_Profile : option EmergencyProfile; Emergency_ActivatedAt : option Z }.

Record UserRouteRule := mkUserRouteRule {
  Route_ID : string; Route_Type : string; Route_OutboundTag : string;
  Route_Domain : list string; Route_IP : list string; Route_Network : string;
  Route_Port : string; Route_Protocol : list string; Route_InboundTag : list string }.

(** ** JSON forms *)

Definition encode_UserRouteRule (r : UserRouteRule) : json :=
  JObj (omit_str "id" (Route_ID r) ++ omit_str "type" (Route_Type r)
    ++ [("outboundTag", JStr (Route_OutboundTag r))]
    ++ omit_strs "domain" (Route_Domain r) ++ omit_strs "ip" (Route_IP r)
    ++ omit_str "network" (Route_Network r) ++ omit_str "port" (Route_Port r)
    ++ omit_strs "protocol" (Route_Protocol r) ++ omit_strs "inboundTag" (Route_InboundTag r)).

Definition decode_UserRouteRule : decoder UserRouteRule := λ j,
  kvs <~ d_object j;;
  id <~ d_field d_string "id" kvs;;
  type <~ d_field d_string "type" kvs;;
  outboundTag <~ d_field d_string "outboundTag" kvs;;
  domain <~ d_field (d_list d_string) "domain" kvs;;
  ip <~ d_field (d_list d_string) "ip" kvs;;
  network <~ d_field d_string "network" kvs;;
  port <~ d_field d_string "port" kvs;;
  protocol <~ d_field (d_list d_string) "protocol" kvs;;
  inboundTag <~ d_field (d_list d_string) "inboundTag" kvs;;
  dret (mkUserRouteRule id type outboundTag domain ip network port protocol inboundTag).

Definition decode_InboundSpec : decoder InboundSpec := λ j,
  kvs <~ d_object j;;
  tag <~ d_field d_string "tag" kvs;;
  protocol <~ d_field d_string "protocol" kvs;;
  dret (mkInboundSpec tag protocol).

Definition decode_CreateUserRequest : decoder CreateUserRequest := λ j,
  kvs <~ d_object j;;
  username <~ d_field d_string "username" kvs;;
  inbounds <~ d_field (d_list decode_InboundSpec) "inbounds" kvs;;
  nodes <~ d_field (d_list d_string) "nodes" kvs;;
  dret (mkCreateUserRequest username inbounds nodes).

Definition marshal_routes (rs : list UserRouteRule) : string :=
  json_marshal (JArr (map encode_UserRouteRule rs)).

#[export] Instance User_eq_dec : EqDecision User.
Proof. solve_decision. Defined.
#[export] Instance Node_eq_dec : EqDecision Node.
Proof. solve_decision. Defined.
#[export] Instance UserClient_eq_dec : EqDecision UserClient.
Proof. solve_decision. Defined.
#[export] Instance UserClientFull_eq_dec : EqDecision UserClientFull.
Proof. solve_decision. Defined.
#[export] Instance UserRouteRule_eq_dec : EqDecision UserRouteRule.
Proof. solve_decision. Defined.
#[export] Instance WantedClient_eq_dec : EqDecision WantedClient.
Proof. solve_decision. Defined.

(** ** Laws *)

Lemma decode_encode_UserRouteRule r : decode_UserRouteRule (encode_UserRouteRule r) = (r, true).
Proof. destruct r. unfold decode_UserRouteRule, encode_UserRouteRule. read_struct. Qed.

Lemma encode_UserRouteRule_wf r : json_wf (encode_UserRouteRule r) = true.
Proof. unfold encode_UserRouteRule. wf_struct. Qed.

(** Marshalling a list of rules and reading it back is the identity. *)
Lemma unmarshal_marshal_routes rs :
  Unmarshal (d_slice decode_UserRouteRule) (marshal_routes rs) = inr (Some rs).
Proof.
  unfold marshal_routes. rewrite Unmarshal_marshal.
  - unfold decode, d_slice, d_elems. rewrite map_map.
    replace (forallb _ (map encode_UserRouteRule rs)) with true.
    + do 2 f_equal. induction rs as [|r rs IH]; [done|]. simpl.
      by rewrite decode_encode_UserRouteRule, IH.
    + symmetry. apply forallb_forall. intros j (r & <- & _)%in_map_iff.
      by rewrite decode_encode_UserRouteRule.
  - simpl. apply forallb_forall. intros j (r & <- & _)%in_map_iff. apply encode_UserRouteRule_wf.
Qed.
