(* ===== verification/Config.v ===== *)
(** * Configuration: [internal/config/config.go] *)

From S2P Require Import Prelude GoString Json JsonDecode Net Models.
From Stdlib Require Import Ascii.

(** ** Formatting *)

Definition hex_char (n : N) : ascii := ascii_of_N (if (n <? 10)%N then 48 + n else 87 + n).
Definition quote_char (c : ascii) : string :=
  let n := code c in
  let esc (x : ascii) := String "\" (String x EmptyString) in
  if (n =? 34)%N || (n =? 92)%N then esc c
  else if (n =? 7)%N then esc "a"%char else if (n =? 8)%N then esc "b"%char
  else if (n =? 9)%N then esc "t"%char else if (n =? 10)%N then esc "n"%char
  else if (n =? 11)%N then esc "v"%char else if (n =? 12)%N then esc "f"%char
  else if (n =? 13)%N then esc "r"%char
  else if (n <? 32)%N || (n =? 127)%N then
    String "\" (String "x"%char (String (hex_char (n / 16)) (String (hex_char (n mod 16)) EmptyString)))
  else String c EmptyString.
Fixpoint quote_body (s : string) : string :=
  match s with EmptyString => EmptyString | String c r => quote_char c +:+ quote_body r end.
(** [fmt]'s [%q]; bytes above 127 are taken to belong to printable characters. *)
Definition Quote (s : string) : string :=
  let q := String (ascii_of_N 34) EmptyString in q +:+ quote_body s +:+ q.

(** ** Data *)

Record HysteriaConfig := mkHysteria {
  Hy_Enabled : bool; Hy_Host : string; Hy_Port : Z; Hy_ObfsType : string;
  Hy_ObfsPassword : string; Hy_SNI : string; Hy_CertPin : string; Hy_InMainSub : bool }.

Record NodeTLS := mkNodeTLS {
  NTLS_CACert : string; NTLS_ClientCert : string; NTLS_ClientKey : string; NTLS_ServerName : string }.

Record NodeDeploy := mkNodeDeploy { Deploy_Mode : string }.

Record NodeConfig := mkNodeConfig {
  NC_Name : string; NC_APIAddr : string; NC_InboundTag : string; NC_PublicHost : string;
  NC_PublicPort : Z; NC_Enabled : option bool; NC_Deploy : option NodeDeploy;
  NC_AllowPublicGRPC : bool; NC_TLS : option NodeTLS }.

(** A map field that is empty or nil behaves the same, except
    [FallbackInboundHosts], whose users test it against nil. *)
Record Config := mkConfig {
  C_ListenAddr : string; C_MetricsListen : string; C_MetricsAnonymizeSecret : string;
  C_ProfileUpdateIntervalHours : Z; C_ServerHost : string; C_ConfigDir : string;
  C_DBPath : string; C_SyncInterval : Z; C_BaseURL : string; C_FallbackBaseURL : string;
  C_FallbackServerHost : string; C_FallbackInboundHosts : option (gmap string string);
  C_FallbackInboundTags : list string; C_KillSwitchInboundTags : list string;
  C_ExcludeInboundTags : list string; C_Hysteria : option HysteriaConfig;
  C_AdminToken : string; C_BalancerStrategy : string; C_BalancerProbeURL : string;
  C_BalancerProbeFreq : string; C_SocksInboundPort : Z; C_HTTPInboundPort : Z;
  C_RateLimitSubPerMin : Z; C_RateLimitAdminPerMin : Z; C_APIUserInboundTag : string;
  C_XrayAPIAddr : string; C_APIUserInboundProtocol : string; C_APIUserInboundPort : Z;
  C_XrayConfigFileMode : string; C_InboundHosts : gmap string string;
  C_InboundPorts : gmap string Z; C_ClientBlackholeResponse : string;
  C_ClientDNSServers : list json; C_VLESSClientEncryption : gmap string string;
  C_XrayEnabled : option bool; C_KillSwitchReconcileInterval : Z; C_Nodes : list NodeConfig;
  C_xrayFilePerm : Z }.

(** *** Decoding *)

Definition decode_HysteriaConfig : decoder HysteriaConfig := λ j,
  kvs <~ d_object j;;
  enabled <~ d_field d_bool "enabled" kvs;; host <~ d_field d_string "host" kvs;;
  port <~ d_field d_int "port" kvs;; obfs <~ d_field d_string "obfs_type" kvs;;
  pass <~ d_field d_string "obfs_password" kvs;; sni <~ d_field d_string "sni" kvs;;
  pin <~ d_field d_string "cert_pin" kvs;; main <~ d_field d_bool "in_main_sub" kvs;;
  dret (mkHysteria enabled host port obfs pass sni pin main).

Definition decode_NodeTLS : decoder NodeTLS := λ j,
  kvs <~ d_object j;;
  ca <~ d_field d_string "ca_cert" kvs;; cert <~ d_field d_string "client_cert" kvs;;
  key <~ d_field d_string "client_key" kvs;; name <~ d_field d_string "server_name" kvs;;
  dret (mkNodeTLS ca cert key name).

Definition decode_NodeDeploy : decoder NodeDeploy := λ j,
  kvs <~ d_object j;; mode <~ d_field d_string "mode" kvs;; dret (mkNodeDeploy mode).

Definition decode_NodeConfig : decoder NodeConfig := λ j,
  kvs <~ d_object j;;
  name <~ d_field d_string "name" kvs;; addr <~ d_field d_string "api_addr" kvs;;
  tag <~ d_field d_string "inbound_tag" kvs;; host <~ d_field d_string "public_host" kvs;;
  port <~ d_field d_int "public_port" kvs;; enabled <~ d_field (d_ptr d_bool) "enabled" kvs;;
  deploy <~ d_field (d_ptr decode_NodeDeploy) "deploy" kvs;;
  allow <~ d_field d_bool "allow_public_grpc" kvs;;
  tls <~ d_field (d_ptr decode_NodeTLS) "tls" kvs;;
  dret (mkNodeConfig name addr tag host port enabled deploy allow tls).

(** A [map[string]V] field. *)
Definition d_gmap {V} (d : decoder V) : decoder (option (gmap string V)) := λ j,
  match j with
  | JObj kvs => (Some (foldl (λ m kv, <[kv.1 := (d kv.2).1]> m) ∅ kvs), forallb (λ kv, (d kv.2).2) kvs)
  | JNull => (None, true)
  | _ => (None, false)
  end.
Definition d_gmap_or_empty {V} (d : decoder V) : decoder (gmap string V) := λ j,
  let '(m, ok) := d_gmap d j in (default ∅ m, ok).

(** A scalar field of a struct that already holds [v]: absent and null keep it. *)
Definition d_keep {A} (d : decoder A) (v : A) (name : string) (kvs : list (string * json)) : D A :=
  match lookup_fold name kvs with None | Some JNull => (v, true) | Some j => d j end.

Definition decode_Config (d : Config) : decoder Config := λ j,
  kvs <~ d_object j;;
  listen <~ d_keep d_string (C_ListenAddr d) "listen_addr" kvs;;
  metrics <~ d_keep d_string (C_MetricsListen d) "metrics_listen" kvs;;
  secret <~ d_keep d_string (C_MetricsAnonymizeSecret d) "metrics_anonymize_secret" kvs;;
  hours <~ d_keep d_int (C_ProfileUpdateIntervalHours d) "profile_update_interval_hours" kvs;;
  host <~ d_keep d_string (C_ServerHost d) "server_host" kvs;;
  dir <~ d_keep d_string (C_ConfigDir d) "config_dir" kvs;;
  dbpath <~ d_keep d_string (C_DBPath d) "db_path" kvs;;
  sync <~ d_keep d_int (C_SyncInterval d) "sync_interval_seconds" kvs;;
  base <~ d_keep d_string (C_BaseURL d) "base_url" kvs;;
  fbase <~ d_keep d_string (C_FallbackBaseURL d) "fallback_base_url" kvs;;
  fhost <~ d_keep d_string (C_FallbackServerHost d) "fallback_server_host" kvs;;
  fhosts <~ d_field (d_gmap d_string) "fallback_inbound_hosts" kvs;;
  ftags <~ d_field (d_list d_string) "fallback_inbound_tags" kvs;;
  ktags <~ d_field (d_list d_string) "killswitch_inbound_tags" kvs;;
  etags <~ d_field (d_list d_string) "exclude_inbound_tags" kvs;;
  hy <~ d_field (d_ptr decode_HysteriaConfig) "hysteria" kvs;;
  admin <~ d_keep d_string (C_AdminToken d) "admin_token" kvs;;
  strategy <~ d_keep d_string (C_BalancerStrategy d) "balancer_strategy" kvs;;
  probe <~ d_keep d_string (C_BalancerProbeURL d) "balancer_probe_url" kvs;;
  freq <~ d_keep d_string (C_BalancerProbeFreq d) "balancer_probe_interval" kvs;;
  socks <~ d_keep d_int (C_SocksInboundPort d) "socks_inbound_port" kvs;;
  http <~ d_keep d_int (C_HTTPInboundPort d) "http_inbound_port" kvs;;
  rsub <~ d_keep d_int (C_RateLimitSubPerMin d) "rate_limit_sub_per_min" kvs;;
  radm <~ d_keep d_int (C_RateLimitAdminPerMin d) "rate_limit_admin_per_min" kvs;;
  utag <~ d_keep d_string (C_APIUserInboundTag d) "api_user_inbound_tag" kvs;;
  xaddr <~ d_keep d_string (C_XrayAPIAddr d) "xray_api_addr" kvs;;
  uproto <~ d_keep d_string (C_APIUserInboundProtocol d) "api_user_inbound_protocol" kvs;;
  uport <~ d_keep d_int (C_APIUserInboundPort d) "api_user_inbound_port" kvs;;
  fmode <~ d_keep d_string (C_XrayConfigFileMode d) "xray_config_file_mode" kvs;;
  hosts <~ d_field (d_gmap_or_empty d_string) "inbound_hosts" kvs;;
  ports <~ d_field (d_gmap_or_empty d_int) "inbound_ports" kvs;;
  black <~ d_keep d_string (C_ClientBlackholeResponse d) "client_blackhole_response" kvs;;
  dns <~ d_field (d_list (λ j, (normalize j, true))) "client_dns_servers" kvs;;
  enc <~ d_field (d_gmap_or_empty d_string) "vless_client_encryption" kvs;;
  xen <~ d_field (d_ptr d_bool) "xray_enabled" kvs;;
  kint <~ d_keep d_int (C_KillSwitchReconcileInterval d) "killswitch_reconcile_interval_seconds" kvs;;
  nodes <~ d_field (d_list decode_NodeConfig) "nodes" kvs;;
  dret (mkConfig listen metrics secret hours host dir dbpath sync base fbase fhost fhosts ftags
    ktags etags hy admin strategy probe freq socks http rsub radm utag xaddr uproto uport fmode
    hosts ports black dns enc xen kint nodes (C_xrayFilePerm d)).

Definition default_config : Config :=
  mkConfig ":8080" "" "" 0 "" "/etc/xray/config.d" "/var/lib/xray-subscription/db.sqlite" 60
    "http://localhost:8080" "" "" None [] [] [] None "" "leastPing"
    "https://www.gstatic.com/generate_204" "30s" 0 0 0 0 "" "" "" 0 "" ∅ ∅ "" [] ∅ None 30 [] 0.

Definition with_strategy (c : Config) (s : string) : Config :=
  mkConfig (C_ListenAddr c) (C_MetricsListen c) (C_MetricsAnonymizeSecret c)
    (C_ProfileUpdateIntervalHours c) (C_ServerHost c) (C_ConfigDir c) (C_DBPath c)
    (C_SyncInterval c) (C_BaseURL c) (C_FallbackBaseURL c) (C_FallbackServerHost c)
    (C_FallbackInboundHosts c) (C_FallbackInboundTags c) (C_KillSwitchInboundTags c)
    (C_ExcludeInboundTags c) (C_Hysteria c) (C_AdminToken c) s (C_BalancerProbeURL c)
    (C_BalancerProbeFreq c) (C_SocksInboundPort c) (C_HTTPInboundPort c)
    (C_RateLimitSubPerMin c) (C_RateLimitAdminPerMin c) (C_APIUserInboundTag c)
    (C_XrayAPIAddr c) (C_APIUserInboundProtocol c) (C_APIUserInboundPort c)
    (C_XrayConfigFileMode c) (C_InboundHosts c) (C_InboundPorts c) (C_ClientBlackholeResponse c)
    (C_ClientDNSServers c) (C_VLESSClientEncryption c) (C_XrayEnabled c)
    (C_KillSwitchReconcileInterval c) (C_Nodes c) (C_xrayFilePerm c).
Definition with_encryption_perm (c : Config) (enc : gmap string string) (perm : Z) : Config :=
  mkConfig (C_ListenAddr c) (C_MetricsListen c) (C_MetricsAnonymizeSecret c)
    (C_ProfileUpdateIntervalHours c) (C_ServerHost c) (C_ConfigDir c) (C_DBPath c)
    (C_SyncInterval c) (C_BaseURL c) (C_FallbackBaseURL c) (C_FallbackServerHost c)
    (C_FallbackInboundHosts c) (C_FallbackInboundTags c) (C_KillSwitchInboundTags c)
    (C_ExcludeInboundTags c) (C_Hysteria c) (C_AdminToken c) (C_BalancerStrategy c)
    (C_BalancerProbeURL c) (C_BalancerProbeFreq c) (C_SocksInboundPort c) (C_HTTPInboundPort c)
    (C_RateLimitSubPerMin c) (C_RateLimitAdminPerMin c) (C_APIUserInboundTag c)
    (C_XrayAPIAddr c) (C_APIUserInboundProtocol c) (C_APIUserInboundPort c)
    (C_XrayConfigFileMode c) (C_InboundHosts c) (C_InboundPorts c) (C_ClientBlackholeResponse c)
    (C_ClientDNSServers c) enc (C_XrayEnabled c)
    (C_KillSwitchReconcileInterval c) (C_Nodes c) perm.

(** ** Methods *)

Definition IsEnabled (n : NodeConfig) : bool := default true (NC_Enabled n).

Definition DeployMode (n : NodeConfig) : string :=
  match NC_Deploy n with
  | None => "grpc"
  | Some d => if String.eqb (TrimSpace (Deploy_Mode d)) "" then "grpc" else TrimSpace (Deploy_Mode d)
  end.

Definition KillSwitchTags (c : Config) : list string :=
  match C_KillSwitchInboundTags c with [] => C_FallbackInboundTags c | tags => tags end.

Definition isPrivateHostPort (addr : string) : bool :=
  let host := match SplitHostPort (TrimSpace addr) with
              | Some (host, _) => host
              | None => TrimSpace addr
              end in
  match ParseIP host with
  | None => false
  | Some ip => IsLoopback ip || IsPrivate ip || IsLinkLocalUnicast ip
  end.

(** The checks of one node, [seen] being the names before it. *)
Definition node_error (i : Z) (seen : list string) (n : NodeConfig) : option error :=
  let name := TrimSpace (NC_Name n) in
  let node := "node " +:+ Quote name +:+ ": " in
  if String.eqb name "" then Some ("node[" +:+ Itoa i +:+ "]: name is required")
  else if bool_decide (name ∈ seen) then Some (node +:+ "duplicate name")
  else if String.eqb (TrimSpace (NC_APIAddr n)) "" then Some (node +:+ "api_addr is required")
  else
    let mode := DeployMode n in
    if negb (String.eqb mode "grpc") && negb (String.eqb mode "ssh_rsync") then
      Some (node +:+ "invalid deploy.mode " +:+ Quote mode +:+ " (want grpc|ssh_rsync)")
    else if match NC_TLS n with
            | Some tls => String.eqb (TrimSpace (NTLS_CACert tls)) ""
                || String.eqb (TrimSpace (NTLS_ClientCert tls)) ""
                || String.eqb (TrimSpace (NTLS_ClientKey tls)) ""
            | None => false
            end then
      Some (node +:+ "tls requires ca_cert, client_cert and client_key")
    else if String.eqb mode "grpc" && negb (bool_decide (is_Some (NC_TLS n)))
            && negb (NC_AllowPublicGRPC n) && negb (isPrivateHostPort (NC_APIAddr n)) then
      Some (node +:+ "api_addr " +:+ Quote (NC_APIAddr n)
        +:+ " is not a private/loopback address; bind Xray's gRPC to a WireGuard/private address, "
        +:+ "add a tls block to guard it with mTLS, or set allow_public_grpc:true if you guard it another way")
    else None.

Fixpoint validate_from (i : Z) (seen : list string) (nodes : list NodeConfig) : option error :=
  match nodes with
  | [] => None
  | n :: r =>
      match node_error i seen n with
      | Some e => Some e
      | None => validate_from (i + 1) (TrimSpace (NC_Name n) :: seen) r
      end
  end.
Definition validateNodes (nodes : list NodeConfig) : option error := validate_from 0 [] nodes.

Definition ResolvedNodes (c : Config) : list NodeConfig :=
  match C_Nodes c with
  | [] => [mkNodeConfig "local" (C_XrayAPIAddr c) (C_APIUserInboundTag c) (C_ServerHost c) 443
             None None false None]
  | ns => ns
  end.

(** Go iterates over a map in an unspecified order. *)
Class MapOrder := {
  map_order : gmap string string → list (string * string);
  map_order_perm : ∀ m, map_order m ≡ₚ map_to_list m }.

(** The loop of [normalizeVLESSClientEncryption] over the entries in order. *)
Definition normalize_entries (entries : list (string * string)) : gmap string string :=
  foldl (λ out kv,
    let k := TrimSpace kv.1 in
    let v := TrimSpace kv.2 in
    if String.eqb k "" || String.eqb v "" then out else <[k := v]> out) ∅ entries.
Definition normalizeVLESSClientEncryption `{MapOrder} (m : gmap string string) : gmap string string :=
  normalize_entries (map_order m).

(** ** The file mode *)

Fixpoint octal_value (acc : Z) (s : string) : Z :=
  match s with EmptyString => acc | String c r => octal_value (acc * 8 + digit c) r end.
Definition is_octal (c : ascii) : bool := let n := code c in ((48 <=? n) && (n <=? 55))%N.

(** Octal digits, as [%o] prints them; [fuel] bounds their number. *)
Fixpoint octal_digits (fuel : nat) (z : Z) (acc : string) : string :=
  match fuel with
  | O => acc
  | S fuel =>
      let acc := String (ascii_of_N (48 + Z.to_N (z mod 8))) acc in
      if (z <? 8)%Z then acc else octal_digits fuel (z / 8) acc
  end.
Definition Octal (z : Z) : string := octal_digits 11 z "".

Definition parseXrayConfigFileMode (s : string) : error + Z :=
  let s := TrimSpace s in
  if String.eqb s "" then inr 384%Z
  else
    let s := TrimPrefix (TrimPrefix s "0o") "0O" in
    if String.eqb s "" then inl "empty after stripping 0o prefix"
    else if negb (string_forallb is_octal s) then inl ("invalid octal digit in " +:+ Quote s)
    else
      let u := octal_value 0 s in
      if (2 ^ 32 <=? u)%Z then
        inl ("parse octal: strconv.ParseUint: parsing " +:+ Quote s +:+ ": value out of range")
      else if (511 <? u)%Z then inl ("mode must be <= 0777, got 0" +:+ Octal u)
      else inr (Z.land u 511).

(** The method on a nil receiver is the [None] case. *)
Definition XrayConfigFilePerm (c : option Config) : Z :=
  match c with
  | None => 384
  | Some c => if Z.eqb (C_xrayFilePerm c) 0 then 384 else C_xrayFilePerm c
  end.

Definition IsXrayEnabled (c : Config) : bool := default true (C_XrayEnabled c).

Definition HostForInbound (c : Config) (tag : string) : string :=
  match C_InboundHosts c !! tag with
  | Some h => if String.eqb (TrimSpace h) "" then C_ServerHost c else h
  | None => C_ServerHost c
  end.

(** ** Subscription URLs *)

Definition SubURL (c : Config) (token : string) : string := C_BaseURL c +:+ "/sub/" +:+ token.

Definition fallback_base (c : Config) : string :=
  if String.eqb (C_FallbackBaseURL c) "" then C_BaseURL c else C_FallbackBaseURL c.
Definition FallbackURL (c : Config) (fallbackToken : string) : string :=
  if String.eqb fallbackToken "" then ""
  else fallback_base c +:+ "/sub/fallback/" +:+ fallbackToken.

Definition Config_SubURLs (c : Config) (token : string) : SubURLs :=
  let sub := C_BaseURL c +:+ "/sub/" +:+ token in
  let compact := C_BaseURL c +:+ "/c/" +:+ token in
  mkSubURLs sub (sub +:+ "/links.txt") (sub +:+ "/links.b64")
    compact (compact +:+ "/links.txt") (compact +:+ "/links.b64")
    (match C_Hysteria c with
     | Some h => if Hy_Enabled h then sub +:+ "/hy2" else ""
     | None => ""
     end) "" "" "" "" "" "".

Definition SubURLsWithFallback (c : Config) (token fallbackToken : string) : SubURLs :=
  let urls := Config_SubURLs c token in
  if String.eqb fallbackToken "" then urls
  else
    let fsub := fallback_base c +:+ "/sub/fallback/" +:+ fallbackToken in
    let fcp := fallback_base c +:+ "/c/fallback/" +:+ fallbackToken in
    mkSubURLs (SubURLs_Full urls) (SubURLs_LinksText urls) (SubURLs_LinksB64 urls)
      (SubURLs_Compact urls) (SubURLs_CompactText urls) (SubURLs_CompactB64 urls) (SubURLs_Hy2 urls)
      fsub (fsub +:+ "/links.txt") (fsub +:+ "/links.b64")
      fcp (fcp +:+ "/links.txt") (fcp +:+ "/links.b64").

Definition normalizeBalancerStrategy (v : string) : string :=
  let s := ToLower (TrimSpace v) in
  if String.eqb s "" || String.eqb s "leastping" then "leastPing"
  else if String.eqb s "random" then "random"
  else if String.eqb s "roundrobin" then "roundRobin"
  else if String.eqb s "leastload" then "leastLoad"
  else "".

(** ** [Load] *)

Inductive ReadResult := FileMissing | ReadFailed (e : error) | FileData (data : string).

Definition Load `{MapOrder} (read : string → ReadResult) (path : string) : error + Config :=
  if String.eqb path "" then
    match parseXrayConfigFileMode (C_XrayConfigFileMode default_config) with
    | inl e => inl e
    | inr perm => inr (with_encryption_perm default_config ∅ perm)
    end
  else match read path with
  | FileMissing => inl ("config file not found: " +:+ path)
  | ReadFailed e => inl ("read config file: " +:+ e)
  | FileData data =>
      match Unmarshal (decode_Config default_config) data with
      | inl e => inl ("parse config file: " +:+ e)
      | inr cfg =>
          let enc := normalizeVLESSClientEncryption (C_VLESSClientEncryption cfg) in
          if String.eqb (C_ServerHost cfg) "" then inl "server_host is required in config"
          else
            let strategy := normalizeBalancerStrategy (C_BalancerStrategy cfg) in
            if String.eqb strategy "" then
              inl "invalid balancer_strategy: must be one of random, roundRobin, leastPing, leastLoad"
            else match validateNodes (C_Nodes cfg) with
            | Some e => inl ("nodes: " +:+ e)
            | None =>
                match parseXrayConfigFileMode (C_XrayConfigFileMode cfg) with
                | inl e => inl ("xray_config_file_mode: " +:+ e)
                | inr perm => inr (with_encryption_perm (with_strategy cfg strategy) enc perm)
                end
            end
      end
  end.

(** ** Node validation *)

(** What the operator is promised about one configured node. *)
Definition node_ok (n : NodeConfig) : Prop :=
  TrimSpace (NC_Name n) ≠ "" ∧ TrimSpace (NC_APIAddr n) ≠ ""
  ∧ (DeployMode n = "grpc" ∨ DeployMode n = "ssh_rsync")
  ∧ (∀ tls, NC_TLS n = Some tls → TrimSpace (NTLS_CACert tls) ≠ ""
       ∧ TrimSpace (NTLS_ClientCert tls) ≠ "" ∧ TrimSpace (NTLS_ClientKey tls) ≠ "")
  ∧ (DeployMode n = "grpc" → NC_TLS n = None → NC_AllowPublicGRPC n = false →
       isPrivateHostPort (NC_APIAddr n) = true).

Lemma node_error_None i seen n :
  node_error i seen n = None ↔ (TrimSpace (NC_Name n) ∉ seen) ∧ node_ok n.
Proof.
  unfold node_error, node_ok. split.
  - intros H. repeat case_if; try done. bool_simp. split; [done|]. split_and!; try done.
    + apply andb_false_iff in Heqb2. rewrite !negb_false_iff, !String.eqb_eq in Heqb2. done.
    + intros tls Htls. rewrite Htls in Heqb3. bool_simp. done.
    + intros Hm Ht Ha. rewrite Hm, Ht, Ha in Heqb4. simpl in Heqb4. by apply negb_false_iff in Heqb4.
  - intros (Hs & H1 & H2 & H3 & H4 & H5).
    rewrite (proj2 (String.eqb_neq _ _) H1), (proj2 (String.eqb_neq _ _) H2).
    rewrite bool_decide_eq_false_2 by done.
    assert (negb (String.eqb (DeployMode n) "grpc") && negb (String.eqb (DeployMode n) "ssh_rsync") = false)
      as -> by (by destruct H3 as [-> | ->]).
    destruct (NC_TLS n) as [tls|]; simpl.
    + destruct (H4 tls eq_refl) as (T1 & T2 & T3).
      rewrite !(proj2 (String.eqb_neq _ _)) by done. simpl. by rewrite andb_false_r.
    + destruct (String.eqb_spec (DeployMode n) "grpc") as [Hm|]; [|done]. simpl.
      destruct (NC_AllowPublicGRPC n) eqn:Ha; [done|]. simpl. by rewrite (H5 Hm eq_refl eq_refl).
Qed.

Lemma validate_from_None i seen nodes :
  validate_from i seen nodes = None ↔
  NoDup ((TrimSpace ∘ NC_Name) <$> nodes) ∧ (∀ n, n ∈ nodes → (TrimSpace (NC_Name n) ∉ seen) ∧ node_ok n).
Proof.
  revert i seen. induction nodes as [|n ns IH]; intros i seen; simpl.
  - split; [|done]. split; [constructor|]. by intros n ?%elem_of_nil.
  - destruct (node_error i seen n) as [e|] eqn:E.
    + split; [done|]. intros [_ H].
      apply (proj2 (node_error_None i seen n)) in H; [congruence|apply list_elem_of_here].
    + apply node_error_None in E as [E1 E2]. rewrite IH, NoDup_cons. split.
      * intros [Hd Hn]. split; [split; [|done]|].
        -- intros (m & Hm & Hin)%list_elem_of_fmap. destruct (Hn m Hin) as [H _]. apply H.
           simpl in Hm. rewrite <- Hm. apply list_elem_of_here.
        -- intros m [->|Hm]%elem_of_cons; [done|]. destruct (Hn m Hm) as [H1 H2].
           split; [|done]. intros H. apply H1. by apply list_elem_of_further.
      * intros [[Hd1 Hd2] Hn]. split; [done|]. intros m Hm.
        destruct (Hn m) as [H1 H2]; [by apply list_elem_of_further|]. split; [|done].
        rewrite not_elem_of_cons. split; [|done]. intros Heq. apply Hd1.
        apply list_elem_of_fmap. by exists m.
Qed.

(** [validateNodes] accepts exactly the topologies whose names are
    distinct and non-blank, whose nodes have an address and a known deploy
    mode, whose TLS blocks are complete, and in which no gRPC node is reached
    in plaintext over a public address without the operator's opt-in. *)
Lemma validateNodes_iff nodes :
  validateNodes nodes = None ↔
  NoDup ((TrimSpace ∘ NC_Name) <$> nodes) ∧ ∀ n, n ∈ nodes → node_ok n.
Proof.
  unfold validateNodes. rewrite validate_from_None.
  split; intros [H1 H2]; (split; [done|]); intros n Hn.
  - by apply H2.
  - split; [apply not_elem_of_nil|by apply H2].
Qed.

(** ** Private addresses *)

Lemma octet_digits a : octet a → string_forallb is_digit (Itoa a) = true.
Proof.
  revert a. apply octet_all. intros n Hn. do 256 (destruct n as [|n]; [reflexivity|]). lia.
Qed.

Definition is_dotted_char (c : ascii) : bool := is_digit c || Ascii.eqb c ".".

Lemma dotted_chars a b c d :
  octet a → octet b → octet c → octet d → string_forallb is_dotted_char (dotted a b c d) = true.
Proof.
  intros Ha Hb Hc Hd. unfold dotted. rewrite !string_forallb_app. simpl.
  rewrite !string_forallb_app. simpl. rewrite !string_forallb_app. simpl.
  assert (Hi : ∀ z, octet z → string_forallb is_dotted_char (Itoa z) = true).
  { intros z Hz. apply (string_forallb_impl is_digit); [|by apply octet_digits].
    intros x Hx. unfold is_dotted_char. by rewrite Hx. }
  by rewrite !Hi.
Qed.

Lemma ip_family_dotted a r :
  octet a → ip_family (Itoa a +:+ String "." r) = Some "."%char.
Proof.
  revert a. apply (octet_all (λ a, ip_family (Itoa a +:+ String "." r) = Some "."%char)).
  intros n Hn. do 256 (destruct n as [|n]; [reflexivity|]). lia.
Qed.

Lemma SplitHostPort_plain h p :
  string_forallb is_dotted_char h = true → string_forallb is_digit p = true →
  SplitHostPort (h +:+ String ":" p) = Some (h, p).
Proof.
  intros Hh Hp. unfold SplitHostPort.
  assert (Hn : ∀ c, is_dotted_char c = false → contains_char c h = false ∧ contains_char c p = false).
  { intros c Hc. split; [by apply (contains_char_forallb is_dotted_char)|].
    apply (contains_char_forallb is_digit); [|done]. unfold is_dotted_char in Hc.
    by apply orb_false_iff in Hc as [? _]. }
  destruct (Hn ":"%char eq_refl), (Hn "["%char eq_refl), (Hn "]"%char eq_refl).
  rewrite split_last_app by done.
  assert (E : ∀ c r, h +:+ String ":" p = String c r → c ≠ "["%char).
  { intros c r He ->. destruct h as [|x h]; [done|]. injection He as -> _.
    simpl in Hh. done. }
  destruct (h +:+ String ":" p) as [|c r] eqn:Hs; [by destruct h|].
  specialize (E c r eq_refl).
  assert (Hc : contains_char "[" (String c r) = false ∧ contains_char "]" (String c r) = false).
  { rewrite <- Hs, !contains_char_app. simpl. by rewrite H1, H2, H3, H4. }
  destruct Hc as [-> ->]. rewrite H. simpl.
  by destruct c as [[] [] [] [] [] [] [] []].
Qed.

(** For a dotted-decimal address with a port, the gRPC guard accepts
    exactly 127/8, 10/8, 172.16/12, 192.168/16 and 169.254/16. *)
Lemma isPrivateHostPort_ipv4 a b c d port :
  octet a → octet b → octet c → octet d → string_forallb is_digit port = true →
  isPrivateHostPort (dotted a b c d +:+ String ":" port)
  = Z.eqb a 127 || Z.eqb a 10 || (Z.eqb a 172 && ((16 <=? b) && (b <=? 31))%Z)
    || (Z.eqb a 192 && Z.eqb b 168) || (Z.eqb a 169 && Z.eqb b 254).
Proof.
  intros Ha Hb Hc Hd Hp. unfold isPrivateHostPort.
  assert (Hdot := dotted_chars a b c d Ha Hb Hc Hd).
  assert (Hsp : ∀ x, is_dotted_char x = true → negb (is_space x) = true) by (intros x; all_bytes x).
  rewrite TrimSpace_no_space.
  2:{ rewrite string_forallb_app. simpl. rewrite (string_forallb_impl _ _ _ Hsp Hdot).
      apply (string_forallb_impl is_digit); [|done]. intros x; all_bytes x. }
  rewrite SplitHostPort_plain by done.
  unfold ParseIP. unfold dotted at 1. rewrite ip_family_dotted, parseIPv4_dotted by done.
  unfold IsLoopback, IsPrivate, IsLinkLocalUnicast. cbn [v4_mapped To4 fmap option_fmap option_map].
  unfold To4. cbn [v4_mapped replicate app take drop].
  rewrite bool_decide_eq_true_2 by done. cbn [byte_at nth].
  assert (Z.eqb (Z.land b 240) 16 = (16 <=? b)%Z && (b <=? 31)%Z) as ->.
  { clear -Hb. revert b Hb.
    apply octet_all. intros n Hn. do 256 (destruct n as [|n]; [reflexivity|]). lia. }
  by rewrite !orb_assoc.
Qed.

Lemma isPrivateHostPort_ipv4_witness :
  isPrivateHostPort "10.7.0.1:10085" = true ∧ isPrivateHostPort "8.8.8.8:10085" = false.
Proof.
  split.
  - apply (isPrivateHostPort_ipv4 10 7 0 1 "10085"); unfold octet; try lia; reflexivity.
  - apply (isPrivateHostPort_ipv4 8 8 8 8 "10085"); unfold octet; try lia; reflexivity.
Defined.

(** ** File modes *)

Lemma parse_mode_bounds s p : parseXrayConfigFileMode s = inr p → (0 <= p <= 511)%Z.
Proof.
  unfold parseXrayConfigFileMode. repeat case_if; intros [= <-]; [lia|].
  change 511%Z with (Z.ones 9). rewrite Z.land_ones by lia.
  pose proof (Z.mod_pos_bound (octal_value 0 (TrimPrefix (TrimPrefix (TrimSpace s) "0o") "0O")) (2 ^ 9)).
  change (Z.ones 9) with 511%Z. lia.
Qed.

Definition modes_roundtrip : bool :=
  forallb (λ n, let m := Z.of_nat n in
    match parseXrayConfigFileMode (Octal m), parseXrayConfigFileMode ("0o" +:+ Octal m),
          parseXrayConfigFileMode (" 0" +:+ Octal m) with
    | inr a, inr b, inr c => Z.eqb a m && Z.eqb b m && Z.eqb c m
    | _, _, _ => false
    end) (seq 0 512).

(** A file mode is always within 0777, every mode is read back from its
    octal form ([755], [0o755], [0755], surrounding blanks allowed), and the
    empty text means 0600. *)
Lemma parseXrayConfigFileMode_roundtrip :
  (∀ s p, parseXrayConfigFileMode s = inr p → (0 <= p <= 511)%Z)
  ∧ (∀ m, (0 <= m <= 511)%Z →
       parseXrayConfigFileMode (Octal m) = inr m
       ∧ parseXrayConfigFileMode ("0o" +:+ Octal m) = inr m
       ∧ parseXrayConfigFileMode (" 0" +:+ Octal m) = inr m)
  ∧ parseXrayConfigFileMode "" = inr 384%Z.
Proof.
  split_and!; [| |done].
  - apply parse_mode_bounds.
  - intros m Hm. assert (modes_roundtrip = true) as H by (vm_compute; reflexivity).
    unfold modes_roundtrip in H. rewrite forallb_forall in H.
    specialize (H (Z.to_nat m)). rewrite Z2Nat.id in H by lia.
    assert (In (Z.to_nat m) (seq 0 512)) as Hin by (apply in_seq; lia). apply H in Hin.
    repeat case_match; try done. bool_simp. subst. done.
Qed.

(** ** VLESS encryption map *)

Section Encryption.
Context `{MapOrder}.

Definition kept (kv : string * string) : bool :=
negb (String.eqb (TrimSpace kv.1) "") && negb (String.eqb (TrimSpace kv.2) "").
Definition trim_entry (kv : string * string) : string * string := (TrimSpace kv.1, TrimSpace kv.2).

Lemma normalize_entries_lookup entries k v :
NoDup ((TrimSpace ∘ fst) <$> bfilter kept entries) →
normalize_entries entries !! k = Some v ↔ (k, v) ∈ trim_entry <$> bfilter kept entries.
Proof using Type.
unfold normalize_entries.
induction entries as [|kv l IH] using rev_ind; [simpl; by rewrite lookup_empty, elem_of_nil|].
rewrite bfilter_app, !fmap_app, foldl_app. simpl. intros (Hd1 & Hd2 & _)%NoDup_app.
specialize (IH Hd1). rewrite elem_of_app.
destruct (String.eqb (TrimSpace kv.1) "" || String.eqb (TrimSpace kv.2) "") eqn:E;
  unfold kept in *; rewrite <- negb_orb, E in *; simpl in *; [rewrite IH, elem_of_nil; tauto|].
rewrite list_elem_of_singleton. unfold trim_entry at 2.
destruct (decide (TrimSpace kv.1 = k)) as [<-|Hne].
- rewrite lookup_insert_eq. split; [intros [= <-]; by right|].
  intros [Hin|[= ->]]; [|done]. exfalso. apply (Hd2 (TrimSpace kv.1)).
  + apply list_elem_of_fmap in Hin as (x & [= Hx _] & Hx2). rewrite Hx.
    by apply (list_elem_of_fmap_2 (TrimSpace ∘ fst)).
  + by apply list_elem_of_singleton.
- rewrite lookup_insert_ne, IH by done. split; [by left|].
  intros [?|[= ? ?]]; [done|congruence].
Qed.

(** normalisation maps each trimmed, non-blank tag to its trimmed,
  non-blank value and drops the rest, in whatever order Go visits the map,
  provided no two tags differ only in surrounding blanks. *)
Lemma normalizeVLESSClientEncryption_spec m k v :
NoDup ((TrimSpace ∘ fst) <$> bfilter kept (map_to_list m)) →
normalizeVLESSClientEncryption m !! k = Some v ↔
∃ k0 v0, m !! k0 = Some v0 ∧ k = TrimSpace k0 ∧ v = TrimSpace v0 ∧ k ≠ "" ∧ v ≠ "".
Proof using Type.
intros Hd. unfold normalizeVLESSClientEncryption.
assert (Hp : ∀ l l', l ≡ₚ l' → bfilter kept l ≡ₚ bfilter kept l').
{ induction 1; simpl; repeat case_if; eauto using Permutation. }
pose proof (Hp _ _ (map_order_perm m)) as Hperm.
rewrite normalize_entries_lookup by (rewrite Hperm; exact Hd).
rewrite Hperm. rewrite list_elem_of_fmap. split.
- intros ([k0 v0] & [= -> ->] & [Hk Hin]%elem_of_bfilter). apply elem_of_map_to_list in Hin.
  unfold kept in Hk. bool_simp. by exists k0, v0.
- intros (k0 & v0 & Hm & -> & -> & Hk & Hv). exists (k0, v0). split; [done|].
  apply elem_of_bfilter. split; [|by apply elem_of_map_to_list].
  unfold kept. simpl. apply andb_true_iff. split; apply negb_true_iff; by apply String.eqb_neq.
Qed.

(** C35: a configuration that loads from a file is validated: it has a
  server host, one of the four balancer strategies, a validated node list
  (so at least one resolved node, each in order when nodes are given), and
  a file mode within 0777. *)
Theorem Load_validated read path c :
path ≠ "" → Load read path = inr c →
C_ServerHost c ≠ ""
∧ C_BalancerStrategy c ∈ ["leastPing"; "random"; "roundRobin"; "leastLoad"]
∧ validateNodes (C_Nodes c) = None ∧ ResolvedNodes c ≠ []
∧ (0 <= C_xrayFilePerm c <= 511)%Z
∧ (∀ k v, C_VLESSClientEncryption c !! k = Some v → k ≠ "" ∧ v ≠ "").
Proof using Type.
intros Hpath. unfold Load. rewrite (proj2 (String.eqb_neq _ _)) by done.
destruct (read path) as [|e|data]; try done.
destruct (Unmarshal _ data) as [e|cfg]; [done|].
destruct (String.eqb_spec (C_ServerHost cfg) ""); [done|].
destruct (String.eqb_spec (normalizeBalancerStrategy (C_BalancerStrategy cfg)) "") as [|Hs]; [done|].
destruct (validateNodes (C_Nodes cfg)) eqn:Hv; [done|].
destruct (parseXrayConfigFileMode _) as [|perm] eqn:Hperm; [done|].
intros [= <-]. simpl. split_and!; try done.
- revert Hs. unfold normalizeBalancerStrategy. repeat case_if; intros; try done; set_solver.
- unfold ResolvedNodes. simpl. by destruct (C_Nodes cfg).
- by apply (parse_mode_bounds _ _ Hperm).
- by apply (parse_mode_bounds _ _ Hperm).
- unfold normalizeVLESSClientEncryption, normalize_entries. intros k v.
  generalize (map_order (C_VLESSClientEncryption cfg)). intros l.
  induction l as [|kv l IH] using rev_ind; [simpl; by rewrite lookup_empty|].
  rewrite foldl_app. simpl. case_if; [done|]. bool_simp.
  destruct (decide (TrimSpace kv.1 = k)) as [<-|]; [|by rewrite lookup_insert_ne].
  rewrite lookup_insert_eq. by intros [= <-].
Qed.
End Encryption.

(** One iteration order, to evaluate the definitions. *)
Definition ListMapOrder : MapOrder := {| map_order := map_to_list; map_order_perm m := reflexivity _ |}.

Lemma normalizeVLESSClientEncryption_witness :
  @normalizeVLESSClientEncryption ListMapOrder {[" in " := "enc "]} !! "in" = Some "enc".
Proof.
  apply (@normalizeVLESSClientEncryption_spec ListMapOrder {[" in " := "enc "]} "in" "enc").
  - decide_closed.
  - exists " in ", "enc ". by split_and!.
Defined.

(** [{"server_host":"h","balancer_strategy":" LeastLoad"}] *)
Definition sample_config_file : string :=
  json_marshal (JObj [("server_host", JStr "h"); ("balancer_strategy", JStr " LeastLoad")]).

Lemma Load_validated_witness :
  ∃ c, @Load ListMapOrder (λ _, FileData sample_config_file) "c.json" = inr c
    ∧ C_BalancerStrategy c = "leastLoad"
    ∧ C_BalancerStrategy c ∈ ["leastPing"; "random"; "roundRobin"; "leastLoad"].
Proof.
  destruct (@Load ListMapOrder (λ _, FileData sample_config_file) "c.json") as [e|c] eqn:E;
    [exfalso; by vm_compute in E|].
  exists c. split; [done|]. split.
  - assert (match @Load ListMapOrder (λ _, FileData sample_config_file) "c.json" with
      | inr c => C_BalancerStrategy c | inl _ => "" end = "leastLoad") as H by (vm_compute; reflexivity).
    by rewrite E in H.
  - by apply (@Load_validated ListMapOrder (λ _, FileData sample_config_file) "c.json" c).
Defined.
