(* ===== verification/XrayTypes.v ===== *)
(** * Xray configuration types: [internal/xray/types.go]

    Server-side structs are read from inbound JSON, client-side structs are
    what the generator produces. Fields the program keeps as
    [json.RawMessage] or [interface{}] are [option json]. *)

From S2P Require Import Prelude GoString Json JsonDecode.

(** ** Server side *)

Record TLSSettings := mkTLSSettings {
  TLS_ServerName : string; TLS_Fingerprint : string; TLS_ALPN : list string;
  TLS_AllowInsecure : bool; TLS_PinnedPeerCertSha256 : list string;
  TLS_VerifyPeerCertByName : string; TLS_Certificates : option json }.

Record RealitySettings := mkRealitySettings {
  Reality_Show : bool; Reality_Dest : string; Reality_XVer : Z;
  Reality_ServerNames : list string; Reality_PrivateKey : string;
  Reality_ShortIds : list string; Reality_MLDSA65Seed : string;
  Reality_MinClientVer : string; Reality_MaxClientVer : string; Reality_MaxTimeDiff : Z;
  Reality_PublicKey : string;
  Reality_ServerName : string; Reality_Fingerprint : string; Reality_ShortId : string;
  Reality_SpiderX : string; Reality_MLDSA65Verify : string }.

Record TCPSettings := mkTCPSettings { TCP_Header : option json }.
Record HTTPSettings := mkHTTPSettings { HTTP_Host : list string; HTTP_Path : string }.
Record KCPSettings := mkKCPSettings {
  KCP_MTU : Z; KCP_TTI : Z; KCP_UplinkCapacity : Z; KCP_DownlinkCapacity : Z;
  KCP_Congestion : bool; KCP_ReadBufferSize : Z; KCP_WriteBufferSize : Z;
  KCP_Header : option json; KCP_Seed : string }.
Record QUICSettings := mkQUICSettings {
  QUIC_Security : string; QUIC_Key : string; QUIC_Header : option json }.

Record StreamSettings := mkStreamSettings {
  Stream_Network : string; Stream_Security : string;
  Stream_TLSSettings : option TLSSettings; Stream_RealitySettings : option RealitySettings;
  Stream_WSSettings : option json; Stream_GRPCSettings : option json;
  Stream_TCPSettings : option TCPSettings; Stream_HTTPSettings : option HTTPSettings;
  Stream_KCPSettings : option KCPSettings; Stream_QUICSettings : option QUICSettings;
  Stream_HTTPUpgradeSettings : option json; Stream_XHTTPSettings : option json }.

Record ServerInbound := mkServerInbound {
  SI_Tag : string; SI_Listen : string; SI_Port : option json; SI_Protocol : string;
  SI_Settings : option json; SI_StreamSettings : option StreamSettings }.

Record VMessClient := mkVMessClient {
  VMessC_ID : string; VMessC_AlterId : Z; VMessC_Email : string; VMessC_Level : Z }.
Record VMessInboundSettings := mkVMessInboundSettings { VMessIn_Clients : list VMessClient }.
Record VLESSClient := mkVLESSClient {
  VLESSC_ID : string; VLESSC_Flow : string; VLESSC_Email : string; VLESSC_Level : Z }.
Record VLESSInboundSettings := mkVLESSInboundSettings {
  VLESSIn_Clients : list VLESSClient; VLESSIn_Decryption : string; VLESSIn_Testpre : Z }.
Record TrojanClient := mkTrojanClient {
  TrojanC_Password : string; TrojanC_Email : string; TrojanC_Level : Z }.
Record TrojanInboundSettings := mkTrojanInboundSettings { TrojanIn_Clients : list TrojanClient }.
Record ShadowsocksClient := mkShadowsocksClient {
  SSC_Password : string; SSC_Email : string; SSC_Method : string }.
Record ShadowsocksInboundSettings := mkShadowsocksInboundSettings {
  SSIn_Method : string; SSIn_Password : string; SSIn_Clients : list ShadowsocksClient;
  SSIn_Network : string }.
Record SOCKSAccount := mkSOCKSAccount { SOCKSA_User : string; SOCKSA_Pass : string }.
Record SOCKSInboundSettings := mkSOCKSInboundSettings {
  SOCKSIn_Auth : string; SOCKSIn_Accounts : list SOCKSAccount; SOCKSIn_UDP : bool }.

(** *** Decoding server-side JSON *)

Definition decode_TLSSettings : decoder TLSSettings := λ j,
  kvs <~ d_object j;;
  serverName <~ d_field d_string "serverName" kvs;;
  fingerprint <~ d_field d_string "fingerprint" kvs;;
  alpn <~ d_field (d_list d_string) "alpn" kvs;;
  allowInsecure <~ d_field d_bool "allowInsecure" kvs;;
  pinned <~ d_field (d_list d_string) "pinnedPeerCertSha256" kvs;;
  verify <~ d_field d_string "verifyPeerCertByName" kvs;;
  certificates <~ d_iface_field "certificates" kvs;;
  dret (mkTLSSettings serverName fingerprint alpn allowInsecure pinned verify
    (normalize <$> certificates)).

Definition decode_RealitySettings : decoder RealitySettings := λ j,
  kvs <~ d_object j;;
  show <~ d_field d_bool "show" kvs;;
  dest <~ d_field d_string "dest" kvs;;
  xver <~ d_field d_int "xver" kvs;;
  serverNames <~ d_field (d_list d_string) "serverNames" kvs;;
  privateKey <~ d_field d_string "privateKey" kvs;;
  shortIds <~ d_field (d_list d_string) "shortIds" kvs;;
  seed <~ d_field d_string "mldsa65Seed" kvs;;
  minVer <~ d_field d_string "minClientVer" kvs;;
  maxVer <~ d_field d_string "maxClientVer" kvs;;
  maxTimeDiff <~ d_field d_int "maxTimeDiff" kvs;;
  publicKey <~ d_field d_string "publicKey" kvs;;
  serverName <~ d_field d_string "serverName" kvs;;
  fingerprint <~ d_field d_string "fingerprint" kvs;;
  shortId <~ d_field d_string "shortId" kvs;;
  spiderX <~ d_field d_string "spiderX" kvs;;
  verify <~ d_field d_string "mldsa65Verify" kvs;;
  dret (mkRealitySettings show dest xver serverNames privateKey shortIds seed minVer maxVer
    maxTimeDiff publicKey serverName fingerprint shortId spiderX verify).

Definition decode_TCPSettings : decoder TCPSettings := λ j,
  kvs <~ d_object j;; header <~ d_iface_field "header" kvs;;
  dret (mkTCPSettings (normalize <$> header)).

Definition decode_HTTPSettings : decoder HTTPSettings := λ j,
  kvs <~ d_object j;;
  host <~ d_field (d_list d_string) "host" kvs;;
  path <~ d_field d_string "path" kvs;;
  dret (mkHTTPSettings host path).

Definition decode_KCPSettings : decoder KCPSettings := λ j,
  kvs <~ d_object j;;
  mtu <~ d_field d_int "mtu" kvs;;
  tti <~ d_field d_int "tti" kvs;;
  up <~ d_field d_int "uplinkCapacity" kvs;;
  down <~ d_field d_int "downlinkCapacity" kvs;;
  congestion <~ d_field d_bool "congestion" kvs;;
  rbuf <~ d_field d_int "readBufferSize" kvs;;
  wbuf <~ d_field d_int "writeBufferSize" kvs;;
  header <~ d_iface_field "header" kvs;;
  seed <~ d_field d_string "seed" kvs;;
  dret (mkKCPSettings mtu tti up down congestion rbuf wbuf (normalize <$> header) seed).

Definition decode_QUICSettings : decoder QUICSettings := λ j,
  kvs <~ d_object j;;
  security <~ d_field d_string "security" kvs;;
  key <~ d_field d_string "key" kvs;;
  header <~ d_iface_field "header" kvs;;
  dret (mkQUICSettings security key (normalize <$> header)).

(** [StreamSettings.UnmarshalJSON]: the plain decoding, then the transport
    name [raw] becomes [tcp]. A decoding error leaves the target untouched. *)
Definition decode_StreamSettings_alias : decoder StreamSettings := λ j,
  kvs <~ d_object j;;
  network <~ d_field d_string "network" kvs;;
  security <~ d_field d_string "security" kvs;;
  tls <~ d_field (d_ptr decode_TLSSettings) "tlsSettings" kvs;;
  reality <~ d_field (d_ptr decode_RealitySettings) "realitySettings" kvs;;
  ws <~ d_raw_field "wsSettings" kvs;;
  grpc <~ d_raw_field "grpcSettings" kvs;;
  tcp <~ d_field (d_ptr decode_TCPSettings) "tcpSettings" kvs;;
  http <~ d_field (d_ptr decode_HTTPSettings) "httpSettings" kvs;;
  kcp <~ d_field (d_ptr decode_KCPSettings) "kcpSettings" kvs;;
  quic <~ d_field (d_ptr decode_QUICSettings) "quicSettings" kvs;;
  hu <~ d_raw_field "httpupgradeSettings" kvs;;
  xhttp <~ d_raw_field "xhttpSettings" kvs;;
  dret (mkStreamSettings network security tls reality ws grpc tcp http kcp quic hu xhttp).

Definition with_network (s : StreamSettings) (n : string) : StreamSettings :=
  mkStreamSettings n (Stream_Security s) (Stream_TLSSettings s) (Stream_RealitySettings s)
    (Stream_WSSettings s) (Stream_GRPCSettings s) (Stream_TCPSettings s) (Stream_HTTPSettings s)
    (Stream_KCPSettings s) (Stream_QUICSettings s) (Stream_HTTPUpgradeSettings s)
    (Stream_XHTTPSettings s).

Definition canonical_network (n : string) : string :=
  if EqualFold (TrimSpace n) "raw" then "tcp" else n.

Definition zero_StreamSettings : StreamSettings :=
  mkStreamSettings "" "" None None None None None None None None None None.

Definition decode_StreamSettings : decoder StreamSettings := λ j,
  let '(a, ok) := decode_StreamSettings_alias j in
  if ok then (with_network a (canonical_network (Stream_Network a)), true)
  else (zero_StreamSettings, false).

Definition decode_ServerInbound : decoder ServerInbound := λ j,
  kvs <~ d_object j;;
  tag <~ d_field d_string "tag" kvs;;
  listen <~ d_field d_string "listen" kvs;;
  port <~ d_raw_field "port" kvs;;
  protocol <~ d_field d_string "protocol" kvs;;
  settings <~ d_raw_field "settings" kvs;;
  stream <~ d_field (d_ptr decode_StreamSettings) "streamSettings" kvs;;
  dret (mkServerInbound tag listen port protocol settings stream).

Definition decode_VMessClient : decoder VMessClient := λ j,
  kvs <~ d_object j;;
  id <~ d_field d_string "id" kvs;; alterId <~ d_field d_int "alterId" kvs;;
  email <~ d_field d_string "email" kvs;; level <~ d_field d_int "level" kvs;;
  dret (mkVMessClient id alterId email level).
Definition decode_VMessInboundSettings : decoder VMessInboundSettings := λ j,
  kvs <~ d_object j;; clients <~ d_field (d_list decode_VMessClient) "clients" kvs;;
  dret (mkVMessInboundSettings clients).

Definition decode_VLESSClient : decoder VLESSClient := λ j,
  kvs <~ d_object j;;
  id <~ d_field d_string "id" kvs;; flow <~ d_field d_string "flow" kvs;;
  email <~ d_field d_string "email" kvs;; level <~ d_field d_int "level" kvs;;
  dret (mkVLESSClient id flow email level).
Definition decode_VLESSInboundSettings : decoder VLESSInboundSettings := λ j,
  kvs <~ d_object j;;
  clients <~ d_field (d_list decode_VLESSClient) "clients" kvs;;
  decryption <~ d_field d_string "decryption" kvs;;
  testpre <~ d_field d_uint32 "testpre" kvs;;
  dret (mkVLESSInboundSettings clients decryption testpre).

Definition decode_TrojanClient : decoder TrojanClient := λ j,
  kvs <~ d_object j;;
  password <~ d_field d_string "password" kvs;; email <~ d_field d_string "email" kvs;;
  level <~ d_field d_int "level" kvs;;
  dret (mkTrojanClient password email level).
Definition decode_TrojanInboundSettings : decoder TrojanInboundSettings := λ j,
  kvs <~ d_object j;; clients <~ d_field (d_list decode_TrojanClient) "clients" kvs;;
  dret (mkTrojanInboundSettings clients).

Definition decode_ShadowsocksClient : decoder ShadowsocksClient := λ j,
  kvs <~ d_object j;;
  password <~ d_field d_string "password" kvs;; email <~ d_field d_string "email" kvs;;
  method <~ d_field d_string "method" kvs;;
  dret (mkShadowsocksClient password email method).
Definition decode_ShadowsocksInboundSettings : decoder ShadowsocksInboundSettings := λ j,
  kvs <~ d_object j;;
  method <~ d_field d_string "method" kvs;;
  password <~ d_field d_string "password" kvs;;
  clients <~ d_field (d_list decode_ShadowsocksClient) "clients" kvs;;
  network <~ d_field d_string "network" kvs;;
  dret (mkShadowsocksInboundSettings method password clients network).

Definition decode_SOCKSAccount : decoder SOCKSAccount := λ j,
  kvs <~ d_object j;;
  user <~ d_field d_string "user" kvs;; pass <~ d_field d_string "pass" kvs;;
  dret (mkSOCKSAccount user pass).
Definition decode_SOCKSInboundSettings : decoder SOCKSInboundSettings := λ j,
  kvs <~ d_object j;;
  auth <~ d_field d_string "auth" kvs;;
  accounts <~ d_field (d_list decode_SOCKSAccount) "accounts" kvs;;
  udp <~ d_field d_bool "udp" kvs;;
  dret (mkSOCKSInboundSettings auth accounts udp).

(** ** Stored credentials *)

Record StoredClientConfig := mkStored {
  Stored_Protocol : string; Stored_ID : string; Stored_AlterId : Z; Stored_Flow : string;
  Stored_Email : string; Stored_Encryption : string; Stored_Testpre : Z;
  Stored_Password : string; Stored_Method : string; Stored_User : string }.

Definition zero_Stored : StoredClientConfig := mkStored "" "" 0 "" "" "" 0 "" "" "".

Definition encode_Stored (c : StoredClientConfig) : json :=
  JObj ([("protocol", JStr (Stored_Protocol c))]
    ++ omit_str "id" (Stored_ID c) ++ omit_int "alter_id" (Stored_AlterId c)
    ++ omit_str "flow" (Stored_Flow c) ++ omit_str "email" (Stored_Email c)
    ++ omit_str "encryption" (Stored_Encryption c) ++ omit_int "testpre" (Stored_Testpre c)
    ++ omit_str "password" (Stored_Password c) ++ omit_str "method" (Stored_Method c)
    ++ omit_str "user" (Stored_User c)).
Definition marshal_Stored (c : StoredClientConfig) : string := json_marshal (encode_Stored c).

Definition decode_Stored_alias : decoder StoredClientConfig := λ j,
  kvs <~ d_object j;;
  protocol <~ d_field d_string "protocol" kvs;;
  id <~ d_field d_string "id" kvs;;
  alterId <~ d_field d_int "alter_id" kvs;;
  flow <~ d_field d_string "flow" kvs;;
  email <~ d_field d_string "email" kvs;;
  encryption <~ d_field d_string "encryption" kvs;;
  testpre <~ d_field d_uint32 "testpre" kvs;;
  password <~ d_field d_string "password" kvs;;
  method <~ d_field d_string "method" kvs;;
  user <~ d_field d_string "user" kvs;;
  dret (mkStored protocol id alterId flow email encryption testpre password method user).

Definition with_AlterId (c : StoredClientConfig) (a : Z) : StoredClientConfig :=
  mkStored (Stored_Protocol c) (Stored_ID c) a (Stored_Flow c) (Stored_Email c)
    (Stored_Encryption c) (Stored_Testpre c) (Stored_Password c) (Stored_Method c) (Stored_User c).

(** [StoredClientConfig.UnmarshalJSON]: the camel-case key of older records
    counts when the snake-case one is absent (or 0). *)
Definition decode_Stored : decoder StoredClientConfig := λ j,
  let '(a, ok) := decode_Stored_alias j in
  if negb ok then (zero_Stored, false)
  else if Z.eqb (Stored_AlterId a) 0 then
    match d_object j with
    | (raw, true) =>
        match lookup_last "alterId" raw with
        | Some v => match d_int v with (n, true) => (with_AlterId a n, true) | _ => (a, true) end
        | None => (a, true)
        end
    | _ => (a, true)
    end
  else (a, true).

(** The integer fields are Go integers. *)
Definition Stored_wf (c : StoredClientConfig) : bool :=
  int64_ok (Stored_AlterId c) && uint32_ok (Stored_Testpre c).

(** ** Client side: outbound settings *)

Record VMessUser := mkVMessUser {
  VMessU_ID : string; VMessU_AlterId : Z; VMessU_Security : string; VMessU_Level : Z }.
Record VMessServer := mkVMessServer {
  VMessS_Address : string; VMessS_Port : Z; VMessS_Users : list VMessUser }.
Record VMessOutboundSettings := mkVMessOut { VMessOut_Vnext : list VMessServer }.
Record VLESSUser := mkVLESSUser {
  VLESSU_ID : string; VLESSU_Flow : string; VLESSU_Encryption : string; VLESSU_Email : string;
  VLESSU_Level : Z; VLESSU_Testpre : Z }.
Record VLESSServer := mkVLESSServer {
  VLESSS_Address : string; VLESSS_Port : Z; VLESSS_Users : list VLESSUser }.
Record VLESSOutboundSettings := mkVLESSOut { VLESSOut_Vnext : list VLESSServer }.
Record TrojanServer := mkTrojanServer {
  TrojanS_Address : string; TrojanS_Port : Z; TrojanS_Password : string; TrojanS_Level : Z }.
Record TrojanOutboundSettings := mkTrojanOut { TrojanOut_Servers : list TrojanServer }.
Record ShadowsocksServer := mkSSServer {
  SSS_Address : string; SSS_Port : Z; SSS_Method : string; SSS_Password : string;
  SSS_Level : Z; SSS_UoT : bool }.
Record ShadowsocksOutboundSettings := mkSSOut { SSOut_Servers : list ShadowsocksServer }.
Record SOCKSUser := mkSOCKSUser { SOCKSU_User : string; SOCKSU_Pass : string }.
Record SOCKSServer := mkSOCKSServer {
  SOCKSS_Address : string; SOCKSS_Port : Z; SOCKSS_Users : list SOCKSUser }.
Record SOCKSOutboundSettings := mkSOCKSOut { SOCKSOut_Servers : list SOCKSServer }.

Definition encode_VMessUser (u : VMessUser) : json :=
  JObj ([("id", JStr (VMessU_ID u)); ("alterId", JInt (VMessU_AlterId u))]
    ++ omit_str "security" (VMessU_Security u) ++ omit_int "level" (VMessU_Level u)).
Definition encode_VMessOut (s : VMessOutboundSettings) : json :=
  JObj [("vnext", JArr (map (λ v, JObj [("address", JStr (VMessS_Address v));
    ("port", JInt (VMessS_Port v)); ("users", JArr (map encode_VMessUser (VMessS_Users v)))])
    (VMessOut_Vnext s)))].
Definition encode_VLESSUser (u : VLESSUser) : json :=
  JObj ([("id", JStr (VLESSU_ID u))] ++ omit_str "flow" (VLESSU_Flow u)
    ++ [("encryption", JStr (VLESSU_Encryption u))] ++ omit_str "email" (VLESSU_Email u)
    ++ omit_int "level" (VLESSU_Level u) ++ omit_int "testpre" (VLESSU_Testpre u)).
Definition encode_VLESSOut (s : VLESSOutboundSettings) : json :=
  JObj [("vnext", JArr (map (λ v, JObj [("address", JStr (VLESSS_Address v));
    ("port", JInt (VLESSS_Port v)); ("users", JArr (map encode_VLESSUser (VLESSS_Users v)))])
    (VLESSOut_Vnext s)))].
Definition encode_TrojanOut (s : TrojanOutboundSettings) : json :=
  JObj [("servers", JArr (map (λ v, JObj ([("address", JStr (TrojanS_Address v));
    ("port", JInt (TrojanS_Port v)); ("password", JStr (TrojanS_Password v))]
    ++ omit_int "level" (TrojanS_Level v))) (TrojanOut_Servers s)))].
Definition encode_SSOut (s : ShadowsocksOutboundSettings) : json :=
  JObj [("servers", JArr (map (λ v, JObj ([("address", JStr (SSS_Address v));
    ("port", JInt (SSS_Port v)); ("method", JStr (SSS_Method v)); ("password", JStr (SSS_Password v))]
    ++ omit_int "level" (SSS_Level v) ++ omit_bool "uot" (SSS_UoT v))) (SSOut_Servers s)))].
Definition encode_SOCKSOut (s : SOCKSOutboundSettings) : json :=
  JObj [("servers", JArr (map (λ v, JObj ([("address", JStr (SOCKSS_Address v));
    ("port", JInt (SOCKSS_Port v))]
    ++ match SOCKSS_Users v with [] => [] | us =>
         [("users", JArr (map (λ u, JObj [("user", JStr (SOCKSU_User u));
            ("pass", JStr (SOCKSU_Pass u))]) us))] end)) (SOCKSOut_Servers s)))].

(** ** Client side: the generated configuration *)

Record LogConfig := mkLog { Log_LogLevel : string }.
Record DNSConfig := mkDNS { DNS_Servers : list json }.
Record Sniffing := mkSniffing { Sniffing_Enabled : bool; Sniffing_DestOverride : list string }.
Record LocalInbound := mkLocalInbound {
  Local_Tag : string; Local_Port : Z; Local_Listen : string; Local_Protocol : string;
  Local_Settings : json; Local_Sniffing : option Sniffing }.
Record MuxConfig := mkMux { Mux_Enabled : bool; Mux_Concurrency : Z }.
Record Outbound := mkOutbound {
  Out_Tag : string; Out_Protocol : string; Out_Settings : option json;
  Out_StreamSettings : option StreamSettings; Out_Mux : option MuxConfig }.
Record ObservatoryConfig := mkObservatory {
  Obs_SubjectSelector : list string; Obs_ProbeURL : string; Obs_ProbeInterval : string;
  Obs_EnableConcurrency : bool }.
Record BalancerStrategy := mkStrategy { Strategy_Type : string }.
Record Balancer := mkBalancer {
  Bal_Tag : string; Bal_Selector : list string; Bal_Strategy : option BalancerStrategy;
  Bal_FallbackTag : string }.
Record RoutingRule := mkRule {
  Rule_Type : string; Rule_InboundTag : list string; Rule_OutboundTag : string;
  Rule_BalancerTag : string; Rule_Domain : list string; Rule_IP : list string;
  Rule_Network : string; Rule_Port : string; Rule_Protocol : list string }.
Record Routing := mkRouting {
  Routing_DomainStrategy : string; Routing_Balancers : list Balancer;
  Routing_Rules : list RoutingRule }.
Record ClientConfig := mkClientConfig {
  Cfg_Log : LogConfig; Cfg_DNS : DNSConfig; Cfg_Inbounds : list LocalInbound;
  Cfg_Outbounds : list Outbound; Cfg_Observatory : option ObservatoryConfig;
  Cfg_Routing : Routing }.

(** ** Laws *)

Lemma decode_encode_Stored c : Stored_wf c = true → decode_Stored (encode_Stored c) = (c, true).
Proof.
  unfold Stored_wf. intros [Ha Ht]%andb_true_iff. unfold decode_Stored.
  assert (decode_Stored_alias (encode_Stored c) = (c, true)) as ->.
  { destruct c. unfold decode_Stored_alias, encode_Stored. read_struct. }
  cbn [negb]. destruct (Z.eqb_spec (Stored_AlterId c) 0) as [Hz|]; [|done].
  assert (∃ raw, d_object (encode_Stored c) = (raw, true) ∧ lookup_last "alterId" raw = None)
    as (raw & -> & ->); [|done].
  eexists; split; [reflexivity|]. destruct c. simpl in Hz. subst. cbn -[String.eqb Z.eqb].
  unfold omit_str, omit_int. by repeat case_match.
Qed.

Lemma encode_Stored_wf c : json_wf (encode_Stored c) = true.
Proof. unfold encode_Stored. wf_struct. Qed.

(** A stored credential is read back as it was written. *)
Lemma unmarshal_marshal_Stored c :
  Stored_wf c = true → Unmarshal decode_Stored (marshal_Stored c) = inr c.
Proof.
  intros H. unfold marshal_Stored. rewrite Unmarshal_marshal by apply encode_Stored_wf.
  unfold decode. by rewrite decode_encode_Stored.
Qed.

Lemma canonical_network_idem n : canonical_network (canonical_network n) = canonical_network n.
Proof. unfold canonical_network. destruct (EqualFold (TrimSpace n) "raw") eqn:E; [done|by rewrite E]. Qed.
