(* ===== verification/Parser.v ===== *)
(** * Reading the Xray server configuration: [internal/xray/parser.go]

    The directory and its files are inputs: what [os.ReadDir] returns (entries
    in file-name order) and, for each file, what [os.ReadFile] returns. The
    lines written to standard error are part of the state. Error texts of
    [encoding/json] and [strconv] are not modelled. *)

From S2P Require Import Prelude GoString Json JsonDecode Net Config XrayTypes.
From Stdlib Require Import Ascii DecimalString.

Record ParsedClient := mkParsedClient { PC_Identity : string; PC_ConfigJSON : string }.
Record ParsedInbound := mkParsedInbound {
  PI_Tag : string; PI_Protocol : string; PI_Port : Z; PI_RawJSON : string;
  PI_Clients : list ParsedClient }.

(** [vlessEncWarned] (nil when the caller passes nil) and the log. *)
Record Warn := mkWarn { w_warned : option (list string); w_log : list string }.

Definition log_line (msg : string) : M Warn () :=
  modify (λ w, mkWarn (w_warned w) (w_log w ++ [msg])).

Fixpoint firstNonEmpty (values : list string) : string :=
  match values with
  | [] => ""
  | v :: r => if negb (String.eqb v "") then v else firstNonEmpty r
  end.

(** [json.Unmarshal] of a raw message; a nil one is an error. *)
Definition unmarshal_raw {A} (d : decoder A) (raw : option json) : error + A :=
  match raw with Some j => decode d j | None => inl "unexpected end of JSON input" end.

Definition parsePort (raw : option json) : error + Z :=
  match raw with
  | None => inl "missing port"
  | Some j =>
      match decode d_int j with
      | inr i => inr i
      | inl _ =>
          match decode d_string j with
          | inr s =>
              let first := match split_first "-" s with Some (a, _) => a | None => s end in
              match Atoi first with Some i => inr i | None => inl "strconv.Atoi: invalid syntax" end
          | inl _ => inl ("cannot parse port " +:+ json_marshal j)
          end
      end
  end.

(** ** Client extraction *)

Definition stored_client (identity : string) (cred : StoredClientConfig) : ParsedClient :=
  mkParsedClient identity (marshal_Stored cred).

Definition extractVMess (si : ServerInbound) : error + list ParsedClient :=
  match unmarshal_raw decode_VMessInboundSettings (SI_Settings si) with
  | inl e => inl e
  | inr s => inr (map (λ c, stored_client (firstNonEmpty [VMessC_Email c; VMessC_ID c])
      (mkStored "vmess" (VMessC_ID c) (VMessC_AlterId c) "" "" "" 0 "" "" "")) (VMessIn_Clients s))
  end.

Definition vless_warning (tag : string) : string :=
  "WARN: inbound " +:+ Quote tag +:+ " uses VLESS Encryption but vless_client_encryption["
  +:+ Quote tag +:+ "] is not set; client outbound encryption will be " +:+ Quote "none"
  +:+ " — clients will fail to connect".

Definition warn_vless (tag : string) : M Warn () := λ w,
  match w_warned w with
  | None => log_line (vless_warning tag) w
  | Some seen =>
      if bool_decide (tag ∈ seen) then ret tt w
      else log_line (vless_warning tag) (mkWarn (Some (tag :: seen)) (w_log w))
  end.

Definition vless_client (enc : string) (testpre : Z) (c : VLESSClient) : ParsedClient :=
  stored_client (firstNonEmpty [VLESSC_Email c; VLESSC_ID c])
    (mkStored "vless" (VLESSC_ID c) 0 (VLESSC_Flow c) (VLESSC_Email c) enc testpre "" "" "").

Definition uses_encryption (s : VLESSInboundSettings) : bool :=
  negb (String.eqb (VLESSIn_Decryption s) "") && negb (String.eqb (VLESSIn_Decryption s) "none").

(** The non-empty client string configured for an inbound. *)
Definition client_encryption (encMap : gmap string string) (tag : string) : option string :=
  enc ← encMap !! tag; if String.eqb enc "" then None else Some enc.

Definition extractVLESS (encMap : gmap string string) (warn : bool) (si : ServerInbound)
    : M Warn (list ParsedClient) :=
  match unmarshal_raw decode_VLESSInboundSettings (SI_Settings si) with
  | inl e => throw e
  | inr s =>
      let tag := TrimSpace (SI_Tag si) in
      clientEnc <-- (if uses_encryption s then
          match client_encryption encMap tag with
          | Some enc => ret enc
          | None => (if warn then warn_vless tag else ret tt) ;;; ret "none"
          end
        else ret "none");;
      ret (map (vless_client clientEnc (VLESSIn_Testpre s)) (VLESSIn_Clients s))
  end.

Definition extractTrojan (si : ServerInbound) : error + list ParsedClient :=
  match unmarshal_raw decode_TrojanInboundSettings (SI_Settings si) with
  | inl e => inl e
  | inr s => inr (map (λ c, stored_client (firstNonEmpty [TrojanC_Email c; TrojanC_Password c])
      (mkStored "trojan" "" 0 "" (TrojanC_Email c) "" 0 (TrojanC_Password c) "" ""))
      (TrojanIn_Clients s))
  end.

Definition extractShadowsocks (si : ServerInbound) : error + list ParsedClient :=
  match unmarshal_raw decode_ShadowsocksInboundSettings (SI_Settings si) with
  | inl e => inl e
  | inr s =>
      inr (match SSIn_Clients s with
      | [] =>
          if negb (String.eqb (SSIn_Password s) "") then
            [stored_client (SSIn_Password s)
               (mkStored "shadowsocks" "" 0 "" "" "" 0 (SSIn_Password s)
                  (firstNonEmpty [SSIn_Method s; "aes-256-gcm"]) "")]
          else []
      | cs => map (λ c, stored_client (firstNonEmpty [SSC_Email c; SSC_Password c])
          (mkStored "shadowsocks" "" 0 "" (SSC_Email c) "" 0 (SSC_Password c)
             (firstNonEmpty [SSC_Method c; SSIn_Method s; "aes-256-gcm"]) "")) cs
      end)
  end.

Definition extractSOCKS (si : ServerInbound) : error + list ParsedClient :=
  match unmarshal_raw decode_SOCKSInboundSettings (SI_Settings si) with
  | inl e => inl e
  | inr s => inr (map (λ acc, stored_client (SOCKSA_User acc)
      (mkStored "socks" "" 0 "" "" "" 0 (SOCKSA_Pass acc) "" (SOCKSA_User acc))) (SOCKSIn_Accounts s))
  end.

Definition lift {A} (r : error + A) : M Warn A :=
  match r with inl e => throw e | inr a => ret a end.

Definition extractClients (encMap : gmap string string) (warn : bool) (si : ServerInbound)
    : M Warn (list ParsedClient) :=
  let proto := ToLower (SI_Protocol si) in
  if String.eqb proto "vmess" then lift (extractVMess si)
  else if String.eqb proto "vless" then extractVLESS encMap warn si
  else if String.eqb proto "trojan" then lift (extractTrojan si)
  else if String.eqb proto "shadowsocks" then lift (extractShadowsocks si)
  else if String.eqb proto "socks" then lift (extractSOCKS si)
  else ret [].

(** ** Files and directories *)

Definition d_raw : decoder json := λ j, (j, true).

(** The [inbounds] array of a full config, or a bare array. *)
Definition file_inbounds (data : string) : error + list json :=
  let cfg := λ j, (kvs <~ d_object j;; d_field (d_list d_raw) "inbounds" kvs) in
  match Unmarshal cfg data with
  | inr l => inr l
  | inl e =>
      match Unmarshal (d_list d_raw) data with
      | inr l => inr l
      | inl _ => inl ("json parse: " +:+ e)
      end
  end.

Definition parse_inbound (encMap : gmap string string) (warn : bool) (raw : json)
    : M Warn (list ParsedInbound) :=
  match decode decode_ServerInbound raw with
  | inl e => log_line ("WARN: skip inbound: " +:+ e) ;;; ret []
  | inr si =>
      match parsePort (SI_Port si) with
      | inl _ => ret []
      | inr port =>
          clients <-- try (extractClients encMap warn si);;
          (match clients with
           | inl e => log_line ("WARN: extract clients for " +:+ SI_Tag si +:+ ": " +:+ e)
           | inr _ => ret tt
           end) ;;;
          ret [mkParsedInbound (SI_Tag si) (ToLower (SI_Protocol si)) port (json_marshal raw)
                 (match clients with inr cs => cs | inl _ => [] end)]
      end
  end.

Fixpoint parse_inbounds (encMap : gmap string string) (warn : bool) (raws : list json)
    : M Warn (list ParsedInbound) :=
  match raws with
  | [] => ret []
  | raw :: r =>
      x <-- parse_inbound encMap warn raw;;
      xs <-- parse_inbounds encMap warn r;;
      ret (x ++ xs)
  end.

Definition parseConfigFileWith (encMap : gmap string string) (warn : bool) (content : error + string)
    : M Warn (list ParsedInbound) :=
  match content with
  | inl e => throw ("read file: " +:+ e)
  | inr data =>
      match file_inbounds data with
      | inl e => throw e
      | inr raws => parse_inbounds encMap warn raws
      end
  end.

(** [ParseConfigFile] *)
Definition ParseConfigFile (content : error + string) : error + list ParsedInbound :=
  (parseConfigFileWith ∅ false content (mkWarn None [])).1.

Record DirEntry := mkDirEntry { de_name : string; de_is_dir : bool; de_content : error + string }.
Inductive DirRead := DirMissing | DirFailed (e : error) | DirEntries (l : list DirEntry).

(** [filepath.Join] of a clean directory and a file name. *)
Definition Join_path (dir name : string) : string := dir +:+ "/" +:+ name.

Fixpoint parse_entries (dir : string) (encMap : gmap string string) (warn : bool) (l : list DirEntry)
    : M Warn (list (string * list ParsedInbound)) :=
  match l with
  | [] => ret []
  | e :: r =>
      if de_is_dir e || negb (HasSuffix (de_name e) ".json") then parse_entries dir encMap warn r
      else
        let fullPath := Join_path dir (de_name e) in
        inbounds <-- try (parseConfigFileWith encMap warn (de_content e));;
        match inbounds with
        | inl err =>
            log_line ("WARN: parse " +:+ fullPath +:+ ": " +:+ err) ;;;
            parse_entries dir encMap warn r
        | inr ibs => rest <-- parse_entries dir encMap warn r;; ret ((fullPath, ibs) :: rest)
        end
  end.

(** The Go map from path to inbounds, in file-name order. *)
Definition parseConfigDirWith (dir : string) (read : DirRead) (encMap : gmap string string) (warn : bool)
    : (error + list (string * list ParsedInbound)) * list string :=
  match read with
  | DirMissing => (inr [], [])
  | DirFailed e => (inl ("read dir " +:+ dir +:+ ": " +:+ e), [])
  | DirEntries l =>
      let '(r, w) := parse_entries dir encMap warn l (mkWarn (Some []) []) in (r, w_log w)
  end.

Definition ParseConfigDir (dir : string) (read : DirRead) : error + list (string * list ParsedInbound) :=
  (parseConfigDirWith dir read ∅ false).1.
Definition ParseConfigDirWith (dir : string) (read : DirRead) (encMap : gmap string string)
    : error + list (string * list ParsedInbound) :=
  (parseConfigDirWith dir read encMap true).1.

(** [GetInboundByTag]; [order] is the order in which Go visits the files. *)
Definition GetInboundByTag (order : list (string * list ParsedInbound)) (tag : string)
    : option (ParsedInbound * string) :=
  let tag := TrimSpace tag in
  head (p ← order;
        match List.find (λ ib, String.eqb (TrimSpace (PI_Tag ib)) tag) p.2 with
        | Some ib => [(ib, p.1)]
        | None => []
        end).

(** ** What is stored for a client *)

Lemma dbind_inv {A B} (m : D A) (k : A → D B) b :
  dbind m k = (b, true) → ∃ a, m = (a, true) ∧ k a = (b, true).
Proof.
  unfold dbind. destruct m as [a ok1]. destruct (k a) as [b' ok2] eqn:E. intros [= -> H].
  apply andb_true_iff in H as [-> ->]. by exists a.
Qed.

(** Decompose a successful struct decoding into its fields. *)
Ltac inv_fields H :=
  repeat (apply dbind_inv in H as (? & ? & H)); unfold dret in H; injection H as <-.

Lemma d_int_in_ok ok j : ok 0%Z = true → ok (d_int_in ok j).1 = true.
Proof.
  intros H0. destruct j; simpl; try done; repeat case_match; simpl in *; congruence.
Qed.
Lemma d_field_int_ok ok name kvs z b : ok 0%Z = true → d_field (d_int_in ok) name kvs = (z, b) → ok z = true.
Proof.
  intros H0. unfold d_field. destruct (lookup_fold name kvs) as [j|]; intros H.
  - by pose proof (d_int_in_ok ok j H0) as Hj; rewrite H in Hj.
  - by injection H as <- _.
Qed.

Lemma d_elems_inv {A} (d : decoder A) l xs :
  d_elems d l = (xs, true) → ∀ x, x ∈ xs → ∃ j, j ∈ l ∧ d j = (x, true).
Proof.
  unfold d_elems. intros [= <- H] x Hx. apply list_elem_of_In, in_map_iff in Hx as (j & <- & Hj).
  rewrite forallb_forall in H. specialize (H j Hj). exists j. split; [by apply list_elem_of_In|].
  by destruct (d j); simpl in *; subst.
Qed.

Lemma d_field_list_inv {A} (d : decoder A) name kvs xs :
  d_field (d_list d) name kvs = (xs, true) → ∀ x, x ∈ xs → ∃ j, d j = (x, true).
Proof.
  unfold d_field, d_list, d_slice. intros H x Hx.
  assert (∀ j, d_list d j = (xs, true) → ∃ j, d j = (x, true)) as Hj.
  { intros j. unfold d_list, d_slice. destruct j; simpl; try (by intros [= <-]; apply elem_of_nil in Hx); try done.
    intros E. destruct (d_elems_inv d l xs E x Hx) as (j & _ & Hd). by exists j. }
  destruct (lookup_fold name kvs) as [j|]; [by apply (Hj j)|by apply (Hj JNull)].
Qed.

Lemma decode_inr {A} (d : decoder A) j a : decode d j = inr a → d j = (a, true).
Proof. unfold decode. destruct (d j) as [x []]; [by intros [= ->]|done]. Qed.
Lemma unmarshal_raw_inr {A} (d : decoder A) raw a :
  unmarshal_raw d raw = inr a → ∃ j, raw = Some j ∧ d j = (a, true).
Proof. destruct raw as [j|]; [|done]. intros H%decode_inr. by exists j. Qed.

(** A client whose stored text is read back, with the given protocol and
    encryption. *)
Definition stored_as (proto enc : string) (c : ParsedClient) : Prop :=
  ∃ cred, Unmarshal decode_Stored (PC_ConfigJSON c) = inr cred
    ∧ Stored_Protocol cred = proto ∧ Stored_Encryption cred = enc.

Lemma stored_client_as identity cred :
  Stored_wf cred = true →
  stored_as (Stored_Protocol cred) (Stored_Encryption cred) (stored_client identity cred).
Proof. intros H. exists cred. split; [by apply unmarshal_marshal_Stored|done]. Qed.

Lemma elem_of_map {A B} (f : A → B) l y : y ∈ map f l → ∃ x, x ∈ l ∧ y = f x.
Proof. intros (x & <- & Hx)%list_elem_of_In%in_map_iff. exists x. by rewrite list_elem_of_In. Qed.

Lemma extractVMess_stored si cs c : extractVMess si = inr cs → c ∈ cs → stored_as "vmess" "" c.
Proof.
  unfold extractVMess. destruct (unmarshal_raw _ _) as [|s] eqn:E; [done|]. intros [= <-].
  apply unmarshal_raw_inr in E as (j & _ & E). inv_fields E. simpl. intros (v & Hv & ->)%elem_of_map.
  destruct (d_field_list_inv _ _ _ _ ltac:(eassumption) v Hv) as (j' & Hd). inv_fields Hd. simpl.
  eapply (stored_client_as _ (mkStored "vmess" _ _ _ _ _ _ _ _ _)). unfold Stored_wf. simpl.
  rewrite andb_true_r. by eapply (d_field_int_ok int64_ok "alterId").
Qed.

Lemma extractVLESS_stored encMap warn si w cs w' c :
  extractVLESS encMap warn si w = (inr cs, w') → c ∈ cs →
  ∃ enc, stored_as "vless" enc c ∧
    (enc = "none" ∨ client_encryption encMap (TrimSpace (SI_Tag si)) = Some enc).
Proof.
  unfold extractVLESS. destruct (unmarshal_raw _ _) as [|s] eqn:E; [done|]. unfold bind at 1.
  assert (∃ enc w2, (if uses_encryption s then
      match client_encryption encMap (TrimSpace (SI_Tag si)) with
      | Some enc => ret enc
      | None => (if warn then warn_vless (TrimSpace (SI_Tag si)) else ret tt) ;;; ret "none"
      end else ret "none") w = (inr enc, w2)
      ∧ (enc = "none" ∨ client_encryption encMap (TrimSpace (SI_Tag si)) = Some enc))
    as (enc & w2 & -> & Henc).
  { destruct (uses_encryption s); [|by exists "none", w; auto].
    destruct (client_encryption _ _) as [enc|]; [by exists enc, w; auto|].
    destruct warn; [|by exists "none", w; auto]. unfold bind, warn_vless.
    destruct (w_warned w) as [seen|]; [case_bool_decide|]; eexists _, _; split; [done|by left| |by left| |by left]; done. }
  intros [= <- <-]. intros (v & Hv & ->)%elem_of_map. exists enc. split; [|done].
  apply unmarshal_raw_inr in E as (j & _ & E). inv_fields E. simpl in *.
  eapply (stored_client_as _ (mkStored "vless" _ _ _ _ _ _ _ _ _)). unfold Stored_wf. simpl.
  by eapply (d_field_int_ok uint32_ok "testpre").
Qed.

Lemma extractTrojan_stored si cs c : extractTrojan si = inr cs → c ∈ cs → stored_as "trojan" "" c.
Proof.
  unfold extractTrojan. destruct (unmarshal_raw _ _) as [|s]; [done|]. intros [= <-].
  intros (v & Hv & ->)%elem_of_map. by apply (stored_client_as _ (mkStored "trojan" _ _ _ _ _ _ _ _ _)).
Qed.
Lemma extractShadowsocks_stored si cs c :
  extractShadowsocks si = inr cs → c ∈ cs → stored_as "shadowsocks" "" c.
Proof.
  unfold extractShadowsocks. destruct (unmarshal_raw _ _) as [|s]; [done|]. intros <-%(inj inr).
  destruct (SSIn_Clients s) as [|x l].
  - case_if; [|by intros ?%elem_of_nil]. intros ->%list_elem_of_singleton.
    by apply (stored_client_as _ (mkStored "shadowsocks" _ _ _ _ _ _ _ _ _)).
  - intros (v & Hv & ->)%elem_of_map.
    by apply (stored_client_as _ (mkStored "shadowsocks" _ _ _ _ _ _ _ _ _)).
Qed.
Lemma extractSOCKS_stored si cs c : extractSOCKS si = inr cs → c ∈ cs → stored_as "socks" "" c.
Proof.
  unfold extractSOCKS. destruct (unmarshal_raw _ _) as [|s]; [done|]. intros [= <-].
  intros (v & Hv & ->)%elem_of_map. by apply (stored_client_as _ (mkStored "socks" _ _ _ _ _ _ _ _ _)).
Qed.

Lemma lift_inr {A} (r : error + A) w a w' : lift r w = (inr a, w') → r = inr a.
Proof. destruct r; [done|]. by intros [= <- _]. Qed.

(** C34: every client the parser extracts carries a credential text that the
    rest of the program reads back, for the inbound's own protocol. The VLESS
    encryption stored is never taken from the server's [decryption] (which
    holds private keys): it is [none] or the operator's client string. *)
Theorem extractClients_stored encMap warn si w cs w' c :
  extractClients encMap warn si w = (inr cs, w') → c ∈ cs →
  ∃ enc, stored_as (ToLower (SI_Protocol si)) enc c
    ∧ (enc = "" ∨ (ToLower (SI_Protocol si) = "vless"
        ∧ (enc = "none" ∨ client_encryption encMap (TrimSpace (SI_Tag si)) = Some enc))).
Proof.
  unfold extractClients. intros H Hc.
  destruct (String.eqb_spec (ToLower (SI_Protocol si)) "vmess") as [->|_].
  { apply lift_inr in H. exists "". split; [by eapply extractVMess_stored|by left]. }
  destruct (String.eqb_spec (ToLower (SI_Protocol si)) "vless") as [->|_].
  { destruct (extractVLESS_stored _ _ _ _ _ _ _ H Hc) as (enc & H1 & H2). exists enc. auto. }
  destruct (String.eqb_spec (ToLower (SI_Protocol si)) "trojan") as [->|_].
  { apply lift_inr in H. exists "". split; [by eapply extractTrojan_stored|by left]. }
  destruct (String.eqb_spec (ToLower (SI_Protocol si)) "shadowsocks") as [->|_].
  { apply lift_inr in H. exists "". split; [by eapply extractShadowsocks_stored|by left]. }
  destruct (String.eqb_spec (ToLower (SI_Protocol si)) "socks") as [->|_].
  { apply lift_inr in H. exists "". split; [by eapply extractSOCKS_stored|by left]. }
  injection H as <- _. by apply elem_of_nil in Hc.
Qed.

Definition sample_vless : ServerInbound :=
  mkServerInbound "in" "" (Some (JInt 443)) "VLESS"
    (Some (JObj [("decryption", JStr "private"); ("clients",
       JArr [JObj [("id", JStr "u-1"); ("email", JStr "ann")]])])) None.

Lemma extractClients_stored_witness :
  ∃ enc, stored_as "vless" enc (vless_client "public" 0 (mkVLESSClient "u-1" "" "ann" 0))
    ∧ (enc = "" ∨ ("vless" = "vless" ∧ (enc = "none" ∨ client_encryption {["in" := "public"]} "in" = Some enc))).
Proof.
  eapply (extractClients_stored {["in" := "public"]} true sample_vless (mkWarn None [])).
  - vm_compute. reflexivity.
  - apply list_elem_of_here.
Defined.

(** ** Directory scans *)

(** The outcome of a computation does not depend on the warnings so far. *)
Definition oblivious {A} (m : M Warn A) : Prop := ∀ w w', (m w).1 = (m w').1.

Lemma oblivious_ret {A} (a : A) : oblivious (ret a).
Proof. by intros w w'. Qed.
Lemma oblivious_throw {A} e : oblivious (throw (A := A) e).
Proof. by intros w w'. Qed.
Lemma oblivious_log msg : oblivious (log_line msg).
Proof. by intros w w'. Qed.
Lemma oblivious_bind {A B} (m : M Warn A) (k : A → M Warn B) :
  oblivious m → (∀ a, oblivious (k a)) → oblivious (bind m k).
Proof.
  intros Hm Hk w w'. unfold bind. specialize (Hm w w').
  destruct (m w) as [[e|a] w1], (m w') as [[e'|a'] w1']; simpl in *;
    simplify_eq; [done|apply Hk].
Qed.
Lemma oblivious_try {A} (m : M Warn A) : oblivious m → oblivious (try m).
Proof.
  intros Hm w w'. unfold try. specialize (Hm w w'). destruct (m w), (m w'). simpl in *. by subst.
Qed.
Lemma oblivious_lift {A} (r : error + A) : oblivious (lift r).
Proof. by destruct r. Qed.
Lemma oblivious_warn tag : oblivious (warn_vless tag).
Proof.
  intros w w'. unfold warn_vless.
  destruct (w_warned w), (w_warned w'); repeat case_bool_decide; done.
Qed.
#[local] Hint Resolve oblivious_ret oblivious_throw oblivious_log oblivious_bind oblivious_try
  oblivious_lift oblivious_warn : raven.

Lemma oblivious_extractClients encMap warn si : oblivious (extractClients encMap warn si).
Proof.
  unfold extractClients. repeat case_if; auto with raven. unfold extractVLESS.
  destruct (unmarshal_raw _ _); [auto with raven|]. apply oblivious_bind; [|auto with raven].
  destruct (uses_encryption _); [|auto with raven]. destruct (client_encryption _ _); [auto with raven|].
  destruct warn; auto with raven.
Qed.

Lemma oblivious_parseFile encMap warn content : oblivious (parseConfigFileWith encMap warn content).
Proof.
  unfold parseConfigFileWith. destruct content as [e|data]; [auto with raven|].
  destruct (file_inbounds data) as [e|raws]; [auto with raven|].
  induction raws as [|raw r IH]; [apply oblivious_ret|]. simpl.
  apply oblivious_bind; [|intros; apply oblivious_bind; [done|auto with raven]].
  unfold parse_inbound. destruct (decode _ raw) as [e|si]; [auto with raven|].
  destruct (parsePort _); [auto with raven|].
  apply oblivious_bind; [apply oblivious_try, oblivious_extractClients|].
  intros cs. apply oblivious_bind; [destruct cs; auto with raven|auto with raven].
Qed.

Lemma parse_entries_ok dir encMap warn l w : ∃ r w', parse_entries dir encMap warn l w = (inr r, w').
Proof.
  revert w. induction l as [|e l IH]; intros w; simpl; [by eexists _, _|].
  case_if; [apply IH|]. unfold bind, try. destruct (parseConfigFileWith _ _ _ w) as [[err|ibs] w1].
  - apply IH.
  - destruct (IH w1) as (r & w' & ->). by eexists _, _.
Qed.

(** What one directory entry contributes, on its own. *)
Definition entry_result (dir : string) (encMap : gmap string string) (warn : bool) (e : DirEntry)
    : option (string * list ParsedInbound) :=
  if de_is_dir e || negb (HasSuffix (de_name e) ".json") then None
  else match (parseConfigFileWith encMap warn (de_content e) (mkWarn None [])).1 with
       | inr ibs => Some (Join_path dir (de_name e), ibs)
       | inl _ => None
       end.

(** a directory scan succeeds whatever its files hold, and gives for each
    JSON file exactly what that file gives on its own: an unreadable or
    malformed file (or the warnings of another) never hides or changes the
    inbounds of the others, and a missing directory is an empty one. *)
Lemma parseConfigDirWith_isolated dir l encMap warn :
  (parseConfigDirWith dir (DirEntries l) encMap warn).1 = inr (omap (entry_result dir encMap warn) l)
  ∧ (parseConfigDirWith dir DirMissing encMap warn).1 = inr [].
Proof.
  split; [|done]. unfold parseConfigDirWith.
  enough (∀ w, (parse_entries dir encMap warn l w).1 = inr (omap (entry_result dir encMap warn) l)) as H.
  { specialize (H (mkWarn (Some []) [])). by destruct (parse_entries _ _ _ _ _). }
  induction l as [|e l IH]; intros w; [done|]. simpl. unfold entry_result at 1.
  case_if; [apply IH|]. unfold bind, try.
  rewrite (oblivious_parseFile encMap warn (de_content e) (mkWarn None []) w).
  destruct (parseConfigFileWith encMap warn (de_content e) w) as [[err|ibs] w1]; simpl; [apply IH|].
  specialize (IH w1). by destruct (parse_entries dir encMap warn l w1) as [[?|rest] w2]; simpl in *;
    simplify_eq.
Qed.

(** A port is accepted as a JSON integer, as decimal text, or as a text
    range, whose first port counts; anything else is an error, so such an
    inbound is skipped. *)
Lemma parsePort_forms :
  (∀ z, int64_ok z = true → parsePort (Some (JInt z)) = inr z)
  ∧ (∀ z, (0 <= z < 2 ^ 63)%Z → parsePort (Some (JStr (Itoa z))) = inr z
       ∧ ∀ hi, parsePort (Some (JStr (Itoa z +:+ String "-" hi))) = inr z)
  ∧ (∀ j z, parsePort (Some j) = inr z → int64_ok z = true)
  ∧ (∃ e, parsePort None = inl e)
  ∧ (∀ b, ∃ e, parsePort (Some (JBool b)) = inl e).
Proof.
  split_and!; [| | |by eexists|intros; by eexists].
  - intros z Hz. unfold parsePort, decode, d_int. simpl. by rewrite Hz.
  - intros z Hz.
    assert (Hok : int64_ok z = true) by (unfold int64_ok; apply andb_true_iff; split; lia).
    assert (Hd : contains_char "-" (Itoa z) = false) by (apply Itoa_no_dash; lia).
    split; [|intros hi]; unfold parsePort; simpl.
    + rewrite split_first_none by done. by rewrite Atoi_Itoa.
    + rewrite split_first_app by done. by rewrite Atoi_Itoa.
  - intros j z. unfold parsePort. destruct (decode d_int j) as [e|i] eqn:E.
    + destruct (decode d_string j) as [|s]; [done|].
      destruct (Atoi _) as [i|] eqn:Ha; [|done]. intros [= <-]. by eapply ParseInt_int64.
    + intros [= <-]. apply decode_inr in E.
      pose proof (d_int_in_ok int64_ok j eq_refl) as H. unfold d_int in E. by rewrite E in H.
Qed.
