(* ===== verification/ConfigWriter.v ===== *)
(** * Writing clients into the Xray configuration: [internal/xray/configwriter.go]

    The host is a state: the configuration directories as [os.ReadDir] and
    [os.ReadFile] see them, the outcomes of the writes to come, and the random
    bytes [crypto/rand] delivers. A file path is a directory and a file name.
    File permissions are not part of the model. JSON numbers are kept as they
    are written (Go reads them as [float64]). *)

From S2P Require Import Prelude GoString Json JsonDecode Base64 XrayTypes Parser.
From Stdlib Require Import Ascii.

(** What [writeConfigFile] meets: the temporary file or the rename may fail. *)
Inductive WriteOutcome := WriteOK | WriteTempFails (e : error) | RenameFails (e : error).

Record Host := mkHost {
  h_dirs : gmap string DirRead;
  h_writes : list WriteOutcome;      (** the next writes; none left means success *)
  h_rand : nat → ascii; h_rand_pos : nat }.

Definition with_dirs (h : Host) (d : gmap string DirRead) (w : list WriteOutcome) : Host :=
  mkHost d w (h_rand h) (h_rand_pos h).

Definition ReadDir (h : Host) (dir : string) : DirRead := default DirMissing (h_dirs h !! dir).

Definition find_entry (name : string) (l : list DirEntry) : option DirEntry :=
  List.find (λ e, String.eqb (de_name e) name) l.
Definition ReadFile (h : Host) (dir name : string) : error + string :=
  match ReadDir h dir with
  | DirEntries l => match find_entry name l with
                    | Some e => de_content e
                    | None => inl "no such file or directory"
                    end
  | _ => inl "no such file or directory"
  end.

Definition set_content (name text : string) (l : list DirEntry) : list DirEntry :=
  map (λ e, if String.eqb (de_name e) name then mkDirEntry (de_name e) (de_is_dir e) (inr text) else e) l.

Definition writeConfigFile (dir name text : string) : M Host () := λ h,
  let rest := tail (h_writes h) in
  match h_writes h with
  | WriteTempFails e :: _ => (inl ("write temp: " +:+ e), with_dirs h (h_dirs h) rest)
  | RenameFails e :: _ => (inl ("rename: " +:+ e), with_dirs h (h_dirs h) rest)
  | _ =>
      match ReadDir h dir with
      | DirEntries l => (inr tt, with_dirs h (<[dir := DirEntries (set_content name text l)]> (h_dirs h)) rest)
      | _ => (inl "rename: no such file or directory", with_dirs h (h_dirs h) rest)
      end
  end.

(** ** Random credentials *)

Fixpoint rand_bytes (rand : nat → ascii) (pos n : nat) : string :=
  match n with O => EmptyString | S n => String (rand pos) (rand_bytes rand (S pos) n) end.
Definition RandRead (n : nat) : M Host string := λ h,
  (inr (rand_bytes (h_rand h) (h_rand_pos h) n),
   mkHost (h_dirs h) (h_writes h) (h_rand h) (h_rand_pos h + n)).

(** [%x] and [hex.EncodeToString] *)
Fixpoint Hex (s : string) : string :=
  match s with
  | EmptyString => EmptyString
  | String c r => String (hex_digit (code c / 16)) (String (hex_digit (code c mod 16)) (Hex r))
  end.

(** [b[i] = f(b[i])] *)
Fixpoint update_byte (i : nat) (f : N → N) (s : string) : string :=
  match s, i with
  | EmptyString, _ => EmptyString
  | String c r, O => String (ascii_of_N (f (code c))) r
  | String c r, S i => String c (update_byte i f r)
  end.

Definition uuid_of_bytes (b : string) : string :=
  let b := update_byte 6 (λ x, N.lor (N.land x 15) 64) b in
  let b := update_byte 8 (λ x, N.lor (N.land x 63) 128) b in
  Hex (String.substring 0 4 b) +:+ "-" +:+ Hex (String.substring 4 2 b) +:+ "-"
    +:+ Hex (String.substring 6 2 b) +:+ "-" +:+ Hex (String.substring 8 2 b) +:+ "-"
    +:+ Hex (String.substring 10 6 b).
Definition generateUUID : M Host string := b <-- RandRead 16;; ret (uuid_of_bytes b).
Definition generatePassword (byteLen : nat) : M Host string :=
  b <-- RandRead byteLen;; ret (String.substring 0 (byteLen * 2) (Hex b)).

(** ** New clients *)

(** A Go [map[string]interface{}] literal. *)
Definition client_map (kvs : list (string * json)) : list (string * json) :=
  foldl (λ m kv, map_set kv.1 kv.2 m) [] kvs.

(** The Go value of a struct decoded with the error dropped. *)
Definition lax {A} (d : decoder A) (raw : option json) : A :=
  (d (default JNull raw)).1.

Definition d_first_flow : decoder (list string) := λ j,
  kvs <~ d_object j;;
  d_field (d_list (λ j, kvs <~ d_object j;; d_field d_string "flow" kvs)) "clients" kvs.
Definition buildVLESSClient (username : string) (settings : option json) : M Host (list (string * json)) :=
  let flow := match lax d_first_flow settings with f :: _ => f | [] => "" end in
  id <-- generateUUID;;
  ret (client_map [("id", JStr id); ("flow", JStr flow); ("email", JStr username)]).

Definition d_first_alter : decoder (list Z) := λ j,
  kvs <~ d_object j;;
  d_field (d_list (λ j, kvs <~ d_object j;; d_field d_int "alterId" kvs)) "clients" kvs.
Definition buildVMessClient (username : string) (settings : option json) : M Host (list (string * json)) :=
  let alterID := match lax d_first_alter settings with a :: _ => a | [] => 0%Z end in
  id <-- generateUUID;;
  ret (client_map [("id", JStr id); ("alterId", JInt alterID); ("email", JStr username)]).

Definition buildTrojanClient (username : string) : M Host (list (string * json)) :=
  pwd <-- generatePassword 16;;
  ret (client_map [("password", JStr pwd); ("email", JStr username)]).

Definition d_methods : decoder (string * list string) := λ j,
  kvs <~ d_object j;;
  m <~ d_field d_string "method" kvs;;
  cs <~ d_field (d_list (λ j, kvs <~ d_object j;; d_field d_string "method" kvs)) "clients" kvs;;
  dret (m, cs).
Definition ss_method (settings : option json) : string :=
  let '(m, cs) := lax d_methods settings in
  firstNonEmpty [m; match cs with c :: _ => c | [] => "" end; "2022-blake3-aes-256-gcm"].
Definition buildShadowsocksClient (username : string) (settings : option json)
    : M Host (list (string * json)) :=
  let method := ss_method settings in
  plain <-- generatePassword 16;;
  password <-- (if HasPrefix method "2022" then
                  b <-- RandRead 32;; ret (EncodeToString StdEncoding b)
                else ret plain);;
  ret (client_map [("password", JStr password); ("method", JStr method); ("email", JStr username)]).

(** [client[k].(string)], empty when it is not one. *)
Definition str_of (o : option json) : string := match o with Some (JStr s) => s | _ => "" end.

(** The [alterId] of a built client is a Go [int], never the [float64] the
    code asserts, so it is stored as 0. *)
Definition clientToStoredConfig (protocol : string) (client : list (string * json)) (clientEncStr : string)
    : error + string :=
  let str k := str_of (map_get k client) in
  let proto := ToLower protocol in
  if String.eqb proto "vless" then
    let enc := if String.eqb clientEncStr "" then "none" else clientEncStr in
    inr (marshal_Stored (mkStored "vless" (str "id") 0 (str "flow") "" enc 0 "" "" ""))
  else if String.eqb proto "vmess" then
    inr (marshal_Stored (mkStored "vmess" (str "id") 0 "" "" "" 0 "" "" ""))
  else if String.eqb proto "trojan" then
    inr (marshal_Stored (mkStored "trojan" "" 0 "" "" "" 0 (str "password") "" ""))
  else if String.eqb proto "shadowsocks" then
    inr (marshal_Stored (mkStored "shadowsocks" "" 0 "" "" "" 0 (str "password") (str "method") ""))
  else inl ("unsupported protocol " +:+ protocol).

Definition storedConfigToClientMap (storedJSON email : string) : error + list (string * json) :=
  match Unmarshal decode_Stored storedJSON with
  | inl e => inl ("parse stored config: " +:+ e)
  | inr stored =>
      let proto := ToLower (Stored_Protocol stored) in
      if String.eqb proto "vless" then
        inr (client_map [("id", JStr (Stored_ID stored)); ("flow", JStr (Stored_Flow stored));
          ("email", JStr email)])
      else if String.eqb proto "vmess" then
        inr (client_map [("id", JStr (Stored_ID stored)); ("alterId", JInt (Stored_AlterId stored));
          ("email", JStr email)])
      else if String.eqb proto "trojan" then
        inr (client_map [("password", JStr (Stored_Password stored)); ("email", JStr email)])
      else if String.eqb proto "shadowsocks" then
        inr (client_map [("password", JStr (Stored_Password stored));
          ("method", JStr (firstNonEmpty [Stored_Method stored; "2022-blake3-aes-256-gcm"]));
          ("email", JStr email)])
      else inl ("unsupported protocol " +:+ Stored_Protocol stored)
  end.

(** ** Finding an inbound *)

Definition d_inbound_head : decoder (string * string * option json) := λ j,
  kvs <~ d_object j;;
  tag <~ d_field d_string "tag" kvs;; protocol <~ d_field d_string "protocol" kvs;;
  settings <~ d_raw_field "settings" kvs;; dret (tag, protocol, settings).

Fixpoint find_in_raws (tag : string) (raws : list json) : option (string * option json) :=
  match raws with
  | [] => None
  | raw :: r =>
      match decode d_inbound_head raw with
      | inl _ => find_in_raws tag r
      | inr (t, protocol, settings) =>
          if String.eqb (TrimSpace t) tag then Some (protocol, settings) else find_in_raws tag r
      end
  end.
Fixpoint find_in_entries (tag : string) (l : list DirEntry) : option (string * string * option json) :=
  match l with
  | [] => None
  | e :: r =>
      if de_is_dir e || negb (HasSuffix (de_name e) ".json") then find_in_entries tag r
      else match de_content e with
      | inl _ => find_in_entries tag r
      | inr data =>
          match file_inbounds data with
          | inl _ => find_in_entries tag r
          | inr raws =>
              match find_in_raws tag raws with
              | Some (protocol, settings) => Some (de_name e, protocol, settings)
              | None => find_in_entries tag r
              end
          end
      end
  end.
(** The file name, protocol and settings of the first inbound with the tag. *)
Definition findInboundSettings (h : Host) (configDir tag : string)
    : error + (string * string * option json) :=
  match ReadDir h configDir with
  | DirMissing => inl "read config dir: no such file or directory"
  | DirFailed e => inl ("read config dir: " +:+ e)
  | DirEntries l =>
      match find_in_entries tag l with
      | Some r => inr r
      | None => inl ("inbound " +:+ tag +:+ " not found in " +:+ configDir)
      end
  end.

(** ** Editing a file *)

(** The document's inbounds and how to put them back. *)
Definition open_config (data : string) : error + (list json * (list json → json)) :=
  let root := match Unmarshal d_map data with inr (Some root) => Some root | _ => None end in
  let inbounds := match root with
    | Some root => match map_get "inbounds" root with Some (JArr arr) => arr | _ => [] end
    | None => []
    end in
  match inbounds with
  | [] =>
      match Unmarshal (d_list (λ j, (normalize j, true))) data with
      | inl e => inl ("parse config: " +:+ e)
      | inr inbounds => inr (inbounds, λ ibs, JObj [("inbounds", JArr ibs)])
      end
  | _ => inr (inbounds, λ ibs, JObj (map_set "inbounds" (JArr ibs) (default [] root)))
  end.

Definition tag_of (ib : list (string * json)) : string := str_of (map_get "tag" ib).
Definition set_clients (clients : json) (settings ib : list (string * json)) : json :=
  JObj (map_set "settings" (JObj (map_set "clients" clients settings)) ib).

(** The inbounds with the client appended to the first one with the tag;
    [None] when there is none. *)
Fixpoint append_client (inboundTag : string) (newClient : json) (inbounds : list json)
    : error + option (list json) :=
  let continue ib r :=
    match append_client inboundTag newClient r with
    | inr (Some r) => inr (Some (ib :: r))
    | other => other
    end in
  match inbounds with
  | [] => inr None
  | JObj ib :: r =>
      if String.eqb (TrimSpace (tag_of ib)) inboundTag then
        match map_get "settings" ib with
        | Some (JObj settings) =>
            let clients := match map_get "clients" settings with Some (JArr l) => l | _ => [] end in
            inr (Some (set_clients (JArr (clients ++ [newClient])) settings ib :: r))
        | _ => inl ("inbound " +:+ inboundTag +:+ " has no settings")
        end
      else continue (JObj ib) r
  | raw :: r => continue raw r
  end.

Definition has_email (email : string) (c : json) : bool :=
  match c with
  | JObj cm => String.eqb (TrimSpace (str_of (map_get "email" cm))) email
  | _ => false
  end.

(** The inbounds without the client; [None] when nothing changes. A client
    list that becomes empty is written as [null] (a nil slice). *)
Fixpoint drop_client (inboundTag email : string) (inbounds : list json) : error + option (list json) :=
  let continue ib r :=
    match drop_client inboundTag email r with
    | inr (Some r) => inr (Some (ib :: r))
    | other => other
    end in
  match inbounds with
  | [] => inr None
  | JObj ib :: r =>
      if String.eqb (TrimSpace (tag_of ib)) inboundTag then
        match map_get "settings" ib with
        | Some (JObj settings) =>
            match map_get "clients" settings with
            | Some (JArr clients) =>
                if existsb (has_email email) clients then
                  let filtered := bfilter (λ c, negb (has_email email c)) clients in
                  inr (Some (set_clients (match filtered with [] => JNull | _ => JArr filtered end)
                               settings ib :: r))
                else inr None
            | _ => inr None
            end
        | _ => inl ("inbound " +:+ inboundTag +:+ " has no settings")
        end
      else continue (JObj ib) r
  | raw :: r => continue raw r
  end.

Definition edit_file (dir name : string) (edit : list json → error + option (list json))
    (unchanged : error + ()) : M Host () := λ h,
  match ReadFile h dir name with
  | inl e => (inl ("read file: " +:+ e), h)
  | inr data =>
      match open_config data with
      | inl e => (inl e, h)
      | inr (inbounds, rebuild) =>
          match edit inbounds with
          | inl e => (inl e, h)
          | inr None => (unchanged, h)
          | inr (Some ibs) => writeConfigFile dir name (json_marshal_indent (rebuild ibs)) h
          end
      end
  end.

Definition addClientToFile (dir name inboundTag : string) (newClient : list (string * json)) : M Host () :=
  edit_file dir name (append_client inboundTag (JObj newClient))
    (inl ("inbound " +:+ inboundTag +:+ " not found in " +:+ Join_path dir name)).
Definition removeClientFromFile (dir name inboundTag email : string) : M Host () :=
  edit_file dir name (drop_client inboundTag email) (inr tt).

(** ** The three operations *)

Definition lift_err {S A} (r : error + A) : M S A := match r with inl e => throw e | inr a => ret a end.

(** The client for the inbound's protocol. *)
Definition build_client (protocol username inboundTag : string) (settings : option json)
    : M Host (list (string * json)) :=
  let proto := ToLower protocol in
  if String.eqb proto "vless" then buildVLESSClient username settings
  else if String.eqb proto "vmess" then buildVMessClient username settings
  else if String.eqb proto "trojan" then buildTrojanClient username
  else if String.eqb proto "shadowsocks" then buildShadowsocksClient username settings
  else if String.eqb proto "socks" then throw "socks inbound does not support API user creation"
  else throw ("unsupported protocol " +:+ protocol +:+ " for inbound " +:+ inboundTag).

Definition AddClientToInbound (configDir inboundTag username clientEncStr : string) : M Host string :=
  let username := TrimSpace username in
  if String.eqb username "" then throw "username required"
  else
    h <-- get;;
    found <-- lift_err (findInboundSettings h configDir inboundTag);;
    let '(file, protocol, settings) := found in
    newClient <-- build_client protocol username inboundTag settings;;
    stored <-- lift_err (match clientToStoredConfig protocol newClient clientEncStr with
                         | inl e => inl ("client config: " +:+ e) | inr s => inr s end);;
    addClientToFile configDir file inboundTag newClient ;;;
    ret stored.

Definition AddExistingClientToInbound (configDir inboundTag username storedConfigJSON : string) : M Host () :=
  let username := TrimSpace username in
  if String.eqb username "" then throw "username required"
  else
    h <-- get;;
    found <-- lift_err (findInboundSettings h configDir inboundTag);;
    let '(file, _, _) := found in
    clientMap <-- lift_err (storedConfigToClientMap storedConfigJSON username);;
    addClientToFile configDir file inboundTag clientMap.

Definition RemoveUserFromInbound (configDir inboundTag email : string) : M Host () :=
  let email := TrimSpace email in
  if String.eqb email "" then throw "email required"
  else
    h <-- get;;
    found <-- lift_err (findInboundSettings h configDir inboundTag);;
    let '(file, _, _) := found in
    removeClientFromFile configDir file inboundTag email.
