(* ===== verification/ConfigWriterProps.v ===== *)
(** * What the configuration writer guarantees

    An edit is described on the decoded document ([inbound_edit]): which
    inbound changes, that its client list goes from [old] to [new], and that
    nothing else of the inbound, of its settings or of the file does. The
    theorems read the file back with the code's own [open_config]. *)

From S2P Require Import Prelude GoString Json JsonDecode JsonCanon Base64 XrayTypes Parser.
From S2P Require Import ConfigWriter.
From Stdlib Require Import Ascii.

(** ** Edits of a list of inbounds *)

Definition tagged (tag : string) (j : json) : Prop :=
  match j with JObj ib => TrimSpace (tag_of ib) = tag | _ => False end.

(** The clients of a [settings] object: anything but an array counts as none. *)
Definition clients_of (settings : list (string * json)) : list json :=
  match map_get "clients" settings with Some (JArr l) => l | _ => [] end.

(** The first inbound with the tag goes from the clients [old] to [new]. *)
Definition inbound_edit (tag : string) (old new : list json) (ibs ibs' : list json) : Prop :=
  ∃ pre ib settings ib' settings' post,
    ibs = pre ++ JObj ib :: post ∧ ibs' = pre ++ JObj ib' :: post ∧
    Forall (λ j, ¬ tagged tag j) pre ∧ tagged tag (JObj ib) ∧
    map_get "settings" ib = Some (JObj settings) ∧ map_get "settings" ib' = Some (JObj settings') ∧
    clients_of settings = old ∧ clients_of settings' = new ∧
    (∀ k, k ≠ "settings" → map_get k ib' = map_get k ib) ∧
    (∀ k, k ≠ "clients" → map_get k settings' = map_get k settings).

Lemma inbound_edit_cons tag old new x ibs ibs' :
  ¬ tagged tag x → inbound_edit tag old new ibs ibs' → inbound_edit tag old new (x :: ibs) (x :: ibs').
Proof.
  intros Hx (pre & ib & s & ib' & s' & post & -> & -> & Hpre & H).
  exists (x :: pre), ib, s, ib', s', post. split_and!; try done; [by constructor|tauto..].
Qed.

Lemma set_clients_edit tag cs settings ib post :
  TrimSpace (tag_of ib) = tag → map_get "settings" ib = Some (JObj settings) →
  inbound_edit tag (clients_of settings) (match cs with JArr l => l | _ => [] end)
    (JObj ib :: post) (set_clients cs settings ib :: post).
Proof.
  intros Ht Hs. exists [], ib, settings.
  exists (map_set "settings" (JObj (map_set "clients" cs settings)) ib), (map_set "clients" cs settings), post.
  split_and!; try done; [apply map_get_set_eq|..].
  - unfold clients_of. by rewrite map_get_set_eq.
  - intros k Hk. by apply map_get_set_ne.
  - intros k Hk. by apply map_get_set_ne.
Qed.

Lemma set_clients_good cs settings ib :
  good cs → good (JObj ib) → map_get "settings" ib = Some (JObj settings) → good (set_clients cs settings ib).
Proof.
  intros Hc Hib%good_obj Hs. pose proof (map_get_gomap _ _ _ _ Hib Hs) as Hset%good_obj.
  apply good_obj, map_set_gomap; [|done]. by apply good_obj, map_set_gomap.
Qed.

(** What both edits do: the document stays well formed and only [f] happens. *)
Definition edits (tag : string) (f : list json → list json) (ibs ibs' : list json) : Prop :=
  Forall good ibs' ∧ ibs' ≠ [] ∧ ∃ old, inbound_edit tag old (f old) ibs ibs'.

Lemma edits_cons tag f x ibs ibs' :
  good x → ¬ tagged tag x → edits tag f ibs ibs' → edits tag f (x :: ibs) (x :: ibs').
Proof.
  intros Hg Hx (Hf & _ & old & H). split_and!; [by constructor|done|].
  exists old. by apply inbound_edit_cons.
Qed.

Lemma edits_here tag f cs settings ib post :
  Forall good (JObj ib :: post) → good cs →
  TrimSpace (tag_of ib) = tag → map_get "settings" ib = Some (JObj settings) →
  match cs with JArr l => l | _ => [] end = f (clients_of settings) →
  edits tag f (JObj ib :: post) (set_clients cs settings ib :: post).
Proof.
  intros [Hib Hp]%Forall_cons Hc Ht Hs Hf. split_and!; [|done|].
  - constructor; [by apply set_clients_good|done].
  - exists (clients_of settings). rewrite <- Hf. by apply set_clients_edit.
Qed.

Lemma good_clients settings : good (JObj settings) → Forall good (clients_of settings).
Proof.
  intros H%good_obj. unfold clients_of. destruct (map_get "clients" settings) as [[]|] eqn:E; try constructor.
  apply good_arr. by eapply map_get_gomap.
Qed.

Lemma append_client_edits tag c ibs ibs' :
  Forall good ibs → good c → append_client tag c ibs = inr (Some ibs') →
  edits tag (λ old, old ++ [c]) ibs ibs'.
Proof.
  intros Hg Hc. revert ibs'. induction ibs as [|x r IH]; intros ibs' H; [done|].
  pose proof Hg as [Hx Hr]%Forall_cons.
  assert (¬ tagged tag x → (match append_client tag c r with
    | inr (Some r) => inr (Some (x :: r)) | other => other end) = inr (Some ibs') →
    edits tag (λ old, old ++ [c]) (x :: r) ibs').
  { intros Hx'. destruct (append_client tag c r) as [|[r'|]]; intros; simplify_eq.
    apply edits_cons; auto. }
  destruct x as [| | | | | |ib]; cbn [append_client] in H; try (apply H0; [by intros []|exact H]).
  destruct (String.eqb_spec (TrimSpace (tag_of ib)) tag) as [Ht|Hne]; [|auto].
  destruct (map_get "settings" ib) as [[| | | | | |settings]|] eqn:Es; simplify_eq.
  apply edits_here; [done| |done|done|done].
  apply good_arr, Forall_app. split; [|by apply Forall_singleton].
  apply good_clients. apply good_obj in Hx. by eapply (map_get_gomap good).
Qed.

(** The client list without the client with that e-mail. *)
Definition without (email : string) : list json → list json := bfilter (λ c, negb (has_email email c)).

Lemma drop_client_edits tag email ibs ibs' :
  Forall good ibs → drop_client tag email ibs = inr (Some ibs') → edits tag (without email) ibs ibs'.
Proof.
  intros Hg. revert ibs'. induction ibs as [|x r IH]; intros ibs' H; [done|].
  pose proof Hg as [Hx Hr]%Forall_cons.
  assert (¬ tagged tag x → (match drop_client tag email r with
    | inr (Some r) => inr (Some (x :: r)) | other => other end) = inr (Some ibs') →
    edits tag (without email) (x :: r) ibs').
  { intros Hx'. destruct (drop_client tag email r) as [|[r'|]]; intros; simplify_eq.
    apply edits_cons; auto. }
  destruct x as [| | | | | |ib]; cbn [drop_client] in H; try (apply H0; [by intros []|exact H]).
  destruct (String.eqb_spec (TrimSpace (tag_of ib)) tag) as [Ht|Hne]; [|auto].
  destruct (map_get "settings" ib) as [[| | | | | |settings]|] eqn:Es; try done.
  pose proof (good_clients settings) as Hcs. apply good_obj in Hx.
  pose proof (map_get_gomap _ _ _ _ Hx Es) as Hs. specialize (Hcs Hs).
  unfold clients_of in Hcs. destruct (map_get "clients" settings) as [[| | | | |clients|]|] eqn:Ec; try done.
  destruct (existsb (has_email email) clients); simplify_eq.
  assert (Hf : Forall good (without email clients)).
  { rewrite Forall_forall in *. intros y [_ Hy]%elem_of_bfilter. auto. }
  apply edits_here; [done| |done|done|]; unfold clients_of; rewrite ?Ec; fold (without email clients).
  - destruct (without email clients) eqn:E; [auto with raven|by apply good_arr].
  - by destruct (without email clients).
Qed.

(** When nothing is written, the client was not there. *)
Definition first_tagged_free (tag email : string) (ibs : list json) : Prop :=
  ∀ pre ib settings post, ibs = pre ++ JObj ib :: post → Forall (λ j, ¬ tagged tag j) pre →
    tagged tag (JObj ib) → map_get "settings" ib = Some (JObj settings) →
    Forall (λ c, has_email email c = false) (clients_of settings).

Lemma without_free email cs : Forall (λ c, has_email email c = false) (without email cs).
Proof. apply Forall_forall. by intros x [Hx%negb_true_iff _]%elem_of_bfilter. Qed.

(** The first tagged inbound of a list is the one an edit changed. *)
Lemma first_tagged_split tag pre pre' x x' post post' :
  pre ++ x :: post = pre' ++ x' :: post' → Forall (λ j, ¬ tagged tag j) pre →
  Forall (λ j, ¬ tagged tag j) pre' → tagged tag x → tagged tag x' → pre = pre' ∧ x = x' ∧ post = post'.
Proof.
  revert pre'. induction pre as [|y pre IH]; intros [|y' pre'] H Hp Hp' Hx Hx'; simplify_eq/=; [done|..].
  - by apply Forall_cons in Hp' as [? _].
  - by apply Forall_cons in Hp as [? _].
  - apply Forall_cons in Hp as [_ ?], Hp' as [_ ?]. destruct (IH pre') as (-> & -> & ->); done.
Qed.
Lemma first_tagged_unique tag pre pre' x x' post post' :
  pre ++ x :: post = pre' ++ x' :: post' → Forall (λ j, ¬ tagged tag j) pre →
  Forall (λ j, ¬ tagged tag j) pre' → tagged tag x → tagged tag x' → x = x'.
Proof. intros. by edestruct first_tagged_split as (_ & ? & _). Qed.

Lemma edit_free tag email ibs ibs' old :
  inbound_edit tag old (without email old) ibs ibs' → first_tagged_free tag email ibs'.
Proof.
  intros (pre & ib & s & ib' & s' & post & -> & -> & Hpre & Ht & Hs & Hs' & _ & Hc & Hk & _).
  assert (tagged tag (JObj ib')) as Ht'.
  { simpl in *. unfold tag_of in *. by rewrite Hk. }
  intros pre2 ib2 s2 post2 He Hp2 Ht2 Hs2. pose proof (first_tagged_unique _ _ _ _ _ _ _ He Hpre Hp2 Ht' Ht2).
  simplify_eq. rewrite Hc. apply without_free.
Qed.

Lemma drop_client_none tag email ibs :
  drop_client tag email ibs = inr None → first_tagged_free tag email ibs.
Proof.
  induction ibs as [|x r IH]; intros H pre ib settings post He Hpre Ht Hs; [by destruct pre|].
  assert (Hno : ¬ tagged tag x → (match drop_client tag email r with
    | inr (Some r) => inr (Some (x :: r)) | other => other end) = inr None →
    Forall (λ c, has_email email c = false) (clients_of settings)).
  { intros Hx. destruct (drop_client tag email r) as [|[r'|]]; intros; simplify_eq.
    destruct pre as [|y pre]; simplify_eq/=. apply Forall_cons in Hpre as [_ Hpre].
    by eapply IH. }
  destruct x as [| | | | | |ib0]; cbn [drop_client] in H; try (apply Hno; [by intros []|exact H]).
  destruct (String.eqb_spec (TrimSpace (tag_of ib0)) tag) as [Ht0|Hne]; [|auto].
  destruct pre as [|y pre]; simplify_eq/=; [|by apply Forall_cons in Hpre as [Hf _]; destruct Hf].
  rewrite Hs in H. unfold clients_of.
  destruct (map_get "clients" settings) as [[| | | | |clients|]|]; try by constructor.
  destruct (existsb _ clients) eqn:E; [done|]. apply Forall_forall. intros c Hc.
  destruct (has_email email c) eqn:Eh; [|done]. rewrite <- E. symmetry. apply existsb_exists.
  exists c. by rewrite <- list_elem_of_In.
Qed.

(** ** Files *)

Definition file_inbounds_of (h : Host) (dir name : string) (ibs : list json) : Prop :=
  ∃ text rebuild, ReadFile h dir name = inr text ∧ open_config text = inr (ibs, rebuild).

(** Every other file reads as before. *)
Definition same_elsewhere (dir name : string) (h h' : Host) : Prop :=
  ∀ d n, (d, n) ≠ (dir, name) → ReadFile h' d n = ReadFile h d n.

Lemma open_config_root root :
  good (JObj root) → ∀ x l, map_get "inbounds" root = Some (JArr (x :: l)) →
  ∃ rebuild, open_config (json_marshal_indent (JObj root)) = inr (x :: l, rebuild).
Proof.
  intros [Hc Hw] x l Hm. unfold open_config. rewrite Unmarshal_marshal_indent by done.
  unfold decode, d_map. rewrite canon_normalize by done. rewrite Hm. by eexists.
Qed.

(** A document that lists the inbounds [ibs]. *)
Definition lists_inbounds (ibs : list json) (root : list (string * json)) : Prop :=
  good (JObj root) ∧ map_get "inbounds" root = Some (JArr ibs).

Lemma open_config_listed ibs root :
  lists_inbounds ibs root → ibs ≠ [] →
  ∃ rebuild, open_config (json_marshal_indent (JObj root)) = inr (ibs, rebuild).
Proof. intros [Hg Hm] Hne. destruct ibs as [|x l]; [done|]. by apply open_config_root. Qed.

Lemma open_config_reopen text ibs rebuild :
  open_config text = inr (ibs, rebuild) → Forall good ibs ∧
  ∀ ibs', Forall good ibs' → ∃ root, rebuild ibs' = JObj root ∧ lists_inbounds ibs' root.
Proof.
  unfold open_config. intros H.
  assert (Hroot : ∀ root ibs', gomap good root → Forall good ibs' →
    lists_inbounds ibs' (map_set "inbounds" (JArr ibs') root)).
  { intros root ibs' Hg Hi. split; [|apply map_get_set_eq].
    apply good_obj, map_set_gomap; [by apply good_arr|done]. }
  assert (Harr : ∀ ibs0 f, (match Unmarshal (d_list (λ j, (normalize j, true))) text with
      | inl e => inl ("parse config: " +:+ e)
      | inr inbounds => inr (inbounds, λ ibs, JObj [("inbounds", JArr ibs)]) end) = inr (ibs0, f) →
    Forall good ibs0 ∧ ∀ ibs', Forall good ibs' → ∃ root, f ibs' = JObj root ∧ lists_inbounds ibs' root).
  { clear H. intros ibs0 f. unfold Unmarshal. destruct (json_parse text) as [v|] eqn:Ev; [|done].
    unfold decode. destruct (d_list _ v) as [l ok] eqn:Ed. destruct ok; [|done]. intros [= <- <-].
    split; [|intros ibs' ?; eexists; split; [done|by apply (Hroot []); [apply gomap_nil|]]].
    apply json_parse_wf in Ev. destruct v as [| | | | |vs|]; unfold d_list in Ed; simpl in Ed; simplify_eq; [constructor|].
    simpl in Ev. apply forallb_Forall in Ev. apply Forall_map. eapply Forall_impl; [exact Ev|].
    intros x Hx. split; [apply normalize_canon|by apply normalize_wf]. }
  destruct (Unmarshal d_map text) as [|[root|]] eqn:Eu; [by apply Harr| |by apply Harr].
  destruct (map_get "inbounds" root) as [[| | | | |[|x l]|]|] eqn:Em; try (by apply Harr).
  simpl in H. simplify_eq. assert (Hg : gomap good root).
  { apply good_obj. unfold Unmarshal in Eu. destruct (json_parse text) as [v|] eqn:Ev; [|done].
    rename Eu into Ed. apply normalize_good in Ev. unfold decode, d_map in Ed.
    destruct v; try discriminate; destruct (normalize _); by simplify_eq. }
  split; [|intros; eexists; split; [done|by apply (Hroot root)]]. by apply good_arr, (map_get_gomap good "inbounds" _ root).
Qed.

Lemma find_entry_set_content name n text l :
  find_entry n (set_content name text l) =
  if String.eqb n name then (λ e, mkDirEntry (de_name e) (de_is_dir e) (inr text)) <$> find_entry n l
  else find_entry n l.
Proof.
  induction l as [|e l IH]; simpl; [by case_if|]. unfold find_entry in *.
  destruct (String.eqb_spec (de_name e) name) as [He|He]; simpl.
  - destruct (String.eqb_spec (de_name e) n) as [Hn|Hn]; [|exact IH].
    destruct (String.eqb_spec n name); [done|congruence].
  - destruct (String.eqb_spec (de_name e) n) as [Hn|Hn]; [|exact IH].
    destruct (String.eqb_spec n name); [congruence|done].
Qed.

(** The file now holds [text], and nothing else of the directories changed. *)
Definition written (dir name text : string) (h h' : Host) : Prop :=
  ∃ l, ReadDir h dir = DirEntries l ∧
    h_dirs h' = <[dir := DirEntries (set_content name text l)]> (h_dirs h).

Lemma writeConfigFile_written dir name text h h' :
  writeConfigFile dir name text h = (inr tt, h') → written dir name text h h'.
Proof.
  unfold writeConfigFile, written. destruct (ReadDir h dir) as [| |l] eqn:Ed;
    destruct (h_writes h) as [|[] ?]; intros; simplify_eq; by exists l.
Qed.

Lemma written_reads dir name text old h h' :
  ReadFile h dir name = inr old → written dir name text h h' →
  ReadFile h' dir name = inr text ∧ same_elsewhere dir name h h'.
Proof.
  intros Hr (l & Ed & Hd). unfold ReadFile in Hr. rewrite Ed in Hr.
  destruct (find_entry name l) as [e|] eqn:Ee; [|done].
  split; [|intros d n Hne]; unfold ReadFile, ReadDir; rewrite Hd.
  - rewrite lookup_insert_eq. simpl. by rewrite find_entry_set_content, String.eqb_refl, Ee.
  - destruct (decide (d = dir)) as [->|Hdd]; [|by rewrite lookup_insert_ne].
    rewrite lookup_insert_eq. unfold ReadDir in Ed. rewrite Ed. simpl. rewrite find_entry_set_content.
    destruct (String.eqb_spec n name); [congruence|done].
Qed.

(** A failed write leaves the old file in place. *)
Lemma writeConfigFile_err dir name text h e h' :
  writeConfigFile dir name text h = (inl e, h') → h_dirs h' = h_dirs h.
Proof. unfold writeConfigFile. intros H. repeat case_match; by simplify_eq. Qed.

Lemma edit_file_err dir name edit (u : error + ()) h e h' :
  edit_file dir name edit u h = (inl e, h') → h_dirs h' = h_dirs h.
Proof.
  unfold edit_file. intros H. repeat case_match; simplify_eq; try done. by eapply writeConfigFile_err.
Qed.

(** A successful edit: nothing to do, or the new document is in the file. *)
Lemma edit_file_ok dir name edit u f tag h h' :
  (∀ ibs ibs', Forall good ibs → edit ibs = inr (Some ibs') → edits tag f ibs ibs') →
  edit_file dir name edit u h = (inr tt, h') →
  ∃ ibs, file_inbounds_of h dir name ibs ∧
    ((edit ibs = inr None ∧ u = inr tt ∧ h' = h) ∨
     ∃ ibs' old root, lists_inbounds ibs' root ∧ written dir name (json_marshal_indent (JObj root)) h h' ∧
       file_inbounds_of h' dir name ibs' ∧ inbound_edit tag old (f old) ibs ibs' ∧
       same_elsewhere dir name h h').
Proof.
  intros Hedit H. unfold edit_file in H. destruct (ReadFile h dir name) as [|text] eqn:Er; [done|].
  destruct (open_config text) as [|[ibs rebuild]] eqn:Eo; [done|].
  exists ibs. split; [by exists text, rebuild|].
  destruct (open_config_reopen _ _ _ Eo) as [Hg Hre].
  destruct (edit ibs) as [|[ibs'|]] eqn:Ee; [done| |left; by simplify_eq].
  right. destruct (Hedit _ _ Hg Ee) as (Hg' & Hne & old & Hie).
  destruct (Hre ibs' Hg') as (root & Hrb & Hroot). rewrite Hrb in H.
  apply writeConfigFile_written in H. destruct (written_reads _ _ _ _ _ _ Er H) as [Hr' Hsame].
  destruct (open_config_listed _ _ Hroot Hne) as [rebuild' Ho'].
  exists ibs', old, root. split_and!; try done; by eexists _, _.
Qed.

(** ** The operations *)

(** Building a client draws random bytes and touches nothing else. *)
Definition rand_only {A} (m : M Host A) : Prop :=
  ∀ h, h_dirs (m h).2 = h_dirs h ∧ h_writes (m h).2 = h_writes h.

Lemma rand_only_ret {A} (a : A) : rand_only (ret a).
Proof. done. Qed.
Lemma rand_only_throw {A} e : rand_only (throw (A := A) e).
Proof. done. Qed.
Lemma rand_only_read n : rand_only (RandRead n).
Proof. done. Qed.
Lemma rand_only_bind {A B} (m : M Host A) (k : A → M Host B) :
  rand_only m → (∀ a, rand_only (k a)) → rand_only (bind m k).
Proof.
  intros Hm Hk h. unfold bind. specialize (Hm h). destruct (m h) as [[e|a] h1]; [done|].
  destruct (Hk a h1) as [-> ->]. done.
Qed.
#[export] Hint Resolve rand_only_ret rand_only_throw rand_only_read rand_only_bind : raven.

(** A client map holds only well-formed values. *)
Definition good_result (m : M Host (list (string * json))) : Prop :=
  ∀ h client h', m h = (inr client, h') → good (JObj client).

Lemma client_map_good kvs : Forall (λ kv, good kv.2) kvs → good (JObj (client_map kvs)).
Proof.
  intros Hf. apply good_obj. unfold client_map. generalize (gomap_nil good).
  generalize (@nil (string * json)). induction Hf as [|kv r Hkv _ IH]; intros m Hm; simpl; [done|].
  by apply IH, map_set_gomap.
Qed.

Ltac good_map := apply client_map_good; repeat constructor; auto with raven.

(** The four shapes of a client, with the protocol that selects each. *)
Inductive built (username : string) : string → list (string * json) → Prop :=
  | built_vless id flow : built username "vless"
      (client_map [("id", JStr id); ("flow", JStr flow); ("email", JStr username)])
  | built_vmess id aid : built username "vmess"
      (client_map [("id", JStr id); ("alterId", JInt aid); ("email", JStr username)])
  | built_trojan pwd : built username "trojan"
      (client_map [("password", JStr pwd); ("email", JStr username)])
  | built_ss pwd method : method ≠ "" → built username "shadowsocks"
      (client_map [("password", JStr pwd); ("method", JStr method); ("email", JStr username)]).

Lemma ss_method_nonempty settings : ss_method settings ≠ "".
Proof.
  unfold ss_method. destruct (lax d_methods settings) as [m cs]. unfold firstNonEmpty.
  simpl. repeat (case_if; [by apply String.eqb_neq, negb_true_iff|]). done.
Qed.

(** Invert a run of binds over [RandRead]. *)
Ltac run_inv H :=
  unfold buildVLESSClient, buildVMessClient, buildTrojanClient, generateUUID, generatePassword,
    RandRead, bind, ret, throw in H;
  cbv beta iota zeta in H; injection H as <- <-.

Lemma build_client_built protocol username tag settings h client h' :
  build_client protocol username tag settings h = (inr client, h') →
  built username (ToLower protocol) client ∧ h_dirs h' = h_dirs h ∧ h_writes h' = h_writes h.
Proof.
  intros H. unfold build_client in H.
  destruct (String.eqb_spec (ToLower protocol) "vless") as [->|_].
  { run_inv H. split; [constructor|done]. }
  destruct (String.eqb_spec (ToLower protocol) "vmess") as [->|_].
  { run_inv H. split; [constructor|done]. }
  destruct (String.eqb_spec (ToLower protocol) "trojan") as [->|_].
  { run_inv H. split; [constructor|done]. }
  destruct (String.eqb_spec (ToLower protocol) "shadowsocks") as [->|_]; [|by case_if].
  unfold buildShadowsocksClient in H. pose proof (ss_method_nonempty settings).
  destruct (HasPrefix _ _) in H; run_inv H; (split; [by constructor|done]).
Qed.

Lemma built_good username proto client : built username proto client → good (JObj client).
Proof. intros []; good_map. Qed.

Lemma stored_map_good stored email m : storedConfigToClientMap stored email = inr m → good (JObj m).
Proof.
  unfold storedConfigToClientMap. destruct (Unmarshal _ _); [done|]. intros H.
  repeat case_if; simplify_eq; good_map.
Qed.

Lemma ReadDir_dirs h h' dir : h_dirs h' = h_dirs h → ReadDir h' dir = ReadDir h dir.
Proof. unfold ReadDir. by intros ->. Qed.
Lemma ReadFile_dirs h h' dir name : h_dirs h' = h_dirs h → ReadFile h' dir name = ReadFile h dir name.
Proof. unfold ReadFile, ReadDir. by intros ->. Qed.

Lemma lift_err_inr {S A} (r : error + A) (s s' : S) a :
  lift_err r s = (inr a, s') → r = inr a ∧ s' = s.
Proof. unfold lift_err, throw, ret. destruct r; intros; by simplify_eq. Qed.

(** What an addition to a file means. *)
Definition appended (dir tag file : string) (client : json) (h h' : Host) : Prop :=
  ∃ ibs ibs' old, file_inbounds_of h dir file ibs ∧ file_inbounds_of h' dir file ibs' ∧
    inbound_edit tag old (old ++ [client]) ibs ibs' ∧ same_elsewhere dir file h h'.

Lemma addClientToFile_ok dir file tag client h h' :
  good (JObj client) → addClientToFile dir file tag client h = (inr tt, h') →
  appended dir tag file (JObj client) h h'.
Proof.
  intros Hg H. unfold addClientToFile in H.
  eapply (edit_file_ok _ _ _ _ (λ old, old ++ [JObj client]) tag) in H
    as (ibs & Hi & [(_ & Hu & _)|(ibs' & old & _ & _ & _ & Hi' & He & Hs)]); [done| |].
  - by exists ibs, ibs', old.
  - intros. by apply append_client_edits.
Qed.

Lemma appended_dirs dir tag file c h h1 h' :
  h_dirs h1 = h_dirs h → appended dir tag file c h1 h' → appended dir tag file c h h'.
Proof.
  intros Hd (ibs & ibs' & old & (text & f & Hr & Ho) & H2 & H3 & H4).
  exists ibs, ibs', old. split_and!; try done.
  - exists text, f. by rewrite <- (ReadFile_dirs _ _ _ _ Hd).
  - intros d n Hn. rewrite H4 by done. by apply ReadFile_dirs.
Qed.

(** ** Properties *)


(** A stored user that [AddExistingClientToInbound] reports as restored
    is appended to the inbound with the credential its record stores, and
    nothing else changes. *)
Lemma AddExistingClientToInbound_appends dir tag username stored h h' :
  AddExistingClientToInbound dir tag username stored h = (inr tt, h') →
  ∃ file protocol settings client,
    findInboundSettings h dir tag = inr (file, protocol, settings) ∧
    storedConfigToClientMap stored (TrimSpace username) = inr client ∧
    map_get "email" client = Some (JStr (TrimSpace username)) ∧
    appended dir tag file (JObj client) h h'.
Proof.
  unfold AddExistingClientToInbound. case_if; [done|]. intros H.
  apply bind_ok in H as (? & ? & [= <- <-] & H).
  apply bind_ok in H as ([[file protocol] settings] & ? & [Hfind ->]%lift_err_inr & H).
  apply bind_ok in H as (client & ? & [Hc ->]%lift_err_inr & H).
  exists file, protocol, settings, client. split_and!; try done.
  - unfold storedConfigToClientMap in Hc. destruct (Unmarshal _ _); [done|].
    repeat case_if; by simplify_eq.
  - by apply addClientToFile_ok in H; [|by eapply stored_map_good].
Qed.

(** C32: Revocation at the file level: after [RemoveUserFromInbound] reports
    success, the first inbound with the tag has no client with that e-mail
    (a successful call also covers the case that there was none); when the
    file was rewritten, exactly those clients are gone and the others keep
    their order; no other file changes. *)
Theorem RemoveUserFromInbound_removes dir tag email h h' :
  RemoveUserFromInbound dir tag email h = (inr tt, h') →
  ∃ file protocol settings ibs ibs',
    findInboundSettings h dir tag = inr (file, protocol, settings) ∧
    file_inbounds_of h dir file ibs ∧ file_inbounds_of h' dir file ibs' ∧
    first_tagged_free tag (TrimSpace email) ibs' ∧ same_elsewhere dir file h h' ∧
    (h' = h ∨ ∃ old, inbound_edit tag old (without (TrimSpace email) old) ibs ibs').
Proof.
  unfold RemoveUserFromInbound. case_if; [done|]. intros H.
  apply bind_ok in H as (? & ? & [= <- <-] & H).
  apply bind_ok in H as ([[file protocol] settings] & ? & [Hfind ->]%lift_err_inr & H).
  unfold removeClientFromFile in H.
  eapply (edit_file_ok _ _ _ _ (without (TrimSpace email)) tag) in H
    as (ibs & Hi & [(Hn & _ & ->)|(ibs' & old & _ & _ & _ & Hi' & He & Hs)]);
    [| |intros; by apply drop_client_edits].
  - exists file, protocol, settings, ibs, ibs. split_and!; try done; [by apply drop_client_none|by left].
  - exists file, protocol, settings, ibs, ibs'. split_and!; try done; [by eapply edit_free|right; by exists old].
Qed.

(** The only step of the three operations that writes. *)
Definition writes_on_success {A} (m : M Host A) : Prop :=
  ∀ h e h', m h = (inl e, h') → h_dirs h' = h_dirs h.

Lemma writes_after_reads {A B} (m : M Host A) (k : A → M Host B) :
  rand_only m → (∀ a, writes_on_success (k a)) → writes_on_success (bind m k).
Proof.
  intros Hm Hk h e h'. unfold bind. specialize (Hm h). destruct (m h) as [[e1|a] h1]; simpl in Hm.
  - intros [= <- <-]. tauto.
  - intros H%Hk. rewrite H. tauto.
Qed.

Lemma rand_only_get : rand_only get.
Proof. done. Qed.
Lemma rand_only_lift_err {A} (r : error + A) : rand_only (lift_err r).
Proof. by destruct r. Qed.
Lemma rand_only_build protocol username tag settings : rand_only (build_client protocol username tag settings).
Proof.
  unfold build_client, buildVLESSClient, buildVMessClient, buildTrojanClient, buildShadowsocksClient,
    generateUUID, generatePassword.
  repeat case_if; auto 10 with raven.
  all: repeat first [apply rand_only_bind|intros ?|apply rand_only_read|apply rand_only_ret|case_if].
Qed.
#[export] Hint Resolve rand_only_get rand_only_lift_err rand_only_build : raven.

Lemma edit_writes dir name edit u : writes_on_success (edit_file dir name edit u).
Proof. intros h e h'. apply edit_file_err. Qed.
Lemma edit_then_ret {A} dir name edit u (a : A) : writes_on_success (edit_file dir name edit u ;;; ret a).
Proof.
  intros h e h'. unfold bind. destruct (edit_file _ _ _ _ h) as [[e1|[]] h1] eqn:E; [|done].
  intros [= <- <-]. by eapply edit_file_err.
Qed.
Lemma throw_writes {A} e : writes_on_success (throw (A := A) e).
Proof. by intros h e' h' [= _ <-]. Qed.
#[export] Hint Resolve edit_writes edit_then_ret throw_writes : raven.

Lemma AddExistingClientToInbound_err dir tag username stored h e h' :
  AddExistingClientToInbound dir tag username stored h = (inl e, h') → h_dirs h' = h_dirs h.
Proof.
  revert h e h'. change (writes_on_success (AddExistingClientToInbound dir tag username stored)).
  unfold AddExistingClientToInbound. case_if; [auto with raven|].
  apply writes_after_reads; [auto with raven|intros h0].
  apply writes_after_reads; [auto with raven|intros [[file protocol] settings]].
  apply writes_after_reads; [auto with raven|intros client]. apply edit_writes.
Qed.

(** C33: When one of the three file operations reports an error (no such
    inbound, no credential to build, a failing write or rename), every
    configuration file reads as before. *)
Theorem config_error_changes_nothing dir tag name arg h e h' :
  AddClientToInbound dir tag name arg h = (inl e, h') ∨
  AddExistingClientToInbound dir tag name arg h = (inl e, h') ∨
  RemoveUserFromInbound dir tag name h = (inl e, h') →
  h_dirs h' = h_dirs h.
Proof.
  intros [H|[H|H]].
  - revert H. generalize h, e, h'. change (writes_on_success (AddClientToInbound dir tag name arg)).
    unfold AddClientToInbound. case_if; [auto with raven|].
    apply writes_after_reads; [auto with raven|intros h0].
    apply writes_after_reads; [auto with raven|intros [[file protocol] settings]].
    apply writes_after_reads; [auto with raven|intros client].
    apply writes_after_reads; [auto with raven|intros stored]. apply edit_then_ret.
  - by apply AddExistingClientToInbound_err in H.
  - revert H. generalize h, e, h'. change (writes_on_success (RemoveUserFromInbound dir tag name)).
    unfold RemoveUserFromInbound. case_if; [auto with raven|].
    apply writes_after_reads; [auto with raven|intros h0].
    apply writes_after_reads; [auto with raven|intros [[file protocol] settings]]. apply edit_writes.
Qed.

(** ** UUIDs *)

Fixpoint matches (pat : list (ascii → bool)) (s : string) : bool :=
  match pat, s with
  | [], EmptyString => true
  | p :: pat, String c s => p c && matches pat s
  | _, _ => false
  end.
Definition is_hex (c : ascii) : bool := is_digit c || ((97 <=? code c) && (code c <=? 102))%N.
(** RFC 4122, version 4, variant 10: 8-4-4-4-12 lower-case hex digits. *)
Definition uuid_v4_pattern : list (ascii → bool) :=
  let hex n := replicate n is_hex in
  let dash c := is_char c 45 in
  hex 8%nat ++ [dash] ++ hex 4%nat ++ [dash; λ c, is_char c 52] ++ hex 3%nat ++ [dash]
    ++ [λ c, is_char c 56 || is_char c 57 || is_char c 97 || is_char c 98] ++ hex 3%nat
    ++ [dash] ++ hex 12%nat.

Lemma hex_hi c : is_hex (hex_digit (code c / 16)) = true.
Proof. all_bytes c. Qed.
Lemma hex_lo c : is_hex (hex_digit (code c mod 16)) = true.
Proof. all_bytes c. Qed.
Lemma version_digit c :
  is_char (hex_digit (code (ascii_of_N (N.lor (N.land (code c) 15) 64)) / 16)) 52 = true.
Proof. all_bytes c. Qed.
Lemma variant_digit c :
  let d := hex_digit (code (ascii_of_N (N.lor (N.land (code c) 63) 128)) / 16) in
  is_char d 56 || is_char d 57 || is_char d 97 || is_char d 98 = true.
Proof. all_bytes c. Qed.

(** Whatever the random bytes, [generateUUID] succeeds with a version 4
    UUID in canonical form: 36 bytes, dashes at 8, 13, 18 and 23, the version
    digit 4, a variant digit among 8, 9, a, b, lower-case hex digits elsewhere. *)
Lemma generateUUID_v4 h : ∃ u h', generateUUID h = (inr u, h') ∧ matches uuid_v4_pattern u = true.
Proof.
  do 2 eexists. split; [reflexivity|].
  cbv [uuid_of_bytes rand_bytes update_byte String.substring Hex String.append uuid_v4_pattern
       replicate app matches].
  by rewrite ?hex_hi, ?hex_lo, version_digit, variant_digit.
Qed.

(** ** Witnesses *)

Definition demo_doc : json :=
  JObj [("inbounds", JArr [JObj [("tag", JStr "vless-in"); ("protocol", JStr "vless"); ("port", JInt 443);
    ("settings", JObj [("clients", JArr [JObj [("email", JStr "alice"); ("id", JStr "u1")]]);
                       ("decryption", JStr "none")])]])].
Definition demo_host : Host :=
  mkHost {["/etc/xray" := DirEntries [mkDirEntry "00.json" false (inr (json_marshal demo_doc))]]} []
    (λ n, ascii_of_nat (37 * n)) 0.
Definition demo_stored : string := marshal_Stored (mkStored "vless" "u2" 0 "" "" "none" 0 "" "" "").


Lemma AddExistingClientToInbound_appends_witness : ∃ h',
  AddExistingClientToInbound "/etc/xray" "vless-in" "bob" demo_stored demo_host = (inr tt, h') ∧
  ∃ file protocol settings client,
    findInboundSettings demo_host "/etc/xray" "vless-in" = inr (file, protocol, settings) ∧
    storedConfigToClientMap demo_stored "bob" = inr client ∧
    map_get "email" client = Some (JStr "bob") ∧
    appended "/etc/xray" "vless-in" file (JObj client) demo_host h'.
Proof.
  destruct (AddExistingClientToInbound "/etc/xray" "vless-in" "bob" demo_stored demo_host)
    as [[e|[]] h'] eqn:E.
  - exfalso. vm_compute in E. discriminate E.
  - exists h'. split; [done|]. exact (AddExistingClientToInbound_appends _ _ _ _ _ _ E).
Defined.

Lemma RemoveUserFromInbound_removes_witness : ∃ h',
  RemoveUserFromInbound "/etc/xray" "vless-in" "alice" demo_host = (inr tt, h') ∧
  ∃ file ibs', file_inbounds_of h' "/etc/xray" file ibs' ∧ first_tagged_free "vless-in" "alice" ibs'.
Proof.
  destruct (RemoveUserFromInbound "/etc/xray" "vless-in" "alice" demo_host) as [[e|[]] h'] eqn:E.
  - exfalso. vm_compute in E. discriminate E.
  - exists h'. split; [done|].
    destruct (RemoveUserFromInbound_removes _ _ _ _ _ E) as (file & _ & _ & _ & ibs' & _ & _ & H1 & H2 & _).
    by exists file, ibs'.
Defined.

Lemma config_error_changes_nothing_witness : ∃ e h',
  RemoveUserFromInbound "/etc/xray" "vless-in" "alice"
    (mkHost (h_dirs demo_host) [RenameFails "disk full"] (h_rand demo_host) 0) = (inl e, h') ∧
  h_dirs h' = h_dirs demo_host.
Proof.
  destruct (RemoveUserFromInbound "/etc/xray" "vless-in" "alice"
    (mkHost (h_dirs demo_host) [RenameFails "disk full"] (h_rand demo_host) 0)) as [[e|[]] h'] eqn:E.
  - exists e, h'. split; [done|].
    exact (config_error_changes_nothing _ _ _ "" _ _ _ (or_intror (or_intror E))).
  - exfalso. vm_compute in E. discriminate E.
Defined.
