(* ===== verification/Admin.v ===== *)
(** * Engine administration: [internal/core/admin.go], [internal/xray/apiclient.go],
    [internal/xray/impl.go], [internal/xray/fanout.go], [internal/xray/restore.go]

    [AdminAPI] is the interface, [grpcAdmin], [fileAdmin] and [fanoutAdmin] its
    three implementations. The gRPC HandlerService of a running Xray (dialling
    included) is a parameter, [HandlerService]. Log lines are not modelled. *)

From S2P Require Import Prelude GoString Json JsonDecode XrayTypes Parser ConfigWriter.
From Stdlib Require Import Ascii.

(** ** The interface *)

Record AddClientHint := mkHint { Hint_ProtocolFallback : string; Hint_ClientEncryption : string }.

(** [core.AdminAPI] over a world [W]. *)
Record AdminAPI (W : Type) := mkAdmin {
  AddClient : string → string → AddClientHint → M W string;
  AddExistingClient : string → string → string → M W ();
  RemoveClient : string → string → M W ();
  AddInboundFromJSON : string → M W ();
  RemoveInbound : string → M W ();
  Engine : string;
  Version : string }.
Arguments AddClient {W}. Arguments AddExistingClient {W}. Arguments RemoveClient {W}.
Arguments AddInboundFromJSON {W}. Arguments RemoveInbound {W}. Arguments Engine {W}. Arguments Version {W}.
Arguments mkAdmin {W}.

(** ** The gRPC client *)

Inductive CipherType := AES_128_GCM | AES_256_GCM | CHACHA20_POLY1305 | XCHACHA20_POLY1305.
Inductive Account :=
  | VLESSAccount (id flow : string)
  | VMessAccount (id : string)
  | TrojanAccount (password : string)
  | Shadowsocks2022Account (key : string)
  | ShadowsocksAccount (password : string) (cipher : CipherType).
Record ProtocolUser := mkProtocolUser { PU_Email : string; PU_Account : Account }.

#[export] Instance CipherType_eq_dec : EqDecision CipherType.
Proof. solve_decision. Defined.
#[export] Instance Account_eq_dec : EqDecision Account.
Proof. solve_decision. Defined.

(** xray-core's HandlerService at an address, and its configuration loader. *)
Class HandlerService (E : Type) := {
  InboundHandlerConfig : Type;
  LoadJSONConfig : string → error + list InboundHandlerConfig;
  rpc_AddUser : string → string → ProtocolUser → M E ();
  rpc_RemoveUser : string → string → string → M E ();
  rpc_AddInbound : string → InboundHandlerConfig → M E ();
  rpc_RemoveInbound : string → string → M E ();
  rpc_GetInboundUsers : string → string → M E (list string) }.

(** Errors come back as [fmt.Errorf("...: %w", err)]. *)
Definition wrap_err {S A} (msg : error) (m : M S A) : M S A := λ s,
  match m s with (inl e, s') => (inl (msg +:+ ": " +:+ e), s') | ok => ok end.

(** The Shadowsocks cipher of a method; [None] for the removed [none]. *)
Definition cipher_of (method : string) : option CipherType :=
  if String.eqb method "aes-128-gcm" then Some AES_128_GCM
  else if String.eqb method "aes-256-gcm" then Some AES_256_GCM
  else if String.eqb method "chacha20-poly1305" then Some CHACHA20_POLY1305
  else if String.eqb method "xchacha20-poly1305" then Some XCHACHA20_POLY1305
  else if String.eqb method "none" then None
  else Some CHACHA20_POLY1305.

(** The account for a protocol and its credential fields. *)
Definition account_of (proto shown id flow password method : string) : error + Account :=
  if String.eqb proto "vless" then inr (VLESSAccount id flow)
  else if String.eqb proto "vmess" then inr (VMessAccount id)
  else if String.eqb proto "trojan" then inr (TrojanAccount password)
  else if String.eqb proto "shadowsocks" then
    if HasPrefix method "2022" then inr (Shadowsocks2022Account password)
    else match cipher_of method with
         | Some ct => inr (ShadowsocksAccount password ct)
         | None => inl ("shadowsocks method " +:+ Config.Quote "none" +:+ " is no longer supported")
         end
  else inl ("unsupported protocol " +:+ shown).

Definition storedConfigToProtocolUser (storedJSON email : string) : error + ProtocolUser :=
  match Unmarshal decode_Stored storedJSON with
  | inl e => inl ("parse stored config: " +:+ e)
  | inr stored =>
      match account_of (ToLower (Stored_Protocol stored)) (Stored_Protocol stored) (Stored_ID stored)
              (Stored_Flow stored) (Stored_Password stored) (Stored_Method stored) with
      | inl e => inl e
      | inr a => inr (mkProtocolUser email a)
      end
  end.

Definition clientMapToProtocolUser (protocolName : string) (client : list (string * json)) (email : string)
    : error + ProtocolUser :=
  let str k := str_of (map_get k client) in
  match account_of (ToLower protocolName) protocolName (str "id") (str "flow") (str "password") (str "method") with
  | inl e => inl e
  | inr a => inr (mkProtocolUser email a)
  end.

Section Engine.
Context {E : Type} `{HandlerService E}.

(** The host and the running engines. *)
Definition World : Type := Host * E.
Definition on_host {A} (m : M Host A) : M World A := λ w,
let '(r, h) := m w.1 in (r, (h, w.2)).
Definition on_engine {A} (m : M E A) : M World A := λ w,
let '(r, e) := m w.2 in (r, (w.1, e)).

Definition AddExistingClientToInboundViaAPI (apiAddr inboundTag username storedConfigJSON : string)
  : M E () :=
let username := TrimSpace username in
if String.eqb username "" then throw "username required"
else if String.eqb apiAddr "" then throw "xray_api_addr required"
else match storedConfigToProtocolUser storedConfigJSON username with
     | inl e => throw ("build protocol user: " +:+ e)
     | inr user => wrap_err "alter inbound" (rpc_AddUser apiAddr inboundTag user)
     end.

Definition RemoveUserFromInboundViaAPI (apiAddr inboundTag email : string) : M E () :=
let email := TrimSpace email in
if String.eqb email "" then throw "email required"
else if String.eqb apiAddr "" then throw "xray_api_addr required"
else wrap_err "alter inbound" (rpc_RemoveUser apiAddr inboundTag email).

Definition AddClientToInboundViaAPI
  (apiAddr configDir inboundTag username protocolFallback clientEncStr : string) : M World string :=
let username := TrimSpace username in
if String.eqb username "" then throw "username required"
else if String.eqb apiAddr "" then throw "xray_api_addr required"
else
  w <-- get;;
  found <-- lift_err (match findInboundSettings w.1 configDir inboundTag with
    | inr (_, protocol, settings) => inr (protocol, settings)
    | inl e => if String.eqb protocolFallback "" then inl e
               else inr (ToLower (TrimSpace protocolFallback), None)
    end);;
  let '(protocolName, settings) := found in
  newClient <-- on_host (build_client protocolName username inboundTag settings);;
  user <-- lift_err (match clientMapToProtocolUser protocolName newClient username with
    | inl e => inl ("build protocol user: " +:+ e) | inr u => inr u end);;
  on_engine (wrap_err "alter inbound" (rpc_AddUser apiAddr inboundTag user)) ;;;
  lift_err (match clientToStoredConfig protocolName newClient clientEncStr with
    | inl e => inl ("client config: " +:+ e) | inr s => inr s end).

Definition AddInboundFromJSONViaAPI (apiAddr inboundJSON : string) : M E () :=
if String.eqb apiAddr "" then throw "xray_api_addr required"
else if String.eqb (TrimSpace inboundJSON) "" then throw "inbound JSON required"
else
  let q := String (ascii_of_N 34) "" in
  let wrapped := "{" +:+ q +:+ "inbounds" +:+ q +:+ ":[" +:+ inboundJSON +:+ "]}" in
  match LoadJSONConfig wrapped with
  | inl e => throw ("parse inbound JSON: " +:+ e)
  | inr [] => throw "no inbound parsed from JSON"
  | inr (cfg :: _) => wrap_err "add inbound" (rpc_AddInbound apiAddr cfg)
  end.

Definition RemoveInboundViaAPI (apiAddr tag : string) : M E () :=
if String.eqb apiAddr "" then throw "xray_api_addr required"
else if String.eqb (TrimSpace tag) "" then throw "tag required"
else wrap_err "remove inbound" (rpc_RemoveInbound apiAddr tag).

Definition GetInboundUsersViaAPI (apiAddr tag : string) : M E (list string) :=
if String.eqb apiAddr "" then throw "xray_api_addr required"
else if String.eqb (TrimSpace tag) "" then throw "tag required"
else
  users <-- wrap_err "get inbound users" (rpc_GetInboundUsers apiAddr tag);;
  ret (bfilter (λ e, negb (String.eqb e "")) (map TrimSpace users)).

(** ** The two single-node implementations *)

(** [errors.Join] *)
Definition join_errors (a b : error + ()) : error + () :=
match a, b with
| inl x, inl y => inl (x +:+ String (ascii_of_N 10) y)
| inl x, inr _ => inl x
| inr _, b => b
end.

Definition NewGRPCAdmin (apiAddr configDir : string) : AdminAPI World := mkAdmin
(λ tag identity hint, AddClientToInboundViaAPI apiAddr configDir tag identity
    (Hint_ProtocolFallback hint) (Hint_ClientEncryption hint))
(λ tag identity stored, on_engine (AddExistingClientToInboundViaAPI apiAddr tag identity stored))
(λ tag identity,
   apiErr <-- try (on_engine (RemoveUserFromInboundViaAPI apiAddr tag identity));;
   if String.eqb configDir "" then lift_err apiErr
   else
     fileErr <-- try (on_host (RemoveUserFromInbound configDir tag identity));;
     lift_err (join_errors apiErr fileErr))
(λ rawJSON, on_engine (AddInboundFromJSONViaAPI apiAddr rawJSON))
(λ tag, on_engine (RemoveInboundViaAPI apiAddr tag))
"xray" "".

Definition NewFileAdmin (configDir : string) : AdminAPI World := mkAdmin
(λ tag identity hint, on_host (AddClientToInbound configDir tag identity (Hint_ClientEncryption hint)))
(λ tag identity stored, on_host (AddExistingClientToInbound configDir tag identity stored))
(λ tag identity, on_host (RemoveUserFromInbound configDir tag identity))
(λ _, throw "xray: AddInboundFromJSON requires xray_api_addr (gRPC); file-only mode cannot add runtime inbounds")
(λ _, throw "xray: RemoveInbound requires xray_api_addr (gRPC); file-only mode cannot remove runtime inbounds")
"xray" "".
End Engine.

(** ** Fan-out to several nodes *)

Section Fanout.
Context {W : Type}.

Record NamedAdmin := mkNamedAdmin { NA_Name : string; NA_Admin : AdminAPI W }.

Definition isBenignExists (e : error) : bool := Contains (ToLower e) "exist".
Definition isBenignAbsent (e : error) : bool :=
let lower := ToLower e in
Contains lower "not found" || Contains lower "no such" || Contains lower "not enough information".

Definition failure (t : NamedAdmin) (e : error) : string := NA_Name t +:+ ": " +:+ e.

(** The loops below: the number of targets that did it, and the failures. *)
Fixpoint on_targets (op : NamedAdmin → M W ()) (benign : error → bool) (targets : list NamedAdmin)
  : M W (nat * list string) :=
match targets with
| [] => ret (0%nat, [])
| t :: r =>
    err <-- try (op t);;
    rest <-- on_targets op benign r;;
    match err with
    | inl e => if benign e then ret (S rest.1, rest.2) else ret (rest.1, failure t e :: rest.2)
    | inr _ => ret (S rest.1, rest.2)
    end
end.

(** The stored configuration of the first success, the count, the failures. *)
Fixpoint add_on_targets (tag identity : string) (hint : AddClientHint) (targets : list NamedAdmin)
  : M W (option string * nat * list string) :=
match targets with
| [] => ret (None, 0%nat, [])
| t :: r =>
    got <-- try (AddClient (NA_Admin t) tag identity hint);;
    rest <-- add_on_targets tag identity hint r;;
    let '(stored, n, failures) := rest in
    match got with
    | inl e => ret (stored, n, failure t e :: failures)
    | inr s => ret (Some s, S n, failures)
    end
end.

Definition count_nodes (targets : list NamedAdmin) : string := Itoa (Z.of_nat (length targets)).

Definition fanout_AddClient (targets : list NamedAdmin) (tag identity : string) (hint : AddClientHint)
  : M W string :=
r <-- add_on_targets tag identity hint targets;;
match r with
| (Some stored, _, _) => ret stored
| (None, _, failures) =>
    throw ("AddClient " +:+ identity +:+ "@" +:+ tag +:+ " failed on all " +:+ count_nodes targets
           +:+ " nodes: " +:+ Join failures "; ")
end.

Definition fanout_AddExistingClient (targets : list NamedAdmin) (tag identity stored : string) : M W () :=
r <-- on_targets (λ t, AddExistingClient (NA_Admin t) tag identity stored) isBenignExists targets;;
if Nat.eqb r.1 0 then
  throw ("AddExistingClient " +:+ identity +:+ "@" +:+ tag +:+ " failed on all " +:+ count_nodes targets
         +:+ " nodes: " +:+ Join r.2 "; ")
else ret tt.

Definition fanout_RemoveClient (targets : list NamedAdmin) (tag identity : string) : M W () :=
r <-- on_targets (λ t, RemoveClient (NA_Admin t) tag identity) isBenignAbsent targets;;
match r.2 with
| [] => ret tt
| failures => throw ("RemoveClient " +:+ identity +:+ "@" +:+ tag +:+ " failed on "
                +:+ Itoa (Z.of_nat (length failures)) +:+ " node(s): " +:+ Join failures "; ")
end.

Definition fanout_AddInboundFromJSON (targets : list NamedAdmin) (rawJSON : string) : M W () :=
r <-- on_targets (λ t, AddInboundFromJSON (NA_Admin t) rawJSON) isBenignExists targets;;
if Nat.eqb r.1 0 then
  throw ("AddInboundFromJSON failed on all " +:+ count_nodes targets +:+ " nodes: " +:+ Join r.2 "; ")
else ret tt.

Definition fanout_RemoveInbound (targets : list NamedAdmin) (tag : string) : M W () :=
r <-- on_targets (λ t, RemoveInbound (NA_Admin t) tag) isBenignAbsent targets;;
match r.2 with
| [] => ret tt
| failures => throw ("RemoveInbound " +:+ tag +:+ " failed on "
                +:+ Itoa (Z.of_nat (length failures)) +:+ " node(s): " +:+ Join failures "; ")
end.

Definition NewFanoutAdmin (targets : list NamedAdmin) : AdminAPI W := mkAdmin
(fanout_AddClient targets) (fanout_AddExistingClient targets) (fanout_RemoveClient targets)
(fanout_AddInboundFromJSON targets) (fanout_RemoveInbound targets)
"xray" (match targets with [] => "" | t :: _ => Version (NA_Admin t) end).
End Fanout.
Arguments NamedAdmin : clear implicits.

(** ** Restoring users *)

Record RestoreUser := mkRestoreUser { RU_Username : string; RU_ClientConfig : string; RU_Protocol : string }.
Record SyncResult := mkSyncResult {
  Sync_Added : nat; Sync_FailedUsers : list string; Sync_FirstError : string }.

Section Restore.
Context {E : Type} `{HandlerService E}.

(** The number of users restored, which the function logs. *)
Fixpoint restore_users (apiAddr inboundTag : string) (users : list RestoreUser) : M E nat :=
match users with
| [] => ret 0%nat
| u :: r =>
    let username := TrimSpace (RU_Username u) in
    if String.eqb username "" then restore_users apiAddr inboundTag r
    else
      err <-- try (AddExistingClientToInboundViaAPI apiAddr inboundTag username (RU_ClientConfig u));;
      n <-- restore_users apiAddr inboundTag r;;
      ret (match err with inl _ => n | inr _ => S n end)
end.
Definition RestoreUsersToXray (apiAddr inboundTag : string) (users : list RestoreUser) : M E () :=
if String.eqb apiAddr "" || String.eqb inboundTag "" then ret tt
else restore_users apiAddr inboundTag users ;;; ret tt.
End Restore.

(** The result and the set of identities, which grows in place. *)
Fixpoint sync_users (configDir inboundTag : string) (users : list RestoreUser)
    (existing : gset string) (res : SyncResult) : M Host (SyncResult * gset string) :=
  match users with
  | [] => ret (res, existing)
  | u :: r =>
      let username := TrimSpace (RU_Username u) in
      if String.eqb username "" || bool_decide (username ∈ existing) then
        sync_users configDir inboundTag r existing res
      else
        err <-- try (AddExistingClientToInbound configDir inboundTag username (RU_ClientConfig u));;
        match err with
        | inl e =>
            sync_users configDir inboundTag r existing
              (mkSyncResult (Sync_Added res) (Sync_FailedUsers res ++ [username])
                 (if String.eqb (Sync_FirstError res) "" then e else Sync_FirstError res))
        | inr _ =>
            sync_users configDir inboundTag r ({[username]} ∪ existing)
              (mkSyncResult (S (Sync_Added res)) (Sync_FailedUsers res) (Sync_FirstError res))
        end
  end.
Definition SyncDBToConfig (configDir inboundTag : string) (users : list RestoreUser)
    (existing : gset string) : M Host (SyncResult * gset string) :=
  let zero := mkSyncResult 0 [] "" in
  if String.eqb configDir "" || String.eqb inboundTag "" then ret (zero, existing)
  else sync_users configDir inboundTag users existing zero.

(** The first inbound with the tag; [order] is the order in which Go visits
    the parsed files. *)
Definition first_inbound (order : list (string * list ParsedInbound)) (tag : string) : option ParsedInbound :=
  List.find (λ ib, String.eqb (TrimSpace (PI_Tag ib)) tag) (concat (map snd order)).
Definition GetExistingIdentitiesInInbound (order : list (string * list ParsedInbound)) (tag : string)
    : error + gset string :=
  match first_inbound order tag with
  | Some ib => inr (list_to_set (bfilter (λ i, negb (String.eqb i "")) (map PC_Identity (PI_Clients ib))))
  | None => inl ("inbound " +:+ tag +:+ " not found")
  end.
