(* ===== verification/AdminProps.v ===== *)
(** * What the engine administration guarantees

    The credentials a node receives, the file stores and a restart restores
    agree; the fan-out reaches every node; reconciling the files with the
    database adds what is missing and nothing twice. *)

From S2P Require Import Prelude GoString Json JsonDecode JsonCanon XrayTypes Parser ConfigWriter.
From S2P Require Import ConfigWriterProps Admin.
From Stdlib Require Import Ascii.

(** ** Credentials *)

(** C30: A client that the code builds is stored without loss: the stored
    configuration decodes, it rebuilds the client that is in the file (VMess
    apart, whose alterId comes back as 0), and the account that is restored
    after a restart of the engine is the account the client was created with,
    error cases included. *)
Theorem stored_credential_roundtrip protocol username tag settings enc h client h' :
  build_client protocol username tag settings h = (inr client, h') →
  ∃ stored, clientToStoredConfig protocol client enc = inr stored ∧
    storedConfigToClientMap stored username =
      inr (if String.eqb (ToLower protocol) "vmess" then map_set "alterId" (JInt 0) client else client) ∧
    storedConfigToProtocolUser stored username = clientMapToProtocolUser protocol client username.
Proof.
  intros (Hb & _)%build_client_built. unfold clientToStoredConfig, clientMapToProtocolUser.
  remember (ToLower protocol) as proto eqn:Hproto.
  destruct Hb as [id flow|id aid|pwd|pwd method Hm]; cbn [String.eqb Ascii.eqb];
    eexists; (split; [reflexivity|]);
    unfold storedConfigToClientMap, storedConfigToProtocolUser;
    rewrite unmarshal_marshal_Stored by done; cbn -[account_of client_map]; (split; [|done]).
  - done.
  - done.
  - done.
  - unfold firstNonEmpty. simpl. by apply String.eqb_neq in Hm as ->.
Qed.

(** ** Fan-out *)

Section FanoutProps.
Context {W : Type}.

(** The reference: every target in turn, whatever the others answer. *)
Fixpoint run_each {A} (op : NamedAdmin W → M W A) (targets : list (NamedAdmin W)) (w : W)
  : list (error + A) * W :=
match targets with
| [] => ([], w)
| t :: r =>
    let '(res, w1) := op t w in
    let '(rest, w2) := run_each op r w1 in (res :: rest, w2)
end.

Definition accepted (benign : error → bool) (r : error + ()) : bool :=
match r with inl e => benign e | inr _ => true end.
Fixpoint failures (benign : error → bool) (targets : list (NamedAdmin W)) (rs : list (error + ()))
  : list string :=
match targets, rs with
| t :: targets, r :: rs =>
    match r with
    | inl e => if benign e then failures benign targets rs else failure t e :: failures benign targets rs
    | inr _ => failures benign targets rs
    end
| _, _ => []
end.

Lemma on_targets_spec op benign targets w :
on_targets op benign targets w =
let '(rs, w') := run_each op targets w in
(inr (length (bfilter (accepted benign) rs), failures benign targets rs), w').
Proof.
revert w. induction targets as [|t r IH]; intros w; [done|]. cbn [on_targets run_each].
unfold bind, try. destruct (op t w) as [res w1]. rewrite IH.
destruct (run_each op r w1) as [rs w2]. destruct res as [e|[]]; cbn; [|done].
by destruct (benign e).
Qed.

Fixpoint first_ok {A} (rs : list (error + A)) : option A :=
match rs with [] => None | inr a :: _ => Some a | inl _ :: r => first_ok r end.

Lemma add_on_targets_spec tag identity hint targets w :
∃ n fs, add_on_targets tag identity hint targets w =
(inr (first_ok (run_each (λ t, AddClient (NA_Admin t) tag identity hint) targets w).1, n, fs),
 (run_each (λ t, AddClient (NA_Admin t) tag identity hint) targets w).2).
Proof.
revert w. induction targets as [|t r IH]; intros w; [by eexists _, _|]. cbn [add_on_targets run_each].
unfold bind, try. destruct (AddClient (NA_Admin t) tag identity hint w) as [res w1].
destruct (IH w1) as (n & fs & ->).
destruct (run_each _ r w1) as [rs w2]. destruct res as [e|s]; by do 2 eexists.
Qed.

Lemma failures_nil benign targets rs :
length rs = length targets → failures benign targets rs = [] ↔ Forall (λ r, accepted benign r = true) rs.
Proof.
revert rs. induction targets as [|t targets IH]; intros [|r rs] Hl; simplify_eq/=; [by split; constructor|].
rewrite Forall_cons. destruct r as [e|[]]; simpl; [destruct (benign e)|]; rewrite <- ?IH by done; naive_solver.
Qed.

Lemma length_run_each {A} (op : NamedAdmin W → M W A) targets w :
length (run_each op targets w).1 = length targets.
Proof.
revert w. induction targets as [|t r IH]; intros w; [done|]. simpl. destruct (op t w) as [res w1].
specialize (IH w1). destruct (run_each op r w1). simpl in *. by f_equal.
Qed.

Lemma count_pos {A} (f : A → bool) l : Nat.eqb (length (bfilter f l)) 0 = false ↔ Exists (λ x, f x = true) l.
Proof.
induction l as [|x l IH]; simpl; [by split; [|intros ?%Exists_nil]|].
rewrite Exists_cons. destruct (f x) eqn:E; simpl; [|rewrite IH; naive_solver]. split; auto.
Qed.

Lemma fanout_RemoveClient_run targets tag identity w :
let '(rs, w') := run_each (λ t, RemoveClient (NA_Admin t) tag identity) targets w in
(fanout_RemoveClient targets tag identity w).2 = w' ∧
((fanout_RemoveClient targets tag identity w).1 = inr tt ↔
  Forall (λ r, accepted isBenignAbsent r = true) rs).
Proof.
unfold fanout_RemoveClient, bind. rewrite on_targets_spec.
pose proof (length_run_each (λ t, RemoveClient (NA_Admin t) tag identity) targets w) as Hl.
destruct (run_each _ _ _) as [rs w']. simpl in *. rewrite <- (failures_nil _ targets) by done.
by destruct (failures isBenignAbsent targets rs).
Qed.

(** The fan-out never stops at a failing node: each operation leaves the
  world that applying it to every node in configuration order leaves,
  whatever the individual outcomes are. *)
Lemma fanout_reaches_every_node targets tag identity stored rawJSON hint w :
(fanout_AddClient targets tag identity hint w).2
  = (run_each (λ t, AddClient (NA_Admin t) tag identity hint) targets w).2 ∧
(fanout_AddExistingClient targets tag identity stored w).2
  = (run_each (λ t, AddExistingClient (NA_Admin t) tag identity stored) targets w).2 ∧
(fanout_RemoveClient targets tag identity w).2
  = (run_each (λ t, RemoveClient (NA_Admin t) tag identity) targets w).2 ∧
(fanout_AddInboundFromJSON targets rawJSON w).2
  = (run_each (λ t, AddInboundFromJSON (NA_Admin t) rawJSON) targets w).2 ∧
(fanout_RemoveInbound targets tag w).2
  = (run_each (λ t, RemoveInbound (NA_Admin t) tag) targets w).2.
Proof.
unfold fanout_AddClient, fanout_AddExistingClient, fanout_RemoveClient, fanout_AddInboundFromJSON,
  fanout_RemoveInbound, bind. rewrite !on_targets_spec.
destruct (add_on_targets_spec tag identity hint targets w) as (n & fs & ->).
split_and!; [by destruct (first_ok _)|..]; destruct (run_each _ _ _) as [rs w']; simpl;
  repeat case_match; done.
Qed.

(** What the caller is told: an addition succeeds when at least one node
  took it (a node that already has it counts) and returns the credential
  of the first that did; a removal succeeds only when every node removed
  the client or reported it absent. *)
Lemma fanout_outcomes targets tag identity stored hint w :
(∀ s, (fanout_AddClient targets tag identity hint w).1 = inr s ↔
   first_ok (run_each (λ t, AddClient (NA_Admin t) tag identity hint) targets w).1 = Some s) ∧
((fanout_AddExistingClient targets tag identity stored w).1 = inr tt ↔
   Exists (λ r, accepted isBenignExists r = true)
     (run_each (λ t, AddExistingClient (NA_Admin t) tag identity stored) targets w).1) ∧
((fanout_RemoveClient targets tag identity w).1 = inr tt ↔
   Forall (λ r, accepted isBenignAbsent r = true)
     (run_each (λ t, RemoveClient (NA_Admin t) tag identity) targets w).1).
Proof.
unfold fanout_AddClient, fanout_AddExistingClient, fanout_RemoveClient, bind.
rewrite !on_targets_spec. destruct (add_on_targets_spec tag identity hint targets w) as (n & fs & ->).
split_and!.
- intros s. destruct (first_ok _); simpl; split; intros; by simplify_eq.
- destruct (run_each _ _ _) as [rs w']. simpl. rewrite <- count_pos.
  destruct (Nat.eqb _ 0); simpl; by split.
- pose proof (fanout_RemoveClient_run targets tag identity w) as Hr.
  unfold fanout_RemoveClient, bind in Hr. rewrite on_targets_spec in Hr.
  destruct (run_each _ _ _) as [rs w']. apply Hr.
Qed.
End FanoutProps.

(** ** Revocation on every node

    [HandlerServiceLaws] is what the program relies on of xray-core: an inbound
    has at most one account per e-mail; a removal that succeeds, or that fails
    because there is no such user, leaves none; an addition that succeeds, or
    that fails because the user already exists, leaves one; additions keep the
    accounts there are; and reading the users of an inbound changes nothing and
    lists only users with accounts. *)

Class HandlerServiceLaws (E : Type) `{HandlerService E} := {
  account_at : E → string → string → string → option Account;
  remove_absent : ∀ addr tag email e r e',
    rpc_RemoveUser addr tag email e = (r, e') →
    accepted (λ err, isBenignAbsent ("alter inbound: " +:+ err)) r = true →
    account_at e' addr tag email = None;
  remove_adds_nothing : ∀ addr tag email e addr' tag' email',
    account_at e addr' tag' email' = None →
    account_at (rpc_RemoveUser addr tag email e).2 addr' tag' email' = None;
  add_present : ∀ addr tag u e r e',
    rpc_AddUser addr tag u e = (r, e') →
    accepted (λ err, isBenignExists ("alter inbound: " +:+ err)) r = true →
    account_at e' addr tag (PU_Email u) ≠ None;
  add_keeps : ∀ addr tag u e addr' tag' email' a,
    account_at e addr' tag' email' = Some a →
    account_at (rpc_AddUser addr tag u e).2 addr' tag' email' = Some a;
  users_present : ∀ addr tag e r e',
    rpc_GetInboundUsers addr tag e = (r, e') →
    e' = e ∧ ∀ users u, r = inr users → u ∈ users → account_at e addr tag u ≠ None }.

(** The targets [buildAdmin] makes of the named API addresses of the nodes. *)
Definition grpc_targets {E} `{HandlerService E} (nodes : list (string * string)) : list (NamedAdmin World) :=
  map (λ n, mkNamedAdmin n.1 (NewGRPCAdmin n.2 "")) nodes.

Section Revocation.
Context {E : Type} `{HandlerServiceLaws E}.

Lemma grpc_remove addr tag identity (w : World) :
∃ r e', RemoveClient (NewGRPCAdmin addr "") tag identity w = (r, (w.1, e')) ∧
  (∀ a t i, account_at w.2 a t i = None → account_at e' a t i = None) ∧
  (accepted isBenignAbsent r = true → account_at e' addr tag (TrimSpace identity) = None).
Proof.
destruct w as [h e]. unfold RemoveClient, NewGRPCAdmin. cbv iota beta.
unfold bind, try, on_engine, RemoveUserFromInboundViaAPI, wrap_err. cbn [fst snd String.eqb].
destruct (String.eqb (TrimSpace identity) ""); [by do 2 eexists|].
destruct (String.eqb addr ""); [by do 2 eexists|].
pose proof (remove_absent addr tag (TrimSpace identity) e) as Habs.
pose proof (remove_adds_nothing addr tag (TrimSpace identity) e) as Hfr.
destruct (rpc_RemoveUser addr tag (TrimSpace identity) e) as [[err|[]] e1]; cbn in *;
  do 2 eexists; (split; [reflexivity|]); (split; [exact Hfr|]); intros Hacc; by eapply Habs.
Qed.

Lemma run_removals nodes tag identity w :
(∀ a t i, account_at w.2 a t i = None → account_at
   (run_each (λ t, RemoveClient (NA_Admin t) tag identity) (grpc_targets nodes) w).2.2 a t i = None) ∧
(Forall (λ r, accepted isBenignAbsent r = true)
   (run_each (λ t, RemoveClient (NA_Admin t) tag identity) (grpc_targets nodes) w).1 →
 Forall (λ n, account_at (run_each (λ t, RemoveClient (NA_Admin t) tag identity)
   (grpc_targets nodes) w).2.2 n.2 tag (TrimSpace identity) = None) nodes).
Proof.
revert w. induction nodes as [|n nodes IH]; intros w; [by split; [|constructor]|].
cbn [grpc_targets map run_each NA_Admin]. destruct (grpc_remove n.2 tag identity w) as (r & e' & Hr & Hfr & Hacc).
rewrite Hr. destruct (IH (w.1, e')) as [IHf IHr]. fold (grpc_targets nodes).
destruct (run_each _ (grpc_targets nodes) _) as [rs w2]. cbn [fst snd] in *.
split; [auto|]. intros [Hr1 Hrs]%Forall_cons. constructor; auto.
Qed.

(** C20: Revoking a user in a multi-node deployment is not silently partial:
  when the fan-out's [RemoveClient] reports success, no configured node
  still serves the user on that inbound. *)
Theorem fanout_RemoveClient_revokes nodes tag identity w w' :
fanout_RemoveClient (grpc_targets nodes) tag identity w = (inr tt, w') →
Forall (λ n, account_at w'.2 n.2 tag (TrimSpace identity) = None) nodes.
Proof.
intros Hok. pose proof (fanout_RemoveClient_run (grpc_targets nodes) tag identity w) as Hr.
pose proof (run_removals nodes tag identity w) as [_ Hn]. rewrite Hok in Hr.
destruct (run_each _ (grpc_targets nodes) w) as [rs w1]. simpl in *.
destruct Hr as [-> [Hall _]]. by apply Hn, Hall.
Qed.
End Revocation.

(** *** A concrete engine: a map of accounts *)

Definition toy_engine : Type := gmap (string * string * string) Account.

#[export] Instance toy_service : HandlerService toy_engine := {|
  InboundHandlerConfig := string;
  LoadJSONConfig := λ s, inr [s];
  rpc_AddUser := λ addr tag u m,
    match m !! (addr, tag, PU_Email u) with
    | Some _ => (inl "User already exists.", m)
    | None => (inr tt, <[(addr, tag, PU_Email u) := PU_Account u]> m)
    end;
  rpc_RemoveUser := λ addr tag email m,
    match m !! (addr, tag, email) with
    | Some _ => (inr tt, delete (addr, tag, email) m)
    | None => (inl "User not found.", m)
    end;
  rpc_AddInbound := λ _ _, ret tt;
  rpc_RemoveInbound := λ _ _, ret tt;
  rpc_GetInboundUsers := λ addr tag m,
    (inr (omap (λ kv, let '(a, t, e) := kv.1 in
            if String.eqb a addr && String.eqb t tag then Some e else None) (map_to_list m)), m) |}.

#[export] Program Instance toy_laws : HandlerServiceLaws toy_engine :=
  {| account_at := λ m a t i, m !! (a, t, i) |}.
Next Obligation.
  intros addr tag email m r m' Hr _. cbn in Hr. destruct (m !! (addr, tag, email)) eqn:Em; simplify_eq.
  - apply lookup_delete_eq.
  - done.
Qed.
Next Obligation.
  intros addr tag email m a t i Hm. cbn. destruct (m !! (addr, tag, email)) eqn:Em; simpl; [|done].
  apply lookup_delete_None. by right.
Qed.
Next Obligation.
  intros addr tag u m r m' Hr _. cbn in Hr. destruct (m !! (addr, tag, PU_Email u)) eqn:Em; simplify_eq.
  - congruence.
  - apply not_eq_None_Some. unfold toy_engine in m. eexists. apply lookup_insert_eq.
Qed.
Next Obligation.
  intros addr tag u m a t i acc Hm. cbn. destruct (m !! (addr, tag, PU_Email u)) eqn:Em; simpl; [done|].
  transitivity (m !! (a, t, i)); [|done]. unfold toy_engine in m. apply lookup_insert_ne.
  intros [= <- <- <-]. congruence.
Qed.
Next Obligation.
  intros addr tag m r m' Hr. cbn in Hr. simplify_eq. split; [done|]. intros users u [= <-] Hu.
  apply list_elem_of_omap in Hu as ([[[a t] e] acc] & Hin & Heq). apply elem_of_map_to_list in Hin. simpl in Heq.
  case_if; [|done]. simplify_eq. bool_simp. subst. apply not_eq_None_Some. by exists acc.
Qed.

Definition two_nodes : list (string * string) := [("eu-1", "10.0.0.1:8080"); ("eu-2", "10.0.0.2:8080")].
Definition engine_with_bob : toy_engine := {[("10.0.0.1:8080", "in", "bob") := TrojanAccount "p"]}.

Lemma fanout_RemoveClient_revokes_witness : ∃ w',
  fanout_RemoveClient (grpc_targets two_nodes) "in" " bob" (demo_host, engine_with_bob) = (inr tt, w') ∧
  Forall (λ n, account_at w'.2 n.2 "in" "bob" = None) two_nodes.
Proof.
  destruct (fanout_RemoveClient (grpc_targets two_nodes) "in" " bob" (demo_host, engine_with_bob))
    as [[e|[]] w'] eqn:E.
  - exfalso. vm_compute in E. discriminate E.
  - exists w'. split; [done|]. exact (fanout_RemoveClient_revokes _ _ _ _ _ E).
Defined.

(** An addition to two nodes leaves two different credentials, of which the
    returned configuration stores the first. *)
Lemma fanout_AddClient_credentials_differ :
  match fanout_AddClient (grpc_targets two_nodes) "in" "bob" (mkHint "trojan" "")
          (demo_host, (∅ : toy_engine)) with
  | (inr stored, (_, engine)) => ∃ a1 a2,
      account_at engine "10.0.0.1:8080" "in" "bob" = Some a1 ∧
      account_at engine "10.0.0.2:8080" "in" "bob" = Some a2 ∧
      storedConfigToProtocolUser stored "bob" = inr (mkProtocolUser "bob" a1) ∧ a1 ≠ a2
  | _ => False
  end.
Proof. vm_compute. do 2 eexists. split_and!; [reflexivity..|]. discriminate. Qed.

(** ** Restoring users *)

(** The loop over the users, whatever it has found so far. *)
Lemma sync_users_covers dir tag users ex res0 h res existing' h' :
  sync_users dir tag users ex res0 h = (inr (res, existing'), h') →
  ex ⊆ existing' ∧ (∀ x, x ∈ existing' → x ∈ ex ∨ ∃ u, u ∈ users ∧ x = TrimSpace (RU_Username u)) ∧
  Sync_Added res = (Sync_Added res0 + size (existing' ∖ ex))%nat ∧
  (∀ x, x ∈ Sync_FailedUsers res0 → x ∈ Sync_FailedUsers res) ∧
  (∀ u, u ∈ users → TrimSpace (RU_Username u) ≠ "" →
     TrimSpace (RU_Username u) ∈ existing' ∨ TrimSpace (RU_Username u) ∈ Sync_FailedUsers res).
Proof.
  revert ex res0 h. induction users as [|u users IH]; intros ex res0 h H; cbn [sync_users] in H.
  - unfold ret in H. simplify_eq. split_and!; [done|by left| |done|set_solver].
    rewrite difference_diag_L, size_empty. lia.
  - set (name := TrimSpace (RU_Username u)) in *.
    destruct (String.eqb name "" || bool_decide (name ∈ ex)) eqn:Eskip.
    + apply IH in H as (H1 & H2 & H3 & H4 & H5). split_and!; try done.
      * intros x [?|(v & ? & ->)]%H2; [by left|right; exists v; set_solver].
      * intros v [->|Hv]%elem_of_cons Hne; [|by apply H5]. fold name in Hne |- *. left. apply H1.
        apply orb_true_iff in Eskip as [->%String.eqb_eq|?%bool_decide_eq_true]; done.
    + apply orb_false_iff in Eskip as [Hne%String.eqb_neq Hin%bool_decide_eq_false].
      unfold bind, try in H.
      destruct (AddExistingClientToInbound dir tag name (RU_ClientConfig u) h) as [[e|[]] h1].
      * apply IH in H as (H1 & H2 & H3 & H4 & H5). cbn [Sync_Added Sync_FailedUsers] in *. split_and!; try done.
        -- intros x [?|(v & ? & ->)]%H2; [by left|right; exists v; set_solver].
        -- intros x Hx. apply H4. set_solver.
        -- intros v [->|Hv]%elem_of_cons Hv'; [|by apply H5]. right. apply H4. fold name. set_solver.
      * apply IH in H as (H1 & H2 & H3 & H4 & H5). cbn [Sync_Added Sync_FailedUsers] in *. split_and!; try done.
        -- set_solver.
        -- intros x [[->%elem_of_singleton|?]%elem_of_union|(v & ? & ->)]%H2; [|by left|].
           ++ right. exists u. split; [set_solver|done].
           ++ right. exists v. set_solver.
        -- rewrite H3. assert (existing' ∖ ex = {[name]} ∪ (existing' ∖ ({[name]} ∪ ex))) as ->.
           { apply set_eq. intros x. destruct (decide (x = name)); set_solver. }
           rewrite (size_union {[name]} (existing' ∖ ({[name]} ∪ ex))), size_singleton by set_solver. lia.
        -- intros v [->|Hv]%elem_of_cons Hv'; [|by apply H5]. left. fold name. set_solver.
Qed.

(** Reconciling the files with the database: the identities already in
    the inbound are left alone, every other non-blank user is either added,
    and then in the returned set, or reported in the list of failures; nothing
    is added twice, and the number added is the number of new identities. *)
Lemma SyncDBToConfig_covers dir tag users existing h res existing' h' :
  dir ≠ "" → tag ≠ "" →
  SyncDBToConfig dir tag users existing h = (inr (res, existing'), h') →
  existing ⊆ existing' ∧
  (∀ x, x ∈ existing' → x ∈ existing ∨ ∃ u, u ∈ users ∧ x = TrimSpace (RU_Username u)) ∧
  Sync_Added res = size (existing' ∖ existing) ∧
  (∀ u, u ∈ users → TrimSpace (RU_Username u) ≠ "" →
     TrimSpace (RU_Username u) ∈ existing' ∨ TrimSpace (RU_Username u) ∈ Sync_FailedUsers res).
Proof.
  intros Hd%String.eqb_neq Ht%String.eqb_neq. unfold SyncDBToConfig. rewrite Hd, Ht. simpl.
  intros (H1 & H2 & H3 & _ & H5)%sync_users_covers. done.
Qed.

Lemma stored_credential_roundtrip_witness : ∃ client h',
  build_client "VMess" "bob" "in" None demo_host = (inr client, h') ∧
  ∃ stored, clientToStoredConfig "VMess" client "" = inr stored ∧
    storedConfigToProtocolUser stored "bob" = clientMapToProtocolUser "VMess" client "bob".
Proof.
  destruct (build_client "VMess" "bob" "in" None demo_host) as [[e|client] h'] eqn:E.
  - exfalso. vm_compute in E. discriminate E.
  - exists client, h'. split; [done|].
    destruct (stored_credential_roundtrip _ _ _ _ "" _ _ _ E) as (stored & H1 & _ & H3). by exists stored.
Defined.
