(* ===== verification/Generator.v ===== *)
(** * Client configuration generation: [internal/xray/generator.go]

    JSON fragments the code keeps as [json.RawMessage] are JSON values here.
    The WARN lines of the standard logger are not part of the result.
    [X25519] is [curve25519.X25519(_, Basepoint)] of [golang.org/x/crypto]. *)

From S2P Require Import Prelude GoString Json JsonDecode Base64 Net Models XrayTypes Parser.
From Stdlib Require Import Ascii.

Class Curve := { X25519 : string → error + string }.

(** ** Fixed pieces *)

Definition json_of_map (kvs : list (string * json)) : json :=
  JObj (foldl (λ m kv, map_set kv.1 kv.2 m) [] kvs).

Definition localSOCKS (port : Z) : LocalInbound :=
  mkLocalInbound "socks" port "127.0.0.1" "socks"
    (json_of_map [("auth", JStr "noauth"); ("udp", JBool true)])
    (Some (mkSniffing true ["http"; "tls"; "quic"])).
Definition localHTTP (port : Z) : LocalInbound :=
  mkLocalInbound "http" port "127.0.0.1" "http" (json_of_map []) None.
Definition freedomOutbound : Outbound :=
  mkOutbound "direct" "freedom" (Some (json_of_map [("domainStrategy", JStr "UseIPv4")])) None None.
Definition blackholeOutbound (responseType : string) : Outbound :=
  mkOutbound "block" "blackhole"
    (Some (json_of_map [("response", json_of_map [("type", JStr responseType)])])) None None.
Definition defaultDNS : DNSConfig := mkDNS [JStr "1.1.1.1"; JStr "8.8.8.8"; JStr "8.8.4.4"].

Definition field_rule (outbound : string) (domain ip protocol : list string) : RoutingRule :=
  mkRule "field" [] outbound "" domain ip "" "" protocol.
Definition defaultRouting : Routing :=
  mkRouting "IPOnDemand" []
    [field_rule "direct" [] [] ["bittorrent"];
     field_rule "block" ["geosite:category-ads-all"; "geosite:category-ads";
       "geosite:category-public-tracker"] [] [];
     field_rule "direct" [] ["geoip:private"] [];
     field_rule "direct" ["geosite:private"] [] [];
     field_rule "proxy" ["geosite:ru-blocked"] [] [];
     field_rule "proxy" [] ["geoip:ru-blocked"] [];
     field_rule "direct" ["geosite:category-ru"] [] [];
     field_rule "direct" [] ["geoip:ru"] []].

Definition sanitizeTag (tag : string) : string := Replace [(" ", "-"); ("/", "-"); ("\", "-")] tag.

(** ** Routing rules *)

Definition normalizeBalancerStrategy (v : string) : string :=
  let s := ToLower (TrimSpace v) in
  if String.eqb s "random" then "random"
  else if String.eqb s "roundrobin" then "roundRobin"
  else if String.eqb s "leastping" then "leastPing"
  else if String.eqb s "leastload" then "leastLoad"
  else "".

Definition isAllowedOutboundTag (tag : string) : bool :=
  let t := ToLower (TrimSpace tag) in
  String.eqb t "direct" || String.eqb t "proxy" || String.eqb t "block".

Definition rule_of_user (r : UserRouteRule) : RoutingRule :=
  mkRule (firstNonEmpty [TrimSpace (Route_Type r); "field"]) (Route_InboundTag r)
    (TrimSpace (Route_OutboundTag r)) "" (Route_Domain r) (Route_IP r) (Route_Network r)
    (Route_Port r) (Route_Protocol r).

(** Xray rejects a rule with nothing to match on. *)
Definition rule_empty (r : RoutingRule) : bool :=
  match Rule_Domain r, Rule_IP r, Rule_Protocol r, Rule_InboundTag r with
  | [], [], [], [] => String.eqb (Rule_Network r) "" && String.eqb (Rule_Port r) ""
  | _, _, _, _ => false
  end.

Definition custom_rules (userRules : list UserRouteRule) : list RoutingRule :=
  bfilter (λ rr, negb (rule_empty rr))
    (map rule_of_user (bfilter (λ r, isAllowedOutboundTag (Route_OutboundTag r)) userRules)).

Definition user_rules_of (routesJSON : string) : list UserRouteRule :=
  let routesJSON := TrimSpace routesJSON in
  if String.eqb routesJSON "" || String.eqb routesJSON "null" then []
  else match Unmarshal (d_list decode_UserRouteRule) routesJSON with
       | inl _ => []
       | inr rules => rules
       end.

Definition with_rules (r : Routing) (rules : list RoutingRule) : Routing :=
  mkRouting (Routing_DomainStrategy r) (Routing_Balancers r) rules.

Definition applyUserRoutes (r : Routing) (routesJSON : string) : Routing :=
  with_rules r (custom_rules (user_rules_of routesJSON) ++ Routing_Rules r).

Definition resolve_rule (useBalancer : bool) (target : string) (r : RoutingRule) : RoutingRule :=
  if String.eqb (ToLower (TrimSpace (Rule_OutboundTag r))) "proxy" then
    let '(ob, bal) := if useBalancer then ("", target) else (target, "") in
    mkRule (Rule_Type r) (Rule_InboundTag r) ob bal (Rule_Domain r) (Rule_IP r) (Rule_Network r)
      (Rule_Port r) (Rule_Protocol r)
  else r.
Definition resolveProxyRouteTargets (r : Routing) (useBalancer : bool) (target : string) : Routing :=
  if String.eqb target "" then r
  else with_rules r (map (resolve_rule useBalancer target) (Routing_Rules r)).

(** ** Outbound settings *)

Definition buildVMessSettings (host : string) (port : Z) (cred : StoredClientConfig) : json :=
  encode_VMessOut (mkVMessOut [mkVMessServer host port
    [mkVMessUser (Stored_ID cred) (Stored_AlterId cred) "auto" 0]]).
Definition buildVLESSSettings (host : string) (port : Z) (cred : StoredClientConfig) : json :=
  let encryption := TrimSpace (Stored_Encryption cred) in
  let encryption := if String.eqb encryption "" then "none" else encryption in
  encode_VLESSOut (mkVLESSOut [mkVLESSServer host port
    [mkVLESSUser (Stored_ID cred) (Stored_Flow cred) encryption (Stored_Email cred) 0
       (Stored_Testpre cred)]]).
Definition buildTrojanSettings (host : string) (port : Z) (cred : StoredClientConfig) : json :=
  encode_TrojanOut (mkTrojanOut [mkTrojanServer host port (Stored_Password cred) 0]).
Definition buildShadowsocksSettings (host : string) (port : Z) (cred : StoredClientConfig) : json :=
  let method := if String.eqb (Stored_Method cred) "" then "aes-256-gcm" else Stored_Method cred in
  encode_SSOut (mkSSOut [mkSSServer host port method (Stored_Password cred) 0 false]).
Definition buildSOCKSSettings (host : string) (port : Z) (cred : StoredClientConfig) : json :=
  encode_SOCKSOut (mkSOCKSOut [mkSOCKSServer host port
    (if String.eqb (Stored_User cred) "" then []
     else [mkSOCKSUser (Stored_User cred) (Stored_Password cred)])]).

(** ** Stream settings *)

Definition defaultXHTTPPadding : string := "100-1000".
Definition defaultXHTTPXMux : json :=
  json_of_map [("maxConcurrency", JStr "16-32"); ("maxConnections", JInt 0);
    ("cMaxReuseTimes", JStr "64-128"); ("hMaxRequestTimes", JStr "600-900");
    ("hMaxReusableSecs", JStr "1800-3000"); ("hKeepAlivePeriod", JInt 0)].

(** [if v, ok := from[k]; ok { m[k] = v }] *)
Definition copy_key (k : string) (from m : list (string * json)) : list (string * json) :=
  match map_get k from with Some v => map_set k v m | None => m end.

Definition xhttp_host (server : list (string * json)) (rs : option RealitySettings)
    (m : list (string * json)) : list (string * json) :=
  match map_get "host" server with
  | Some host => map_set "host" host m
  | None =>
      match rs with
      | None => m
      | Some rs =>
          if negb (String.eqb (Reality_ServerName rs) "") then
            map_set "host" (JStr (Reality_ServerName rs)) m
          else match Reality_ServerNames rs with
               | n :: _ => map_set "host" (JStr n) m
               | [] => m
               end
      end
  end.

Definition xhttp_extra (server : list (string * json)) : list (string * json) :=
  let extra := match map_get "extra" server with Some (JObj se) => se | _ => [] end in
  let extra := foldl (λ m k, copy_key k server m) extra
    ["headers"; "xPaddingBytes"; "scMaxEachPostBytes"; "scMinPostsIntervalMs"] in
  let extra := match map_get "xmux" server with
    | Some xmux => map_set "xmux" xmux extra
    | None => match map_get "xmux" extra with
              | Some _ => extra
              | None => map_set "xmux" defaultXHTTPXMux extra
              end
    end in
  match map_get "xPaddingBytes" extra with
  | Some _ => extra
  | None => map_set "xPaddingBytes" (JStr defaultXHTTPPadding) extra
  end.

Definition convertXHTTPSettings (raw : json) (rs : option RealitySettings) : error + json :=
  match decode d_map raw with
  | inl e => inl ("unmarshal xhttp settings: " +:+ e)
  | inr server =>
      let server := default [] server in
      let client := copy_key "path" server [] in
      let client := xhttp_host server rs client in
      let client := copy_key "mode" server client in
      inr (JObj (map_set "extra" (JObj (xhttp_extra server)) client))
  end.

Section Generator.
Context `{Curve}.

Definition derivePublicKey (privateKeyB64 : string) : error + string :=
let priv := match DecodeString RawURLEncoding privateKeyB64 with
            | Some b => Some b
            | None => DecodeString StdEncoding privateKeyB64
            end in
match priv with
| None => inl "decode private key: illegal base64 data"
| Some b =>
    if negb (Nat.eqb (String.length b) 32) then
      inl ("invalid private key length " +:+ Itoa (Z.of_nat (String.length b)) +:+ " (expected 32)")
    else match X25519 b with
         | inl e => inl ("X25519: " +:+ e)
         | inr pub => inr (EncodeToString RawURLEncoding pub)
         end
end.

Definition convertTLS (tls : option TLSSettings) (serverHost : string) : TLSSettings :=
match tls with
| None => mkTLSSettings serverHost "" [] false [] "" None
| Some tls =>
    mkTLSSettings (TLS_ServerName tls) (firstNonEmpty [TLS_Fingerprint tls; "chrome"])
      (TLS_ALPN tls) false (TLS_PinnedPeerCertSha256 tls) (TLS_VerifyPeerCertByName tls) None
end.

(** The value, or the first of the list when it is empty. *)
Definition or_head (s : string) (l : list string) : string :=
if String.eqb s "" then match l with x :: _ => x | [] => s end else s.

Definition convertReality (rs : option RealitySettings) : error + RealitySettings :=
match rs with
| None => inl "REALITY stream settings missing"
| Some rs =>
    let publicKey :=
      if String.eqb (Reality_PublicKey rs) "" && negb (String.eqb (Reality_PrivateKey rs) "") then
        match derivePublicKey (Reality_PrivateKey rs) with
        | inl e => inl ("derive REALITY public key: " +:+ e)
        | inr k => inr k
        end
      else inr (Reality_PublicKey rs) in
    match publicKey with
    | inl e => inl e
    | inr publicKey =>
        inr (mkRealitySettings false "" 0 [] "" [] "" "" "" 0 publicKey
          (or_head (Reality_ServerName rs) (Reality_ServerNames rs))
          (firstNonEmpty [Reality_Fingerprint rs; "chrome"])
          (or_head (Reality_ShortId rs) (Reality_ShortIds rs))
          (Reality_SpiderX rs) (TrimSpace (Reality_MLDSA65Verify rs)))
    end
end.

Definition convertStreamSettings (ss : option StreamSettings) (serverHost : string)
  : error + option StreamSettings :=
match ss with
| None => inr None
| Some ss =>
    let xhttp := match Stream_XHTTPSettings ss with
      | None => inr None
      | Some raw =>
          match convertXHTTPSettings raw (Stream_RealitySettings ss) with
          | inl e => inl ("convert xhttp settings: " +:+ e)
          | inr j => inr (Some j)
          end
      end in
    match xhttp with
    | inl e => inl e
    | inr xhttp =>
        let client tls reality := mkStreamSettings (Stream_Network ss) (Stream_Security ss) tls reality
          (Stream_WSSettings ss) (Stream_GRPCSettings ss) (Stream_TCPSettings ss)
          (Stream_HTTPSettings ss) (Stream_KCPSettings ss) (Stream_QUICSettings ss)
          (Stream_HTTPUpgradeSettings ss) xhttp in
        let security := ToLower (Stream_Security ss) in
        if String.eqb security "tls" then
          inr (Some (client (Some (convertTLS (Stream_TLSSettings ss) serverHost)) None))
        else if String.eqb security "reality" then
          match convertReality (Stream_RealitySettings ss) with
          | inl e => inl e
          | inr rs => inr (Some (client None (Some rs)))
          end
        else inr (Some (client None None))
    end
end.

Definition shouldUseMux (proto flow encryption : string) (ss : option StreamSettings) : bool :=
let network_is n := match ss with Some ss => String.eqb (Stream_Network ss) n | None => false end in
if String.eqb flow "xtls-rprx-vision" then false
else if negb (String.eqb (TrimSpace encryption) "") && negb (String.eqb (TrimSpace encryption) "none")
  then false
else if (String.eqb proto "vless" || String.eqb proto "trojan")
        && match ss with Some ss => String.eqb (Stream_Security ss) "reality" | None => false end
  then false
else if network_is "quic" || network_is "kcp" || network_is "xhttp" then false
else String.eqb proto "vmess" || String.eqb proto "vless".

(** ** One outbound *)

Definition build_settings (proto host : string) (port : Z) (cred : StoredClientConfig)
  : error + json :=
if String.eqb proto "vmess" then inr (buildVMessSettings host port cred)
else if String.eqb proto "vless" then inr (buildVLESSSettings host port cred)
else if String.eqb proto "trojan" then inr (buildTrojanSettings host port cred)
else if String.eqb proto "shadowsocks" then inr (buildShadowsocksSettings host port cred)
else if String.eqb proto "socks" then inr (buildSOCKSSettings host port cred)
else inl ("unsupported protocol: " +:+ proto).

Definition outbound_tag (inboundTag : string) (index : Z) : string :=
sanitizeTag inboundTag +:+ String "-" (Itoa index).

Definition buildOutbound (serverHost : string) (uc : UserClientFull) (index : Z)
  : error + Outbound :=
match Unmarshal decode_Stored (UC_ClientConfig uc) with
| inl e => inl ("parse stored config: " +:+ e)
| inr cred =>
    let tag := outbound_tag (UCF_InboundTag uc) index in
    let proto := ToLower (UCF_InboundProtocol uc) in
    match Unmarshal decode_ServerInbound (UCF_InboundRaw uc) with
    | inl e => inl ("parse inbound raw: " +:+ e)
    | inr si =>
        match build_settings proto serverHost (UCF_InboundPort uc) cred with
        | inl e => inl e
        | inr settings =>
            match convertStreamSettings (SI_StreamSettings si) serverHost with
            | inl e => inl ("convert stream settings: " +:+ e)
            | inr stream =>
                inr (mkOutbound tag proto (Some settings) stream
                  (if shouldUseMux proto (Stored_Flow cred) (Stored_Encryption cred) stream
                   then Some (mkMux true 8) else None))
            end
        end
    end
end.

(** ** Transport order *)

Definition d_probe : decoder string := λ j,
kvs <~ d_object j;;
d_field (λ j, kvs <~ d_object j;; d_field d_string "network" kvs) "streamSettings" kvs.

Definition isXHTTPInbound (uc : UserClientFull) : bool :=
let fallback := Contains (ToLower (UCF_InboundTag uc)) "xhttp" in
let raw := TrimSpace (UCF_InboundRaw uc) in
if String.eqb raw "" then fallback
else match Unmarshal d_probe raw with
     | inl _ => fallback
     | inr network =>
         let net := ToLower (TrimSpace network) in
         if String.eqb net "xhttp" || String.eqb net "splithttp" then true
         else if negb (String.eqb net "") then false
         else fallback
     end.
Definition inboundPriority (uc : UserClientFull) : Z := if isXHTTPInbound uc then 0 else 1.
Definition sortClientsXHTTPFirst (clients : list UserClientFull) : list UserClientFull :=
stable_sort (λ a b, inboundPriority a <=? inboundPriority b)%Z clients.

(** ** The whole configuration *)

(** Where the outbound of a client points: inbound override, then node. *)
Definition resolve_endpoint (serverHost : string) (inboundHosts : gmap string string)
  (inboundPorts : gmap string Z) (uc : UserClientFull) : string * UserClientFull :=
let host := match inboundHosts !! UCF_InboundTag uc with
  | Some h => if String.eqb (TrimSpace h) "" then serverHost else h
  | None => serverHost
  end in
let uc := match inboundPorts !! UCF_InboundTag uc with
  | Some p => if (0 <? p)%Z then UCF_with_port uc p else uc
  | None => uc
  end in
let host := if String.eqb (TrimSpace (UCF_NodeHost uc)) "" then host else UCF_NodeHost uc in
let uc := if (0 <? UCF_NodePort uc)%Z then UCF_with_port uc (UCF_NodePort uc) else uc in
(host, uc).

(** The outbounds that could be built, each with whether it is XHTTP. *)
Fixpoint build_outbounds (serverHost : string) (inboundHosts : gmap string string)
  (inboundPorts : gmap string Z) (i : Z) (clients : list UserClientFull) : list (Outbound * bool) :=
match clients with
| [] => []
| uc :: r =>
    let '(host, uc) := resolve_endpoint serverHost inboundHosts inboundPorts uc in
    let rest := build_outbounds serverHost inboundHosts inboundPorts (i + 1) r in
    match buildOutbound host uc i with
    | inl _ => rest
    | inr ob => (ob, isXHTTPInbound uc) :: rest
    end
end.

Definition catch_all (outbound balancer : string) : RoutingRule :=
mkRule "field" [] outbound balancer [] [] "" "0-65535" [].

(** The balancer's selector and its fallback: XHTTP outbounds carry the
  traffic when there are any, the others are the fallback. *)
Definition balancer_targets (proxyTags : list string) (first : string)
  (xhttpTags nonXHTTPTags : list string) : list string * string :=
match xhttpTags with
| [] => (proxyTags, first)
| x :: _ => (xhttpTags, match nonXHTTPTags with n :: _ => n | [] => x end)
end.

(** The end of [GenerateClientConfig]: the balancer when there are several
  proxies, a direct route when there is one. *)
Definition route_proxies (routing : Routing) (built : list (Outbound * bool))
  (balancerStrategy balancerProbeURL balancerProbeInterval : string)
  : Routing * option ObservatoryConfig :=
let proxyTags := map (λ p, Out_Tag p.1) built in
let xhttpTags := map (λ p, Out_Tag p.1) (bfilter snd built) in
let nonXHTTPTags := map (λ p, Out_Tag p.1) (bfilter (λ p, negb p.2) built) in
match proxyTags with
| [] => (routing, None)
| [tag] =>
    let routing := resolveProxyRouteTargets routing false tag in
    (with_rules routing (Routing_Rules routing ++ [catch_all tag ""]), None)
| tag :: _ =>
    let strategy := normalizeBalancerStrategy balancerStrategy in
    let strategy := if String.eqb strategy "" then "leastPing" else strategy in
    let '(selector, fallbackTag) := balancer_targets proxyTags tag xhttpTags nonXHTTPTags in
    let routing := mkRouting (Routing_DomainStrategy routing)
      (Routing_Balancers routing ++
         [mkBalancer "proxy-balance" selector (Some (mkStrategy strategy)) fallbackTag])
      (Routing_Rules routing) in
    let obs :=
      if String.eqb strategy "leastPing" || String.eqb strategy "leastLoad" then
        Some (mkObservatory selector
          (firstNonEmpty [TrimSpace balancerProbeURL; "https://www.gstatic.com/generate_204"])
          (firstNonEmpty [TrimSpace balancerProbeInterval; "30s"]) false)
      else None in
    let routing := resolveProxyRouteTargets routing true "proxy-balance" in
    (with_rules routing (Routing_Rules routing ++ [catch_all "" "proxy-balance"]), obs)
end.

Definition GenerateClientConfig (serverHost : string) (inboundHosts : gmap string string)
  (inboundPorts : gmap string Z) (user : User) (clients : list UserClientFull)
  (globalRoutesJSON balancerStrategy balancerProbeURL balancerProbeInterval : string)
  (socksPort httpPort : Z) (dnsServers : list json) (blackholeResponse : string)
  : error + ClientConfig :=
let socksPort := if (socksPort <=? 0)%Z then 2080%Z else socksPort in
let httpPort := if (httpPort <=? 0)%Z then 1081%Z else httpPort in
let dns := match dnsServers with [] => defaultDNS | _ => mkDNS dnsServers end in
let blackholeResp :=
  if String.eqb (ToLower (TrimSpace blackholeResponse)) "none" then "none" else "http" in
let routing := applyUserRoutes defaultRouting globalRoutesJSON in
let routing := applyUserRoutes routing (User_ClientRoutes user) in
let built := build_outbounds serverHost inboundHosts inboundPorts 0 (sortClientsXHTTPFirst clients) in
match built with
| [] => inl "no valid outbounds could be generated"
| _ =>
    let '(routing, obs) := route_proxies routing built balancerStrategy balancerProbeURL
                             balancerProbeInterval in
    inr (mkClientConfig (mkLog "warning") dns [localSOCKS socksPort; localHTTP httpPort]
      (map fst built ++ [freedomOutbound; blackholeOutbound blackholeResp]) obs routing)
end.
End Generator.
