(* ===== verification/GeneratorProps.v ===== *)
(** * What a generated client configuration guarantees *)

From S2P Require Import Prelude GoString Json JsonDecode Base64 Net Models XrayTypes Parser.
From S2P Require Import Generator.
From Stdlib Require Import Ascii.

(** ** Outbound tags *)

Lemma outbound_tag_split t i :
  (0 <= i)%Z → split_last "-" (outbound_tag t i) = Some (sanitizeTag t, Itoa i).
Proof. intros Hi. unfold outbound_tag. by rewrite split_last_app by by apply Itoa_no_dash. Qed.

Lemma outbound_tag_inj t u i j :
  (0 <= i)%Z → (0 <= j)%Z → outbound_tag t i = outbound_tag u j → i = j.
Proof.
  intros Hi Hj H. apply (f_equal (split_last "-")) in H. rewrite !outbound_tag_split in H by done.
  injection H as _ H. by apply Itoa_inj.
Qed.

Lemma outbound_tag_ne t i s : (0 <= i)%Z → split_last "-" s = None → outbound_tag t i ≠ s.
Proof. intros Hi Hs H. apply (f_equal (split_last "-")) in H. by rewrite outbound_tag_split, Hs in H. Qed.

Section Props.
Context `{Curve}.

Lemma buildOutbound_tag host uc i ob :
buildOutbound host uc i = inr ob → Out_Tag ob = outbound_tag (UCF_InboundTag uc) i.
Proof using Type.
unfold buildOutbound. repeat case_match; intros; simplify_eq; done.
Qed.

Lemma build_outbounds_tags host hosts ports i clients :
(0 <= i)%Z →
(∀ p, p ∈ build_outbounds host hosts ports i clients →
   ∃ t j, (i <= j)%Z ∧ Out_Tag p.1 = outbound_tag t j)
∧ NoDup (map (λ p, Out_Tag p.1) (build_outbounds host hosts ports i clients)).
Proof using Type.
revert i. induction clients as [|uc r IH]; intros i Hi; [split; [by intros p ?%elem_of_nil|constructor]|].
cbn [build_outbounds]. destruct (resolve_endpoint host hosts ports uc) as [h uc'].
destruct (IH (i + 1)%Z) as [IH1 IH2]; [lia|].
assert (Hrest : ∀ p, p ∈ build_outbounds host hosts ports (i + 1) r →
  ∃ t j, (i + 1 <= j)%Z ∧ Out_Tag p.1 = outbound_tag t j) by exact IH1.
destruct (buildOutbound h uc' i) as [e|ob] eqn:E.
- split; [|done]. intros p Hp. destruct (Hrest p Hp) as (t & j & Hj & Ht). exists t, j. split; [lia|done].
- apply buildOutbound_tag in E. split.
  + intros p [->|Hp]%elem_of_cons; [exists (UCF_InboundTag uc'), i; split; [lia|done]|].
    destruct (Hrest p Hp) as (t & j & Hj & Ht). exists t, j. split; [lia|done].
  + simpl. apply NoDup_cons. split; [|done]. intros Hin. apply elem_of_map in Hin as (p & Hp & Heq).
    destruct (Hrest p Hp) as (t & j & Hj & Ht). rewrite E, Ht in Heq.
    apply outbound_tag_inj in Heq; lia.
Qed.

(** What [GenerateClientConfig] returns, without the routing details. *)
Lemma generate_shape host hosts ports user clients g strat url intv sp hp dns bh cfg :
GenerateClientConfig host hosts ports user clients g strat url intv sp hp dns bh = inr cfg →
let built := build_outbounds host hosts ports 0 (sortClientsXHTTPFirst clients) in
∃ b, Cfg_Outbounds cfg = map fst built ++ [freedomOutbound; blackholeOutbound b]
  ∧ (b = "http" ∨ b = "none") ∧ built ≠ [].
Proof using Type.
unfold GenerateClientConfig. intros Hg. cbv zeta in *.
destruct (build_outbounds _ _ _ _ _) as [|p r]; [done|].
destruct (route_proxies _ _ _ _ _) as [rt ob]. injection Hg as <-.
eexists. split; [reflexivity|]. split; [case_if; auto|done].
Qed.


(** ** Routing *)

(** A rule whose target is a real outbound or a balancer. The tag of an
  outbound is compared up to case: the code accepts [direct], [proxy] and
  [block] in any case and keeps a user rule's tag as it was written (see
  [mixed_case_target_kept] in the file RoutesProps for what that means). *)
Definition rule_target_ok (cfg : ClientConfig) (r : RoutingRule) : Prop :=
(Rule_BalancerTag r = "" ∧ ∃ ob, ob ∈ Cfg_Outbounds cfg ∧ EqualFold (Rule_OutboundTag r) (Out_Tag ob) = true)
∨ (Rule_OutboundTag r = "" ∧
   ∃ b, b ∈ Routing_Balancers (Cfg_Routing cfg) ∧ Bal_Tag b = Rule_BalancerTag r).

(** Before the [proxy] rules are resolved. *)
Definition rule_allowed (r : RoutingRule) : Prop :=
Rule_BalancerTag r = "" ∧ TrimSpace (Rule_OutboundTag r) = Rule_OutboundTag r
∧ isAllowedOutboundTag (Rule_OutboundTag r) = true.

Lemma custom_rules_allowed us r : r ∈ custom_rules us → rule_allowed r.
Proof using Type.
unfold custom_rules. intros [_ Hr]%elem_of_bfilter. apply elem_of_map in Hr as (u & Hu & ->).
apply elem_of_bfilter in Hu as [Hu _]. unfold rule_allowed, rule_of_user. simpl.
rewrite TrimSpace_idem. split_and!; [done|done|].
unfold isAllowedOutboundTag in *. by rewrite TrimSpace_idem.
Qed.

Lemma default_rules_allowed r : r ∈ Routing_Rules defaultRouting → rule_allowed r.
Proof using Type.
intros Hr. unfold defaultRouting in Hr. simpl in Hr.
repeat (apply elem_of_cons in Hr as [->|Hr]; [by unfold rule_allowed|]). by apply elem_of_nil in Hr.
Qed.

Definition all_rules (g u : string) : list RoutingRule :=
custom_rules (user_rules_of u) ++ custom_rules (user_rules_of g) ++ Routing_Rules defaultRouting.

Lemma all_rules_allowed g u r : r ∈ all_rules g u → rule_allowed r.
Proof using Type.
unfold all_rules. rewrite !elem_of_app. intros [?|[?|?]];
  [by eapply custom_rules_allowed|by eapply custom_rules_allowed|by apply default_rules_allowed].
Qed.

Lemma resolve_rule_cases bal target r :
rule_allowed r →
(bal = true ∧ Rule_OutboundTag (resolve_rule bal target r) = "" ∧ Rule_BalancerTag (resolve_rule bal target r) = target)
∨ (bal = false ∧ Rule_OutboundTag (resolve_rule bal target r) = target ∧ Rule_BalancerTag (resolve_rule bal target r) = "")
∨ (Rule_BalancerTag (resolve_rule bal target r) = "" ∧
   (EqualFold (Rule_OutboundTag (resolve_rule bal target r)) "direct" = true
    ∨ EqualFold (Rule_OutboundTag (resolve_rule bal target r)) "block" = true)).
Proof using Type.
intros (Hb & Ht & Ha). unfold resolve_rule.
destruct (String.eqb (ToLower (TrimSpace (Rule_OutboundTag r))) "proxy") eqn:E.
- destruct bal; simpl; auto.
- right. right. split; [done|]. unfold isAllowedOutboundTag in Ha. rewrite E, orb_false_r, Ht in Ha.
  apply orb_true_iff in Ha as [Ha|Ha]; [left|right]; exact Ha.
Qed.

Abbreviation tags := (map (λ p : Outbound * bool, Out_Tag p.1)).
Definition xhttp_built (built : list (Outbound * bool)) := bfilter snd built.
Definition other_built (built : list (Outbound * bool)) := bfilter (λ p, negb p.2) built.

(** The traffic of several proxies: XHTTP ones first, the others as fallback. *)
Definition balancer_ok (built : list (Outbound * bool)) (b : Balancer) : Prop :=
Bal_Tag b = "proxy-balance"
∧ Bal_Selector b = (if decide (xhttp_built built = []) then tags built else tags (xhttp_built built))
∧ Bal_FallbackTag b ∈ tags built
∧ (xhttp_built built ≠ [] → other_built built ≠ [] →
   head (tags (other_built built)) = Some (Bal_FallbackTag b)).

Lemma balancer_targets_ok built p1 r strat :
built = p1 :: r →
let t := balancer_targets (tags built) (Out_Tag p1.1) (tags (xhttp_built built)) (tags (other_built built)) in
balancer_ok built (mkBalancer "proxy-balance" t.1 strat t.2).
Proof using Type.
intros Hb. unfold balancer_targets, balancer_ok.
assert (Hin : ∀ f p, p ∈ bfilter f built → Out_Tag p.1 ∈ tags built).
{ intros f p [_ Hp]%elem_of_bfilter. apply list_elem_of_In, in_map_iff.
  exists p. split; [done|by apply list_elem_of_In]. }
destruct (xhttp_built built) as [|x xs] eqn:Ex; simpl.
- split_and!; try done. subst. apply list_elem_of_here.
- destruct (other_built built) as [|n ns] eqn:En; simpl; split_and!; try done.
  + apply (Hin snd). unfold xhttp_built in Ex. rewrite Ex. apply list_elem_of_here.
  + apply (Hin (λ p, negb p.2)). unfold other_built in En. rewrite En. apply list_elem_of_here.
Qed.

(** The routing section in full. *)
Lemma generate_routing host hosts ports user clients g strat url intv sp hp dns bh cfg :
GenerateClientConfig host hosts ports user clients g strat url intv sp hp dns bh = inr cfg →
let built := build_outbounds host hosts ports 0 (sortClientsXHTTPFirst clients) in
let rules := all_rules g (User_ClientRoutes user) in
(∃ p, built = [p] ∧ Routing_Balancers (Cfg_Routing cfg) = [] ∧ Cfg_Observatory cfg = None
   ∧ Routing_Rules (Cfg_Routing cfg)
     = map (resolve_rule false (Out_Tag p.1)) rules ++ [catch_all (Out_Tag p.1) ""])
∨ (∃ b, (2 <= length built)%nat ∧ Routing_Balancers (Cfg_Routing cfg) = [b] ∧ balancer_ok built b
   ∧ (∀ o, Cfg_Observatory cfg = Some o → Obs_SubjectSelector o = Bal_Selector b)
   ∧ Routing_Rules (Cfg_Routing cfg)
     = map (resolve_rule true "proxy-balance") rules ++ [catch_all "" "proxy-balance"]).
Proof using Type.
intros Hg built rules. unfold GenerateClientConfig in Hg. cbv zeta in Hg. fold built in Hg.
destruct (build_outbounds_tags host hosts ports 0 (sortClientsXHTTPFirst clients)) as [H1 _]; [done|].
fold built in H1. pose proof (balancer_targets_ok built) as Hbal.
assert (Hr : Routing_Rules (applyUserRoutes (applyUserRoutes defaultRouting g) (User_ClientRoutes user)) = rules)
  by done.
assert (Hb : Routing_Balancers (applyUserRoutes (applyUserRoutes defaultRouting g) (User_ClientRoutes user)) = [])
  by done.
set (routing := applyUserRoutes _ _) in *. clearbody routing rules.
destruct (route_proxies routing built strat url intv) as [rt ob] eqn:Ert.
unfold route_proxies in Ert. fold (xhttp_built built) (other_built built) in Ert.
remember (xhttp_built built) as bx. remember (other_built built) as bn.
destruct built as [|p1 [|p2 r]]; [done| |]; cbn [map] in Ert; injection Hg as <-;
  cbn [Cfg_Routing Cfg_Observatory].
- left. exists p1. injection Ert as <- <-. split; [done|].
  unfold resolveProxyRouteTargets.
  destruct (H1 p1) as (t & j & Hj & ->); [apply list_elem_of_here|].
  rewrite (proj2 (String.eqb_neq _ _) (outbound_tag_ne t j "" Hj eq_refl)).
  simpl. by rewrite Hr.
- right. specialize (Hbal p1 (p2 :: r)). cbn [map] in Hbal.
  destruct (balancer_targets _ _ _ _) as [sel fb] eqn:Ebt.
  injection Ert as <- <-. eexists. split; [simpl; lia|].
  cbn. rewrite Hb, Hr. split; [reflexivity|]. split; [by apply (Hbal _ eq_refl)|].
  split; [|done]. intros o. case_if; [|done]. by intros [= <-].
Qed.


(** ** Secrets *)

(** Nothing of the server's private material: no certificates, no REALITY
  private key, ML-DSA seed, destination or server-side lists. *)
Definition client_safe (ss : StreamSettings) : Prop :=
(∀ tls, Stream_TLSSettings ss = Some tls →
   TLS_Certificates tls = None ∧ TLS_AllowInsecure tls = false)
∧ (∀ rs, Stream_RealitySettings ss = Some rs →
   Reality_PrivateKey rs = "" ∧ Reality_MLDSA65Seed rs = "" ∧ Reality_Dest rs = ""
   ∧ Reality_ServerNames rs = [] ∧ Reality_ShortIds rs = []).

Lemma convertReality_spec rs c :
convertReality (Some rs) = inr c →
Reality_PrivateKey c = "" ∧ Reality_MLDSA65Seed c = "" ∧ Reality_Dest c = ""
∧ Reality_ServerNames c = [] ∧ Reality_ShortIds c = []
∧ Reality_ServerName c = or_head (Reality_ServerName rs) (Reality_ServerNames rs)
∧ Reality_ShortId c = or_head (Reality_ShortId rs) (Reality_ShortIds rs)
∧ (Reality_PublicKey rs ≠ "" → Reality_PublicKey c = Reality_PublicKey rs)
∧ (Reality_PublicKey rs = "" → Reality_PrivateKey rs ≠ "" →
   derivePublicKey (Reality_PrivateKey rs) = inr (Reality_PublicKey c)).
Proof using Type.
unfold convertReality.
destruct (String.eqb_spec (Reality_PublicKey rs) "") as [E1|E1];
  destruct (String.eqb_spec (Reality_PrivateKey rs) "") as [E2|E2]; simpl;
  try (destruct (derivePublicKey _) as [e|k] eqn:Ek; [done|]);
  intros [= <-]; simpl; split_and!; done.
Qed.

Lemma convertStreamSettings_inv ss host c :
convertStreamSettings (Some ss) host = inr c →
∃ client, c = Some client ∧ client_safe client
  ∧ Stream_Network client = Stream_Network ss ∧ Stream_Security client = Stream_Security ss.
Proof using Type.
unfold convertStreamSettings. intros Hc. cbv zeta in Hc.
match type of Hc with (match ?x with _ => _ end) = _ => destruct x as [e|xh]; [done|] end.
destruct (String.eqb _ "tls"); [|destruct (String.eqb _ "reality")].
- injection Hc as <-. eexists. split; [reflexivity|]. split; [|done]. split; simpl; [|done].
  intros tls [= <-]. by destruct (Stream_TLSSettings ss).
- destruct (Stream_RealitySettings ss) as [rs|]; [|done].
  destruct (convertReality (Some rs)) as [e|r] eqn:Er; [done|]. injection Hc as <-.
  apply convertReality_spec in Er as (H1 & H2 & H3 & H4 & H5 & _).
  eexists. split; [reflexivity|]. split; [|done]. split; simpl; [done|]. by intros ? [= <-].
- injection Hc as <-. eexists. split; [reflexivity|]. by split.
Qed.

Lemma buildOutbound_inv host uc i ob :
buildOutbound host uc i = inr ob →
∃ cred si, Unmarshal decode_Stored (UC_ClientConfig uc) = inr cred
  ∧ Unmarshal decode_ServerInbound (UCF_InboundRaw uc) = inr si
  ∧ Out_Protocol ob = ToLower (UCF_InboundProtocol uc)
  ∧ (build_settings (ToLower (UCF_InboundProtocol uc)) host (UCF_InboundPort uc) cred
     = (match Out_Settings ob with Some j => inr j | None => inl "" end))
  ∧ convertStreamSettings (SI_StreamSettings si) host = inr (Out_StreamSettings ob).
Proof using Type.
unfold buildOutbound. destruct (Unmarshal decode_Stored _) as [|cred]; [done|].
destruct (Unmarshal decode_ServerInbound _) as [|si]; [done|].
destruct (build_settings _ _ _ _) as [|st] eqn:Es; [done|].
destruct (convertStreamSettings _ _) as [|cs] eqn:Ec; [done|].
intros [= <-]. exists cred, si. by rewrite Es.
Qed.

Lemma elem_of_build_outbounds host hosts ports i clients p :
p ∈ build_outbounds host hosts ports i clients →
∃ uc j, uc ∈ clients
  ∧ buildOutbound (resolve_endpoint host hosts ports uc).1 (resolve_endpoint host hosts ports uc).2 j = inr p.1.
Proof using Type.
revert i. induction clients as [|uc r IH]; intros i; [by intros ?%elem_of_nil|].
cbn [build_outbounds]. destruct (resolve_endpoint host hosts ports uc) as [h uc'] eqn:Er.
intros Hp. assert (p ∈ build_outbounds host hosts ports (i + 1) r ∨ buildOutbound h uc' i = inr p.1) as [Hr|Hb].
{ destruct (buildOutbound h uc' i); [by left|]. apply elem_of_cons in Hp as [->|Hp]; [by right|by left]. }
- destruct (IH _ Hr) as (uc2 & j & Hin & Hb). exists uc2, j. split; [by right|done].
- exists uc, i. split; [by left|]. by rewrite Er.
Qed.


(** ** Transports *)

Lemma map_get_copy_key k k' from m :
map_get k (copy_key k' from m) =
if String.eqb k k' then match map_get k from with Some v => Some v | None => map_get k m end
else map_get k m.
Proof using Type.
unfold copy_key. destruct (String.eqb_spec k k') as [->|Hne].
- destruct (map_get k' from); [by rewrite map_get_set_eq|done].
- destruct (map_get k' from); [by rewrite map_get_set_ne|done].
Qed.

Lemma map_get_xhttp_host_ne k server rs m :
k ≠ "host" → map_get k (xhttp_host server rs m) = map_get k m.
Proof using Type.
intros Hk. unfold xhttp_host. repeat case_match; try done; by rewrite map_get_set_ne.
Qed.
Lemma map_get_xhttp_host server rs m h :
map_get "host" server = Some h → map_get "host" (xhttp_host server rs m) = Some h.
Proof using Type. intros Hh. unfold xhttp_host. by rewrite Hh, map_get_set_eq. Qed.

Definition nested_extra (server : list (string * json)) : list (string * json) :=
match map_get "extra" server with Some (JObj se) => se | _ => [] end.

Lemma xhttp_extra_xmux server :
map_get "xmux" (xhttp_extra server) = Some (match map_get "xmux" server with Some x => x
  | None => default defaultXHTTPXMux (map_get "xmux" (nested_extra server)) end).
Proof using Type.
unfold xhttp_extra. fold (nested_extra server). cbn [foldl]. cbv zeta.
set (e := copy_key "scMinPostsIntervalMs" _ _).
assert (map_get "xmux" e = map_get "xmux" (nested_extra server)) as He
  by (unfold e; by rewrite !map_get_copy_key). clearbody e.
match goal with |- context [match ?x with Some _ => ?y | None => map_set _ _ ?y end] =>
  assert (map_get "xmux" y = map_get "xmux" (match x with Some _ => y
    | None => map_set "xPaddingBytes" (JStr defaultXHTTPPadding) y end)) as <-;
  [destruct x; [done|by rewrite map_get_set_ne]|] end.
destruct (map_get "xmux" server); [by rewrite map_get_set_eq|].
destruct (map_get "xmux" e) eqn:E; rewrite <- He; [done|by rewrite map_get_set_eq].
Qed.

Lemma xhttp_extra_padding server :
map_get "xPaddingBytes" (xhttp_extra server) = Some (match map_get "xPaddingBytes" server with Some x => x
  | None => default (JStr defaultXHTTPPadding) (map_get "xPaddingBytes" (nested_extra server)) end).
Proof using Type.
unfold xhttp_extra. fold (nested_extra server). cbn [foldl]. cbv zeta.
set (e := copy_key "scMinPostsIntervalMs" _ _).
assert (map_get "xPaddingBytes" e = match map_get "xPaddingBytes" server with Some x => Some x
  | None => map_get "xPaddingBytes" (nested_extra server) end) as He.
{ unfold e. rewrite !map_get_copy_key. simpl.
  by destruct (map_get "xPaddingBytes" server). }
clearbody e. set (e' := match map_get "xmux" server with Some _ => _ | None => _ end).
assert (map_get "xPaddingBytes" e' = map_get "xPaddingBytes" e) as He'.
{ unfold e'. destruct (map_get "xmux" server); [by rewrite map_get_set_ne|].
  destruct (map_get "xmux" e); [done|by rewrite map_get_set_ne]. }
clearbody e'. rewrite He', He.
destruct (map_get "xPaddingBytes" server); simpl; [by rewrite He', He|].
destruct (map_get "xPaddingBytes" (nested_extra server)) eqn:E; simpl;
  [by rewrite He', He|by rewrite map_get_set_eq].
Qed.

(** the fields of the XHTTP object a client gets. Only [path], [host],
  [mode] and [extra] are at the top level; [extra] always has [xmux] and
  [xPaddingBytes], the server's own values taking precedence over the
  tuned defaults (its top level over its [extra]); the host defaults to
  the REALITY server name. *)
Lemma convertXHTTPSettings_spec raw rs out :
convertXHTTPSettings raw rs = inr out →
∃ server top extra, decode d_map raw = inr server ∧ out = JObj top
  ∧ map_get "extra" top = Some (JObj extra)
  ∧ (∀ k, k ∉ ["path"; "host"; "mode"; "extra"] → map_get k top = None)
  ∧ (let srv k := map_get k (default [] server) in
     let nested k := map_get k (nested_extra (default [] server)) in
     map_get "path" top = srv "path" ∧ map_get "mode" top = srv "mode"
     ∧ (∀ h, srv "host" = Some h → map_get "host" top = Some h)
     ∧ map_get "xmux" extra = Some (match srv "xmux" with Some x => x
         | None => default defaultXHTTPXMux (nested "xmux") end)
     ∧ map_get "xPaddingBytes" extra = Some (match srv "xPaddingBytes" with Some x => x
         | None => default (JStr defaultXHTTPPadding) (nested "xPaddingBytes") end)).
Proof using Type.
unfold convertXHTTPSettings. destruct (decode d_map raw) as [e|server]; [done|].
intros [= <-]. set (srv := default [] server).
eexists server, _, (xhttp_extra srv). split; [done|]. split; [reflexivity|].
split; [by rewrite map_get_set_eq|]. split; [|cbv zeta; split_and!].
- intros k Hk. rewrite !not_elem_of_cons in Hk. destruct Hk as (K1 & K2 & K3 & K4 & _).
  rewrite map_get_set_ne, map_get_copy_key, (proj2 (String.eqb_neq _ _) K3) by done.
  rewrite map_get_xhttp_host_ne, map_get_copy_key, (proj2 (String.eqb_neq _ _) K1) by done. done.
- rewrite map_get_set_ne, map_get_copy_key by done. simpl.
  rewrite map_get_xhttp_host_ne, map_get_copy_key by done. simpl. fold srv. by destruct (map_get "path" srv).
- rewrite map_get_set_ne, map_get_copy_key by done. simpl.
  rewrite map_get_xhttp_host_ne, map_get_copy_key by done. simpl. fold srv. by destruct (map_get "mode" srv).
- intros h Hh. rewrite map_get_set_ne, map_get_copy_key by done. simpl.
  by apply map_get_xhttp_host.
- apply xhttp_extra_xmux.
- apply xhttp_extra_padding.
Qed.

(** Mux is switched on exactly for VMess and VLESS without the Vision
  flow, without VLESS encryption, without REALITY (VLESS), and over
  neither QUIC, KCP nor XHTTP. *)
Lemma shouldUseMux_iff proto flow encryption ss :
shouldUseMux proto flow encryption ss = true ↔
(proto = "vmess" ∨ (proto = "vless" ∧ ∀ s, ss = Some s → Stream_Security s ≠ "reality"))
∧ flow ≠ "xtls-rprx-vision"
∧ (TrimSpace encryption = "" ∨ TrimSpace encryption = "none")
∧ (∀ s, ss = Some s → Stream_Network s ∉ ["quic"; "kcp"; "xhttp"]).
Proof using Type.
unfold shouldUseMux.
assert (Hif : ∀ v e r n pv : bool, (if v then false else if e then false else if r then false
    else if n then false else pv) = true ↔ v = false ∧ e = false ∧ r = false ∧ n = false ∧ pv = true).
{ intros [] [] [] [] []; split; try done; intros (? & ? & ? & ? & ?); done. }
rewrite Hif, String.eqb_neq, orb_true_iff, !String.eqb_eq, !andb_false_iff, !negb_false_iff, !String.eqb_eq.
rewrite !orb_false_iff, !String.eqb_neq. split.
- intros (H1 & H2 & H3 & [[N1 N2] N3] & H5). split_and!; [|done|done|].
  + destruct H5 as [H5|H5]; [by left|right]. split; [done|]. intros s ->.
    destruct H3 as [[H3 _]|H3]; [congruence|]. by apply String.eqb_neq.
  + intros s ->. rewrite !not_elem_of_cons. apply String.eqb_neq in N1, N2, N3.
    split_and!; try done. apply not_elem_of_nil.
- intros (H1 & H2 & H3 & H4). split_and!; try done.
  + destruct H1 as [->|[-> H1]]; [by left|right]. destruct ss as [s|]; [|done].
    by apply String.eqb_neq, H1.
  + destruct ss as [s|]; [|done]. specialize (H4 s eq_refl). rewrite !not_elem_of_cons in H4.
    destruct H4 as (? & ? & ? & _). by apply String.eqb_neq.
  + destruct ss as [s|]; [|done]. specialize (H4 s eq_refl). rewrite !not_elem_of_cons in H4.
    destruct H4 as (? & ? & ? & _). by apply String.eqb_neq.
  + destruct ss as [s|]; [|done]. specialize (H4 s eq_refl). rewrite !not_elem_of_cons in H4.
    destruct H4 as (? & ? & ? & _). by apply String.eqb_neq.
  + destruct H1 as [->|[-> _]]; auto.
Qed.

(** XHTTP clients are tried first: the order the outbounds are built in
  is the given order with the XHTTP clients moved to the front. *)
Lemma sortClientsXHTTPFirst_partition clients :
sortClientsXHTTPFirst clients
= bfilter isXHTTPInbound clients ++ bfilter (λ c, negb (isXHTTPInbound c)) clients.
Proof using Type.
unfold sortClientsXHTTPFirst. rewrite <- (stable_sort_partition isXHTTPInbound).
unfold stable_sort. induction clients as [|c l IH]; [done|]. simpl. rewrite IH.
generalize (foldr (sort_insert (λ x y, isXHTTPInbound x || negb (isXHTTPInbound y))) [] l). intros m.
assert (Hleb : ∀ a b, (inboundPriority a <=? inboundPriority b)%Z = isXHTTPInbound a || negb (isXHTTPInbound b)).
{ intros a b. unfold inboundPriority. by destruct (isXHTTPInbound a), (isXHTTPInbound b). }
induction m as [|y m IHm]; [done|]. simpl. rewrite Hleb. by destruct (_ || _); rewrite ?IHm.
Qed.

End Props.

(** ** A sample to evaluate the definitions on *)

Definition IdentityCurve : Curve := {| X25519 := inr |}.

Definition sample_inbound : json :=
  JObj [("tag", JStr "vless-xhttp"); ("port", JInt 443); ("protocol", JStr "vless");
    ("streamSettings", JObj [("network", JStr "xhttp"); ("security", JStr "reality");
       ("xhttpSettings", JObj [("path", JStr "/x"); ("noSSEHeader", JBool true)]);
       ("realitySettings", JObj [("publicKey", JStr "pk"); ("privateKey", JStr "secret");
          ("serverNames", JArr [JStr "e.com"])])])].
Definition sample_cred : StoredClientConfig := mkStored "vless" "u-1" 0 "" "ann" "none" 0 "" "" "".
Definition sample_client : UserClientFull :=
  mkUserClientFull (mkUserClient 1 1 1 (marshal_Stored sample_cred) true) "vless-xhttp" "vless" 443
    (json_marshal sample_inbound) "" "" 0.
Definition sample_user : User := mkUser 1 "ann" "ann" "tok" "" None true true
  (marshal_routes [mkUserRouteRule "r1" "" "Proxy" ["domain:x.org"] [] "" "" [] []]) 0 0.
Definition sample_generate : error + ClientConfig :=
  @GenerateClientConfig IdentityCurve "vpn.example" ∅ ∅ sample_user [sample_client; sample_client]
    "[]" "" "" "" 0 0 [] "".



Lemma convertXHTTPSettings_spec_witness :
  ∃ out, convertXHTTPSettings (JObj [("path", JStr "/x")]) None = inr out ∧
  ∃ server top extra, decode d_map (JObj [("path", JStr "/x")]) = inr server ∧ out = JObj top
    ∧ map_get "extra" top = Some (JObj extra).
Proof.
  destruct (convertXHTTPSettings (JObj [("path", JStr "/x")]) None) as [e|out] eqn:E;
    [exfalso; vm_compute in E; discriminate|].
  exists out. split; [done|].
  destruct (convertXHTTPSettings_spec _ _ _ E) as (server & top & extra & H1 & H2 & H3 & _).
  by exists server, top, extra.
Defined.

