(* ===== verification/Schema.v ===== *)
(** * The SQLite schema: [DB.migrate] of [internal/database/database.go]

    Tables are lists of rows in rowid order. SQLite enforces the declared
    constraints: a statement whose result violates one fails and changes
    nothing ([enforce] below). A nullable column is an [option]; booleans are
    stored as the integers 0 and 1. *)

From S2P Require Import Prelude GoString Models.

Record user_row := mkUserRow {
  ur_id : Z; ur_username : string; ur_email : string; ur_token : string;
  ur_fallback_token : option string; ur_fallback_accessed_at : option Z;
  ur_enabled : Z; ur_client_routes : string; ur_hy2_enabled : Z;
  ur_created_at : Z; ur_updated_at : Z }.

Record uc_row := mkUcRow {
  uc_id : Z; uc_user_id : Z; uc_inbound_id : Z; uc_client_config : string; uc_enabled : Z }.

Record profile_row := mkProfileRow {
  pr_id : Z; pr_name : string; pr_description : string; pr_inbound_tags : string;
  pr_created_at : Z; pr_updated_at : Z }.

Record node_row := mkNodeRow {
  nr_id : Z; nr_name : string; nr_api_addr : string; nr_inbound_tag : string;
  nr_public_host : string; nr_public_port : Z; nr_enabled : Z; nr_created_at : Z }.

(** The tables and the AUTOINCREMENT counters (the largest id ever used). *)
Record Tables := mkTables {
  t_users : list user_row; t_inbounds : list Inbound; t_user_clients : list uc_row;
  t_settings : gmap string string; t_profiles : list profile_row;
  t_nodes : list node_row; t_user_nodes : list (Z * Z);
  seq_users : Z; seq_inbounds : Z; seq_user_clients : Z; seq_profiles : Z; seq_nodes : Z }.

(** A freshly migrated database. *)
Definition empty_tables : Tables := mkTables [] [] [] ∅ [] [] [] 0 0 0 0 0.

Definition with_users (us : list user_row) (sq : Z) (t : Tables) : Tables :=
  mkTables us (t_inbounds t) (t_user_clients t) (t_settings t) (t_profiles t) (t_nodes t)
    (t_user_nodes t) sq (seq_inbounds t) (seq_user_clients t) (seq_profiles t) (seq_nodes t).
Definition with_inbounds (ibs : list Inbound) (sq : Z) (t : Tables) : Tables :=
  mkTables (t_users t) ibs (t_user_clients t) (t_settings t) (t_profiles t) (t_nodes t)
    (t_user_nodes t) (seq_users t) sq (seq_user_clients t) (seq_profiles t) (seq_nodes t).
Definition with_user_clients (ucs : list uc_row) (sq : Z) (t : Tables) : Tables :=
  mkTables (t_users t) (t_inbounds t) ucs (t_settings t) (t_profiles t) (t_nodes t)
    (t_user_nodes t) (seq_users t) (seq_inbounds t) sq (seq_profiles t) (seq_nodes t).
Definition with_settings (m : gmap string string) (t : Tables) : Tables :=
  mkTables (t_users t) (t_inbounds t) (t_user_clients t) m (t_profiles t) (t_nodes t)
    (t_user_nodes t) (seq_users t) (seq_inbounds t) (seq_user_clients t) (seq_profiles t) (seq_nodes t).
Definition with_profiles (ps : list profile_row) (sq : Z) (t : Tables) : Tables :=
  mkTables (t_users t) (t_inbounds t) (t_user_clients t) (t_settings t) ps (t_nodes t)
    (t_user_nodes t) (seq_users t) (seq_inbounds t) (seq_user_clients t) sq (seq_nodes t).
Definition with_nodes (ns : list node_row) (sq : Z) (t : Tables) : Tables :=
  mkTables (t_users t) (t_inbounds t) (t_user_clients t) (t_settings t) (t_profiles t) ns
    (t_user_nodes t) (seq_users t) (seq_inbounds t) (seq_user_clients t) (seq_profiles t) sq.
Definition with_user_nodes (un : list (Z * Z)) (t : Tables) : Tables :=
  mkTables (t_users t) (t_inbounds t) (t_user_clients t) (t_settings t) (t_profiles t) (t_nodes t)
    un (seq_users t) (seq_inbounds t) (seq_user_clients t) (seq_profiles t) (seq_nodes t).

(** ** Constraints *)

Definition unique_error (col : string) : error :=
  "constraint failed: UNIQUE constraint failed: " +:+ col +:+ " (2067)".
Definition fk_error : error := "constraint failed: FOREIGN KEY constraint failed (787)".

Definition fallback_tokens (us : list user_row) : list string := omap ur_fallback_token us.

(** The first constraint the users table violates, if any. *)
Definition users_violation (us : list user_row) : option error :=
  if negb (bool_decide (NoDup (ur_username <$> us))) then Some (unique_error "users.username")
  else if negb (bool_decide (NoDup (ur_token <$> us))) then Some (unique_error "users.token")
  else if negb (bool_decide (NoDup (fallback_tokens us))) then Some (unique_error "users.fallback_token")
  else None.
Definition profiles_violation (ps : list profile_row) : option error :=
  if negb (bool_decide (NoDup (pr_name <$> ps))) then Some (unique_error "emergency_profiles.name")
  else None.

(** A statement that would leave a violated table fails. *)
Definition enforce {A} (v : option error) (r : A) : error + A :=
  match v with Some e => inl e | None => inr r end.

(** ** Statements over one table *)

Section Rows.
Context {R : Type}.
(** [UPDATE ... SET f WHERE p] *)
Definition update_rows (p : R → bool) (f : R → R) (l : list R) : list R :=
map (λ r, if p r then f r else r) l.
(** [DELETE ... WHERE p] *)
Definition delete_rows (p : R → bool) (l : list R) : list R := bfilter (λ r, negb (p r)) l.
(** [LIMIT limit OFFSET offset] as the paginated listings build it *)
Definition paginate (limit offset : Z) (l : list R) : list R :=
if (0 <? limit)%Z then take (Z.to_nat limit) (drop (Z.to_nat (Z.max 0 offset)) l)
else if (0 <? offset)%Z then drop (Z.to_nat offset) l
else l.

Lemma update_rows_fmap {B} (g : R → B) p f l :
(∀ r, p r = true → g (f r) = g r) → g <$> update_rows p f l = g <$> l.
Proof.
intros H. unfold update_rows. induction l as [|r l IH]; [done|].
rewrite !fmap_cons. simpl. f_equal; [|done]. destruct (p r) eqn:E; auto.
Qed.
Lemma elem_of_update_rows x p f l :
x ∈ update_rows p f l ↔ ∃ r, r ∈ l ∧ x = if p r then f r else r.
Proof.
unfold update_rows. rewrite list_elem_of_In, in_map_iff. setoid_rewrite list_elem_of_In.
split; intros (r & H1 & H2); exists r; by split.
Qed.
Lemma elem_of_delete_rows x p l : x ∈ delete_rows p l ↔ p x = false ∧ x ∈ l.
Proof. unfold delete_rows. by rewrite elem_of_bfilter, negb_true_iff. Qed.
Lemma delete_rows_sublist p l : sublist (delete_rows p l) l.
Proof. apply bfilter_sublist. Qed.
Lemma NoDup_delete_rows {B} (g : R → B) p l : NoDup (g <$> l) → NoDup (g <$> delete_rows p l).
Proof. apply NoDup_fmap_bfilter. Qed.
Lemma paginate_sublist limit offset l : sublist (paginate limit offset l) l.
Proof.
unfold paginate. repeat case_if; [|apply sublist_drop|done].
etrans; [apply sublist_take|apply sublist_drop].
Qed.
Lemma paginate_length limit offset l :
(0 < limit)%Z → length (paginate limit offset l) ≤ Z.to_nat limit.
Proof.
intros H. unfold paginate. rewrite (proj2 (Z.ltb_lt _ _)) by done.
rewrite length_take. lia.
Qed.
End Rows.

(** ** The invariant of the tables *)

Record wf_tables (t : Tables) : Prop := {
  wf_seqs : (0 ≤ seq_users t ∧ 0 ≤ seq_inbounds t ∧ 0 ≤ seq_user_clients t
             ∧ 0 ≤ seq_profiles t ∧ 0 ≤ seq_nodes t)%Z;
  wf_user_ids : NoDup (ur_id <$> t_users t);
  wf_user_seq : ∀ u, u ∈ t_users t → (1 ≤ ur_id u ≤ seq_users t)%Z;
  wf_usernames : NoDup (ur_username <$> t_users t);
  wf_tokens : NoDup (ur_token <$> t_users t);
  wf_fallback : NoDup (fallback_tokens (t_users t));
  wf_user_bits : ∀ u, u ∈ t_users t → ur_enabled u ∈ [0; 1]%Z ∧ ur_hy2_enabled u ∈ [0; 1]%Z;
  wf_inbound_ids : NoDup (Inbound_ID <$> t_inbounds t);
  wf_inbound_seq : ∀ i, i ∈ t_inbounds t → (1 ≤ Inbound_ID i ≤ seq_inbounds t)%Z;
  wf_inbound_tags : NoDup (Inbound_Tag <$> t_inbounds t);
  wf_uc_ids : NoDup (uc_id <$> t_user_clients t);
  wf_uc_seq : ∀ c, c ∈ t_user_clients t → (1 ≤ uc_id c ≤ seq_user_clients t)%Z;
  wf_uc_keys : NoDup ((λ c, (uc_user_id c, uc_inbound_id c)) <$> t_user_clients t);
  wf_uc_user : ∀ c, c ∈ t_user_clients t → uc_user_id c ∈ ur_id <$> t_users t;
  wf_uc_inbound : ∀ c, c ∈ t_user_clients t → uc_inbound_id c ∈ Inbound_ID <$> t_inbounds t;
  wf_uc_bits : ∀ c, c ∈ t_user_clients t → uc_enabled c ∈ [0; 1]%Z;
  wf_profile_ids : NoDup (pr_id <$> t_profiles t);
  wf_profile_seq : ∀ p, p ∈ t_profiles t → (1 ≤ pr_id p ≤ seq_profiles t)%Z;
  wf_profile_names : NoDup (pr_name <$> t_profiles t);
  wf_node_ids : NoDup (nr_id <$> t_nodes t);
  wf_node_seq : ∀ n, n ∈ t_nodes t → (1 ≤ nr_id n ≤ seq_nodes t)%Z;
  wf_node_names : NoDup (nr_name <$> t_nodes t);
  wf_node_bits : ∀ n, n ∈ t_nodes t → nr_enabled n ∈ [0; 1]%Z;
  wf_un_keys : NoDup (t_user_nodes t);
  wf_un_user : ∀ un, un ∈ t_user_nodes t → un.1 ∈ ur_id <$> t_users t;
  wf_un_node : ∀ un, un ∈ t_user_nodes t → un.2 ∈ nr_id <$> t_nodes t }.

Lemma wf_empty_tables : wf_tables empty_tables.
Proof. constructor; simpl; try apply NoDup_nil_2; try lia; intros ? []%elem_of_nil. Qed.

Lemma users_violation_None us :
  users_violation us = None ↔
  NoDup (ur_username <$> us) ∧ NoDup (ur_token <$> us) ∧ NoDup (fallback_tokens us).
Proof.
  unfold users_violation. split.
  - intros H. repeat case_if; try done. bool_simp. done.
  - intros (H1 & H2 & H3). by rewrite !bool_decide_eq_true_2.
Qed.

(** A fresh id appended to a table whose ids are within the counter. *)
Lemma NoDup_snoc_fresh {R} (g : R → Z) (l : list R) (r : R) sq :
  NoDup (g <$> l) → (∀ x, x ∈ l → (1 ≤ g x ≤ sq)%Z) → g r = (sq + 1)%Z → NoDup (g <$> l ++ [r]).
Proof.
  intros Hl Hs Hr. rewrite fmap_app. apply NoDup_app. split; [done|].
  split; [|apply NoDup_singleton].
  intros y (x & -> & Hx)%list_elem_of_fmap. simpl. rewrite list_elem_of_singleton.
  specialize (Hs x Hx). lia.
Qed.

Lemma seq_snoc_fresh {R} (g : R → Z) (l : list R) (r : R) sq :
  (0 ≤ sq)%Z → (∀ x, x ∈ l → (1 ≤ g x ≤ sq)%Z) → g r = (sq + 1)%Z →
  ∀ x, x ∈ l ++ [r] → (1 ≤ g x ≤ sq + 1)%Z.
Proof.
  intros H0 Hs Hr x [Hx|Hx]%elem_of_app; [specialize (Hs x Hx); lia|].
  apply list_elem_of_singleton in Hx as ->. lia.
Qed.

(** A key not yet in a table can be appended. *)
Lemma NoDup_snoc_key {R B} (g : R → B) (l : list R) (r : R) :
  NoDup (g <$> l) → (∀ x, x ∈ l → g x ≠ g r) → NoDup (g <$> l ++ [r]).
Proof.
  intros Hl Hr. rewrite fmap_app. apply NoDup_app. split; [done|].
  split; [|apply NoDup_singleton].
  intros y (x & -> & Hx)%list_elem_of_fmap. simpl. rewrite list_elem_of_singleton. auto.
Qed.
