(* ===== verification/Database.v ===== *)
(** * The data-access methods: [internal/database/database.go]

    A method is a computation over [DB]: the tables and the outcomes of the
    SQLite calls to come ([true] in [db_faults] makes the next call fail with
    an I/O error and no effect; an empty list means no failure). [now] is the
    value [time.Now().UTC()] returns in the call. *)

From S2P Require Import Prelude GoString Json JsonDecode Models Schema.
From Stdlib Require Import Ascii.

Record DB := mkDB { db_tables : Tables; db_faults : list bool }.

Definition io_error : error := "disk I/O error (10)".

(** One statement sent to SQLite. *)
Definition Exec {A} (f : Tables → error + (A * Tables)) : M DB A := λ db,
  match db_faults db with
  | true :: r => (inl io_error, mkDB (db_tables db) r)
  | fs =>
      match f (db_tables db) with
      | inl e => (inl e, mkDB (db_tables db) (tail fs))
      | inr (a, t) => (inr a, mkDB t (tail fs))
      end
  end.
Definition Query {A} (q : Tables → A) : M DB A := Exec (λ t, inr (q t, t)).
Definition Run (f : Tables → Tables) : M DB () := Exec (λ t, inr (tt, f t)).

(** [Begin ... Commit] with [Rollback] on every error return. *)
Definition transaction (body : M DB ()) : M DB () :=
  Query (λ _, tt) ;;;
  λ db, match (body ;;; Query (λ _, tt)) db with
        | (inl e, db') => (inl e, mkDB (db_tables db) (db_faults db'))
        | ok => ok
        end.

Definition boolInt (b : bool) : Z := if b then 1 else 0.

(** ** Users *)

Definition scanUser (r : user_row) : User :=
  mkUser (ur_id r) (ur_username r)
    (if String.eqb (TrimSpace (ur_email r)) "" then ur_username r else ur_email r)
    (ur_token r) (default "" (ur_fallback_token r)) (ur_fallback_accessed_at r)
    (Z.eqb (ur_enabled r) 1) (Z.eqb (ur_hy2_enabled r) 1) (ur_client_routes r)
    (ur_created_at r) (ur_updated_at r).

(** Statements that rewrite the users table. *)
Definition write_users {A} (f : Tables → A * list user_row * Z) : M DB A :=
  Exec (λ t, let '(a, us, sq) := f t in enforce (users_violation us) (a, with_users us sq t)).

Definition CreateUser (now : Z) (username email token fallbackToken : string) : M DB User :=
  let username := TrimSpace username in
  let email := TrimSpace email in
  let email := if String.eqb email "" then username else email in
  let fallbackToken := TrimSpace fallbackToken in
  let fallbackArg := if String.eqb fallbackToken "" then None else Some fallbackToken in
  id <-- write_users (λ t,
    let id := (seq_users t + 1)%Z in
    (id, t_users t ++ [mkUserRow id username email token fallbackArg None 1 "[]" 1 now now], id));;
  ret (mkUser id username email token fallbackToken None true true "" now now).

(** [UPDATE users SET ... WHERE id = ?] *)
Definition update_user (userID : Z) (f : user_row → user_row) : M DB () :=
  write_users (λ t, (tt, update_rows (λ r, Z.eqb (ur_id r) userID) f (t_users t), seq_users t)).

Definition SetUserHy2Enabled (now userID : Z) (enabled : bool) : M DB () :=
  let v := if enabled then 1%Z else 0%Z in
  update_user userID (λ r, mkUserRow (ur_id r) (ur_username r) (ur_email r) (ur_token r)
    (ur_fallback_token r) (ur_fallback_accessed_at r) (ur_enabled r) (ur_client_routes r)
    v (ur_created_at r) now).

Definition find_user (p : user_row → bool) : M DB (option User) :=
  Query (λ t, scanUser <$> List.find p (t_users t)).

Definition GetUserByToken (token : string) : M DB (option User) :=
  find_user (λ r, String.eqb (ur_token r) token).
Definition GetUserByFallbackToken (token : string) : M DB (option User) :=
  if String.eqb token "" then ret None
  else find_user (λ r, match ur_fallback_token r with Some f => String.eqb f token | None => false end).
Definition GetUserByUsername (username : string) : M DB (option User) :=
  find_user (λ r, String.eqb (ur_username r) username).
Definition GetUserByID (id : Z) : M DB (option User) := find_user (λ r, Z.eqb (ur_id r) id).

Definition by_created_at (a b : user_row) : bool := (ur_created_at a <=? ur_created_at b)%Z.
Definition ListUsersPaginated (limit offset : Z) : M DB (list User) :=
  Query (λ t, map scanUser (paginate limit offset (stable_sort by_created_at (t_users t)))).
Definition ListUsers : M DB (list User) := ListUsersPaginated 0 0.
Definition CountUsers : M DB Z := Query (λ t, Z.of_nat (length (t_users t))).

Definition UpdateUserToken (now userID : Z) (token : string) : M DB () :=
  update_user userID (λ r, mkUserRow (ur_id r) (ur_username r) (ur_email r) token
    (ur_fallback_token r) (ur_fallback_accessed_at r) (ur_enabled r) (ur_client_routes r)
    (ur_hy2_enabled r) (ur_created_at r) now).
Definition UpdateFallbackToken (now userID : Z) (fallbackToken : string) : M DB () :=
  update_user userID (λ r, mkUserRow (ur_id r) (ur_username r) (ur_email r) (ur_token r)
    (Some fallbackToken) (ur_fallback_accessed_at r) (ur_enabled r) (ur_client_routes r)
    (ur_hy2_enabled r) (ur_created_at r) now).
Definition SetFallbackAccessedAt (userID at_ : Z) : M DB () :=
  update_user userID (λ r, mkUserRow (ur_id r) (ur_username r) (ur_email r) (ur_token r)
    (ur_fallback_token r) (Some at_) (ur_enabled r) (ur_client_routes r)
    (ur_hy2_enabled r) (ur_created_at r) (ur_updated_at r)).
Definition SetUserEnabled (now userID : Z) (enabled : bool) : M DB () :=
  update_user userID (λ r, mkUserRow (ur_id r) (ur_username r) (ur_email r) (ur_token r)
    (ur_fallback_token r) (ur_fallback_accessed_at r) (boolInt enabled) (ur_client_routes r)
    (ur_hy2_enabled r) (ur_created_at r) now).
Definition UpdateUserClientRoutes (now userID : Z) (routesJSON : string) : M DB () :=
  update_user userID (λ r, mkUserRow (ur_id r) (ur_username r) (ur_email r) (ur_token r)
    (ur_fallback_token r) (ur_fallback_accessed_at r) (ur_enabled r) routesJSON
    (ur_hy2_enabled r) (ur_created_at r) now).

(** [DELETE FROM users] with its two [ON DELETE CASCADE] references. *)
Definition delete_user_rows (id : Z) (t : Tables) : Tables :=
  with_user_nodes (delete_rows (λ un, Z.eqb un.1 id) (t_user_nodes t))
    (with_user_clients (delete_rows (λ c, Z.eqb (uc_user_id c) id) (t_user_clients t))
      (seq_user_clients t)
      (with_users (delete_rows (λ r, Z.eqb (ur_id r) id) (t_users t)) (seq_users t) t)).
Definition DeleteUser (id : Z) : M DB () := Run (delete_user_rows id).

(** ** Settings *)

Definition get_setting (key : string) : M DB (option string) := Query (λ t, t_settings t !! key).
Definition put_setting (key value : string) : M DB () :=
  Run (λ t, with_settings (<[key := value]> (t_settings t)) t).

Definition GetFallbackEnabled : M DB bool :=
  val <-- get_setting "fallback_enabled";;
  ret (match val with None => true | Some v => negb (String.eqb v "false") end).
Definition SetFallbackEnabled (enabled : bool) : M DB () :=
  put_setting "fallback_enabled" (if enabled then "true" else "false").

Definition GetGlobalClientRoutes : M DB string :=
  routes <-- get_setting "global_client_routes";;
  ret (match routes with
       | None => "[]"
       | Some r => if String.eqb (TrimSpace r) "" then "[]" else r
       end).
Definition UpdateGlobalClientRoutes (routesJSON : string) : M DB () :=
  put_setting "global_client_routes" routesJSON.

Record BalancerRuntimeConfig := mkBalancerRuntime {
  BRC_Strategy : string; BRC_ProbeURL : string; BRC_ProbeInterval : string }.
Definition encode_BRC (c : BalancerRuntimeConfig) : json :=
  JObj [("strategy", JStr (BRC_Strategy c)); ("probe_url", JStr (BRC_ProbeURL c));
        ("probe_interval", JStr (BRC_ProbeInterval c))].
Definition decode_BRC : decoder BalancerRuntimeConfig := λ j,
  kvs <~ d_object j;;
  s <~ d_field d_string "strategy" kvs;; u <~ d_field d_string "probe_url" kvs;;
  i <~ d_field d_string "probe_interval" kvs;; dret (mkBalancerRuntime s u i).

Definition of_result {A} (r : error + A) : M DB A :=
  match r with inl e => throw e | inr a => ret a end.

Definition GetBalancerRuntimeConfig : M DB (option BalancerRuntimeConfig) :=
  raw <-- get_setting "balancer_runtime_config";;
  match raw with
  | None => ret None
  | Some raw => cfg <-- of_result (Unmarshal decode_BRC raw);; ret (Some cfg)
  end.
Definition SetBalancerRuntimeConfig (cfg : BalancerRuntimeConfig) : M DB () :=
  put_setting "balancer_runtime_config" (json_marshal (encode_BRC cfg)).
Definition DeleteBalancerRuntimeConfig : M DB () :=
  Run (λ t, with_settings (delete "balancer_runtime_config" (t_settings t)) t).

(** ** Inbounds *)

(** [SELECT id FROM ... WHERE key = ?] after an upsert *)
Definition id_or_no_rows (o : option Z) : M DB Z :=
  match o with Some id => ret id | None => throw "sql: no rows in result set" end.

Definition upsert_inbound_rows (now : Z) (tag protocol : string) (port : Z)
    (configFile rawConfig : string) (t : Tables) : Tables :=
  if existsb (λ i, String.eqb (Inbound_Tag i) tag) (t_inbounds t) then
    with_inbounds (update_rows (λ i, String.eqb (Inbound_Tag i) tag)
      (λ i, mkInbound (Inbound_ID i) (Inbound_Tag i) protocol port configFile rawConfig now)
      (t_inbounds t)) (seq_inbounds t) t
  else
    let id := (seq_inbounds t + 1)%Z in
    with_inbounds (t_inbounds t ++ [mkInbound id tag protocol port configFile rawConfig now]) id t.
Definition inbound_id (tag : string) (t : Tables) : option Z :=
  Inbound_ID <$> List.find (λ i, String.eqb (Inbound_Tag i) tag) (t_inbounds t).
Definition UpsertInbound (now : Z) (tag protocol : string) (port : Z)
    (configFile rawConfig : string) : M DB Z :=
  Run (upsert_inbound_rows now tag protocol port configFile rawConfig) ;;;
  id <-- Query (inbound_id tag);; id_or_no_rows id.

Definition by_tag (a b : Inbound) : bool := string_leb (Inbound_Tag a) (Inbound_Tag b).
Definition ListInboundsPaginated (limit offset : Z) : M DB (list Inbound) :=
  Query (λ t, paginate limit offset (stable_sort by_tag (t_inbounds t))).
Definition ListInbounds : M DB (list Inbound) := ListInboundsPaginated 0 0.
Definition GetInboundByTag (tag : string) : M DB (option Inbound) :=
  Query (λ t, List.find (λ i, String.eqb (Inbound_Tag i) tag) (t_inbounds t)).
Definition CountInbounds : M DB Z := Query (λ t, Z.of_nat (length (t_inbounds t))).

(** [DELETE FROM inbounds WHERE p], cascading to [user_clients] *)
Definition delete_inbound_rows (p : Inbound → bool) (t : Tables) : Tables :=
  let gone := Inbound_ID <$> bfilter p (t_inbounds t) in
  with_user_clients (delete_rows (λ c, bool_decide (uc_inbound_id c ∈ gone)) (t_user_clients t))
    (seq_user_clients t)
    (with_inbounds (delete_rows p (t_inbounds t)) (seq_inbounds t) t).
Definition DeleteInboundsByFile (configFile : string) : M DB () :=
  Run (delete_inbound_rows (λ i, String.eqb (Inbound_ConfigFile i) configFile)).
Definition DeleteInboundByTag (tag : string) : M DB () :=
  Run (delete_inbound_rows (λ i, String.eqb (Inbound_Tag i) tag)).
Definition GetInboundTagsNotInFile (configFile : string) (presentTags : list string)
    : M DB (list string) :=
  Query (λ t, Inbound_Tag <$> bfilter (λ i, String.eqb (Inbound_ConfigFile i) configFile
    && negb (bool_decide (Inbound_Tag i ∈ presentTags))) (t_inbounds t)).

(** ** User clients *)

Definition uc_key (userID inboundID : Z) (c : uc_row) : bool :=
  Z.eqb (uc_user_id c) userID && Z.eqb (uc_inbound_id c) inboundID.

Definition upsert_uc_rows (userID inboundID : Z) (clientConfig : string) (t : Tables)
    : error + (() * Tables) :=
  if negb (bool_decide (userID ∈ ur_id <$> t_users t))
     || negb (bool_decide (inboundID ∈ Inbound_ID <$> t_inbounds t)) then inl fk_error
  else if existsb (uc_key userID inboundID) (t_user_clients t) then
    inr (tt, with_user_clients (update_rows (uc_key userID inboundID)
      (λ c, mkUcRow (uc_id c) (uc_user_id c) (uc_inbound_id c) clientConfig (uc_enabled c))
      (t_user_clients t)) (seq_user_clients t) t)
  else
    let id := (seq_user_clients t + 1)%Z in
    inr (tt, with_user_clients (t_user_clients t ++ [mkUcRow id userID inboundID clientConfig 1]) id t).
Definition UpsertUserClient (userID inboundID : Z) (clientConfig : string) : M DB () :=
  Exec (upsert_uc_rows userID inboundID clientConfig).

(** [user_clients uc JOIN inbounds ib ON ib.id = uc.inbound_id] *)
Definition join_clients (t : Tables) : list (uc_row * Inbound) :=
  uc ← t_user_clients t;
  ib ← bfilter (λ ib, Z.eqb (Inbound_ID ib) (uc_inbound_id uc)) (t_inbounds t);
  [(uc, ib)].
Definition scan_client (p : uc_row * Inbound) : UserClientFull :=
  let '(uc, ib) := p in
  mkUserClientFull (mkUserClient (uc_id uc) (uc_user_id uc) (uc_inbound_id uc)
      (uc_client_config uc) (Z.eqb (uc_enabled uc) 1))
    (Inbound_Tag ib) (Inbound_Protocol ib) (Inbound_Port ib) (Inbound_RawConfig ib) "" "" 0.
Definition clients_by_tag (a b : uc_row * Inbound) : bool := by_tag a.2 b.2.

Definition GetUserClients (userID : Z) : M DB (list UserClientFull) :=
  Query (λ t, map scan_client (stable_sort clients_by_tag
    (bfilter (λ p, Z.eqb (uc_user_id p.1) userID && Z.eqb (uc_enabled p.1) 1) (join_clients t)))).
Definition GetAllUserClients (userID : Z) : M DB (list UserClientFull) :=
  Query (λ t, map scan_client (stable_sort clients_by_tag
    (bfilter (λ p, Z.eqb (uc_user_id p.1) userID) (join_clients t)))).
Definition GetUserClientByUserAndInbound (userID inboundID : Z) : M DB (string * string) :=
  Query (λ t, match List.find (λ p, uc_key userID inboundID p.1) (join_clients t) with
    | Some (uc, ib) => (Inbound_Tag ib, uc_client_config uc)
    | None => ("", "") end).
Definition SetUserClientEnabled (userID inboundID : Z) (enabled : bool) : M DB () :=
  Run (λ t, with_user_clients (update_rows (uc_key userID inboundID)
    (λ c, mkUcRow (uc_id c) (uc_user_id c) (uc_inbound_id c) (uc_client_config c) (boolInt enabled))
    (t_user_clients t)) (seq_user_clients t) t).
Definition by_user_and_tag (a b : uc_row * Inbound) : bool :=
  (uc_user_id a.1 <? uc_user_id b.1)%Z
  || (Z.eqb (uc_user_id a.1) (uc_user_id b.1) && by_tag a.2 b.2).
Definition ListUserClients : M DB (list UserClientFull) :=
  Query (λ t, map scan_client (stable_sort by_user_and_tag (join_clients t))).
Definition DeleteUserClientsByInbound (inboundID : Z) : M DB () :=
  Run (λ t, with_user_clients (delete_rows (λ c, Z.eqb (uc_inbound_id c) inboundID)
    (t_user_clients t)) (seq_user_clients t) t).

Record UserClientForInbound := mkUCFI {
  UCFI_Username : string; UCFI_Email : string; UCFI_ClientConfig : string; UCFI_Protocol : string }.
Definition XrayClientEmail (r : UserClientForInbound) : string :=
  if negb (String.eqb (TrimSpace (UCFI_Email r)) "") then TrimSpace (UCFI_Email r)
  else TrimSpace (UCFI_Username r).

(** [... JOIN users u ON u.id = uc.user_id] *)
Definition join_users (t : Tables) : list (uc_row * Inbound * user_row) :=
  p ← join_clients t;
  u ← bfilter (λ u, Z.eqb (ur_id u) (uc_user_id p.1)) (t_users t);
  [(p, u)].
Definition ListUserClientsByInboundTag (tag : string) : M DB (list UserClientForInbound) :=
  Query (λ t, map (λ '(uc, ib, u),
      mkUCFI (ur_username u)
        (if String.eqb (TrimSpace (ur_email u)) "" then ur_username u else ur_email u)
        (uc_client_config uc) (Inbound_Protocol ib))
    (stable_sort (λ a b, string_leb (ur_username a.2) (ur_username b.2))
      (bfilter (λ '(uc, ib, u), String.eqb (Inbound_Tag ib) tag && Z.eqb (uc_enabled uc) 1
        && Z.eqb (ur_enabled u) 1) (join_users t)))).

(** ** Emergency profiles *)

Definition write_profiles {A} (f : Tables → A * list profile_row * Z) : M DB A :=
  Exec (λ t, let '(a, ps, sq) := f t in enforce (profiles_violation ps) (a, with_profiles ps sq t)).
Definition marshal_tags (tags : list string) : string := json_marshal (JArr (map JStr tags)).

Definition CreateEmergencyProfile (now : Z) (name description : string)
    (inboundTags : list string) : M DB EmergencyProfile :=
  id <-- write_profiles (λ t, let id := (seq_profiles t + 1)%Z in
    (id, t_profiles t ++ [mkProfileRow id name description (marshal_tags inboundTags) now now], id));;
  ret (mkEmergencyProfile id name description inboundTags now now).

Definition scan_profile (r : profile_row) : error + EmergencyProfile :=
  match Unmarshal (d_list d_string) (pr_inbound_tags r) with
  | inl e => inl ("parse inbound_tags for profile " +:+ Itoa (pr_id r) +:+ ": " +:+ e)
  | inr tags => inr (mkEmergencyProfile (pr_id r) (pr_name r) (pr_description r) tags
                       (pr_created_at r) (pr_updated_at r))
  end.
Definition GetEmergencyProfile (id : Z) : M DB (option EmergencyProfile) :=
  row <-- Query (λ t, List.find (λ r, Z.eqb (pr_id r) id) (t_profiles t));;
  match row with
  | None => ret None
  | Some r => p <-- of_result (scan_profile r);; ret (Some p)
  end.
Fixpoint scan_profiles (rs : list profile_row) : M DB (list EmergencyProfile) :=
  match rs with
  | [] => ret []
  | r :: rs => p <-- of_result (scan_profile r);; ps <-- scan_profiles rs;; ret (p :: ps)
  end.
Definition ListEmergencyProfiles : M DB (list EmergencyProfile) :=
  rows <-- Query (λ t, stable_sort (λ a b, string_leb (pr_name a) (pr_name b)) (t_profiles t));;
  scan_profiles rows.
Definition UpdateEmergencyProfile (now id : Z) (name description : string)
    (inboundTags : list string) : M DB (option EmergencyProfile) :=
  n <-- write_profiles (λ t,
    (length (bfilter (λ r, Z.eqb (pr_id r) id) (t_profiles t)),
     update_rows (λ r, Z.eqb (pr_id r) id)
       (λ r, mkProfileRow (pr_id r) name description (marshal_tags inboundTags) (pr_created_at r) now)
       (t_profiles t), seq_profiles t));;
  ret (if Nat.eqb n 0 then None
       else Some (mkEmergencyProfile id name description inboundTags 0 now)).
Definition DeleteEmergencyProfile (id : Z) : M DB () :=
  Run (λ t, with_profiles (delete_rows (λ r, Z.eqb (pr_id r) id) (t_profiles t)) (seq_profiles t) t).

(** ** Emergency status

    [FormatRFC3339] and [ParseRFC3339] are [time.Time.Format(time.RFC3339)] and
    [time.Parse(time.RFC3339, _)], which keep times to the second; the format
    has four digits for the year. Times are nanoseconds since 1970. *)
Definition four_digit_year (t : Z) : Prop :=
  (-62135596800 * 1000000000 <= t < 253402300800 * 1000000000)%Z.
Class Clock := {
  FormatRFC3339 : Z → string;
  ParseRFC3339 : string → option Z;
  Parse_Format : ∀ t, four_digit_year t →
    ParseRFC3339 (FormatRFC3339 t) = Some (t - t mod 1000000000)%Z }.

(** [fmt.Sscanf(s, "%d", &n)]: blanks, a sign, the longest run of digits. *)
Fixpoint digits_prefix (s : string) : string :=
  match s with String c r => if is_digit c then String c (digits_prefix r) else "" | _ => "" end.
Definition Sscanf_d (s : string) : option Z :=
  match trim_left s with
  | String "-"%char r => ParseInt (String "-"%char (digits_prefix r))
  | String "+"%char r => ParseInt (digits_prefix r)
  | r => ParseInt (digits_prefix r)
  end.

Section EmergencyStatus.
Context `{Clock}.

Definition read_profile_id : M DB (option Z * option EmergencyProfile) :=
raw <-- try (get_setting "emergency_profile_id");;
match raw with
| inr (Some s) =>
    if String.eqb s "" then ret (None, None)
    else match Sscanf_d s with
    | None => ret (None, None)
    | Some id =>
        p <-- try (GetEmergencyProfile id);;
        ret (Some id, match p with inr p => p | inl _ => None end)
    end
| _ => ret (None, None)
end.

Definition GetEmergencyStatus : M DB EmergencyStatus :=
active <-- get_setting "emergency_active";;
match active with
| None => ret (mkEmergencyStatus false None None None)
| Some a =>
    if negb (String.eqb a "true") then ret (mkEmergencyStatus false None None None)
    else
      ids <-- read_profile_id;;
      at_ <-- try (get_setting "emergency_activated_at");;
      ret (mkEmergencyStatus true ids.1 ids.2
             (match at_ with inr (Some s) => ParseRFC3339 s | _ => None end))
end.

Definition ActivateEmergency (now profileID : Z) : M DB () :=
put_setting "emergency_active" "true" ;;;
put_setting "emergency_profile_id" (Itoa profileID) ;;;
put_setting "emergency_activated_at" (FormatRFC3339 now).
End EmergencyStatus.

Definition DeactivateEmergency : M DB () :=
  Run (λ t, with_settings (delete "emergency_active" (delete "emergency_profile_id"
    (delete "emergency_activated_at" (t_settings t)))) t).

(** ** Nodes *)

Definition upsert_node_rows (now : Z) (n : Node) (t : Tables) : Tables :=
  if existsb (λ r, String.eqb (nr_name r) (Node_Name n)) (t_nodes t) then
    with_nodes (update_rows (λ r, String.eqb (nr_name r) (Node_Name n))
      (λ r, mkNodeRow (nr_id r) (nr_name r) (Node_APIAddr n) (Node_InboundTag n)
         (Node_PublicHost n) (Node_PublicPort n) (boolInt (Node_Enabled n)) (nr_created_at r))
      (t_nodes t)) (seq_nodes t) t
  else
    let id := (seq_nodes t + 1)%Z in
    with_nodes (t_nodes t ++ [mkNodeRow id (Node_Name n) (Node_APIAddr n) (Node_InboundTag n)
      (Node_PublicHost n) (Node_PublicPort n) (boolInt (Node_Enabled n)) now]) id t.
Definition UpsertNode (now : Z) (n : Node) : M DB Z :=
  Run (upsert_node_rows now n) ;;;
  id <-- Query (λ t, nr_id <$> List.find (λ r, String.eqb (nr_name r) (Node_Name n)) (t_nodes t));;
  id_or_no_rows id.

Definition scan_node (r : node_row) : Node :=
  mkNode (nr_id r) (nr_name r) (nr_api_addr r) (nr_inbound_tag r) (nr_public_host r)
    (nr_public_port r) (negb (Z.eqb (nr_enabled r) 0)) (nr_created_at r).
Definition by_name (a b : node_row) : bool := string_leb (nr_name a) (nr_name b).
Definition ListNodes : M DB (list Node) :=
  Query (λ t, map scan_node (stable_sort by_name (t_nodes t))).
Definition GetNodeByName (name : string) : M DB (option Node) :=
  Query (λ t, scan_node <$> List.find (λ r, String.eqb (nr_name r) name) (t_nodes t)).

(** Errors come back wrapped, as [fmt.Errorf("...: %w", err)] does. *)
Definition wrap {A} (msg : error) (m : M DB A) : M DB A := λ db,
  match m db with (inl e, db') => (inl (msg +:+ ": " +:+ e), db') | ok => ok end.

Definition disable_node (id : Z) : M DB () :=
  Run (λ t, with_nodes (update_rows (λ r, Z.eqb (nr_id r) id)
    (λ r, mkNodeRow (nr_id r) (nr_name r) (nr_api_addr r) (nr_inbound_tag r)
       (nr_public_host r) (nr_public_port r) 0 (nr_created_at r)) (t_nodes t)) (seq_nodes t) t).

Definition ReconcileNodes (now : Z) (desired : list Node) : M DB () :=
  for_each desired (λ n,
    wrap ("upsert node " +:+ Node_Name n) (UpsertNode now n) ;;; ret tt) ;;;
  existing <-- ListNodes;;
  for_each existing (λ n,
    if bool_decide (Node_Name n ∈ Node_Name <$> desired) || negb (Node_Enabled n) then ret tt
    else wrap ("disable vanished node " +:+ Node_Name n) (disable_node (Node_ID n))).

(** [INSERT OR IGNORE INTO user_nodes]: an existing pair is skipped, a missing
    parent row is an error (foreign keys are not subject to OR IGNORE). *)
Definition insert_user_node (userID nodeID : Z) (t : Tables) : error + (() * Tables) :=
  if bool_decide ((userID, nodeID) ∈ t_user_nodes t) then inr (tt, t)
  else if negb (bool_decide (userID ∈ ur_id <$> t_users t))
     || negb (bool_decide (nodeID ∈ nr_id <$> t_nodes t)) then inl fk_error
  else inr (tt, with_user_nodes (t_user_nodes t ++ [(userID, nodeID)]) t).

Definition backfill_pairs (t : Tables) : list (Z * Z) :=
  u ← bfilter (λ u, negb (existsb (λ un, Z.eqb un.1 (ur_id u)) (t_user_nodes t))) (t_users t);
  n ← bfilter (λ n, Z.eqb (nr_enabled n) 1) (t_nodes t);
  [(ur_id u, nr_id n)].
Definition BackfillUserNodesToEnabled : M DB () :=
  Run (λ t, with_user_nodes (t_user_nodes t ++ backfill_pairs t) t).

Definition AssignUserToNodes (userID : Z) (nodeIDs : list Z) : M DB () :=
  for_each nodeIDs (λ nid, Exec (insert_user_node userID nid)).

Definition ListNodeIDsForUser (userID : Z) : M DB (list Z) :=
  Query (λ t, stable_sort Z.leb (snd <$> bfilter (λ un, Z.eqb un.1 userID) (t_user_nodes t))).
Definition ListNodesForUser (userID : Z) : M DB (list Node) :=
  Query (λ t, map scan_node (stable_sort by_name
    (bfilter (λ n, bool_decide ((userID, nr_id n) ∈ t_user_nodes t)) (t_nodes t)))).

Definition SetUserNodes (userID : Z) (nodeIDs : list Z) : M DB () :=
  transaction (
    Run (λ t, with_user_nodes (delete_rows (λ un, Z.eqb un.1 userID) (t_user_nodes t)) t) ;;;
    for_each nodeIDs (λ nid, Exec (insert_user_node userID nid))).

Definition RemoveUserFromNode (userID nodeID : Z) : M DB () :=
  Run (λ t, with_user_nodes (delete_rows (λ un, Z.eqb un.1 userID && Z.eqb un.2 nodeID)
    (t_user_nodes t)) t).

Definition ListWantedClientsForNode (nodeID : Z) (inboundTag : string) : M DB (list WantedClient) :=
  Query (λ t, map (λ '(uc, ib, u), mkWantedClient (ur_email u) (uc_client_config uc))
    (stable_sort (λ a b, string_leb (ur_email a.2) (ur_email b.2))
      (bfilter (λ '(uc, ib, u), bool_decide ((ur_id u, nodeID) ∈ t_user_nodes t)
        && String.eqb (Inbound_Tag ib) inboundTag
        && Z.eqb (ur_enabled u) 1 && Z.eqb (uc_enabled uc) 1) (join_users t)))).

Definition EnabledNodeIDs : M DB (list Z) :=
  Query (λ t, nr_id <$> stable_sort by_name (bfilter (λ n, Z.eqb (nr_enabled n) 1) (t_nodes t))).
