(* ===== verification/Migrate.v ===== *)
(** * The schema migration: [migrate] of [internal/database/database.go]

    A database file of any earlier version of the program: its tables, and the
    columns of [users] that were added over time and are there already. A
    missing table counts as empty, so creating it changes nothing. Statements
    are not in a transaction: one that fails leaves the earlier ones done, and
    the next start begins again. *)

From S2P Require Import Prelude GoString Models Schema Database.
From Stdlib Require Import Ascii.

(** What a row holds in a column that is not there yet is never looked at. *)
Record File := mkFile { f_tables : Tables; f_columns : list string; f_faults : list bool }.
Definition has (name : string) (columns : list string) : bool := existsb (String.eqb name) columns.

(** One [db.conn.Exec]. *)
Definition statement (f : Tables → list string → error + (Tables * list string)) : M File () := λ db,
  match f_faults db with
  | true :: r => (inl io_error, mkFile (f_tables db) (f_columns db) r)
  | fs =>
      match f (f_tables db) (f_columns db) with
      | inl e => (inl e, mkFile (f_tables db) (f_columns db) (tail fs))
      | inr (t, cs) => (inr tt, mkFile t cs (tail fs))
      end
  end.
Definition on_user_rows (f : user_row → user_row) (t : Tables) : Tables :=
  with_users (map f (t_users t)) (seq_users t) t.

Definition duplicate_column (name : string) : error := "duplicate column name: " +:+ name.
(** [ALTER TABLE users ADD COLUMN name ... DEFAULT ...] *)
Definition add_column (name : string) (default_value : user_row → user_row) : M File () :=
  statement (λ t columns,
    if has name columns then inl ("SQL logic error: " +:+ duplicate_column name +:+ " (1)")
    else inr (on_user_rows default_value t, name :: columns)).
(** An error that says the column is there is ignored. *)
Definition ensure_column (name : string) (default_value : user_row → user_row) : M File () :=
  r <-- try (add_column name default_value);;
  match r with
  | inr _ => ret tt
  | inl e => if Contains e (duplicate_column name) then ret tt else throw e
  end.

(** The five columns, with their defaults. *)
Definition default_routes (r : user_row) : user_row :=
  mkUserRow (ur_id r) (ur_username r) (ur_email r) (ur_token r) (ur_fallback_token r)
    (ur_fallback_accessed_at r) (ur_enabled r) "[]" (ur_hy2_enabled r) (ur_created_at r) (ur_updated_at r).
Definition with_email (email : string) (r : user_row) : user_row :=
  mkUserRow (ur_id r) (ur_username r) email (ur_token r) (ur_fallback_token r)
    (ur_fallback_accessed_at r) (ur_enabled r) (ur_client_routes r) (ur_hy2_enabled r) (ur_created_at r) (ur_updated_at r).
Definition default_fallback_token (r : user_row) : user_row :=
  mkUserRow (ur_id r) (ur_username r) (ur_email r) (ur_token r) None
    (ur_fallback_accessed_at r) (ur_enabled r) (ur_client_routes r) (ur_hy2_enabled r) (ur_created_at r) (ur_updated_at r).
Definition default_accessed_at (r : user_row) : user_row :=
  mkUserRow (ur_id r) (ur_username r) (ur_email r) (ur_token r) (ur_fallback_token r)
    None (ur_enabled r) (ur_client_routes r) (ur_hy2_enabled r) (ur_created_at r) (ur_updated_at r).
Definition default_hy2 (r : user_row) : user_row :=
  mkUserRow (ur_id r) (ur_username r) (ur_email r) (ur_token r) (ur_fallback_token r)
    (ur_fallback_accessed_at r) (ur_enabled r) (ur_client_routes r) 1 (ur_created_at r) (ur_updated_at r).

(** [UPDATE users SET email = username WHERE trim(email) = ''], where SQLite's
    [trim] removes spaces. *)
Definition blank_email (r : user_row) : bool := string_forallb (Ascii.eqb " "%char) (ur_email r).
Definition fill_email (r : user_row) : user_row :=
  if blank_email r then with_email (ur_username r) r else r.
(** [CREATE UNIQUE INDEX IF NOT EXISTS idx_users_fallback_token] *)
Definition unique_fallback_index (t : Tables) (columns : list string) : error + (Tables * list string) :=
  if bool_decide (NoDup (fallback_tokens (t_users t))) then inr (t, columns)
  else inl (unique_error "users.fallback_token").

Definition migrate : M File () :=
  statement (λ t columns, inr (t, columns)) ;;;      (* CREATE TABLE IF NOT EXISTS ... *)
  ensure_column "client_routes" default_routes ;;;
  ensure_column "email" (with_email "") ;;;
  statement (λ t columns, inr (on_user_rows fill_email t, columns)) ;;;
  ensure_column "fallback_token" default_fallback_token ;;;
  statement unique_fallback_index ;;;
  ensure_column "fallback_accessed_at" default_accessed_at ;;;
  ensure_column "hy2_enabled" default_hy2.

(** ** What a file stands for

    The tables a complete migration makes of it, written down at once: every
    missing column at its default, and no blank e-mail. *)

Definition migrated_row (columns : list string) (r : user_row) : user_row :=
  let keep {A} name (value dflt : A) := if has name columns then value else dflt in
  fill_email (mkUserRow (ur_id r) (ur_username r) (keep "email" (ur_email r) "") (ur_token r)
    (keep "fallback_token" (ur_fallback_token r) None)
    (keep "fallback_accessed_at" (ur_fallback_accessed_at r) None) (ur_enabled r)
    (keep "client_routes" (ur_client_routes r) "[]") (keep "hy2_enabled" (ur_hy2_enabled r) 1%Z)
    (ur_created_at r) (ur_updated_at r)).
Definition meaning (db : File) : Tables := on_user_rows (migrated_row (f_columns db)) (f_tables db).
Definition all_columns : list string :=
  ["client_routes"; "email"; "fallback_token"; "fallback_accessed_at"; "hy2_enabled"].

(** *** Every statement keeps it *)

Definition grows (db db' : File) : Prop :=
  meaning db' = meaning db ∧ (∀ c, has c (f_columns db) = true → has c (f_columns db') = true).
#[export] Instance grows_preorder : PreOrder grows.
Proof. split; [done|]. intros d1 d2 d3 [M1 C1] [M2 C2]. split; [congruence|auto]. Qed.
Definition keeping (m : M File ()) : Prop := advances grows id m.

Lemma keeping_statement f :
  (∀ t cols t' cols', f t cols = inr (t', cols') → on_user_rows (migrated_row cols') t' = on_user_rows (migrated_row cols) t ∧
     ∀ c, has c cols = true → has c cols' = true) → keeping (statement f).
Proof.
  intros Hf [t cols fs]. unfold statement. cbn [f_tables f_columns f_faults]. destruct fs as [|[] fs]; [|done|];
    (destruct (f t cols) as [e|[t' cols']] eqn:E; [done|exact (Hf _ _ _ _ E)]).
Qed.
Lemma on_user_rows_comp f g h t :
  (∀ r, f (g r) = h r) → on_user_rows f (on_user_rows g t) = on_user_rows h t.
Proof. intros Hc. unfold on_user_rows. simpl. rewrite map_map. by rewrite (map_ext _ _ Hc). Qed.

Lemma keeping_ensure name d :
  (∀ cols r, has name cols = false → migrated_row (name :: cols) (d r) = migrated_row cols r) →
  keeping (ensure_column name d).
Proof.
  intros Hd. apply (advances_bind _ _).
  - apply advances_try, keeping_statement. intros t cols t' cols'. destruct (has name cols) eqn:Eh; [done|].
    intros [= <- <-]. split; [apply on_user_rows_comp; intros r; by apply Hd|]. intros c Hc. unfold has in *. simpl. rewrite Hc. by rewrite orb_true_r.
  - intros r. destruct r as [e|x]; [|apply (advances_ret _)]. case_if; [apply (advances_ret _)|apply (advances_throw _)].
Qed.

Lemma fill_migrated cols r : migrated_row cols (fill_email r) = migrated_row cols r.
Proof.
  destruct r as [i name email tok fb acc en routes hy cr up]. unfold migrated_row, fill_email, blank_email.
  cbn. destruct (string_forallb (Ascii.eqb " ") email) eqn:Ee; cbn; [|done].
  destruct (has "email" cols); cbn; [|done]. rewrite Ee. by destruct (string_forallb _ name).
Qed.

Lemma keeping_names :
  keeping (ensure_column "client_routes" default_routes) ∧ keeping (ensure_column "email" (with_email "")) ∧
  keeping (ensure_column "fallback_token" default_fallback_token) ∧
  keeping (ensure_column "fallback_accessed_at" default_accessed_at) ∧ keeping (ensure_column "hy2_enabled" default_hy2).
Proof. repeat split; apply keeping_ensure; intros cols r Hn; unfold migrated_row; cbn; by rewrite Hn. Qed.
Lemma keeping_fill : keeping (statement (λ t columns, inr (on_user_rows fill_email t, columns))).
Proof. apply keeping_statement. intros t cols t' cols' [= <- <-]. split; [|done]. apply on_user_rows_comp, fill_migrated. Qed.
Lemma keeping_same f : (∀ t cols t' cols', f t cols = inr (t', cols') → t' = t ∧ cols' = cols) → keeping (statement f).
Proof. intros Hf. apply keeping_statement. intros t cols t' cols' H. by apply Hf in H as [-> ->]. Qed.
Lemma index_same t cols t' cols' : unique_fallback_index t cols = inr (t', cols') → t' = t ∧ cols' = cols.
Proof. unfold unique_fallback_index. case_if; by intros [= <- <-]. Qed.

Lemma keeping_migrate : keeping migrate.
Proof.
  destruct keeping_names as (K1 & K2 & K3 & K4 & K5).
  repeat (apply (advances_bind _ _); [|intros _]); try done.
  - apply keeping_same. by intros t cols t' cols' [= <- <-].
  - apply keeping_fill.
  - apply keeping_same, index_same.
Qed.

(** *** What a success has done *)

Definition filled (r : user_row) : Prop := fill_email r = r.
(** The columns [cs] are there, and, once it is their turn, no e-mail is blank. *)
Definition progress (cs : list string) (emails : bool) (db : File) : Prop :=
  Forall (λ c, has c (f_columns db) = true) cs ∧
  (emails = true → Forall filled (t_users (f_tables db))).

Lemma statement_inr f db db' :
  statement f db = (inr tt, db') → f (f_tables db) (f_columns db) = inr (f_tables db', f_columns db').
Proof.
  unfold statement. destruct (f_faults db) as [|[] fs]; [|done|]; (destruct (f _ _) as [e|[t cs]]; [done|]); by intros [= <-].
Qed.
Lemma leads_ensure name d cs emails :
  Contains io_error (duplicate_column name) = false → (emails = true → ∀ r, filled r → filled (d r)) →
  leads (progress cs emails) (progress (name :: cs) emails) (ensure_column name d).
Proof.
  intros Hio Hd db [] db' H [Hcs Hem]. unfold ensure_column, bind, try in H.
  destruct (add_column name d db) as [[e|[]] db1] eqn:E1; unfold add_column in E1.
  - destruct (Contains e _) eqn:Ec; [|done]. injection H as <-. unfold statement in E1.
    assert (Hs : f_tables db1 = f_tables db ∧ f_columns db1 = f_columns db ∧ has name (f_columns db) = true).
    { destruct (f_faults db) as [|[] fs]; destruct (has name (f_columns db)); simplify_eq; try done; congruence. }
    destruct Hs as (Ht & Hc & Hn). unfold progress. rewrite Ht, Hc. split; [by constructor|done].
  - injection H as <-. apply statement_inr in E1. destruct (has name (f_columns db)); [done|]. injection E1 as Ht Hc.
    unfold progress. rewrite <- Ht, <- Hc. split.
    + constructor; [unfold has; simpl; by rewrite String.eqb_refl|]. eapply Forall_impl; [exact Hcs|].
      intros c H0. unfold has in *. simpl. rewrite H0. by rewrite orb_true_r.
    + intros He. simpl. apply Forall_fmap. eapply Forall_impl; [by apply Hem|]. intros r. by apply Hd.
Qed.
Lemma leads_same cs emails f :
  (∀ t cols t' cols', f t cols = inr (t', cols') → t' = t ∧ cols' = cols) →
  leads (progress cs emails) (progress cs emails) (statement f).
Proof. intros Hf db [] db' H%statement_inr. apply Hf in H as [Ht Hc]. unfold progress. by rewrite Ht, Hc. Qed.

Lemma fill_email_idem r : filled (fill_email r).
Proof.
  unfold filled, fill_email, blank_email. destruct (string_forallb _ (ur_email r)) eqn:E1; cbn; [|by rewrite E1].
  by destruct (string_forallb _ (ur_username r)).
Qed.
Lemma filled_iff r : filled r ↔ blank_email r = false ∨ ur_email r = ur_username r.
Proof.
  unfold filled, fill_email. destruct (blank_email r); [|naive_solver]. destruct r; cbn. split.
  - intros Hr. injection Hr as Hr. by right.
  - intros [Hn|Hn]; [done|]. by rewrite Hn.
Qed.
Lemma leads_fill cs :
  leads (progress cs false) (progress cs true) (statement (λ t columns, inr (on_user_rows fill_email t, columns))).
Proof.
  intros db [] db' H%statement_inr [Hcs _]. injection H as Ht Hc. unfold progress. rewrite <- Ht, <- Hc.
  split; [done|]. intros _. simpl. apply Forall_fmap, Forall_forall. intros r _. apply fill_email_idem.
Qed.

Lemma leads_migrate : leads (progress [] false) (progress (reverse all_columns) true) migrate.
Proof.
  unfold migrate. eapply leads_bind; [apply leads_same; by intros t c t' c' [= <- <-]|intros _].
  eapply leads_bind; [by apply leads_ensure|intros _].
  eapply leads_bind; [by apply leads_ensure|intros _].
  eapply leads_bind; [apply leads_fill|intros _].
  eapply leads_bind; [apply leads_ensure; [done|]; intros _ r; by rewrite !filled_iff|intros _].
  eapply leads_bind; [apply leads_same; intros t c t' c'; unfold unique_fallback_index; case_if; by intros [= <- <-]|intros _].
  eapply leads_bind; [apply leads_ensure; [done|]; intros _ r; by rewrite !filled_iff|intros _].
  apply leads_ensure; [done|]; intros _ r; by rewrite !filled_iff.
Qed.

(** Once everything is there, a file stands for its own tables. *)
Lemma meaning_progress cs db :
  all_columns ⊆ cs → progress cs true db → meaning db = f_tables db.
Proof.
  intros Hall [Hcs Hf]. pose proof (proj1 (Forall_forall _ _) Hcs) as Hc. specialize (Hf eq_refl). unfold meaning, on_user_rows.
  enough (map (migrated_row (f_columns db)) (t_users (f_tables db)) = t_users (f_tables db)) as -> by by destruct (f_tables db).
  rewrite <- (map_id (t_users (f_tables db))) at 2. apply map_ext_in. intros r Hr%list_elem_of_In.
  pose proof (proj1 (Forall_forall _ _) Hf r Hr) as Hfr. unfold migrated_row. rewrite !Hc by (apply Hall; unfold all_columns; set_solver).
  by destruct r.
Qed.

(** *** With no failure to come, it succeeds *)

Lemma ensure_run name d t cols :
  Contains ("SQL logic error: " +:+ duplicate_column name +:+ " (1)") (duplicate_column name) = true →
  ensure_column name d (mkFile t cols []) =
  (inr tt, if has name cols then mkFile t cols [] else mkFile (on_user_rows d t) (name :: cols) []).
Proof.
  intros Hc. unfold ensure_column, add_column, statement, bind, try. cbn [f_tables f_columns f_faults].
  destruct (has name cols); [|done]. by rewrite Hc.
Qed.
Lemma statement_run f t cols t' cols' :
  f t cols = inr (t', cols') → statement f (mkFile t cols []) = (inr tt, mkFile t' cols' []).
Proof. intros Hf. unfold statement. simpl. by rewrite Hf. Qed.

Lemma fallback_tokens_map f us :
  (∀ r, ur_fallback_token (f r) = ur_fallback_token r) → fallback_tokens (map f us) = fallback_tokens us.
Proof.
  intros Hf. induction us as [|r us IH]; [done|]. unfold fallback_tokens in *. csimpl. rewrite Hf.
  destruct (ur_fallback_token r); [by f_equal|done].
Qed.
Lemma fallback_tokens_meaning t cols :
  has "fallback_token" cols = true →
  fallback_tokens (t_users (meaning (mkFile t cols []))) = fallback_tokens (t_users t).
Proof.
  intros Hc. apply fallback_tokens_map. intros r.
  assert (Hfill : ∀ r', ur_fallback_token (fill_email r') = ur_fallback_token r') by (intros r'; unfold fill_email; by case_if).
  unfold migrated_row. rewrite Hfill. cbn [ur_fallback_token f_columns]. by rewrite Hc.
Qed.

(** Nothing fails from here on, and the tokens the file stands for are
    distinct; [b]: the column of the fallback tokens is there. *)
Definition ready (b : bool) (db : File) : Prop :=
  f_faults db = [] ∧ NoDup (fallback_tokens (t_users (meaning db))) ∧
  (b = true → has "fallback_token" (f_columns db) = true).
Definition runs (P Q : File → Prop) (m : M File ()) : Prop := ∀ db, P db → ∃ db', m db = (inr tt, db') ∧ Q db'.
Lemma runs_bind P Q R m k : runs P Q m → runs Q R k → runs P R (m ;;; k).
Proof. intros Hm Hk db (d1 & E & H)%Hm. unfold bind. rewrite E. by apply Hk. Qed.

Lemma runs_ensure b name d :
  keeping (ensure_column name d) →
  Contains ("SQL logic error: " +:+ duplicate_column name +:+ " (1)") (duplicate_column name) = true →
  runs (ready b) (ready (b || String.eqb "fallback_token" name)) (ensure_column name d).
Proof.
  intros Hk Hc [t cols fs] (Hf & Hn & Hb). simpl in Hf. subst fs. pose proof (Hk (mkFile t cols [])) as Hg.
  rewrite ensure_run in * by done. eexists. split; [done|]. simpl in Hg. destruct Hg as [Hm Hcols].
  unfold id in *. unfold ready. rewrite Hm. split; [by case_if|]. split; [done|]. intros [Hb'|He]%orb_true_iff; [auto|].
  apply String.eqb_eq in He as <-. destruct (has "fallback_token" cols) eqn:E; [done|]. unfold has. simpl. done.
Qed.
Lemma runs_statement b f :
  keeping (statement f) → (∀ db, ready b db → ∃ r, f (f_tables db) (f_columns db) = inr r) →
  runs (ready b) (ready b) (statement f).
Proof.
  intros Hk Hf [t cols fs] Hr. destruct (Hf _ Hr) as [[t' cols'] E]. destruct Hr as (Hfs & Hn & Hb). simpl in *. subst fs.
  pose proof (Hk (mkFile t cols [])) as Hg. rewrite (statement_run _ _ _ _ _ E) in *. eexists. split; [done|].
  destruct Hg as [Hm Hcols]. unfold id in *. simpl in *. unfold ready. rewrite Hm. auto.
Qed.

Lemma runs_migrate : runs (ready false) (ready true) migrate.
Proof.
  destruct keeping_names as (K1 & K2 & K3 & K4 & K5). unfold migrate.
  eapply runs_bind; [apply runs_statement; [apply keeping_same; by intros t c t' c' [= <- <-]|eauto]|].
  eapply runs_bind; [by apply runs_ensure|]. eapply runs_bind; [by apply runs_ensure|].
  eapply runs_bind; [apply runs_statement; [apply keeping_fill|eauto]|].
  eapply runs_bind; [by apply runs_ensure|].
  eapply runs_bind; [apply (runs_statement true); [apply keeping_same, index_same|]|].
  - intros [t cols fs] (_ & Hn & Hb). change (meaning _) with (meaning (mkFile t cols [])) in Hn; rewrite fallback_tokens_meaning in Hn by auto.
    unfold unique_fallback_index. rewrite bool_decide_eq_true_2 by done. eauto.
  - eapply runs_bind; by apply runs_ensure.
Qed.

(** ** The property *)

(** C21: whichever statement of the migration fails, the file still stands for
    the same tables - those a complete migration makes of it -, so that a
    later start resumes where this one stopped and loses nothing; a migration
    that succeeds has made exactly these tables; and with no failure to come
    it succeeds, from any earlier version whose fallback tokens are distinct. *)
Theorem migrate_resumes (db : File) :
  meaning (migrate db).2 = meaning db ∧
  ((migrate db).1 = inr tt → f_tables (migrate db).2 = meaning db) ∧
  (f_faults db = [] → NoDup (fallback_tokens (t_users (meaning db))) →
   (migrate db).1 = inr tt ∧ f_tables (migrate (migrate db).2).2 = meaning db).
Proof.
  destruct (keeping_migrate db) as [Hm _]. unfold id in Hm. split; [done|].
  assert (Hs : ∀ d, (migrate d).1 = inr tt → f_tables (migrate d).2 = meaning d).
  { intros d Hok. destruct (keeping_migrate d) as [Hd _]. unfold id in Hd. rewrite <- Hd. symmetry.
    apply (meaning_progress (reverse all_columns)); [set_solver|].
    destruct (migrate d) as [r d'] eqn:E. simpl in Hok. subst r. by apply (leads_migrate _ _ _ E). }
  split; [apply Hs|]. intros Hf Hn. destruct (runs_migrate db) as (d1 & E1 & R1); [done|].
  rewrite E1 in *. simpl in *. split; [done|]. rewrite <- Hm.
  assert (R1' : ready false d1) by (destruct R1 as (? & ? & ?); split; [done|by split]).
  destruct (runs_migrate d1 R1') as (d2 & E2 & _). rewrite E2. simpl.
  pose proof (Hs d1) as H2. rewrite E2 in H2. by apply H2.
Qed.

(** A file of the first version, with two users, one whose e-mail is blank; the
    fourth statement fails. The next start finishes the migration. *)
Definition first_version : Tables :=
  with_users [mkUserRow 1 "alice" "junk" "tok-a" (Some "x") (Some 5%Z) 1 "?" 0 10 10;
              mkUserRow 2 "bob" "" "tok-b" (Some "x") None 0 "?" 7 20 20] 2 empty_tables.
Definition upgraded : Tables :=
  with_users [mkUserRow 1 "alice" "alice" "tok-a" None None 1 "[]" 1 10 10;
              mkUserRow 2 "bob" "bob" "tok-b" None None 0 "[]" 1 20 20] 2 empty_tables.
Lemma migrate_resumes_witness :
  (migrate (mkFile first_version [] [false; false; false; true])).1 = inl io_error ∧
  meaning (migrate (mkFile first_version [] [false; false; false; true])).2 = upgraded ∧
  (migrate (mkFile first_version [] [])).1 = inr tt ∧
  f_tables (migrate (mkFile first_version [] [])).2 = upgraded.
Proof.
  assert (Hn : NoDup (fallback_tokens (t_users (meaning (mkFile first_version [] []))))).
  { apply (bool_decide_unpack _). vm_compute. exact I. }
  split; [by vm_compute|].
  destruct (migrate_resumes (mkFile first_version [] [false; false; false; true])) as [Hm _].
  destruct (migrate_resumes (mkFile first_version [] [])) as (_ & Hs & Hr).
  destruct (Hr eq_refl Hn) as [Hok _]. split; [exact Hm|]. split; [exact Hok|]. exact (Hs Hok).
Defined.
