(* ===== verification/DatabaseFacts.v ===== *)
(** * What the data-access layer guarantees

    The invariant of the tables under every method, failing ones included, and
    the functional behaviour of the methods the rest of the program relies on. *)

From S2P Require Import Prelude GoString Json JsonDecode Models Schema Database.

(** ** The invariant *)

Definition db_ok (db : DB) : Prop := wf_tables (db_tables db).

Lemma preserves_Exec {A} (f : Tables → error + (A * Tables)) :
  (∀ t a t', wf_tables t → f t = inr (a, t') → wf_tables t') → preserves db_ok (Exec f).
Proof.
  intros Hf db Hdb. unfold Exec, db_ok in *.
  destruct (db_faults db) as [|[] fs]; simpl; [|done|];
    (destruct (f (db_tables db)) as [e|[a t']] eqn:E; simpl; [done|by eapply Hf]).
Qed.

Lemma preserves_Query {A} (q : Tables → A) : preserves db_ok (Query q).
Proof. apply preserves_Exec. by intros t a t' H [= _ <-]. Qed.

(** A query that answers, answers about the tables. *)
Lemma Query_inr {A} (q : Tables → A) db a db' :
  Query q db = (inr a, db') → a = q (db_tables db) ∧ db_tables db' = db_tables db.
Proof. unfold Query, Exec. destruct (db_faults db) as [|[] ?]; intros; by simplify_eq. Qed.

Lemma preserves_Run f : (∀ t, wf_tables t → wf_tables (f t)) → preserves db_ok (Run f).
Proof. intros H. apply preserves_Exec. intros t a t' Ht [= <- <-]. auto. Qed.

Lemma preserves_of_result {A} (r : error + A) : preserves db_ok (of_result r).
Proof. destruct r; [apply preserves_fail|apply preserves_ret]. Qed.

Lemma preserves_wrap {A} msg (m : M DB A) : preserves db_ok m → preserves db_ok (wrap msg m).
Proof. intros H db Hdb. unfold wrap. specialize (H db Hdb). by destruct (m db) as [[e|a] db']. Qed.

Lemma preserves_transaction m : preserves db_ok m → preserves db_ok (transaction m).
Proof.
  intros Hm. apply preserves_bind; [apply preserves_Query|]. intros _ db Hdb.
  assert (H : preserves db_ok (m;;; Query (λ _, tt)))
    by (apply preserves_bind; [done|intros; apply preserves_Query]).
  specialize (H db Hdb). by destruct ((m;;; Query (λ _, tt)) db) as [[e|[]] db'].
Qed.

#[export] Hint Resolve preserves_Query preserves_of_result preserves_wrap preserves_transaction : raven.

(** *** Writing one table keeps the invariant *)

Ltac wf_fields H := destruct H; constructor; simpl; try assumption.

(** A key column kept by an update, or cut down by a delete. *)
Lemma sub_fmap {R B} (g : R → B) (l l' : list R) x :
  (∀ r, r ∈ l → ∃ r', r' ∈ l' ∧ g r' = g r) → x ∈ g <$> l → x ∈ g <$> l'.
Proof.
  intros H (r & -> & Hr)%list_elem_of_fmap. destruct (H r Hr) as (r' & Hr' & <-).
  by apply list_elem_of_fmap_2.
Qed.

Lemma kept_fmap {R B} `{EqDecision B} (g : R → B) (p : R → bool) (l : list R) (b : B) :
  b ∈ g <$> l → (∀ r, r ∈ l → g r = b → p r = false) → b ∈ g <$> delete_rows p l.
Proof.
  intros (r & -> & Hr)%list_elem_of_fmap H.
  apply list_elem_of_fmap_2, elem_of_delete_rows. auto.
Qed.

Lemma wf_with_users us sq t :
  wf_tables t → users_violation us = None → (seq_users t ≤ sq)%Z → NoDup (ur_id <$> us) →
  (∀ u, u ∈ us → (1 ≤ ur_id u ≤ sq)%Z) →
  (∀ u, u ∈ us → ur_enabled u ∈ [0; 1]%Z ∧ ur_hy2_enabled u ∈ [0; 1]%Z) →
  (∀ c, c ∈ t_user_clients t → uc_user_id c ∈ ur_id <$> us) →
  (∀ un, un ∈ t_user_nodes t → un.1 ∈ ur_id <$> us) →
  wf_tables (with_users us sq t).
Proof.
  intros Hwf (Hn & Ht & Hf)%users_violation_None Hsq Hid Hseq Hbits Hc Hu.
  wf_fields Hwf; auto. lia.
Qed.

Lemma wf_with_inbounds ibs sq t :
  wf_tables t → (seq_inbounds t ≤ sq)%Z → NoDup (Inbound_ID <$> ibs) →
  (∀ i, i ∈ ibs → (1 ≤ Inbound_ID i ≤ sq)%Z) → NoDup (Inbound_Tag <$> ibs) →
  (∀ c, c ∈ t_user_clients t → uc_inbound_id c ∈ Inbound_ID <$> ibs) →
  wf_tables (with_inbounds ibs sq t).
Proof. intros Hwf Hsq Hid Hseq Htag Hc. wf_fields Hwf; auto. lia. Qed.

Lemma wf_with_user_clients ucs sq t :
  wf_tables t → (seq_user_clients t ≤ sq)%Z → NoDup (uc_id <$> ucs) →
  (∀ c, c ∈ ucs → (1 ≤ uc_id c ≤ sq)%Z) →
  NoDup ((λ c, (uc_user_id c, uc_inbound_id c)) <$> ucs) →
  (∀ c, c ∈ ucs → uc_user_id c ∈ ur_id <$> t_users t) →
  (∀ c, c ∈ ucs → uc_inbound_id c ∈ Inbound_ID <$> t_inbounds t) →
  (∀ c, c ∈ ucs → uc_enabled c ∈ [0; 1]%Z) →
  wf_tables (with_user_clients ucs sq t).
Proof. intros Hwf Hsq. intros. wf_fields Hwf; auto. lia. Qed.

Lemma wf_with_settings m t : wf_tables t → wf_tables (with_settings m t).
Proof. intros Hwf. wf_fields Hwf. Qed.

Lemma wf_with_profiles ps sq t :
  wf_tables t → (seq_profiles t ≤ sq)%Z → NoDup (pr_id <$> ps) →
  (∀ p, p ∈ ps → (1 ≤ pr_id p ≤ sq)%Z) → NoDup (pr_name <$> ps) →
  wf_tables (with_profiles ps sq t).
Proof. intros Hwf Hsq. intros. wf_fields Hwf; auto. lia. Qed.

Lemma wf_with_nodes ns sq t :
  wf_tables t → (seq_nodes t ≤ sq)%Z → NoDup (nr_id <$> ns) →
  (∀ n, n ∈ ns → (1 ≤ nr_id n ≤ sq)%Z) → NoDup (nr_name <$> ns) →
  (∀ n, n ∈ ns → nr_enabled n ∈ [0; 1]%Z) →
  (∀ un, un ∈ t_user_nodes t → un.2 ∈ nr_id <$> ns) →
  wf_tables (with_nodes ns sq t).
Proof. intros Hwf Hsq. intros. wf_fields Hwf; auto. lia. Qed.

Lemma wf_with_user_nodes un t :
  wf_tables t → NoDup un → (∀ x, x ∈ un → x.1 ∈ ur_id <$> t_users t) →
  (∀ x, x ∈ un → x.2 ∈ nr_id <$> t_nodes t) → wf_tables (with_user_nodes un t).
Proof. intros Hwf. intros. wf_fields Hwf; auto. Qed.

(** *** The same for the two common statements *)

Lemma wf_update_user_clients p f t :
  wf_tables t → (∀ c, uc_id (f c) = uc_id c) → (∀ c, uc_user_id (f c) = uc_user_id c) →
  (∀ c, uc_inbound_id (f c) = uc_inbound_id c) →
  (∀ c, uc_enabled c ∈ [0; 1]%Z → uc_enabled (f c) ∈ [0; 1]%Z) →
  wf_tables (with_user_clients (update_rows p f (t_user_clients t)) (seq_user_clients t) t).
Proof.
  intros Hwf H1 H2 H3 H4. apply wf_with_user_clients; [done|lia|..].
  - rewrite update_rows_fmap by auto. apply Hwf.
  - intros x (c & Hc & ->)%elem_of_update_rows. case_if; rewrite ?H1; by apply Hwf.
  - rewrite update_rows_fmap by (intros; by rewrite H2, H3). apply Hwf.
  - intros x (c & Hc & ->)%elem_of_update_rows. case_if; rewrite ?H2; by apply Hwf.
  - intros x (c & Hc & ->)%elem_of_update_rows. case_if; rewrite ?H3; by apply Hwf.
  - intros x (c & Hc & ->)%elem_of_update_rows. case_if; [apply H4|]; by apply Hwf.
Qed.

Lemma wf_delete_user_clients p t :
  wf_tables t →
  wf_tables (with_user_clients (delete_rows p (t_user_clients t)) (seq_user_clients t) t).
Proof.
  intros Hwf. apply wf_with_user_clients; [done|lia|..];
    try (apply NoDup_delete_rows; apply Hwf);
    intros x [_ Hx]%elem_of_delete_rows; by apply Hwf.
Qed.

Lemma wf_delete_user_nodes p t :
  wf_tables t → wf_tables (with_user_nodes (delete_rows p (t_user_nodes t)) t).
Proof.
  intros Hwf. apply wf_with_user_nodes; [done|apply NoDup_bfilter, Hwf|..];
    intros x [_ Hx]%elem_of_delete_rows; by apply Hwf.
Qed.

(** *** Every method keeps it *)

Lemma preserves_write_users {A} (f : Tables → A * list user_row * Z) :
  (∀ t, wf_tables t → users_violation (f t).1.2 = None →
        wf_tables (with_users (f t).1.2 (f t).2 t)) →
  preserves db_ok (write_users f).
Proof.
  intros Hf. apply preserves_Exec. intros t a t' Hwf H. specialize (Hf t Hwf).
  destruct (f t) as [[a' us] sq]. simpl in *. unfold enforce in H.
  destruct (users_violation us); [done|]. injection H as <- <-. auto.
Qed.

Lemma preserves_update_user userID f :
  (∀ r, ur_id (f r) = ur_id r) →
  (∀ r, ur_enabled r ∈ [0; 1]%Z ∧ ur_hy2_enabled r ∈ [0; 1]%Z →
        ur_enabled (f r) ∈ [0; 1]%Z ∧ ur_hy2_enabled (f r) ∈ [0; 1]%Z) →
  preserves db_ok (update_user userID f).
Proof.
  intros Hid Hbits. apply preserves_write_users. simpl. intros t Hwf Hv.
  assert (Hids : ur_id <$> update_rows (λ r, Z.eqb (ur_id r) userID) f (t_users t)
                 = ur_id <$> t_users t) by (apply update_rows_fmap; auto).
  pose proof (wf_user_seq _ Hwf) as Hs. pose proof (wf_user_bits _ Hwf) as Hb.
  apply wf_with_users; [done|done|lia| | | | |]; rewrite ?Hids; try apply Hwf;
    intros u (r & Hr & ->)%elem_of_update_rows; case_if; rewrite ?Hid; auto.
Qed.

Lemma boolInt_bit b : boolInt b ∈ [0; 1]%Z.
Proof. destruct b; set_solver. Qed.
#[export] Hint Resolve boolInt_bit : raven.

Lemma preserves_CreateUser now u e tk f : preserves db_ok (CreateUser now u e tk f).
Proof.
  apply preserves_bind; [|intros; apply preserves_ret].
  apply preserves_write_users. cbn [fst snd]. intros t Hwf Hv.
  apply wf_with_users; [done|done|lia| | | | |].
  - eapply NoDup_snoc_fresh; [apply Hwf..|done].
  - apply seq_snoc_fresh; [apply Hwf..|done].
  - intros r [Hr|Hr]%elem_of_app; [by apply Hwf|]. apply list_elem_of_singleton in Hr as ->.
    simpl. split; set_solver.
  - intros c Hc. rewrite fmap_app, elem_of_app. left. by apply Hwf.
  - intros c Hc. rewrite fmap_app, elem_of_app. left. by apply Hwf.
Qed.

Lemma wf_delete_user id t : wf_tables t → wf_tables (delete_user_rows id t).
Proof.
  intros Hwf. change (delete_user_rows id t) with
    (let t' := with_user_nodes (delete_rows (λ un, Z.eqb un.1 id) (t_user_nodes t))
      (with_user_clients (delete_rows (λ c, Z.eqb (uc_user_id c) id) (t_user_clients t))
        (seq_user_clients t) t) in
     with_users (delete_rows (λ r, Z.eqb (ur_id r) id) (t_users t')) (seq_users t') t').
  cbv zeta. apply wf_with_users; simpl.
  - apply (wf_delete_user_nodes _ (with_user_clients _ _ t)). by apply wf_delete_user_clients.
  - apply users_violation_None. split_and!; try (apply NoDup_delete_rows; apply Hwf).
    eapply sublist_NoDup; [apply (wf_fallback _ Hwf)|]. apply sublist_omap, delete_rows_sublist.
  - lia.
  - apply NoDup_delete_rows, Hwf.
  - intros u [_ Hu]%elem_of_delete_rows. by apply Hwf.
  - intros u [_ Hu]%elem_of_delete_rows. by apply Hwf.
  - intros c [Hc Hin]%elem_of_delete_rows. apply kept_fmap; [apply Hwf, Hin|]. by intros r _ ->.
  - intros c [Hc Hin]%elem_of_delete_rows. apply kept_fmap; [apply Hwf, Hin|]. by intros r _ ->.
Qed.

Lemma wf_upsert_inbound now tag p port f raw t :
  wf_tables t → wf_tables (upsert_inbound_rows now tag p port f raw t).
Proof.
  intros Hwf. unfold upsert_inbound_rows. case_if; apply wf_with_inbounds; try done; try lia.
  - rewrite update_rows_fmap by done. apply Hwf.
  - intros i (r & Hr & ->)%elem_of_update_rows. case_if; simpl; by apply Hwf.
  - rewrite update_rows_fmap; [apply Hwf|]. done.
  - intros c Hc. rewrite update_rows_fmap by done. by apply Hwf.
  - eapply NoDup_snoc_fresh; [apply Hwf..|done].
  - apply seq_snoc_fresh; [apply Hwf..|done].
  - apply NoDup_snoc_key; [apply Hwf|]. intros x Hx Heq. simpl in Heq.
    apply not_true_iff_false in Heqb. apply Heqb. apply existsb_exists.
    exists x. split; [by apply list_elem_of_In|by apply String.eqb_eq].
  - intros c Hc. rewrite fmap_app, elem_of_app. left. by apply Hwf.
Qed.

Lemma wf_delete_inbounds p t : wf_tables t → wf_tables (delete_inbound_rows p t).
Proof.
  intros Hwf. unfold delete_inbound_rows.
  set (q := λ c, bool_decide (uc_inbound_id c ∈ Inbound_ID <$> bfilter p (t_inbounds t))).
  apply (wf_with_inbounds (delete_rows p (t_inbounds t)) (seq_inbounds t)
    (with_user_clients (delete_rows q (t_user_clients t)) (seq_user_clients t) t)); simpl.
  - by apply wf_delete_user_clients.
  - lia.
  - apply NoDup_delete_rows, Hwf.
  - intros i [_ Hi]%elem_of_delete_rows. by apply Hwf.
  - apply NoDup_delete_rows, Hwf.
  - intros c [Hc Hin]%elem_of_delete_rows. apply kept_fmap; [by apply Hwf|].
    intros i Hi Heq. unfold q in Hc. apply bool_decide_eq_false in Hc.
    destruct (p i) eqn:E; [|done]. destruct Hc. rewrite <- Heq.
    apply list_elem_of_fmap_2. by apply elem_of_bfilter.
Qed.

Lemma wf_upsert_uc u i cfg t t' :
  wf_tables t → upsert_uc_rows u i cfg t = inr (tt, t') → wf_tables t'.
Proof.
  intros Hwf. unfold upsert_uc_rows. repeat case_if; [done| |]; intros [= <-].
  - by apply wf_update_user_clients.
  - bool_simp. apply wf_with_user_clients; [done|lia|..].
    + eapply NoDup_snoc_fresh; [apply Hwf..|done].
    + apply seq_snoc_fresh; [apply Hwf..|done].
    + apply NoDup_snoc_key; [apply Hwf|]. intros x Hx [=].
      apply not_true_iff_false in Heqb0. apply Heqb0. apply existsb_exists. exists x.
      split; [by apply list_elem_of_In|]. unfold uc_key. by rewrite !(proj2 (Z.eqb_eq _ _)).
    + intros c [Hc|Hc%list_elem_of_singleton]%elem_of_app; [by apply Hwf|by subst].
    + intros c [Hc|Hc%list_elem_of_singleton]%elem_of_app; [by apply Hwf|by subst].
    + intros c [Hc|Hc%list_elem_of_singleton]%elem_of_app; [by apply Hwf|subst; simpl; set_solver].
Qed.

Lemma wf_write_profiles {A} (f : Tables → A * list profile_row * Z) :
  (∀ t, wf_tables t → (seq_profiles t ≤ (f t).2)%Z ∧ NoDup (pr_id <$> (f t).1.2) ∧
        (∀ p, p ∈ (f t).1.2 → (1 ≤ pr_id p ≤ (f t).2)%Z)) →
  preserves db_ok (write_profiles f).
Proof.
  intros Hf. apply preserves_Exec. intros t a t' Hwf H. specialize (Hf t Hwf).
  destruct (f t) as [[a' ps] sq]. simpl in *. unfold enforce in H.
  destruct (profiles_violation ps) eqn:E; [done|]. injection H as <- <-.
  unfold profiles_violation in E. case_if; [done|]. bool_simp.
  apply wf_with_profiles; by try apply Hf.
Qed.

Lemma preserves_CreateProfile now n d tags : preserves db_ok (CreateEmergencyProfile now n d tags).
Proof.
  apply preserves_bind; [|intros; apply preserves_ret]. apply wf_write_profiles. cbn [fst snd].
  intros t Hwf. split_and!; [lia| |].
  - eapply NoDup_snoc_fresh; [apply Hwf..|done].
  - apply seq_snoc_fresh; [apply Hwf..|done].
Qed.

Lemma preserves_UpdateProfile now id n d tags :
  preserves db_ok (UpdateEmergencyProfile now id n d tags).
Proof.
  apply preserves_bind; [|intros; apply preserves_ret]. apply wf_write_profiles. cbn [fst snd].
  intros t Hwf. split_and!; [lia| |].
  - rewrite update_rows_fmap by done. apply Hwf.
  - intros p (r & Hr & ->)%elem_of_update_rows. case_if; simpl; by apply Hwf.
Qed.

Lemma wf_delete_profiles p t :
  wf_tables t → wf_tables (with_profiles (delete_rows p (t_profiles t)) (seq_profiles t) t).
Proof.
  intros Hwf. apply wf_with_profiles; [done|lia|..]; try (apply NoDup_delete_rows; apply Hwf).
  intros x [_ Hx]%elem_of_delete_rows. by apply Hwf.
Qed.

Lemma wf_update_nodes p f t :
  wf_tables t → (∀ r, nr_id (f r) = nr_id r) → (∀ r, nr_name (f r) = nr_name r) →
  (∀ r, nr_enabled (f r) ∈ [0; 1]%Z) →
  wf_tables (with_nodes (update_rows p f (t_nodes t)) (seq_nodes t) t).
Proof.
  intros Hwf Hid Hn Hb. apply wf_with_nodes; [done|lia|..]; rewrite ?update_rows_fmap by auto;
    try apply Hwf; intros x (r & Hr & ->)%elem_of_update_rows; case_if; rewrite ?Hid; auto;
    by apply Hwf.
Qed.

Lemma wf_upsert_node now n t : wf_tables t → wf_tables (upsert_node_rows now n t).
Proof.
  intros Hwf. unfold upsert_node_rows. case_if.
  { apply wf_update_nodes; auto with raven. simpl. auto with raven. }
  apply wf_with_nodes; [done|lia|..].
  - eapply NoDup_snoc_fresh; [apply Hwf..|done].
  - apply seq_snoc_fresh; [apply Hwf..|done].
  - apply NoDup_snoc_key; [apply Hwf|]. intros x Hx Heq. simpl in Heq.
    apply not_true_iff_false in Heqb. apply Heqb. apply existsb_exists.
    exists x. split; [by apply list_elem_of_In|by apply String.eqb_eq].
  - intros r [Hr|Hr%list_elem_of_singleton]%elem_of_app; [by apply Hwf|subst; simpl].
    auto with raven.
  - intros c Hc. rewrite fmap_app, elem_of_app. left. by apply Hwf.
Qed.

Lemma wf_insert_user_node u n t t' :
  wf_tables t → insert_user_node u n t = inr (tt, t') → wf_tables t'.
Proof.
  intros Hwf. unfold insert_user_node. repeat case_if; try done; intros [= <-]; [done|].
  bool_simp. apply wf_with_user_nodes; [done|..].
  - apply NoDup_app. split; [apply Hwf|]. split; [|apply NoDup_singleton].
    intros x Hx ->%list_elem_of_singleton. done.
  - intros x [Hx|Hx%list_elem_of_singleton]%elem_of_app; [by apply Hwf|by subst].
  - intros x [Hx|Hx%list_elem_of_singleton]%elem_of_app; [by apply Hwf|by subst].
Qed.

Lemma elem_of_backfill_pairs t u n :
  (u, n) ∈ backfill_pairs t ↔
  (u ∈ ur_id <$> t_users t ∧ ¬ (∃ m, (u, m) ∈ t_user_nodes t)) ∧
  (∃ r, r ∈ t_nodes t ∧ nr_id r = n ∧ nr_enabled r = 1%Z).
Proof.
  unfold backfill_pairs. rewrite list_elem_of_bind.
  setoid_rewrite list_elem_of_bind. setoid_rewrite list_elem_of_singleton.
  setoid_rewrite elem_of_bfilter. split.
  - intros (r & (k & [= -> ->] & Hk & Hkin) & Hr & Hrin). split; [split|].
    + by apply list_elem_of_fmap_2.
    + intros [m Hm]. apply negb_true_iff, not_true_iff_false in Hr. apply Hr, existsb_exists.
      exists (ur_id r, m). split; [by apply list_elem_of_In|apply Z.eqb_refl].
    + exists k. split_and!; [done|done|by apply Z.eqb_eq].
  - intros [[(r & -> & Hr)%list_elem_of_fmap Hno] (k & Hk & <- & He)].
    exists r. split; [exists k; split_and!; [done|by apply Z.eqb_eq|done]|]. split; [|done].
    apply negb_true_iff, not_true_iff_false. intros [[a b] [Hin He']]%existsb_exists.
    apply Hno. exists b. apply Z.eqb_eq in He'. simpl in He'. subst. by apply list_elem_of_In.
Qed.

Lemma NoDup_backfill_pairs t : wf_tables t → NoDup (backfill_pairs t).
Proof.
  intros Hwf. unfold backfill_pairs.
  assert (Hn : NoDup (nr_id <$> bfilter (λ n, Z.eqb (nr_enabled n) 1) (t_nodes t)))
    by apply NoDup_fmap_bfilter, Hwf.
  assert (Hu : NoDup (ur_id <$> bfilter (λ u, negb (existsb (λ un, Z.eqb un.1 (ur_id u))
    (t_user_nodes t))) (t_users t))) by apply NoDup_fmap_bfilter, Hwf.
  set (ns := bfilter _ (t_nodes t)) in *. set (us := bfilter _ (t_users t)) in *.
  clearbody ns us. induction us as [|u us IH]; [constructor|].
  rewrite fmap_cons, NoDup_cons in Hu. destruct Hu as [Hu1 Hu2].
  rewrite bind_cons. apply NoDup_app. split_and!; [| |by apply IH].
  - clear -Hn. induction ns as [|n ns IH]; [constructor|].
    rewrite fmap_cons, NoDup_cons in Hn. destruct Hn as [Hn1 Hn2].
    rewrite bind_cons. simpl. apply NoDup_cons. split; [|by apply IH].
    intros (k & H%list_elem_of_singleton & Hk)%list_elem_of_bind. injection H as H.
    apply Hn1. rewrite H. by apply list_elem_of_fmap_2.
  - intros [a b] (k & H%list_elem_of_singleton & Hk)%list_elem_of_bind.
    injection H as -> ->. intros (r & (k' & H%list_elem_of_singleton & _)%list_elem_of_bind & Hr)
      %list_elem_of_bind. injection H as H _. apply Hu1. rewrite H. by apply list_elem_of_fmap_2.
Qed.

Lemma wf_backfill t :
  wf_tables t → wf_tables (with_user_nodes (t_user_nodes t ++ backfill_pairs t) t).
Proof.
  intros Hwf. apply wf_with_user_nodes; [done|..].
  - apply NoDup_app. split_and!; [apply Hwf| |by apply NoDup_backfill_pairs].
    intros [u n] Hx [[_ H] _]%elem_of_backfill_pairs. apply H. by exists n.
  - intros [u n] [Hx|Hx]%elem_of_app; [by apply Hwf|]. by apply elem_of_backfill_pairs in Hx as [[? _] _].
  - intros [u n] [Hx|Hx]%elem_of_app; [by apply Hwf|].
    apply elem_of_backfill_pairs in Hx as [_ (r & Hr & <- & _)].
    by apply (list_elem_of_fmap_2 nr_id).
Qed.

(** ** Reachable states

    Every method of the package that writes, with its arguments. *)

Inductive dbop : Type :=
  | OpCreateUser (now : Z) (username email token fallbackToken : string)
  | OpSetUserHy2Enabled (now userID : Z) (enabled : bool)
  | OpUpdateUserToken (now userID : Z) (token : string)
  | OpUpdateFallbackToken (now userID : Z) (token : string)
  | OpSetFallbackAccessedAt (userID at_ : Z)
  | OpSetUserEnabled (now userID : Z) (enabled : bool)
  | OpUpdateUserClientRoutes (now userID : Z) (routes : string)
  | OpDeleteUser (id : Z)
  | OpSetFallbackEnabled (enabled : bool)
  | OpUpdateGlobalClientRoutes (routes : string)
  | OpSetBalancerRuntimeConfig (cfg : BalancerRuntimeConfig)
  | OpDeleteBalancerRuntimeConfig
  | OpUpsertInbound (now : Z) (tag protocol : string) (port : Z) (file raw : string)
  | OpDeleteInboundsByFile (file : string)
  | OpDeleteInboundByTag (tag : string)
  | OpUpsertUserClient (userID inboundID : Z) (cfg : string)
  | OpSetUserClientEnabled (userID inboundID : Z) (enabled : bool)
  | OpDeleteUserClientsByInbound (inboundID : Z)
  | OpCreateEmergencyProfile (now : Z) (name description : string) (tags : list string)
  | OpUpdateEmergencyProfile (now id : Z) (name description : string) (tags : list string)
  | OpDeleteEmergencyProfile (id : Z)
  | OpActivateEmergency (now id : Z)
  | OpDeactivateEmergency
  | OpUpsertNode (now : Z) (n : Node)
  | OpReconcileNodes (now : Z) (desired : list Node)
  | OpBackfill
  | OpAssignUserToNodes (userID : Z) (nodeIDs : list Z)
  | OpSetUserNodes (userID : Z) (nodeIDs : list Z)
  | OpRemoveUserFromNode (userID nodeID : Z).

(** A clock that writes whole seconds in decimal, to evaluate the definitions. *)
Definition DecimalClock : Clock.
Proof.
  refine {| FormatRFC3339 t := Itoa (t / 1000000000);
            ParseRFC3339 s := (λ z, z * 1000000000)%Z <$> Atoi s |}.
  intros t [H1 H2]. rewrite Atoi_Itoa.
  - simpl. f_equal. pose proof (Z.div_mod t 1000000000 ltac:(lia)). lia.
  - unfold int64_ok. apply andb_true_iff.
    pose proof (Z.div_mod t 1000000000 ltac:(lia)). pose proof (Z.mod_pos_bound t 1000000000 ltac:(lia)).
    split; [apply Z.leb_le|apply Z.ltb_lt]; lia.
Defined.

Section Reachable.
Context `{Clock}.

Definition run_op (op : dbop) : M DB () :=
match op with
| OpCreateUser now u e t f => CreateUser now u e t f ;;; ret tt
| OpSetUserHy2Enabled now u b => SetUserHy2Enabled now u b
| OpUpdateUserToken now u t => UpdateUserToken now u t
| OpUpdateFallbackToken now u t => UpdateFallbackToken now u t
| OpSetFallbackAccessedAt u a => SetFallbackAccessedAt u a
| OpSetUserEnabled now u b => SetUserEnabled now u b
| OpUpdateUserClientRoutes now u r => UpdateUserClientRoutes now u r
| OpDeleteUser u => DeleteUser u
| OpSetFallbackEnabled b => SetFallbackEnabled b
| OpUpdateGlobalClientRoutes r => UpdateGlobalClientRoutes r
| OpSetBalancerRuntimeConfig c => SetBalancerRuntimeConfig c
| OpDeleteBalancerRuntimeConfig => DeleteBalancerRuntimeConfig
| OpUpsertInbound now tag p port f raw => UpsertInbound now tag p port f raw ;;; ret tt
| OpDeleteInboundsByFile f => DeleteInboundsByFile f
| OpDeleteInboundByTag tag => DeleteInboundByTag tag
| OpUpsertUserClient u i c => UpsertUserClient u i c
| OpSetUserClientEnabled u i b => SetUserClientEnabled u i b
| OpDeleteUserClientsByInbound i => DeleteUserClientsByInbound i
| OpCreateEmergencyProfile now n d tags => CreateEmergencyProfile now n d tags ;;; ret tt
| OpUpdateEmergencyProfile now id n d tags => UpdateEmergencyProfile now id n d tags ;;; ret tt
| OpDeleteEmergencyProfile id => DeleteEmergencyProfile id
| OpActivateEmergency now id => ActivateEmergency now id
| OpDeactivateEmergency => DeactivateEmergency
| OpUpsertNode now n => UpsertNode now n ;;; ret tt
| OpReconcileNodes now d => ReconcileNodes now d
| OpBackfill => BackfillUserNodesToEnabled
| OpAssignUserToNodes u ns => AssignUserToNodes u ns
| OpSetUserNodes u ns => SetUserNodes u ns
| OpRemoveUserFromNode u n => RemoveUserFromNode u n
end.

(** One call, any of whose statements may fail. *)
Inductive db_step (t t' : Tables) : Prop :=
| db_step_op op faults (_ : t' = db_tables (run_op op (mkDB t faults)).2).
Definition db_reachable : Tables → Prop := rtc db_step empty_tables.

Lemma preserves_UpsertNode now n : preserves db_ok (UpsertNode now n).
Proof.
apply preserves_bind; [apply preserves_Run; intros; by apply wf_upsert_node|].
intros _. apply preserves_bind; [auto with raven|]. intros [id|]; simpl; auto with raven.
Qed.

Lemma preserves_insert_user_nodes u ns :
preserves db_ok (for_each ns (λ nid, Exec (insert_user_node u nid))).
Proof.
apply preserves_for. intros nid _. apply preserves_Exec.
intros t [] t' Hwf. by apply wf_insert_user_node.
Qed.

Lemma preserves_ReconcileNodes now d : preserves db_ok (ReconcileNodes now d).
Proof.
apply preserves_bind.
{ apply preserves_for. intros n _. apply preserves_bind; [|auto with raven].
  apply preserves_wrap, preserves_UpsertNode. }
intros _. apply preserves_bind; [apply preserves_Query|]. intros ns.
apply preserves_for. intros n _. case_if; [auto with raven|]. apply preserves_wrap, preserves_Run.
intros t Hwf. apply wf_update_nodes; try done. simpl. set_solver.
Qed.

Lemma preserves_put_setting k v : preserves db_ok (put_setting k v).
Proof. apply preserves_Run. intros t. apply wf_with_settings. Qed.
Hint Resolve preserves_put_setting : raven.

Lemma preserves_run_op op : preserves db_ok (run_op op).
Proof.
destruct op; simpl;
  lazymatch goal with
  | |- preserves _ (CreateUser _ _ _ _ _ ;;; _) =>
      apply preserves_bind; [apply preserves_CreateUser|auto with raven]
  | |- preserves _ (DeleteUser _) => apply preserves_Run; intros; by apply wf_delete_user
  | |- preserves _ (UpsertInbound _ _ _ _ _ _ ;;; _) => idtac
  | |- preserves _ (DeleteInboundsByFile _) => apply preserves_Run, wf_delete_inbounds
  | |- preserves _ (DeleteInboundByTag _) => apply preserves_Run, wf_delete_inbounds
  | |- preserves _ (UpsertUserClient _ _ _) => 
      apply preserves_Exec; intros t [] t'; apply wf_upsert_uc
  | |- preserves _ (SetUserClientEnabled _ _ _) =>
      apply preserves_Run; intros; apply wf_update_user_clients; auto with raven
  | |- preserves _ (DeleteUserClientsByInbound _) =>
      apply preserves_Run, wf_delete_user_clients
  | |- preserves _ (DeleteEmergencyProfile _) => apply preserves_Run, wf_delete_profiles
  | |- preserves _ (ReconcileNodes _ _) => apply preserves_ReconcileNodes
  | |- preserves _ (UpsertNode _ _ ;;; _) =>
      apply preserves_bind; [apply preserves_UpsertNode|auto with raven]
  | |- preserves _ BackfillUserNodesToEnabled => apply preserves_Run, wf_backfill
  | |- preserves _ (AssignUserToNodes _ _) => apply preserves_insert_user_nodes
  | |- preserves _ (SetUserNodes _ _) => apply preserves_transaction, preserves_bind;
      [apply preserves_Run; intros; by apply wf_delete_user_nodes
      |intros; apply preserves_insert_user_nodes]
  | |- preserves _ (RemoveUserFromNode _ _) => apply preserves_Run, wf_delete_user_nodes
  | |- preserves _ (CreateEmergencyProfile _ _ _ _ ;;; _) =>
      apply preserves_bind; [apply preserves_CreateProfile|auto with raven]
  | |- preserves _ (UpdateEmergencyProfile _ _ _ _ _ ;;; _) =>
      apply preserves_bind; [apply preserves_UpdateProfile|auto with raven]
  | |- preserves _ (ActivateEmergency _ _) => repeat (apply preserves_bind; intros; auto with raven)
  | |- preserves _ DeactivateEmergency => apply preserves_Run; intros; by apply wf_with_settings
  | |- preserves _ DeleteBalancerRuntimeConfig => apply preserves_Run; intros; by apply wf_with_settings
  | |- preserves _ (SetFallbackEnabled _) => apply preserves_put_setting
  | |- preserves _ (UpdateGlobalClientRoutes _) => apply preserves_put_setting
  | |- preserves _ (SetBalancerRuntimeConfig _) => apply preserves_put_setting
  | |- _ => apply preserves_update_user; simpl; try done; try (intros r [? ?]; split; auto with raven)
  end.
- destruct enabled; repeat (apply elem_of_cons; (by left) || right).
- apply preserves_bind; [|auto with raven]. apply preserves_bind.
  { apply preserves_Run. intros. by apply wf_upsert_inbound. }
  intros _. apply preserves_bind; [auto with raven|]. intros [id|]; simpl; auto with raven.
- simpl. auto with raven.
Qed.

(** whatever sequence of data-access calls runs, with any of their SQL
  statements failing, the tables keep every constraint of the schema: ids
  and names are unique, foreign keys resolve, flags are 0 or 1 and the
  AUTOINCREMENT counters bound the ids. *)
Lemma reachable_wf t : db_reachable t → wf_tables t.
Proof.
revert t. refine (rtc_ind_r (R:=db_step) wf_tables empty_tables wf_empty_tables _).
intros t1 t2 _ [op faults ->] Hwf. by apply (preserves_run_op op (mkDB t1 faults)).
Qed.
End Reachable.

Lemma reachable_wf_witness :
  let t := db_tables (@run_op DecimalClock (OpCreateUser 5 " ann " "" "tok" "") (mkDB empty_tables [])).2 in
  length (t_users t) = 1%nat ∧ wf_tables t.
Proof.
  split; [vm_compute; reflexivity|]. apply (@reachable_wf DecimalClock). eapply rtc_once.
  by eapply (db_step_op _ _ (OpCreateUser 5 " ann " "" "tok" "") []).
Defined.
