(* ===== verification/DatabaseProps.v ===== *)
(** * Functional properties of the data-access methods

    What a successful call changes and what it leaves alone. [mkDB t []] is a
    database none of whose statements fails. *)

From S2P Require Import Prelude GoString Json JsonDecode Models Schema Database DatabaseFacts.
From Stdlib Require Import DecimalString.

(** ** Users *)

Lemma find_unique {R B} `{EqDecision B} (g : R → B) (l : list R) (p : R → bool) r :
  NoDup (g <$> l) → r ∈ l → p r = true → (∀ x, p x = true → g x = g r) → List.find p l = Some r.
Proof.
  intros Hd Hr Hp Hu. destruct (List.find p l) as [x|] eqn:E.
  - apply find_Some_iff in E as [Hx Hpx]. f_equal. eapply NoDup_map_inj_on; eauto.
  - rewrite (proj1 (find_None_iff _ _) E r Hr) in Hp. done.
Qed.

Lemma find_delete_rows_None {R} (p q : R → bool) (l : list R) :
  (∀ r, r ∈ l → q r = true → p r = true) → List.find q (delete_rows p l) = None.
Proof.
  intros H. apply find_None_iff. intros r [Hp Hr]%elem_of_delete_rows.
  destruct (q r) eqn:E; [|done]. rewrite (H r Hr E) in Hp. done.
Qed.

(** Giving one row a key nobody has. *)
Lemma NoDup_update_key {R B} (g : R → B) (p : R → bool) (f : R → R) (l : list R) b :
  NoDup (g <$> l) → (∀ x y, x ∈ l → y ∈ l → p x = true → p y = true → g x = g y) →
  (∀ x, g (f x) = b) → (∀ x, x ∈ l → g x ≠ b) → NoDup (g <$> update_rows p f l).
Proof.
  intros Hd Hone Hf Hb. induction l as [|x l IH]; [constructor|].
  rewrite fmap_cons, NoDup_cons in Hd. destruct Hd as [Hx Hd].
  simpl. rewrite NoDup_cons. split.
  - intros (y' & Hy & (y & Hyl & ->)%elem_of_update_rows)%list_elem_of_fmap.
    destruct (p x) eqn:Ex, (p y) eqn:Ey; rewrite ?Hf in Hy.
    + apply Hx. rewrite (Hone x y) by set_solver. by apply list_elem_of_fmap_2.
    + by apply (Hb y); [set_solver|].
    + by apply (Hb x); [set_solver|].
    + apply Hx. rewrite Hy. by apply list_elem_of_fmap_2.
  - apply IH; [done| |]; intros; [apply Hone|apply Hb]; set_solver.
Qed.

Lemma fallback_tokens_update p f l :
  (∀ r, ur_fallback_token (f r) = ur_fallback_token r) →
  fallback_tokens (update_rows p f l) = fallback_tokens l.
Proof.
  intros Hf. unfold fallback_tokens, update_rows. induction l as [|x l IH]; [done|].
  cbn. rewrite <- IH. destruct (p x); by rewrite ?Hf.
Qed.

Lemma GetUserByToken_None t token :
  (∀ r, r ∈ t_users t → ur_token r ≠ token) →
  (GetUserByToken token (mkDB t [])).1 = inr None.
Proof.
  intros H. unfold GetUserByToken, find_user, Query, Exec. simpl.
  rewrite (proj2 (find_None_iff _ _)); [done|]. intros r Hr. by apply String.eqb_neq, H.
Qed.

Lemma GetUserByToken_Some t r :
  NoDup (ur_token <$> t_users t) → r ∈ t_users t →
  (GetUserByToken (ur_token r) (mkDB t [])).1 = inr (Some (scanUser r)).
Proof.
  intros Hd Hr. unfold GetUserByToken, find_user, Query, Exec. simpl.
  rewrite (find_unique ur_token _ _ r); try done; [apply String.eqb_refl|].
  intros x. apply String.eqb_eq.
Qed.

(** the subscription token is the credential: in a reachable state a
    lookup finds exactly the row that carries the token, and after
    [UpdateUserToken] succeeds the old token resolves to nobody and the new
    one to that user, whose other columns and whose client rows are as before. *)
Lemma UpdateUserToken_rotates t now r token :
  wf_tables t → r ∈ t_users t → (∀ x, x ∈ t_users t → ur_token x ≠ token) →
  ∃ t' r', UpdateUserToken now (ur_id r) token (mkDB t []) = (inr tt, mkDB t' [])
    ∧ (GetUserByToken (ur_token r) (mkDB t [])).1 = inr (Some (scanUser r))
    ∧ (GetUserByToken (ur_token r) (mkDB t' [])).1 = inr None
    ∧ (GetUserByToken token (mkDB t' [])).1 = inr (Some (scanUser r'))
    ∧ ur_id r' = ur_id r ∧ ur_username r' = ur_username r ∧ ur_enabled r' = ur_enabled r
    ∧ ur_fallback_token r' = ur_fallback_token r
    ∧ t_user_clients t' = t_user_clients t ∧ t_user_nodes t' = t_user_nodes t.
Proof.
  intros Hwf Hr Hfresh. unfold UpdateUserToken, update_user, write_users, Exec. simpl.
  set (f := λ r0 : user_row, mkUserRow _ _ _ token _ _ _ _ _ _ _).
  set (p := λ r0 : user_row, Z.eqb (ur_id r0) (ur_id r)).
  assert (Hp : ∀ x, x ∈ t_users t → p x = true → x = r).
  { intros x Hx Hpx%Z.eqb_eq. eapply (NoDup_map_inj_on ur_id); eauto. apply Hwf. }
  assert (Hpr : p r = true) by apply Z.eqb_refl.
  assert (Htok : NoDup (ur_token <$> update_rows p f (t_users t))).
  { apply (NoDup_update_key _ _ _ _ token); try done; [apply Hwf|].
    intros x y Hx Hy Ex Ey. by rewrite (Hp x Hx Ex), (Hp y Hy Ey). }
  assert (Hviol : users_violation (update_rows p f (t_users t)) = None).
  { apply users_violation_None. rewrite update_rows_fmap, fallback_tokens_update by done.
    split_and!; [apply Hwf|done|apply Hwf]. }
  rewrite Hviol. simpl. eexists _, (f r). split; [done|].
  split; [apply GetUserByToken_Some; [apply Hwf|done]|].
  split; [apply GetUserByToken_None; simpl|].
  { intros x (y & Hy & ->)%elem_of_update_rows. destruct (p y) eqn:E; simpl.
    - intros Heq. by apply (Hfresh r).
    - intros Heq. assert (y = r) as ->; [|congruence].
      apply (NoDup_map_inj_on ur_token (t_users t)); try done. apply Hwf. }
  split; [|done].
  apply (GetUserByToken_Some _ (f r)); [done|]. apply elem_of_update_rows.
  exists r. by rewrite Hpr.
Qed.

(** A small database the witnesses use: two users, one node, one inbound, ann
    placed on the node with a client. *)
Definition ann_row : user_row := mkUserRow 1 "ann" "" "tok-a" (Some "fb-a") None 1 "[]" 1 10 10.
Definition bob_row : user_row := mkUserRow 2 "bob" "b@x" "tok-b" None None 1 "[]" 1 20 20.
Definition sample : Tables := mkTables [ann_row; bob_row]
  [mkInbound 1 "vless-in" "vless" 443 "a.json" "{}" 5]
  [mkUcRow 1 1 1 "{}" 0] ∅ [] [mkNodeRow 1 "n1" "10.0.0.1:8080" "vless-in" "n1.example" 443 1 7]
  [(1, 1)%Z] 2 1 1 0 1.

Lemma wf_sample_tables : wf_tables sample.
Proof.
  constructor; simpl; decide_closed.
Qed.

Lemma UpdateUserToken_rotates_witness :
  ∃ t' r', UpdateUserToken 30 1 "tok-c" (mkDB sample []) = (inr tt, mkDB t' [])
    ∧ (GetUserByToken "tok-a" (mkDB t' [])).1 = inr None
    ∧ (GetUserByToken "tok-c" (mkDB t' [])).1 = inr (Some (scanUser r')).
Proof.
  destruct (UpdateUserToken_rotates sample 30 ann_row "tok-c") as (t' & r' & H1 & _ & H2 & H3 & _).
  - apply wf_sample_tables.
  - apply list_elem_of_here.
  - decide_closed.
  - by exists t', r'.
Defined.

(** ** Deleting a user *)

(** [DeleteUser] revokes the user everywhere at once: no lookup finds it,
    its client and placement rows are gone, every other row stays, and the
    state keeps the schema's constraints. *)
Lemma DeleteUser_revokes t id :
  ∃ t', DeleteUser id (mkDB t []) = (inr tt, mkDB t' [])
    ∧ (wf_tables t → wf_tables t')
    ∧ (GetUserByID id (mkDB t' [])).1 = inr None
    ∧ (∀ r token, r ∈ t_users t → ur_id r = id → wf_tables t → ur_token r = token →
         (GetUserByToken token (mkDB t' [])).1 = inr None)
    ∧ (GetUserClients id (mkDB t' [])).1 = inr [] ∧ (GetAllUserClients id (mkDB t' [])).1 = inr []
    ∧ (ListNodeIDsForUser id (mkDB t' [])).1 = inr []
    ∧ (∀ r, ur_id r ≠ id → r ∈ t_users t' ↔ r ∈ t_users t)
    ∧ (∀ c, uc_user_id c ≠ id → c ∈ t_user_clients t' ↔ c ∈ t_user_clients t)
    ∧ (∀ u n, u ≠ id → (u, n) ∈ t_user_nodes t' ↔ (u, n) ∈ t_user_nodes t)
    ∧ t_inbounds t' = t_inbounds t ∧ t_nodes t' = t_nodes t.
Proof.
  eexists. split; [reflexivity|]. split; [apply wf_delete_user|].
  assert (Hnone : ∀ (q : uc_row * Inbound → bool), (∀ p, q p = true → uc_user_id p.1 = id) →
    bfilter q (join_clients (delete_user_rows id t)) = []).
  { intros q Hq. apply bfilter_none. intros [c ib] Hc. apply not_true_iff_false. intros E.
    apply Hq in E. simpl in E. unfold join_clients in Hc.
    apply list_elem_of_bind in Hc as (c' & (ib' & [= <- <-]%list_elem_of_singleton & _)%list_elem_of_bind & Hc').
    simpl in Hc'. apply elem_of_delete_rows in Hc' as [Hc' _]. apply Z.eqb_neq in Hc'. done. }
  split_and!; try done.
  - unfold GetUserByID, find_user, Query, Exec. simpl. by rewrite find_delete_rows_None.
  - intros r token Hr Hid Hwf <-. apply GetUserByToken_None. simpl.
    intros x [Hx Hxin]%elem_of_delete_rows Heq. apply Z.eqb_neq in Hx. apply Hx.
    rewrite <- Hid. f_equal. apply (NoDup_map_inj_on ur_token (t_users t)); try done. apply Hwf.
  - unfold GetUserClients, Query, Exec. cbn [fst snd db_faults db_tables]. rewrite Hnone; [done|].
    intros p [E%Z.eqb_eq _]%andb_true_iff. done.
  - unfold GetAllUserClients, Query, Exec. cbn [fst snd db_faults db_tables]. rewrite Hnone; [done|].
    intros p E%Z.eqb_eq. done.
  - unfold ListNodeIDsForUser, Query, Exec. simpl. rewrite bfilter_none; [done|].
    intros un [Hun _]%elem_of_delete_rows. done.
  - intros r Hr. simpl. rewrite elem_of_delete_rows, Z.eqb_neq. tauto.
  - intros r Hr. simpl. rewrite elem_of_delete_rows, Z.eqb_neq. tauto.
  - intros u n Hr. simpl. rewrite elem_of_delete_rows, Z.eqb_neq. tauto.
Qed.

(** ** Client rows *)

Definition uc_at (t : Tables) (u i : Z) : option uc_row := List.find (uc_key u i) (t_user_clients t).

Lemma uc_key_iff u i c : uc_key u i c = true ↔ uc_user_id c = u ∧ uc_inbound_id c = i.
Proof. unfold uc_key. by rewrite andb_true_iff, !Z.eqb_eq. Qed.

Lemma find_update_rows {R} (p q : R → bool) (f : R → R) (l : list R) :
  (∀ r, q (f r) = q r) →
  List.find q (update_rows p f l) = (λ r, if p r then f r else r) <$> List.find q l.
Proof.
  intros H. unfold update_rows. induction l as [|r l IH]; [done|]. simpl.
  destruct (p r) eqn:E; rewrite ?H; destruct (q r); simpl; by rewrite ?E.
Qed.

Lemma find_app {R} (q : R → bool) (l k : list R) :
  List.find q (l ++ k) = match List.find q l with Some r => Some r | None => List.find q k end.
Proof. induction l as [|r l IH]; [done|]. simpl. by destruct (q r). Qed.

(** [UpsertUserClient], which every sync runs for every client of the
    config files, stores the new credential and keeps the [enabled] flag an
    administrator set; a new row starts enabled; no other row changes; an
    unknown user or inbound is an error that changes nothing. *)
Lemma UpsertUserClient_keeps_enabled t u i cfg :
  if bool_decide (u ∈ ur_id <$> t_users t) && bool_decide (i ∈ Inbound_ID <$> t_inbounds t) then
    ∃ t', UpsertUserClient u i cfg (mkDB t []) = (inr tt, mkDB t' [])
      ∧ (∃ c, uc_at t' u i = Some c ∧ uc_client_config c = cfg
          ∧ uc_enabled c = match uc_at t u i with Some c0 => uc_enabled c0 | None => 1%Z end)
      ∧ (∀ u' i', (u', i') ≠ (u, i) → uc_at t' u' i' = uc_at t u' i')
      ∧ t_users t' = t_users t ∧ t_inbounds t' = t_inbounds t
  else UpsertUserClient u i cfg (mkDB t []) = (inl fk_error, mkDB t []).
Proof.
  unfold UpsertUserClient, Exec, upsert_uc_rows. cbn [db_faults db_tables].
  do 2 case_bool_decide; simpl; try done.
  assert (Hex : existsb (uc_key u i) (t_user_clients t) = bool_decide (is_Some (uc_at t u i))).
  { apply eq_true_iff_eq. rewrite bool_decide_eq_true. unfold uc_at.
    destruct (List.find _ _) as [c|] eqn:E.
    - apply find_Some_iff in E as [E1 E2]. rewrite existsb_exists. split; [done|].
      intros _. exists c. split; [by apply list_elem_of_In|done].
    - rewrite existsb_exists. split; [|by intros []]. intros (c & Hc & Hp).
      rewrite (proj1 (find_None_iff _ _) E c) in Hp; [done|by apply list_elem_of_In]. }
  rewrite Hex. case_bool_decide as Hs; eexists; (split; [reflexivity|]); unfold uc_at in *; simpl.
  - destruct Hs as [c Hc]. rewrite Hc, find_update_rows by done. rewrite Hc. simpl.
    apply find_Some_iff in Hc as [_ Hk]. rewrite Hk. split_and!; try done.
    + by eexists.
    + intros u' i' Hne. rewrite find_update_rows by done.
      destruct (List.find (uc_key u' i') _) as [c'|] eqn:E; [|done]. simpl.
      apply find_Some_iff in E as [_ [E1 E2]%uc_key_iff].
      case_if; [|done]. apply uc_key_iff in Heqb as [H1 H2]. congruence.
  - destruct (List.find (uc_key u i) _) as [c|] eqn:E; [by destruct Hs|].
    split_and!; try done.
    + rewrite find_app, E. simpl. unfold uc_key at 1. simpl. rewrite !Z.eqb_refl. by eexists.
    + intros u' i' Hne. rewrite find_app.
      destruct (List.find (uc_key u' i') _) as [c'|] eqn:E'; [done|]. simpl.
      case_if; [|done]. apply uc_key_iff in Heqb as [H1 H2]. simpl in *. congruence.
Qed.

(** ** Placement *)

Lemma with_user_nodes_id t : with_user_nodes (t_user_nodes t) t = t.
Proof. by destruct t. Qed.

(** A statement, failing or not. *)
Lemma Exec_cases {A} (f : Tables → error + (A * Tables)) db :
  (∃ a t, f (db_tables db) = inr (a, t) ∧ Exec f db = (inr a, mkDB t (tail (db_faults db))))
  ∨ (∃ e, Exec f db = (inl e, mkDB (db_tables db) (tail (db_faults db)))).
Proof.
  unfold Exec. destruct (db_faults db) as [|[] fs]; [|by right; eexists|];
    (destruct (f (db_tables db)) as [e|[a t]]; [right; by eexists|left; by eexists _, _]).
Qed.

Lemma insert_user_node_spec u n t t' :
  insert_user_node u n t = inr (tt, t') →
  t' = with_user_nodes (t_user_nodes t') t
  ∧ (∀ x, x ∈ t_user_nodes t' ↔ x ∈ t_user_nodes t ∨ x = (u, n)).
Proof.
  unfold insert_user_node. repeat case_if; try done; intros [= <-]; bool_simp.
  - split; [by rewrite with_user_nodes_id|]. intros x. split; [by left|].
    intros [?| ->]; done.
  - split; [done|]. intros x. simpl. by rewrite elem_of_app, list_elem_of_singleton.
Qed.

Lemma insert_user_nodes_spec u ns db db' :
  for_each ns (λ nid, Exec (insert_user_node u nid)) db = (inr tt, db') →
  db_tables db' = with_user_nodes (t_user_nodes (db_tables db')) (db_tables db)
  ∧ (∀ x, x ∈ t_user_nodes (db_tables db') ↔
          x ∈ t_user_nodes (db_tables db) ∨ (x.1 = u ∧ x.2 ∈ ns)).
Proof.
  revert db. induction ns as [|n ns IH]; intros db; simpl.
  - intros [= <-]. split; [by rewrite with_user_nodes_id|]. intros x.
    rewrite elem_of_nil. tauto.
  - unfold bind. destruct (Exec_cases (insert_user_node u n) db) as [([] & t1 & Hf & ->)|[e ->]]; [|done].
    intros [H1 H2]%IH. apply insert_user_node_spec in Hf as [Ht1 Hm]. simpl in *.
    split; [rewrite H1 at 1; by rewrite Ht1|].
    intros [a b]. rewrite H2, Hm, elem_of_cons. simpl. split.
    + intros [[?|[= -> ->]]|[-> ?]]; auto.
    + intros [?|[-> [->|?]]]; auto.
Qed.

Lemma insert_user_nodes_total u ns t :
  (∀ n, n ∈ ns → u ∈ ur_id <$> t_users t ∧ n ∈ nr_id <$> t_nodes t) →
  ∃ t', for_each ns (λ nid, Exec (insert_user_node u nid)) (mkDB t []) = (inr tt, mkDB t' []).
Proof.
  revert t. induction ns as [|n ns IH]; intros t Hn; [by eexists|].
  simpl. unfold bind, Exec at 1. simpl.
  destruct (insert_user_node u n t) as [e|[[] t1]] eqn:E.
  - exfalso. unfold insert_user_node in E. repeat case_if; try done.
    apply orb_true_iff in Heqb0. rewrite !negb_true_iff in Heqb0.
    destruct Heqb0 as [H|H]; apply bool_decide_eq_false in H; apply H, (Hn n), list_elem_of_here.
  - pose proof (insert_user_node_spec _ _ _ _ E) as [-> _].
    apply IH. intros m Hm. apply Hn. by apply list_elem_of_further.
Qed.

(** [SetUserNodes] is atomic. Whichever of its statements fails, either it
    returns an error and the tables are exactly as before, or the user's
    placement is exactly the given set and nothing else changed. It does
    succeed for a known user and known nodes when no statement fails. *)
Lemma SetUserNodes_atomic t faults u ns :
  let '(r, db') := SetUserNodes u ns (mkDB t faults) in
  (match r with
   | inl _ => db_tables db' = t
   | inr tt => db_tables db' = with_user_nodes (t_user_nodes (db_tables db')) t
       ∧ (∀ n, (u, n) ∈ t_user_nodes (db_tables db') ↔ n ∈ ns)
       ∧ (∀ v n, v ≠ u → (v, n) ∈ t_user_nodes (db_tables db') ↔ (v, n) ∈ t_user_nodes t)
   end)
  ∧ (faults = [] → (∀ n, n ∈ ns → u ∈ ur_id <$> t_users t ∧ n ∈ nr_id <$> t_nodes t) → r = inr tt).
Proof.
  unfold SetUserNodes, transaction. unfold bind at 1.
  destruct (Exec_cases (λ t0, inr (tt, t0)) (mkDB t faults)) as [([] & t1 & [= <-] & Hq)|[e Hq]];
    change (Query (λ _, tt)) with (Exec (λ t0, inr (tt, t0))); rewrite Hq;
    [|split; [done|]; intros ->; by inversion Hq].
  simpl. set (body := bind (Run _) _).
  destruct (bind body (λ _, Exec _) _) as [[e|[]] db'] eqn:Hb; split; try done.
  - intros -> Hn. exfalso.
    destruct (insert_user_nodes_total u ns (with_user_nodes (delete_rows (λ un, Z.eqb un.1 u)
      (t_user_nodes t)) t) Hn) as [t' Ht'].
    assert (E : body (mkDB t []) = (inr tt, mkDB t' [])) by exact Ht'.
    unfold bind at 1 in Hb. simpl in Hb. by rewrite E in Hb.
  - unfold bind at 1 in Hb. destruct (body _) as [[e|[]] db1] eqn:Hbody; [done|].
    assert (db_tables db' = db_tables db1) as ->.
    { destruct (Exec_cases (λ t0, inr (tt, t0)) db1) as [(? & ? & [= <- <-] & H)|[e H]];
        rewrite H in Hb; by inversion Hb. }
    unfold body, bind, Run in Hbody.
    destruct (Exec_cases (λ t, inr (tt, with_user_nodes (delete_rows (λ un, Z.eqb un.1 u)
      (t_user_nodes t)) t)) (mkDB t (tail faults))) as [(? & t2 & [= <- <-] & H)|[e H]];
      simpl in H; rewrite H in Hbody; [|done].
    apply insert_user_nodes_spec in Hbody as [H1 H2]. simpl in *.
    split; [by rewrite H1 at 1|]. setoid_rewrite H2. setoid_rewrite elem_of_delete_rows. simpl.
    setoid_rewrite Z.eqb_neq. split; intros; tauto.
Qed.

(** the start-up backfill gives every unplaced user every enabled node,
    never touches the placement of a user who has one, and running it again
    changes nothing. *)
Lemma Backfill_places_only_unplaced t :
  ∃ t', BackfillUserNodesToEnabled (mkDB t []) = (inr tt, mkDB t' [])
    ∧ t' = with_user_nodes (t_user_nodes t') t
    ∧ (∀ u n, (∃ m, (u, m) ∈ t_user_nodes t) → (u, n) ∈ t_user_nodes t' ↔ (u, n) ∈ t_user_nodes t)
    ∧ (∀ u n, (¬ ∃ m, (u, m) ∈ t_user_nodes t) → (u, n) ∈ t_user_nodes t' ↔
         u ∈ ur_id <$> t_users t ∧ ∃ r, r ∈ t_nodes t ∧ nr_id r = n ∧ nr_enabled r = 1%Z)
    ∧ BackfillUserNodesToEnabled (mkDB t' []) = (inr tt, mkDB t' []).
Proof.
  eexists. split; [reflexivity|]. split; [done|]. split_and!.
  - intros u n Hm. simpl. rewrite elem_of_app, elem_of_backfill_pairs. tauto.
  - intros u n Hm. simpl. rewrite elem_of_app, elem_of_backfill_pairs. split.
    + intros [H|[[? _] ?]]; [|done]. destruct Hm. by exists n.
    + intros [? ?]. by right.
  - set (t' := with_user_nodes (t_user_nodes t ++ backfill_pairs t) t).
    assert (backfill_pairs t' = []) as H; [|unfold BackfillUserNodesToEnabled, Run, Exec; simpl].
    + destruct (backfill_pairs t') as [|[u n] l] eqn:E; [done|]. exfalso.
      assert (Hin : (u, n) ∈ (u, n) :: l) by apply list_elem_of_here. rewrite <- E in Hin.
      apply elem_of_backfill_pairs in Hin as [[Hu Hno] Hn]. simpl in *.
      apply Hno. exists n. rewrite elem_of_app. right. apply elem_of_backfill_pairs.
      split; [split; [done|]|done]. intros [m Hm]. apply Hno. exists m. rewrite elem_of_app. by left.
    + fold t'. by rewrite H, app_nil_r.
Qed.

(** ** Reconciling the node inventory with the configuration *)

Definition node_matches (n : Node) (r : node_row) : Prop :=
  nr_name r = Node_Name n ∧ nr_api_addr r = Node_APIAddr n ∧ nr_inbound_tag r = Node_InboundTag n
  ∧ nr_public_host r = Node_PublicHost n ∧ nr_public_port r = Node_PublicPort n
  ∧ nr_enabled r = boolInt (Node_Enabled n).

(** What writing the nodes [ds] does to the tables. *)
Record upserted (ds : list Node) (t t' : Tables) : Prop := {
  ups_frame : t' = with_nodes (t_nodes t') (seq_nodes t') t;
  ups_match : ∀ n, n ∈ ds → ∃ r, r ∈ t_nodes t' ∧ node_matches n r;
  ups_other : ∀ r, nr_name r ∉ Node_Name <$> ds → r ∈ t_nodes t' ↔ r ∈ t_nodes t;
  ups_kept : ∀ r, r ∈ t_nodes t →
    ∃ r', r' ∈ t_nodes t' ∧ nr_id r' = nr_id r ∧ nr_name r' = nr_name r }.

Lemma upsert_node_spec now n t : upserted [n] t (upsert_node_rows now n t).
Proof.
  unfold upsert_node_rows. destruct (existsb _ _) eqn:E; constructor; simpl; try done.
  - intros m ->%list_elem_of_singleton. apply existsb_exists in E as (r & Hr & Hn).
    eexists. split; [apply elem_of_update_rows; exists r; split;
      [by apply list_elem_of_In|by rewrite Hn]|].
    apply String.eqb_eq in Hn. by repeat split.
  - intros r Hr%not_elem_of_cons. destruct Hr as [Hr _]. rewrite elem_of_update_rows. split.
    + intros (x & Hx & ->). case_if; [|done]. apply String.eqb_eq in Heqb. by simpl in Hr.
    + intros Hin. exists r. by rewrite (proj2 (String.eqb_neq _ _)).
  - intros r Hr. eexists. split; [apply elem_of_update_rows; by exists r|]. by case_if.
  - intros m ->%list_elem_of_singleton. eexists. rewrite elem_of_app, list_elem_of_singleton.
    split; [by right|]. by repeat split.
  - intros r Hr%not_elem_of_cons. destruct Hr as [Hr _].
    rewrite elem_of_app, list_elem_of_singleton. split; [|by left]. intros [?| ->]; [done|].
    by simpl in Hr.
  - intros r Hr. exists r. rewrite elem_of_app. auto.
Qed.

Lemma UpsertNode_run now n t :
  ∃ id, UpsertNode now n (mkDB t []) = (inr id, mkDB (upsert_node_rows now n t) []).
Proof.
  unfold UpsertNode, bind, Run, Query, Exec. simpl.
  destruct (ups_match _ _ _ (upsert_node_spec now n t) n) as (r & Hr & Hm & _); [apply list_elem_of_here|].
  destruct (List.find _ _) as [x|] eqn:E; [by exists (nr_id x)|].
  rewrite find_None_iff in E. specialize (E r Hr). apply String.eqb_neq in E. done.
Qed.

Lemma upserted_nil t : upserted [] t t.
Proof.
  constructor; try done.
  - by destruct t.
  - by intros n ?%elem_of_nil.
  - intros r Hr. by exists r.
Qed.

Lemma upserted_cons n ds t t1 t2 :
  NoDup (Node_Name <$> n :: ds) → upserted [n] t t1 → upserted ds t1 t2 → upserted (n :: ds) t t2.
Proof.
  rewrite fmap_cons, NoDup_cons. intros [Hn _] H1 H2. constructor.
  - rewrite (ups_frame _ _ _ H2) at 1. by rewrite (ups_frame _ _ _ H1).
  - intros m [->|Hm]%elem_of_cons; [|by apply (ups_match _ _ _ H2)].
    destruct (ups_match _ _ _ H1 n) as (r & Hr & Hm); [apply list_elem_of_here|].
    exists r. split; [|done]. apply (ups_other _ _ _ H2); [|done]. destruct Hm as [-> _]. done.
  - intros r Hr. rewrite fmap_cons, not_elem_of_cons in Hr. destruct Hr as [Hr1 Hr2].
    rewrite (ups_other _ _ _ H2), (ups_other _ _ _ H1); [done| |done].
    by apply not_elem_of_cons; split; [|apply not_elem_of_nil].
  - intros r Hr. destruct (ups_kept _ _ _ H1 r Hr) as (r1 & Hr1 & <- & <-).
    by apply (ups_kept _ _ _ H2).
Qed.

Lemma upsert_nodes_run now ds t :
  wf_tables t → NoDup (Node_Name <$> ds) →
  ∃ t', for_each ds (λ n, wrap ("upsert node " +:+ Node_Name n) (UpsertNode now n) ;;; ret tt)
          (mkDB t []) = (inr tt, mkDB t' []) ∧ wf_tables t' ∧ upserted ds t t'.
Proof.
  revert t. induction ds as [|n ds IH]; intros t Hwf Hd.
  { exists t. split; [done|]. split; [done|apply upserted_nil]. }
  destruct (IH (upsert_node_rows now n t)) as (t' & H1 & H2 & H3).
  { by apply wf_upsert_node. }
  { rewrite fmap_cons, NoDup_cons in Hd. apply Hd. }
  exists t'. split; [|split; [done|]].
  - simpl. unfold bind at 1 2, wrap at 1. destruct (UpsertNode_run now n t) as [id ->]. apply H1.
  - eapply upserted_cons; [done|apply upsert_node_spec|done].
Qed.

Definition switched_off (r : node_row) : node_row :=
  mkNodeRow (nr_id r) (nr_name r) (nr_api_addr r) (nr_inbound_tag r)
    (nr_public_host r) (nr_public_port r) 0 (nr_created_at r).

Lemma disable_nodes_run (skip : Node → bool) (msg : Node → error) ns t :
  for_each ns (λ n, if skip n then ret tt else wrap (msg n) (disable_node (Node_ID n))) (mkDB t [])
  = (inr tt, mkDB (with_nodes (update_rows (λ r, existsb (λ n, negb (skip n) && Z.eqb (nr_id r) (Node_ID n)) ns)
       switched_off (t_nodes t)) (seq_nodes t) t) []).
Proof.
  revert t. induction ns as [|n ns IH]; intros t; simpl.
  - unfold ret. do 2 f_equal. unfold update_rows. rewrite map_id. by destruct t.
  - unfold bind. destruct (skip n) eqn:Es; simpl; [by rewrite IH|].
    rewrite IH. simpl. change (with_nodes ?a ?s (with_nodes _ _ t)) with (with_nodes a s t).
    do 3 f_equal. unfold update_rows. rewrite map_map. apply map_ext. intros r.
    destruct (Z.eqb (nr_id r) (Node_ID n)) eqn:E; simpl; [|done].
    by destruct (existsb _ _).
Qed.

(** start-up reconciliation makes the enabled part of the nodes table
    equal to the configuration. Every configured node has a row with the
    configured address, tag, host, port and enabled flag; a row whose name is
    no longer configured is switched off but keeps its id and columns (so the
    placements that refer to it stay valid); no row disappears, and no other
    table changes. Names in the configuration are distinct (it is validated). *)
Lemma ReconcileNodes_correct t now desired :
  wf_tables t → NoDup (Node_Name <$> desired) →
  ∃ t', ReconcileNodes now desired (mkDB t []) = (inr tt, mkDB t' [])
    ∧ t' = with_nodes (t_nodes t') (seq_nodes t') t
    ∧ (∀ n, n ∈ desired → ∃ r, r ∈ t_nodes t' ∧ node_matches n r)
    ∧ (∀ r, r ∈ t_nodes t → nr_name r ∉ Node_Name <$> desired → switched_off r ∈ t_nodes t')
    ∧ (∀ r', r' ∈ t_nodes t' → nr_enabled r' = 1%Z → nr_name r' ∈ Node_Name <$> desired)
    ∧ (∀ r, r ∈ t_nodes t → ∃ r', r' ∈ t_nodes t' ∧ nr_id r' = nr_id r ∧ nr_name r' = nr_name r).
Proof.
  intros Hwf Hd. destruct (upsert_nodes_run now desired t Hwf Hd) as (t1 & H1 & Hwf1 & Hups).
  unfold ReconcileNodes. unfold bind at 1. rewrite H1. unfold bind, ListNodes, Query, Exec.
  cbn [db_faults db_tables tail].
  rewrite (disable_nodes_run (λ n, bool_decide (Node_Name n ∈ Node_Name <$> desired) || negb (Node_Enabled n))
    (λ n, "disable vanished node " +:+ Node_Name n)).
  set (p := λ r, existsb _ _).
  assert (Hp : ∀ r, r ∈ t_nodes t1 →
    p r = negb (bool_decide (nr_name r ∈ Node_Name <$> desired)) && negb (Z.eqb (nr_enabled r) 0)).
  { intros r Hr. apply eq_true_iff_eq. unfold p. rewrite existsb_exists. split.
    - intros (n & Hn & [H2 H3%Z.eqb_eq]%andb_true_iff). apply list_elem_of_In in Hn.
      apply (list_elem_of_fmap scan_node) in Hn as (r2 & -> & Hr2). apply elem_of_stable_sort in Hr2. simpl in *.
      rewrite negb_orb, negb_involutive in H2.
      rewrite (NoDup_map_inj_on nr_id (t_nodes t1) r r2); try done. apply Hwf1.
    - intros H2. exists (scan_node r). split.
      + apply list_elem_of_In. apply (list_elem_of_fmap_2 scan_node). by apply elem_of_stable_sort.
      + simpl. by rewrite negb_orb, negb_involutive, H2, Z.eqb_refl. }
  eexists. split; [reflexivity|]. split; [simpl; by rewrite (ups_frame _ _ _ Hups)|]. simpl. split_and!.
  - intros n Hn. destruct (ups_match _ _ _ Hups n Hn) as (r & Hr & Hm). exists r. split; [|done].
    apply elem_of_update_rows. exists r. split; [done|].
    rewrite Hp by done. rewrite bool_decide_eq_true_2; [done|].
    destruct Hm as [-> _]. by apply list_elem_of_fmap_2.
  - intros r Hr Hno. apply elem_of_update_rows. exists r.
    assert (Hr1 : r ∈ t_nodes t1) by (by apply (ups_other _ _ _ Hups)). split; [done|].
    rewrite Hp by done. rewrite bool_decide_eq_false_2 by done. simpl.
    destruct (Z.eqb_spec (nr_enabled r) 0) as [H0|]; [|done]. unfold switched_off.
    rewrite <- H0. by destruct r.
  - intros r' (r & Hr & ->)%elem_of_update_rows He. rewrite Hp in * by done.
    destruct (bool_decide (nr_name r ∈ _)) eqn:Hb; simpl in *.
    + apply bool_decide_eq_true in Hb. done.
    + destruct (Z.eqb_spec (nr_enabled r) 0); simpl in *; [congruence|done].
  - intros r Hr. destruct (ups_kept _ _ _ Hups r Hr) as (r' & Hr' & Hid & Hn).
    eexists. split; [apply elem_of_update_rows; by exists r'|]. by case_if.
Qed.

Lemma ReconcileNodes_correct_witness :
  ∃ t', ReconcileNodes 9 [mkNode 0 "n2" "10.0.0.2:1" "vless-in" "n2" 443 true 0] (mkDB sample [])
        = (inr tt, mkDB t' [])
    ∧ (∀ r', r' ∈ t_nodes t' → nr_enabled r' = 1%Z → nr_name r' ∈ ["n2"]).
Proof.
  destruct (ReconcileNodes_correct sample 9 [mkNode 0 "n2" "10.0.0.2:1" "vless-in" "n2" 443 true 0])
    as (t' & H1 & _ & _ & _ & H2 & _).
  - apply wf_sample_tables.
  - decide_closed.
  - by exists t'.
Defined.

(** ** Who is served: the enabled-only listings *)

Lemma elem_of_join_users t uc ib u :
  (uc, ib, u) ∈ join_users t ↔
  uc ∈ t_user_clients t ∧ ib ∈ t_inbounds t ∧ u ∈ t_users t
  ∧ uc_inbound_id uc = Inbound_ID ib ∧ uc_user_id uc = ur_id u.
Proof.
  unfold join_users, join_clients. rewrite list_elem_of_bind. split.
  - intros ([uc' ib'] & (u' & H & Hu)%list_elem_of_bind & Hp).
    apply list_elem_of_singleton in H. injection H as -> -> ->.
    apply elem_of_bfilter in Hu as [Hk%Z.eqb_eq Hu].
    apply list_elem_of_bind in Hp as (uc & (ib & H & Hi)%list_elem_of_bind & Huc).
    apply list_elem_of_singleton in H. injection H as -> ->.
    apply elem_of_bfilter in Hi as [Hj%Z.eqb_eq Hi]. simpl in *. auto.
  - intros (Huc & Hib & Hu & H1 & H2). exists (uc, ib). split.
    + apply list_elem_of_bind. exists u. split; [by apply list_elem_of_singleton|].
      apply elem_of_bfilter. split; [by apply Z.eqb_eq|done].
    + apply list_elem_of_bind. exists uc. split; [|done].
      apply list_elem_of_bind. exists ib. split; [by apply list_elem_of_singleton|].
      apply elem_of_bfilter. split; [by apply Z.eqb_eq|done].
Qed.

(** the clients a node is meant to have are exactly those of an enabled
    user placed on that node, with an enabled client row on the node's
    inbound: disabling the user, disabling the row or removing the placement
    takes the client off the list, and nothing else does. *)
Lemma ListWantedClientsForNode_spec t nodeID tag w :
  w ∈ match (ListWantedClientsForNode nodeID tag (mkDB t [])).1 with inr l => l | inl _ => [] end ↔
  ∃ uc ib u, uc ∈ t_user_clients t ∧ ib ∈ t_inbounds t ∧ u ∈ t_users t
    ∧ uc_user_id uc = ur_id u ∧ uc_inbound_id uc = Inbound_ID ib ∧ Inbound_Tag ib = tag
    ∧ ur_enabled u = 1%Z ∧ uc_enabled uc = 1%Z ∧ (ur_id u, nodeID) ∈ t_user_nodes t
    ∧ w = mkWantedClient (ur_email u) (uc_client_config uc).
Proof.
  unfold ListWantedClientsForNode, Query, Exec. cbn [db_faults db_tables fst].
  rewrite list_elem_of_In, in_map_iff. setoid_rewrite <- list_elem_of_In. split.
  - intros ([[uc ib] u] & <- & Hp). apply elem_of_stable_sort, elem_of_bfilter in Hp as [Hc Hp].
    apply elem_of_join_users in Hp as (H1 & H2 & H3 & H4 & H5). bool_simp.
    exists uc, ib, u. split_and!; done.
  - intros (uc & ib & u & H1 & H2 & H3 & H4 & H5 & H6 & H7 & H8 & H9 & ->).
    exists (uc, ib, u). split; [done|]. apply elem_of_stable_sort, elem_of_bfilter. split.
    + rewrite bool_decide_eq_true_2 by done. by rewrite H6, String.eqb_refl, H7, H8.
    + by apply elem_of_join_users.
Qed.

(** ** Emergency mode *)

Lemma digits_prefix_uint d : digits_prefix (NilZero.string_of_uint d) = NilZero.string_of_uint d.
Proof.
  assert (H : ∀ d, digits_prefix (NilEmpty.string_of_uint d) = NilEmpty.string_of_uint d)
    by (induction d0; simpl; congruence).
  destruct d; simpl; by rewrite ?H.
Qed.

Lemma Sscanf_d_Itoa z : int64_ok z = true → Sscanf_d (Itoa z) = Some z.
Proof.
  intros Hz. assert (Hp : ParseInt (Itoa z) = Some z) by by apply Atoi_Itoa.
  unfold Itoa, NilZero.string_of_int in *. destruct (Z.to_int z) as [d|d].
  - pose proof (digits_prefix_uint d) as Hd.
    destruct (string_of_uint_head d) as (c & r & E & Hc). rewrite E in *.
    assert (Sscanf_d (String c r) = ParseInt (digits_prefix (String c r))) as ->; [|by rewrite Hd].
    destruct c as [[] [] [] [] [] [] [] []]; try discriminate Hc; reflexivity.
  - unfold Sscanf_d. simpl. by rewrite digits_prefix_uint.
Qed.

Lemma bind_Query {A B} (q : Tables → A) (k : A → M DB B) t :
  bind (Query q) k (mkDB t []) = k (q t) (mkDB t []).
Proof. done. Qed.
Lemma bind_try_Query {A B} (q : Tables → A) (k : error + A → M DB B) t :
  bind (try (Query q)) k (mkDB t []) = k (inr (q t)) (mkDB t []).
Proof. done. Qed.
Lemma bind_assoc {S A B C} (m : M S A) (f : A → M S B) (g : B → M S C) s :
  bind (bind m f) g s = bind m (λ a, bind (f a) g) s.
Proof. unfold bind. by destruct (m s) as [[e|a] s']. Qed.

Lemma GetEmergencyProfile_pure id t :
  ∃ r, GetEmergencyProfile id (mkDB t []) = (r, mkDB t []).
Proof.
  unfold GetEmergencyProfile. rewrite bind_Query. destruct (List.find _ _) as [p|]; [|by eexists].
  unfold bind, of_result. destruct (scan_profile p); by eexists.
Qed.

Lemma GetEmergencyProfile_frame id t t' :
  t_profiles t = t_profiles t' →
  (GetEmergencyProfile id (mkDB t [])).1 = (GetEmergencyProfile id (mkDB t' [])).1.
Proof.
  intros H. unfold GetEmergencyProfile. rewrite !bind_Query, H.
  destruct (List.find _ _) as [p|]; [|done]. unfold bind, of_result. by destruct (scan_profile p).
Qed.

Section Emergency.
Context `{Clock}.

Lemma read_profile_id_spec t id :
int64_ok id = true → t_settings t !! "emergency_profile_id" = Some (Itoa id) →
read_profile_id (mkDB t []) = (inr (Some id,
  match (GetEmergencyProfile id (mkDB t [])).1 with inr p => p | inl _ => None end), mkDB t []).
Proof.
intros Hid Hs. unfold read_profile_id, get_setting. rewrite bind_try_Query, Hs.
destruct (Itoa_head id) as (c & r & E & _). rewrite E. simpl. rewrite <- E.
rewrite Sscanf_d_Itoa by done. unfold bind, try.
by destruct (GetEmergencyProfile_pure id t) as [p ->].
Qed.

(** activating emergency mode is visible in the status: the mode is on,
  the profile is the one asked for (as the profile table has it) and the
  time is the activation time to the second; deactivating switches it off
  and forgets all three settings; other settings are untouched. *)
Lemma ActivateEmergency_status t now id :
int64_ok id = true → four_digit_year now →
∃ t', ActivateEmergency now id (mkDB t []) = (inr tt, mkDB t' [])
  ∧ (GetEmergencyStatus (mkDB t' [])).1 = inr (mkEmergencyStatus true (Some id)
        (match (GetEmergencyProfile id (mkDB t [])).1 with inr p => p | inl _ => None end)
        (Some (now - now mod 1000000000)%Z))
  ∧ ∃ t2, DeactivateEmergency (mkDB t' []) = (inr tt, mkDB t2 [])
    ∧ (GetEmergencyStatus (mkDB t2 [])).1 = inr (mkEmergencyStatus false None None None)
    ∧ (∀ k, k ∉ ["emergency_active"; "emergency_profile_id"; "emergency_activated_at"] →
         t_settings t2 !! k = t_settings t !! k).
Proof.
intros Hid Hnow. eexists. split; [reflexivity|]. split.
- unfold GetEmergencyStatus, get_setting. rewrite bind_Query. simpl.
  rewrite lookup_insert_ne, lookup_insert_ne, lookup_insert_eq by done. simpl.
  unfold bind at 1. rewrite (read_profile_id_spec _ id); [|done|].
  + rewrite bind_try_Query. simpl. rewrite lookup_insert_eq. simpl.
    rewrite Parse_Format by done.
    by rewrite (GetEmergencyProfile_frame id _ t).
  + simpl. by rewrite lookup_insert_ne, lookup_insert_eq by done.
- eexists. split; [reflexivity|]. split.
  + unfold GetEmergencyStatus, get_setting, Query, bind, Exec. simpl. by rewrite lookup_delete_eq.
  + simpl. intros k Hk. rewrite !not_elem_of_cons in Hk. destruct Hk as (H1 & H2 & H3 & _).
    by rewrite !lookup_delete_ne, !lookup_insert_ne by done.
Qed.
End Emergency.

Lemma ActivateEmergency_status_witness :
  (GetEmergencyStatus (H := DecimalClock)
    (ActivateEmergency (H := DecimalClock) 1700000000000000005 3 (mkDB sample [])).2).1
  = inr (mkEmergencyStatus true (Some 3%Z) None (Some 1700000000000000000%Z)).
Proof.
  destruct (@ActivateEmergency_status DecimalClock sample 1700000000000000005 3) as (t' & H1 & H2 & _).
  - reflexivity.
  - split; vm_compute; [discriminate|reflexivity].
  - rewrite H1. exact H2.
Defined.

(** ** Pagination *)

Lemma take_drop_pages {A} (l : list A) n k :
  concat (map (λ i, take n (drop (i * n) l)) (seq 0 k)) = take (k * n) l.
Proof.
  induction k as [|k IH]; [done|].
  rewrite seq_S, map_app, concat_app, IH. simpl. rewrite app_nil_r.
  rewrite take_take_drop. f_equal. lia.
Qed.

(** The pages of a listing are that listing: asking for [k] consecutive
    pages of [n > 0] users gives, in order, the first [k * n] users of
    [ListUsers], which is every user, oldest first, each once. *)
Lemma ListUsers_pages t n k :
  (0 < n)%nat →
  ∃ all, ListUsers (mkDB t []) = (inr all, mkDB t [])
    ∧ all ≡ₚ map scanUser (t_users t)
    ∧ Sorted (λ a b, (User_CreatedAt a <=? User_CreatedAt b)%Z = true) all
    ∧ concat (map (λ i, match (ListUsersPaginated (Z.of_nat n) (Z.of_nat (i * n)) (mkDB t [])).1 with
                        | inr page => page | inl _ => [] end) (seq 0 k)) = take (k * n) all.
Proof.
  intros Hn. eexists. split; [reflexivity|]. unfold paginate at 1 2 3. simpl. split_and!.
  - apply Permutation_map, stable_sort_perm.
  - assert (Hs : Sorted (λ a b, by_created_at a b = true) (stable_sort by_created_at (t_users t))).
    { apply stable_sort_sorted. intros x y. unfold by_created_at. lia. }
    induction Hs as [|x l Hs IH Hd]; simpl; constructor; [done|]. by destruct Hd; constructor.
  - etrans; [|apply take_drop_pages]. f_equal. apply map_ext. intros i.
    unfold ListUsersPaginated, Query, Exec. simpl. unfold paginate.
    rewrite (proj2 (Z.ltb_lt 0 _)) by lia.
    rewrite Nat2Z.id, Z.max_r, Nat2Z.id by lia.
    by rewrite List.skipn_map, List.firstn_map.
Qed.

Lemma ListUsers_pages_witness :
  concat (map (λ i, match (ListUsersPaginated 1 (Z.of_nat (i * 1)) (mkDB sample [])).1 with
    | inr page => page | inl _ => [] end) (seq 0 2)) = [scanUser ann_row; scanUser bob_row].
Proof.
  destruct (ListUsers_pages sample 1 2) as (all & H1 & _ & _ & H2); [lia|].
  change 1%Z with (Z.of_nat 1). rewrite H2. by injection H1 as <-.
Defined.
