(* ===== verification/Directory.v ===== *)
(** * The directory: what the database stands for

    An abstract specification of the data-access layer. A [Directory] is what
    the rest of the program may rely on: accounts, inbounds, grants of an
    inbound to an account, nodes, placements, settings and profiles, as finite
    maps. The order of rows, row ids of grants, counters and timestamps of the
    tables are forgotten, integers that stand for flags are booleans. It
    changes by [event]s, each with a condition ([allowed]) and an [effect].
    [intended] says which events a method is for; [directory] is the directory
    the tables stand for. [DirectoryProps] relates the two. *)

From S2P Require Import Prelude GoString Json Models Schema Database DatabaseFacts.

Record Account := mkAccount {
  A_name : string; A_email : string; A_token : string; A_fallback : option string;
  A_seen : option Z; A_enabled : bool; A_hy2 : bool; A_routes : string }.
Record InboundInfo := mkInboundInfo {
  I_tag : string; I_protocol : string; I_port : Z; I_file : string; I_raw : string }.
Record Grant := mkGrant { G_credential : string; G_enabled : bool }.
Record Profile := mkProfile { P_name : string; P_description : string; P_tags : string }.
Record NodeInfo := mkNodeInfo {
  N_name : string; N_api : string; N_tag : string; N_host : string; N_port : Z; N_enabled : bool }.

(** Grants are keyed by account and inbound, placements are pairs of an
    account and a node. *)
Record Directory := mkDirectory {
  d_accounts : gmap Z Account; d_inbounds : gmap Z InboundInfo;
  d_grants : gmap (Z * Z) Grant; d_settings : gmap string string;
  d_profiles : gmap Z Profile; d_nodes : gmap Z NodeInfo; d_placed : gset (Z * Z) }.

Definition on_accounts f d := mkDirectory (f (d_accounts d)) (d_inbounds d) (d_grants d)
  (d_settings d) (d_profiles d) (d_nodes d) (d_placed d).
Definition on_inbounds f d := mkDirectory (d_accounts d) (f (d_inbounds d)) (d_grants d)
  (d_settings d) (d_profiles d) (d_nodes d) (d_placed d).
Definition on_grants f d := mkDirectory (d_accounts d) (d_inbounds d) (f (d_grants d))
  (d_settings d) (d_profiles d) (d_nodes d) (d_placed d).
Definition on_settings f d := mkDirectory (d_accounts d) (d_inbounds d) (d_grants d)
  (f (d_settings d)) (d_profiles d) (d_nodes d) (d_placed d).
Definition on_profiles f d := mkDirectory (d_accounts d) (d_inbounds d) (d_grants d)
  (d_settings d) (f (d_profiles d)) (d_nodes d) (d_placed d).
Definition on_nodes f d := mkDirectory (d_accounts d) (d_inbounds d) (d_grants d)
  (d_settings d) (d_profiles d) (f (d_nodes d)) (d_placed d).
Definition on_placed f d := mkDirectory (d_accounts d) (d_inbounds d) (d_grants d)
  (d_settings d) (d_profiles d) (d_nodes d) (f (d_placed d)).

(** ** Events *)

Inductive change :=
  | ToToken (token : string) | ToFallback (token : string) | ToSeen (at_ : Z)
  | ToEnabled (b : bool) | ToHy2 (b : bool) | ToRoutes (routes : string).
Definition changed (c : change) (a : Account) : Account :=
  let '(mkAccount name email token fallback seen enabled hy2 routes) := a in
  match c with
  | ToToken t => mkAccount name email t fallback seen enabled hy2 routes
  | ToFallback t => mkAccount name email token (Some t) seen enabled hy2 routes
  | ToSeen z => mkAccount name email token fallback (Some z) enabled hy2 routes
  | ToEnabled b => mkAccount name email token fallback seen b hy2 routes
  | ToHy2 b => mkAccount name email token fallback seen enabled b routes
  | ToRoutes r => mkAccount name email token fallback seen enabled hy2 r
  end.

Inductive event :=
  | Registered (id : Z) (a : Account)
  | Changed (id : Z) (c : change)
  | Deleted (id : Z)
  | SettingPut (key value : string)
  | SettingsCleared (keys : list string)
  | InboundPut (id : Z) (i : InboundInfo)
  | InboundsDropped (p : InboundInfo → bool)
  | CredentialPut (user inbound : Z) (credential : string)
  | GrantSwitched (user inbound : Z) (b : bool)
  | GrantsDropped (inbound : Z)
  | ProfileCreated (id : Z) (p : Profile)
  | ProfileChanged (id : Z) (p : Profile)
  | ProfileDropped (id : Z)
  | NodePut (id : Z) (n : NodeInfo)
  | NodeDisabled (id : Z)
  | Placed (user node : Z)
  | PlacementSet (user : Z) (nodes : list Z)
  | Unplaced (user node : Z)
  | Backfilled.

(** No other account has the name or one of the tokens. *)
Definition distinct (id : Z) (a : Account) (d : Directory) : Prop :=
  ∀ id' a', d_accounts d !! id' = Some a' → id' ≠ id →
    A_name a' ≠ A_name a ∧ A_token a' ≠ A_token a
    ∧ (∀ f, A_fallback a' = Some f → A_fallback a ≠ Some f).
Definition free_name (id : Z) (name : string) (d : Directory) : Prop :=
  ∀ id' p, d_profiles d !! id' = Some p → id' ≠ id → P_name p ≠ name.
Definition known_user (id : Z) (d : Directory) : Prop := is_Some (d_accounts d !! id).
Definition known_node (id : Z) (d : Directory) : Prop := is_Some (d_nodes d !! id).

(** When an event may happen. Names of inbounds and nodes are keys of their
    own: a put meets the entry with the same name and no other. *)
Definition allowed (e : event) (d : Directory) : Prop :=
  match e with
  | Registered id a => d_accounts d !! id = None ∧ distinct id a d
  | Changed id c => ∀ a, d_accounts d !! id = Some a → distinct id (changed c a) d
  | InboundPut id i => ∀ id' i', d_inbounds d !! id' = Some i' → id' = id ↔ I_tag i' = I_tag i
  | CredentialPut u i _ => known_user u d ∧ is_Some (d_inbounds d !! i)
  | ProfileCreated id p => d_profiles d !! id = None ∧ free_name id (P_name p) d
  | ProfileChanged id p => is_Some (d_profiles d !! id) → free_name id (P_name p) d
  | NodePut id n => ∀ id' n', d_nodes d !! id' = Some n' → id' = id ↔ N_name n' = N_name n
  | Placed u n => known_user u d ∧ known_node n d
  | PlacementSet u ns => ∀ n, n ∈ ns → known_user u d ∧ known_node n d
  | _ => True
  end.

(** Every account without a placement, at every enabled node. *)
Definition backfill (d : Directory) : gset (Z * Z) :=
  let placed : gset Z := set_map fst (d_placed d) in
  cprod (dom (d_accounts d) ∖ placed)
    (dom (filter (λ kn, N_enabled kn.2 = true) (d_nodes d))).

Definition effect (e : event) (d : Directory) : Directory :=
  match e with
  | Registered id a => on_accounts (insert id a) d
  | Changed id c => on_accounts (alter (changed c) id) d
  | Deleted id =>
      on_accounts (delete id)
        (on_grants (filter (λ kg, kg.1.1 ≠ id)) (on_placed (filter (λ un, un.1 ≠ id)) d))
  | SettingPut k v => on_settings (insert k v) d
  | SettingsCleared ks => on_settings (λ m, foldr delete m ks) d
  | InboundPut id i => on_inbounds (insert id i) d
  | InboundsDropped p =>
      on_inbounds (filter (λ ki, p ki.2 = false))
        (on_grants (filter (λ kg, from_option p false (d_inbounds d !! kg.1.2) = false)) d)
  | CredentialPut u i c =>
      on_grants (partial_alter (λ g, Some (mkGrant c (from_option G_enabled true g))) (u, i)) d
  | GrantSwitched u i b => on_grants (alter (λ g, mkGrant (G_credential g) b) (u, i)) d
  | GrantsDropped i => on_grants (filter (λ kg, kg.1.2 ≠ i)) d
  | ProfileCreated id p => on_profiles (insert id p) d
  | ProfileChanged id p => on_profiles (alter (λ _, p) id) d
  | ProfileDropped id => on_profiles (delete id) d
  | NodePut id n => on_nodes (insert id n) d
  | NodeDisabled id => on_nodes (alter (λ n,
      mkNodeInfo (N_name n) (N_api n) (N_tag n) (N_host n) (N_port n) false) id) d
  | Placed u n => on_placed (λ s, {[(u, n)]} ∪ s) d
  | PlacementSet u ns =>
      on_placed (λ s, list_to_set (pair u <$> ns) ∪ filter (λ un, un.1 ≠ u) s) d
  | Unplaced u n => on_placed (λ s, s ∖ {[(u, n)]}) d
  | Backfilled => on_placed (λ s, s ∪ backfill d) d
  end.

(** A run of allowed events. *)
Inductive trace : Directory → list event → Directory → Prop :=
  | trace_nil d : trace d [] d
  | trace_cons d e es d' (_ : allowed e d) (_ : trace (effect e d) es d') : trace d (e :: es) d'.
Definition after (es : list event) (d : Directory) : Directory := foldl (flip effect) d es.

Definition is_put (n : Node) (e : event) : Prop :=
  ∃ id, e = NodePut id (mkNodeInfo (Node_Name n) (Node_APIAddr n) (Node_InboundTag n)
                          (Node_PublicHost n) (Node_PublicPort n) (Node_Enabled n)).
(** The nodes a reconciliation switches off: enabled and not desired. *)
Definition vanished (desired : list Node) (d : Directory) (id : Z) : Prop :=
  ∃ n, d_nodes d !! id = Some n ∧ N_enabled n = true ∧ N_name n ∉ Node_Name <$> desired.

(** The event of a method that is one. *)
Definition one_event (op : dbop) (e : event) : Prop :=
  match op with
  | OpCreateUser _ u m t f => ∃ id, e = Registered id
      (mkAccount (TrimSpace u) (if String.eqb (TrimSpace m) "" then TrimSpace u else TrimSpace m) t
         (if String.eqb (TrimSpace f) "" then None else Some (TrimSpace f)) None true true "[]")
  | OpSetUserHy2Enabled _ u b => e = Changed u (ToHy2 b)
  | OpUpdateUserToken _ u t => e = Changed u (ToToken t)
  | OpUpdateFallbackToken _ u t => e = Changed u (ToFallback t)
  | OpSetFallbackAccessedAt u z => e = Changed u (ToSeen z)
  | OpSetUserEnabled _ u b => e = Changed u (ToEnabled b)
  | OpUpdateUserClientRoutes _ u r => e = Changed u (ToRoutes r)
  | OpDeleteUser u => e = Deleted u
  | OpSetFallbackEnabled b => e = SettingPut "fallback_enabled" (if b then "true" else "false")
  | OpUpdateGlobalClientRoutes r => e = SettingPut "global_client_routes" r
  | OpSetBalancerRuntimeConfig c => e = SettingPut "balancer_runtime_config" (json_marshal (encode_BRC c))
  | OpDeleteBalancerRuntimeConfig => e = SettingsCleared ["balancer_runtime_config"]
  | OpUpsertInbound _ tag p port f raw => ∃ id, e = InboundPut id (mkInboundInfo tag p port f raw)
  | OpDeleteInboundsByFile f => e = InboundsDropped (λ i, String.eqb (I_file i) f)
  | OpDeleteInboundByTag tag => e = InboundsDropped (λ i, String.eqb (I_tag i) tag)
  | OpUpsertUserClient u i c => e = CredentialPut u i c
  | OpSetUserClientEnabled u i b => e = GrantSwitched u i b
  | OpDeleteUserClientsByInbound i => e = GrantsDropped i
  | OpCreateEmergencyProfile _ n ds tags => ∃ id, e = ProfileCreated id (mkProfile n ds (marshal_tags tags))
  | OpUpdateEmergencyProfile _ id n ds tags => e = ProfileChanged id (mkProfile n ds (marshal_tags tags))
  | OpDeleteEmergencyProfile id => e = ProfileDropped id
  | OpDeactivateEmergency =>
      e = SettingsCleared ["emergency_active"; "emergency_profile_id"; "emergency_activated_at"]
  | OpUpsertNode _ n => is_put n e
  | OpBackfill => e = Backfilled
  | OpSetUserNodes u ns => e = PlacementSet u ns
  | OpRemoveUserFromNode u n => e = Unplaced u n
  | OpActivateEmergency _ _ | OpReconcileNodes _ _ | OpAssignUserToNodes _ _ => False
  end.

(** The events a method is for, in a given directory. *)
Definition intended `{Clock} (op : dbop) (d : Directory) (es : list event) : Prop :=
  match op with
  | OpActivateEmergency now id => es = [SettingPut "emergency_active" "true";
      SettingPut "emergency_profile_id" (Itoa id); SettingPut "emergency_activated_at" (FormatRFC3339 now)]
  | OpAssignUserToNodes u ns => es = Placed u <$> ns
  | OpReconcileNodes _ desired => ∃ puts ids, es = puts ++ (NodeDisabled <$> ids)
      ∧ Forall2 is_put desired puts ∧ ∀ id, id ∈ ids ↔ vanished desired (after puts d) id
  | _ => ∃ e, es = [e] ∧ one_event op e
  end.

(** The methods that are one statement or one transaction: failing, they do
    nothing. An upsert may fail after it, when it reads the id back. *)
Definition atomic (op : dbop) : bool :=
  match op with
  | OpUpsertInbound _ _ _ _ _ _ | OpUpsertNode _ _ | OpReconcileNodes _ _
  | OpActivateEmergency _ _ | OpAssignUserToNodes _ _ => false
  | _ => true
  end.

(** ** The directory of the tables *)

(** A table as a map from the key of a row to what the row says. *)
Definition table_map {R K V} `{Countable K} (key : R → K) (val : R → V) (l : list R) : gmap K V :=
  list_to_map ((λ r, (key r, val r)) <$> l).

Definition account (r : user_row) : Account :=
  mkAccount (ur_username r) (ur_email r) (ur_token r) (ur_fallback_token r)
    (ur_fallback_accessed_at r) (Z.eqb (ur_enabled r) 1) (Z.eqb (ur_hy2_enabled r) 1) (ur_client_routes r).
Definition inbound_info (i : Inbound) : InboundInfo :=
  mkInboundInfo (Inbound_Tag i) (Inbound_Protocol i) (Inbound_Port i) (Inbound_ConfigFile i) (Inbound_RawConfig i).
Definition uc_pair (c : uc_row) : Z * Z := (uc_user_id c, uc_inbound_id c).
Definition grant (c : uc_row) : Grant := mkGrant (uc_client_config c) (Z.eqb (uc_enabled c) 1).
Definition profile (p : profile_row) : Profile := mkProfile (pr_name p) (pr_description p) (pr_inbound_tags p).
Definition node_info (n : node_row) : NodeInfo :=
  mkNodeInfo (nr_name n) (nr_api_addr n) (nr_inbound_tag n) (nr_public_host n) (nr_public_port n)
    (Z.eqb (nr_enabled n) 1).

Definition directory (t : Tables) : Directory := mkDirectory
  (table_map ur_id account (t_users t)) (table_map Inbound_ID inbound_info (t_inbounds t))
  (table_map uc_pair grant (t_user_clients t)) (t_settings t)
  (table_map pr_id profile (t_profiles t)) (table_map nr_id node_info (t_nodes t))
  (list_to_set (t_user_nodes t)).

(** ** Tables as maps *)

Section TableMap.
Context {R K V : Type} `{Countable K} (key : R → K) (val : R → V).
Abbreviation map_of := (table_map key val).

Lemma lookup_table_map l k v :
  NoDup (key <$> l) → map_of l !! k = Some v ↔ ∃ r, r ∈ l ∧ key r = k ∧ val r = v.
Proof.
  intros Hd. unfold table_map. rewrite <- elem_of_list_to_map.
  - rewrite list_elem_of_fmap. naive_solver.
  - by rewrite <- list_fmap_compose.
Qed.
Lemma table_map_cons r l : map_of (r :: l) = <[key r := val r]> (map_of l).
Proof. done. Qed.
Lemma table_map_at l r : NoDup (key <$> l) → r ∈ l → map_of l !! key r = Some (val r).
Proof. intros Hd Hr. apply lookup_table_map; [done|]. by exists r. Qed.
Lemma table_map_None l k : map_of l !! k = None ↔ k ∉ key <$> l.
Proof. unfold table_map. rewrite <- not_elem_of_list_to_map, <- list_fmap_compose. done. Qed.
Lemma table_map_is_Some l k : is_Some (map_of l !! k) ↔ k ∈ key <$> l.
Proof.
  rewrite <- not_eq_None_Some, table_map_None. split; [|tauto].
  intros Hn. by destruct (decide (k ∈ key <$> l)).
Qed.
Lemma table_map_snoc l r : key r ∉ key <$> l → map_of (l ++ [r]) = <[key r := val r]> (map_of l).
Proof.
  intros Hr. unfold table_map. rewrite fmap_app. simpl. rewrite list_to_map_snoc; [done|].
  by rewrite <- list_fmap_compose.
Qed.
Lemma table_map_update p f g k l :
  (∀ r, r ∈ l → p r = true ↔ key r = k) → (∀ r, key (f r) = key r) → (∀ r, val (f r) = g (val r)) →
  map_of (update_rows p f l) = alter g k (map_of l).
Proof.
  intros Hp Hk Hv. induction l as [|r l IH]; [done|].
  change (update_rows p f (r :: l)) with ((if p r then f r else r) :: update_rows p f l).
  rewrite !table_map_cons, IH by (intros; apply Hp; set_solver).
  destruct (Hp r (list_elem_of_here _ _)) as [Hp1 Hp2]. destruct (p r) eqn:E.
  - specialize (Hp1 eq_refl). subst k. rewrite Hk, Hv. apply map_eq. intros i.
    destruct (decide (i = key r)) as [->|Hi].
    + by rewrite lookup_insert_eq, lookup_alter_eq, lookup_insert_eq.
    + by rewrite lookup_insert_ne, lookup_alter_ne, lookup_alter_ne, lookup_insert_ne by done.
  - rewrite alter_insert_ne; naive_solver.
Qed.
Lemma table_map_delete p (P : K * V → Prop) `{!∀ x, Decision (P x)} l :
  NoDup (key <$> l) → (∀ r, r ∈ l → p r = false ↔ P (key r, val r)) →
  map_of (delete_rows p l) = filter P (map_of l).
Proof.
  intros Hd Hp. apply map_eq. intros k. apply option_eq. intros v.
  rewrite map_lookup_filter_Some, !lookup_table_map by eauto using NoDup_delete_rows.
  setoid_rewrite elem_of_delete_rows. split.
  - intros (r & [Hr Hin] & <- & <-). split; [by exists r|by apply Hp].
  - intros [(r & Hin & <- & <-) HP]. exists r. rewrite Hp; done.
Qed.
Lemma table_map_delete_key p k l :
  NoDup (key <$> l) → (∀ r, r ∈ l → p r = true ↔ key r = k) →
  map_of (delete_rows p l) = delete k (map_of l).
Proof.
  intros Hd Hp. rewrite (table_map_delete p (λ kv, kv.1 ≠ k)); [|done|].
  - apply map_eq. intros i. apply option_eq. intros v.
    rewrite map_lookup_filter_Some, lookup_delete_Some. simpl. naive_solver.
  - intros r Hr. simpl. rewrite <- (Hp r Hr). by destruct (p r).
Qed.
End TableMap.
