(* ===== verification/DirectoryFacts.v ===== *)
(** * Statements as directory events

    What one SQL statement does to the tables, seen from the directory: a
    successful one is an allowed event of its kind, a failing one is a
    statement whose event is not allowed. *)

From S2P Require Import Prelude GoString Json JsonDecode Models Schema Database DatabaseFacts.
From S2P Require Import DatabaseProps Directory.

(** A statement and the events it stands for. *)
Definition mirrors {A} (I : event → Prop) (f : Tables → error + (A * Tables)) : Prop :=
  ∀ t, wf_tables t →
    match f t with
    | inr (_, t') => ∃ e, I e ∧ allowed e (directory t) ∧ directory t' = effect e (directory t)
    | inl _ => ∀ e, I e → ¬ allowed e (directory t)
    end.

Lemma mirrors_run (f : Tables → Tables) e :
  (∀ t, wf_tables t → allowed e (directory t) ∧ directory (f t) = effect e (directory t)) →
  mirrors (eq e) (λ t, inr (tt, f t)).
Proof. intros Hf t Hwf. exists e. split; [done|by apply Hf]. Qed.

(** ** Users *)

Lemma NoDup_omap_iff {R B} (key : R → Z) (g : R → option B) (l : list R) :
  NoDup (key <$> l) →
  NoDup (omap g l) ↔
  (∀ r r' b, r ∈ l → r' ∈ l → key r ≠ key r' → g r = Some b → g r' ≠ Some b).
Proof.
  induction l as [|x l IH]; intros Hk.
  { split; [intros _ r r' b []%elem_of_nil|intros; constructor]. }
  rewrite fmap_cons, NoDup_cons in Hk. destruct Hk as [Hx Hk]. specialize (IH Hk).
  assert (Hne : ∀ r, r ∈ l → key r ≠ key x) by (intros r Hr E; apply Hx; rewrite <- E; by apply list_elem_of_fmap_2).
  assert (Hout : ∀ b, b ∈ omap g l ↔ ∃ r, r ∈ l ∧ g r = Some b) by (intros b; apply list_elem_of_omap).
  cbn [omap list_omap]. split.
  - intros Hd.
    assert (Hsplit : NoDup (omap g l) ∧ ∀ b, g x = Some b → b ∉ omap g l).
    { destruct (g x); [apply NoDup_cons in Hd as [? ?]; split; [done|by intros ? [= <-]]|by split]. }
    destruct Hsplit as [Hd' Hnew]. rewrite IH in Hd'. setoid_rewrite Hout in Hnew.
    intros r r' b Hr Hr' Hkey H1 H2. rewrite elem_of_cons in Hr, Hr'.
    destruct Hr as [->|Hr], Hr' as [->|Hr']; naive_solver.
  - intros Hp.
    assert (Hd : NoDup (omap g l)) by (apply IH; intros; apply (Hp r r' b); auto using list_elem_of_further).
    destruct (g x) as [b|] eqn:E; [|done]. apply NoDup_cons. split; [|done].
    intros (r & Hr & Hb)%Hout. apply (Hp x r b); auto using list_elem_of_further, list_elem_of_here.
    by intros ?%eq_sym%(Hne r).
Qed.
Lemma omap_Some {R B} (g : R → B) (l : list R) : omap (λ r, Some (g r)) l = g <$> l.
Proof. induction l as [|x l IH]; [done|]. cbn. by rewrite <- IH. Qed.
Lemma NoDup_fmap_iff {R B} (key : R → Z) (g : R → B) (l : list R) :
  NoDup (key <$> l) →
  NoDup (g <$> l) ↔ (∀ r r', r ∈ l → r' ∈ l → key r ≠ key r' → g r ≠ g r').
Proof.
  intros Hk. rewrite <- omap_Some, (NoDup_omap_iff key) by done.
  split; intros Hp r r'; [intros Hr Hr' Hne E; apply (Hp r r' (g r)); auto; by rewrite E|].
  intros b Hr Hr' Hne [= <-] [= E]. by apply (Hp r r').
Qed.

(** The constraints of the users table, row against row. *)
Definition apart (r r' : user_row) : Prop :=
  ur_username r ≠ ur_username r' ∧ ur_token r ≠ ur_token r'
  ∧ ∀ b, ur_fallback_token r = Some b → ur_fallback_token r' ≠ Some b.
#[export] Instance apart_sym : Symmetric apart.
Proof. intros r r' (H1 & H2 & H3). split_and!; [congruence..|]. intros b Hb Hb'. by apply (H3 b). Qed.
Lemma users_violation_apart us :
  NoDup (ur_id <$> us) →
  users_violation us = None ↔ ∀ r r', r ∈ us → r' ∈ us → ur_id r ≠ ur_id r' → apart r r'.
Proof.
  intros Hids. rewrite users_violation_None. unfold fallback_tokens.
  rewrite !(NoDup_fmap_iff ur_id), (NoDup_omap_iff ur_id) by done. split.
  - intros (H1 & H2 & H3) r r' Hr Hr' Hne. split_and!; eauto.
  - intros Hp. split_and!; intros r r'; intros; by apply (Hp r r').
Qed.

(** They hold for a table that differs in one row exactly when that row is
    distinct from the other accounts. *)
Lemma users_violation_distinct t us r0 :
  wf_tables t → NoDup (ur_id <$> us) → r0 ∈ us →
  (∀ r, ur_id r ≠ ur_id r0 → r ∈ us ↔ r ∈ t_users t) →
  users_violation us = None ↔ distinct (ur_id r0) (account r0) (directory t).
Proof.
  intros Hwf Hids H0 Hsame. rewrite users_violation_apart by done.
  assert (Hold : ∀ r r', r ∈ t_users t → r' ∈ t_users t → ur_id r ≠ ur_id r' → apart r r').
  { apply users_violation_apart; [apply Hwf|]. apply users_violation_None. split_and!; apply Hwf. }
  assert (Hd : distinct (ur_id r0) (account r0) (directory t) ↔
    ∀ r, r ∈ us → ur_id r ≠ ur_id r0 → apart r r0).
  { unfold distinct. cbn [directory d_accounts]. split.
    - intros Hd r Hr Hne. apply (Hd (ur_id r) (account r)); [|done].
      apply table_map_at; [apply Hwf|by apply Hsame].
    - intros Hd id' a' Ha Hne. apply lookup_table_map in Ha as (r & Hr & <- & <-); [|apply Hwf].
      apply (Hd r); [by apply Hsame|done]. }
  rewrite Hd. clear Hd. split; [auto|]. intros Hp r r' Hr Hr' Hne.
  destruct (decide (ur_id r = ur_id r0)) as [E|E].
  - assert (r = r0) as -> by by eapply (NoDup_map_inj_on ur_id). symmetry. apply Hp; [done|congruence].
  - destruct (decide (ur_id r' = ur_id r0)) as [E'|E'].
    + assert (r' = r0) as -> by by eapply (NoDup_map_inj_on ur_id). by apply Hp.
    + by apply Hold; try apply Hsame.
Qed.

Lemma mirrors_update_user id f c :
  (∀ r, ur_id (f r) = ur_id r) → (∀ r, account (f r) = changed c (account r)) →
  mirrors (eq (Changed id c)) (λ t, enforce
    (users_violation (update_rows (λ r, Z.eqb (ur_id r) id) f (t_users t)))
    (tt, with_users (update_rows (λ r, Z.eqb (ur_id r) id) f (t_users t)) (seq_users t) t)).
Proof.
  intros Hid Hacc t Hwf. set (us := update_rows _ f (t_users t)).
  assert (Hids : NoDup (ur_id <$> us)) by (unfold us; rewrite update_rows_fmap by auto; apply Hwf).
  assert (Hv : users_violation us = None ↔ allowed (Changed id c) (directory t)).
  { cbn [allowed directory d_accounts]. destruct (decide (id ∈ ur_id <$> t_users t)) as [Hin|Hout].
    - apply list_elem_of_fmap in Hin as (r & -> & Hr).
      rewrite (users_violation_distinct t us (f r)); [|done..| |].
      + rewrite Hid, Hacc, (table_map_at ur_id account) by (done || apply Hwf).
        split; [by intros ? ? [= <-]|auto].
      + apply elem_of_update_rows. exists r. by rewrite Z.eqb_refl.
      + intros r' Hne. unfold us. rewrite elem_of_update_rows, Hid in *. split.
        * intros (x & Hx & ->). case_if; [|done]. bool_simp. by rewrite Hid in Hne.
        * intros Hr'. exists r'. by rewrite (proj2 (Z.eqb_neq _ _)).
    - assert (us = t_users t) as ->.
      { unfold us, update_rows. etrans; [|apply map_id]. apply map_ext_in. intros r Hr%list_elem_of_In.
        case_if; [|done]. bool_simp. subst. by destruct Hout; apply list_elem_of_fmap_2. }
      rewrite (proj2 (table_map_None _ _ _ _) Hout). rewrite users_violation_None.
      split; [done|]. intros _. split_and!; apply Hwf. }
  unfold enforce. destruct (users_violation us) eqn:E.
  - intros e <- Ha%Hv. done.
  - eexists. split; [done|]. split; [by apply Hv|]. unfold directory. cbn. unfold on_accounts. f_equal.
    apply table_map_update; auto. intros r _. apply Z.eqb_eq.
Qed.

Lemma mirrors_new_user now name email token fallback :
  let a := mkAccount name email token fallback None true true "[]" in
  mirrors (λ e, ∃ id, e = Registered id a) (λ t,
    let us := t_users t ++ [mkUserRow (seq_users t + 1) name email token fallback None 1 "[]" 1 now now] in
    enforce (users_violation us) (seq_users t + 1, with_users us (seq_users t + 1) t)%Z).
Proof.
  intros a t Hwf. cbv zeta. set (r0 := mkUserRow _ _ _ _ _ _ _ _ _ _ _). set (us := t_users t ++ [r0]).
  assert (Hfresh : ur_id r0 ∉ ur_id <$> t_users t).
  { intros (r & E & Hr)%list_elem_of_fmap. pose proof (wf_user_seq _ Hwf r Hr). simpl in E. lia. }
  assert (Hv : users_violation us = None ↔ distinct (ur_id r0) a (directory t)).
  { apply (users_violation_distinct t us r0 Hwf).
    - eapply NoDup_snoc_fresh; [apply Hwf..|done].
    - unfold us. set_solver.
    - intros r Hne. unfold us. rewrite elem_of_app, list_elem_of_singleton. naive_solver. }
  unfold enforce. destruct (users_violation us) as [err|] eqn:E.
  - intros e [id ->] [Hnone Hd]. cut (Some err = None); [done|]. apply Hv. intros id' a' Ha' _.
    apply (Hd id' a' Ha'). intros ->. by rewrite Ha' in Hnone.
  - exists (Registered (ur_id r0) a). split; [by eexists|]. split.
    + split; [by apply table_map_None|by apply Hv].
    + unfold directory. cbn. unfold on_accounts. f_equal. by apply (table_map_snoc ur_id account).
Qed.

Lemma filter_placed (P : Z * Z → Prop) `{!∀ x, Decision (P x)} p (un : list (Z * Z)) :
  (∀ x, p x = false ↔ P x) →
  list_to_set (delete_rows p un) = (filter P (list_to_set un) : gset (Z * Z)).
Proof.
  intros Hp. apply set_eq. intros x.
  rewrite elem_of_filter, !elem_of_list_to_set, elem_of_delete_rows, Hp. done.
Qed.

Lemma mirrors_delete_user id :
  mirrors (eq (Deleted id)) (λ t, inr (tt, delete_user_rows id t)).
Proof.
  apply mirrors_run. intros t Hwf. split; [done|]. unfold directory. cbn.
  unfold on_accounts, on_grants, on_placed. cbn. f_equal.
  - apply table_map_delete_key; [apply Hwf|]. intros r _. apply Z.eqb_eq.
  - apply table_map_delete; [apply Hwf|]. intros r _. simpl. apply Z.eqb_neq.
  - apply filter_placed. intros x. apply Z.eqb_neq.
Qed.

(** ** Inbounds *)

Lemma update_rows_ext {R} (p : R → bool) (f g : R → R) l :
  (∀ r, p r = true → f r = g r) → update_rows p f l = update_rows p g l.
Proof. intros Hfg. apply map_ext. intros r. destruct (p r) eqn:E; auto. Qed.

Lemma alter_insert_same {K A} `{Countable K} (m : gmap K A) k x :
  is_Some (m !! k) → alter (λ _, x) k m = <[k := x]> m.
Proof.
  intros [y Hy]. apply map_eq. intros i. destruct (decide (i = k)) as [->|Hi].
  - by rewrite lookup_alter_eq, lookup_insert_eq, Hy.
  - by rewrite lookup_alter_ne, lookup_insert_ne by done.
Qed.

(** Rows with a name of their own beside the id: one is updated, or added. *)
Lemma put_spec {R V} (key : R → Z) (name : R → string) (val : R → V) (vname : V → string)
    (f : R → R) (r0 : R) (v : V) (l : list R) :
  NoDup (key <$> l) → NoDup (name <$> l) → key r0 ∉ key <$> l →
  (∀ r, vname (val r) = name r) → (∀ r, key (f r) = key r) →
  (∀ r, val (f r) = v) → val r0 = v →
  let l' := if existsb (λ r, String.eqb (name r) (vname v)) l
            then update_rows (λ r, String.eqb (name r) (vname v)) f l else l ++ [r0] in
  ∃ id, (∀ id' v', table_map key val l !! id' = Some v' → id' = id ↔ vname v' = vname v)
    ∧ table_map key val l' = <[id := v]> (table_map key val l).
Proof.
  intros Hk Hn Hnew Hname Hkf Hvf Hv0. cbv zeta. destruct (existsb _ l) eqn:E.
  - apply existsb_exists in E as (r1 & Hr1%list_elem_of_In & E%String.eqb_eq). exists (key r1).
    assert (Hiff : ∀ r, r ∈ l → name r = vname v ↔ key r = key r1).
    { intros r Hr. rewrite <- E. split; intros Heq; f_equal;
        [by eapply (NoDup_map_inj_on name)|by eapply (NoDup_map_inj_on key)]. }
    split.
    + intros id' v' (r & Hr & <- & <-)%lookup_table_map; [|done]. rewrite Hname. by rewrite (Hiff r Hr).
    + rewrite <- alter_insert_same by (apply table_map_is_Some; by apply list_elem_of_fmap_2).
      apply table_map_update; auto. intros r Hr. rewrite String.eqb_eq. by apply Hiff.
  - exists (key r0). split; [|rewrite <- Hv0; by apply (table_map_snoc key val)].
    intros id' v' Hv'. apply lookup_table_map in Hv' as (r & Hr & <- & <-); [|done]. rewrite Hname. split.
    + intros Heq. destruct Hnew. rewrite <- Heq. by apply list_elem_of_fmap_2.
    + intros Heq. apply not_true_iff_false in E. destruct E. apply existsb_exists.
      exists r. split; [by apply list_elem_of_In|by apply String.eqb_eq].
Qed.

Lemma mirrors_upsert_inbound now tag p port f raw :
  mirrors (λ e, ∃ id, e = InboundPut id (mkInboundInfo tag p port f raw))
    (λ t, inr (tt, upsert_inbound_rows now tag p port f raw t)).
Proof.
  intros t Hwf. set (v := mkInboundInfo tag p port f raw).
  destruct (put_spec Inbound_ID Inbound_Tag inbound_info I_tag
    (λ i, mkInbound (Inbound_ID i) tag p port f raw now)
    (mkInbound (seq_inbounds t + 1) tag p port f raw now) v (t_inbounds t)) as (id & H1 & H2);
    try done; try apply Hwf.
  { intros (r & E & Hr)%list_elem_of_fmap. pose proof (wf_inbound_seq _ Hwf r Hr). simpl in E. lia. }
  exists (InboundPut id v). split; [by eexists|]. split; [exact H1|].
  unfold directory, effect, on_inbounds. cbn [d_inbounds]. rewrite <- H2. unfold upsert_inbound_rows.
  rewrite (update_rows_ext _ _ (λ i, mkInbound (Inbound_ID i) tag p port f raw now)).
  - cbn [v I_tag]. by destruct (existsb _ _).
  - intros i Hi. bool_simp. by subst.
Qed.

Lemma mirrors_drop_inbounds (p : Inbound → bool) q :
  (∀ i, p i = q (inbound_info i)) →
  mirrors (eq (InboundsDropped q)) (λ t, inr (tt, delete_inbound_rows p t)).
Proof.
  intros Hpq. apply mirrors_run. intros t Hwf. split; [done|]. unfold directory. cbn.
  unfold on_inbounds, on_grants. cbn. f_equal.
  - apply table_map_delete; [apply Hwf|]. intros i _. simpl. by rewrite Hpq.
  - apply table_map_delete; [apply Hwf|]. intros c Hc. simpl.
    pose proof (wf_uc_inbound _ Hwf c Hc) as (i & Hi & Hin)%list_elem_of_fmap.
    rewrite Hi, (table_map_at Inbound_ID inbound_info) by (done || apply Hwf). simpl. rewrite <- Hpq.
    rewrite bool_decide_eq_false, list_elem_of_fmap. setoid_rewrite elem_of_bfilter. split.
    + intros Hno. apply not_true_iff_false. intros Hp. apply Hno. by exists i.
    + intros Hp (i' & E & Hp' & Hi'). assert (i' = i) as ->; [|congruence].
      by apply (NoDup_map_inj_on Inbound_ID (t_inbounds t)); [apply Hwf|..].
Qed.

(** ** Grants *)

Lemma uc_key_pair u i c : uc_key u i c = true ↔ uc_pair c = (u, i).
Proof. rewrite uc_key_iff. unfold uc_pair. naive_solver. Qed.

Lemma mirrors_upsert_client u i cred :
  mirrors (eq (CredentialPut u i cred)) (upsert_uc_rows u i cred).
Proof.
  intros t Hwf. unfold upsert_uc_rows. case_if.
  { intros e <- [Hu Hi]. apply table_map_is_Some in Hu, Hi.
    apply orb_true_iff in Heqb as [Hb|Hb]; bool_simp; done. }
  bool_simp. set (c0 := mkUcRow _ u i cred 1). set (key := uc_key u i) in *.
  assert (Hok : allowed (CredentialPut u i cred) (directory t)) by (split; by apply table_map_is_Some).
  assert (Hmap : ∀ l', table_map uc_pair grant l' = partial_alter
      (λ g, Some (mkGrant cred (from_option G_enabled true g))) (u, i) (d_grants (directory t)) →
    ∀ sq, directory (with_user_clients l' sq t) = effect (CredentialPut u i cred) (directory t)).
  { intros l' E sq. change (directory (with_user_clients l' sq t)) with
      (on_grants (λ _, table_map uc_pair grant l') (directory t)). by rewrite E. }
  destruct (existsb key (t_user_clients t)) eqn:E;
    (eexists; split; [done|]; split; [exact Hok|]); apply Hmap; cbn [directory d_grants].
  - apply existsb_exists in E as (c & Hc%list_elem_of_In & Hk%uc_key_pair).
    rewrite (table_map_update uc_pair grant key _ (λ g, mkGrant cred (G_enabled g)) (u, i));
      [|intros r _; apply uc_key_pair|done..].
    apply partial_alter_ext. intros g. rewrite <- Hk, table_map_at by (done || apply Hwf).
    by intros [= <-].
  - assert (Hno : (u, i) ∉ uc_pair <$> t_user_clients t).
    { intros (c & Hc & Hin)%list_elem_of_fmap. apply not_true_iff_false in E. destruct E.
      apply existsb_exists. exists c. split; [by apply list_elem_of_In|by apply uc_key_pair]. }
    rewrite (table_map_snoc uc_pair grant) by done. apply partial_alter_ext. intros g <-.
    by apply (table_map_None uc_pair grant) in Hno as ->.
Qed.

Lemma mirrors_switch_client u i b :
  mirrors (eq (GrantSwitched u i b)) (λ t, inr (tt, with_user_clients (update_rows (uc_key u i)
    (λ c, mkUcRow (uc_id c) (uc_user_id c) (uc_inbound_id c) (uc_client_config c) (boolInt b))
    (t_user_clients t)) (seq_user_clients t) t)).
Proof.
  apply mirrors_run. intros t Hwf. split; [done|]. unfold directory. cbn. unfold on_grants. f_equal.
  apply table_map_update; [intros; apply uc_key_pair|done|]. intros c. unfold grant. cbn. by destruct b.
Qed.

Lemma mirrors_drop_clients i :
  mirrors (eq (GrantsDropped i)) (λ t, inr (tt, with_user_clients
    (delete_rows (λ c, Z.eqb (uc_inbound_id c) i) (t_user_clients t)) (seq_user_clients t) t)).
Proof.
  apply mirrors_run. intros t Hwf. split; [done|]. unfold directory. cbn. unfold on_grants. f_equal.
  apply table_map_delete; [apply Hwf|]. intros r _. simpl. apply Z.eqb_neq.
Qed.

(** ** Profiles *)

(** A column of distinct names stays one when a row is new or changed. *)
Lemma NoDup_one_changed {R} (key : R → Z) (name : R → string) (l l' : list R) r0 :
  NoDup (key <$> l) → NoDup (name <$> l) → NoDup (key <$> l') → r0 ∈ l' →
  (∀ r, key r ≠ key r0 → r ∈ l' ↔ r ∈ l) →
  NoDup (name <$> l') ↔ ∀ r, r ∈ l → key r ≠ key r0 → name r ≠ name r0.
Proof.
  intros Hk Hn Hk' H0 Hsame. rewrite (NoDup_fmap_iff key) in Hn |- * by done. split.
  - intros Hp r Hr Hne. apply Hp; [by apply Hsame|done..].
  - intros Hp r r' Hr Hr' Hne. destruct (decide (key r = key r0)) as [E|E].
    + assert (r = r0) as -> by by eapply (NoDup_map_inj_on key). apply not_eq_sym, Hp; [apply Hsame|]; congruence.
    + destruct (decide (key r' = key r0)) as [E'|E'].
      * assert (r' = r0) as -> by by eapply (NoDup_map_inj_on key). apply Hp; [by apply Hsame|done].
      * by apply Hn; try apply Hsame.
Qed.
Lemma profiles_violation_free t ps r0 :
  wf_tables t → NoDup (pr_id <$> ps) → r0 ∈ ps → (∀ r, pr_id r ≠ pr_id r0 → r ∈ ps ↔ r ∈ t_profiles t) →
  profiles_violation ps = None ↔ free_name (pr_id r0) (pr_name r0) (directory t).
Proof.
  intros Hwf Hk H0 Hsame. transitivity (NoDup (pr_name <$> ps)).
  { unfold profiles_violation. destruct (bool_decide _) eqn:E; cbn; bool_simp; by split. }
  rewrite (NoDup_one_changed pr_id pr_name (t_profiles t) ps r0) by (done || apply Hwf).
  unfold free_name. cbn [directory d_profiles]. split.
  - intros Hp id p Hl Hne. apply lookup_table_map in Hl as (r & Hr & <- & <-); [|apply Hwf]. by apply Hp.
  - intros Hp r Hr Hne. apply (Hp (pr_id r) (profile r)); [|done]. apply table_map_at; [apply Hwf|done].
Qed.

Lemma mirrors_new_profile now name desc tags :
  let p := mkProfile name desc tags in
  mirrors (λ e, ∃ id, e = ProfileCreated id p) (λ t,
    let ps := t_profiles t ++ [mkProfileRow (seq_profiles t + 1) name desc tags now now] in
    enforce (profiles_violation ps) (seq_profiles t + 1, with_profiles ps (seq_profiles t + 1) t)%Z).
Proof.
  intros p t Hwf. cbv zeta. set (r0 := mkProfileRow _ _ _ _ _ _). set (ps := t_profiles t ++ [r0]).
  assert (Hfresh : pr_id r0 ∉ pr_id <$> t_profiles t).
  { intros (r & E & Hr)%list_elem_of_fmap. pose proof (wf_profile_seq _ Hwf r Hr). simpl in E. lia. }
  assert (Hv : profiles_violation ps = None ↔ free_name (pr_id r0) name (directory t)).
  { apply (profiles_violation_free t ps r0 Hwf).
    - eapply NoDup_snoc_fresh; [apply Hwf..|done].
    - unfold ps. set_solver.
    - intros r Hne. unfold ps. rewrite elem_of_app, list_elem_of_singleton. naive_solver. }
  unfold enforce. destruct (profiles_violation ps) as [err|] eqn:E.
  - intros e [id ->] [Hnone Hd]. cut (Some err = None); [done|]. apply Hv. intros id' p' Hp' _.
    apply (Hd id' p' Hp'). intros ->. by rewrite Hp' in Hnone.
  - exists (ProfileCreated (pr_id r0) p). split; [by eexists|]. split.
    + split; [by apply table_map_None|by apply Hv].
    + unfold directory. cbn. unfold on_profiles. f_equal. by apply (table_map_snoc pr_id profile).
Qed.

Lemma mirrors_update_profile now id name desc tags :
  mirrors (eq (ProfileChanged id (mkProfile name desc tags))) (λ t,
    let ps := update_rows (λ r, Z.eqb (pr_id r) id)
      (λ r, mkProfileRow (pr_id r) name desc tags (pr_created_at r) now) (t_profiles t) in
    enforce (profiles_violation ps)
      (length (bfilter (λ r, Z.eqb (pr_id r) id) (t_profiles t)), with_profiles ps (seq_profiles t) t)).
Proof.
  intros t Hwf. cbv zeta. set (f := λ r : profile_row, mkProfileRow _ _ _ _ _ _). set (ps := update_rows _ _ _).
  assert (Hids : NoDup (pr_id <$> ps)) by (unfold ps; rewrite update_rows_fmap by auto; apply Hwf).
  assert (Hv : profiles_violation ps = None ↔
    allowed (ProfileChanged id (mkProfile name desc tags)) (directory t)).
  { cbn [allowed directory d_profiles P_name]. rewrite table_map_is_Some.
    destruct (decide (id ∈ pr_id <$> t_profiles t)) as [Hin|Hout].
    - pose proof Hin as (r & -> & Hr)%list_elem_of_fmap.
      rewrite (profiles_violation_free t ps (f r)); [cbn; tauto|done..| |].
      + apply elem_of_update_rows. exists r. by rewrite Z.eqb_refl.
      + intros r' Hne. unfold ps. rewrite elem_of_update_rows. cbn in Hne. split.
        * intros (x & Hx & ->). case_if; [|done]. bool_simp. done.
        * intros Hr'. exists r'. by rewrite (proj2 (Z.eqb_neq _ _)).
    - assert (ps = t_profiles t) as ->.
      { unfold ps, update_rows. etrans; [|apply map_id]. apply map_ext_in. intros r Hr%list_elem_of_In.
        case_if; [|done]. bool_simp. subst. by destruct Hout; apply list_elem_of_fmap_2. }
      unfold profiles_violation. rewrite bool_decide_eq_true_2 by apply Hwf. by split. }
  unfold enforce. destruct (profiles_violation ps) as [err|] eqn:E.
  - intros e <- Ha%Hv. done.
  - eexists. split; [done|]. split; [by apply Hv|]. unfold directory. cbn. unfold on_profiles. f_equal.
    apply table_map_update; auto. intros r _. apply Z.eqb_eq.
Qed.

Lemma mirrors_drop_profile id :
  mirrors (eq (ProfileDropped id)) (λ t, inr (tt, with_profiles
    (delete_rows (λ r, Z.eqb (pr_id r) id) (t_profiles t)) (seq_profiles t) t)).
Proof.
  apply mirrors_run. intros t Hwf. split; [done|]. unfold directory. cbn. unfold on_profiles. f_equal.
  apply table_map_delete_key; [apply Hwf|]. intros r _. apply Z.eqb_eq.
Qed.

(** ** Nodes and placement *)

Lemma mirrors_upsert_node now n : mirrors (is_put n) (λ t, inr (tt, upsert_node_rows now n t)).
Proof.
  intros t Hwf. set (v := mkNodeInfo (Node_Name n) (Node_APIAddr n) (Node_InboundTag n)
    (Node_PublicHost n) (Node_PublicPort n) (Node_Enabled n)).
  destruct (put_spec nr_id nr_name node_info N_name
    (λ r, mkNodeRow (nr_id r) (Node_Name n) (Node_APIAddr n) (Node_InboundTag n)
         (Node_PublicHost n) (Node_PublicPort n) (boolInt (Node_Enabled n)) (nr_created_at r))
    (mkNodeRow (seq_nodes t + 1) (Node_Name n) (Node_APIAddr n) (Node_InboundTag n)
      (Node_PublicHost n) (Node_PublicPort n) (boolInt (Node_Enabled n)) now) v (t_nodes t)) as (id & H1 & H2);
    try apply Hwf; try done; try (intros; unfold node_info, v; cbn; by destruct (Node_Enabled n)).
  { intros (r & E & Hr)%list_elem_of_fmap. pose proof (wf_node_seq _ Hwf r Hr). simpl in E. lia. }
  exists (NodePut id v). split; [by eexists|]. split; [exact H1|].
  unfold directory, effect, on_nodes. cbn [d_nodes]. rewrite <- H2. unfold upsert_node_rows.
  rewrite (update_rows_ext _ _ (λ r, mkNodeRow (nr_id r) (Node_Name n) (Node_APIAddr n) (Node_InboundTag n)
         (Node_PublicHost n) (Node_PublicPort n) (boolInt (Node_Enabled n)) (nr_created_at r))).
  - cbn [v N_name]. by destruct (existsb _ _).
  - intros r Hr. bool_simp. by rewrite Hr.
Qed.

Lemma mirrors_disable_node id :
  mirrors (eq (NodeDisabled id)) (λ t, inr (tt, with_nodes (update_rows (λ r, Z.eqb (nr_id r) id)
    (λ r, mkNodeRow (nr_id r) (nr_name r) (nr_api_addr r) (nr_inbound_tag r)
       (nr_public_host r) (nr_public_port r) 0 (nr_created_at r)) (t_nodes t)) (seq_nodes t) t)).
Proof.
  apply mirrors_run. intros t Hwf. split; [done|]. unfold directory. cbn. unfold on_nodes. f_equal.
  apply table_map_update; [intros r _; apply Z.eqb_eq|done..].
Qed.

Lemma with_placed_directory t un :
  directory (with_user_nodes un t) = on_placed (λ _, list_to_set un) (directory t).
Proof. done. Qed.

Lemma mirrors_insert_user_node u n : mirrors (eq (Placed u n)) (insert_user_node u n).
Proof.
  intros t Hwf. unfold insert_user_node. case_bool_decide as Hin; [|case_if].
  - exists (Placed u n). split; [done|]. split.
    + split; apply table_map_is_Some; [apply (wf_un_user _ Hwf (u, n))|apply (wf_un_node _ Hwf (u, n))]; done.
    + rewrite <- (with_user_nodes_id t) at 1. rewrite with_placed_directory. cbn [effect]. unfold on_placed.
      f_equal. apply set_eq. intros x. cbn. set_solver.
  - intros e <- [Hu Hn]. apply table_map_is_Some in Hu, Hn. apply orb_true_iff in Heqb as [Hb|Hb]; bool_simp; done.
  - bool_simp. exists (Placed u n). split; [done|]. split; [split; by apply table_map_is_Some|].
    rewrite with_placed_directory. cbn [effect]. unfold on_placed. f_equal. cbn.
    apply set_eq. intros x. set_solver.
Qed.

Lemma backfill_directory t x :
  wf_tables t → x ∈ backfill (directory t) ↔ x ∈ backfill_pairs t.
Proof.
  intros Hwf. destruct x as [u n]. rewrite elem_of_backfill_pairs. unfold backfill.
  rewrite elem_of_gset_cprod. cbn [fst snd directory d_accounts d_nodes d_placed].
  rewrite elem_of_difference, !elem_of_dom, table_map_is_Some, elem_of_map. setoid_rewrite elem_of_list_to_set.
  f_equiv; [|split].
  - split; intros [H1 H2]; (split; [done|]); intros Hm; apply H2.
    + destruct Hm as [m Hm]. by exists (u, m).
    + destruct Hm as ([u' m] & -> & Hm). by exists m.
  - intros [v [Hv Hb]%map_lookup_filter_Some]. apply lookup_table_map in Hv as (r & Hr & <- & <-); [|apply Hwf].
    exists r. cbn in Hb. split_and!; [done..|by apply Z.eqb_eq].
  - intros (r & Hr & <- & Hb). exists (node_info r). apply map_lookup_filter_Some.
    rewrite table_map_at by (done || apply Hwf). split; [done|]. cbn. by apply Z.eqb_eq.
Qed.

Lemma mirrors_backfill :
  mirrors (eq Backfilled) (λ t, inr (tt, with_user_nodes (t_user_nodes t ++ backfill_pairs t) t)).
Proof.
  apply mirrors_run. intros t Hwf. split; [done|]. rewrite with_placed_directory. cbn [effect].
  unfold on_placed. f_equal. apply set_eq. intros x. cbn [d_placed directory].
  rewrite list_to_set_app, !elem_of_union, !elem_of_list_to_set, backfill_directory by done. done.
Qed.

Lemma mirrors_unplace u n :
  mirrors (eq (Unplaced u n)) (λ t, inr (tt, with_user_nodes
    (delete_rows (λ un, Z.eqb un.1 u && Z.eqb un.2 n) (t_user_nodes t)) t)).
Proof.
  apply mirrors_run. intros t Hwf. split; [done|]. rewrite with_placed_directory. cbn [effect].
  unfold on_placed. f_equal. apply set_eq. intros [a b]. cbn [d_placed directory].
  rewrite elem_of_difference, elem_of_singleton, !elem_of_list_to_set, elem_of_delete_rows. cbn [fst snd].
  rewrite andb_false_iff, !Z.eqb_neq. split; [intros [[?|?] ?]; (split; [done|congruence])|].
  intros [Hx Hne]. split; [|done]. destruct (decide (a = u)) as [->|]; [right; congruence|by left].
Qed.
