(* ===== verification/DirectoryProps.v ===== *)
(** * The data-access layer implements the directory

    Every method of the database, from any well-formed tables and with any of
    its statements failing, takes the directory along allowed events, those it
    is for or, when it fails, the first of them. *)

From S2P Require Import Prelude GoString Json JsonDecode Models Schema Database DatabaseFacts.
From S2P Require Import DatabaseProps Directory DirectoryFacts.

Abbreviation dir db := (directory (db_tables db)).

(** ** Traces *)

Lemma trace_app d1 es1 d2 es2 d3 : trace d1 es1 d2 → trace d2 es2 d3 → trace d1 (es1 ++ es2) d3.
Proof. induction 1; [done|]. intros. simpl. constructor; auto. Qed.
Lemma trace_one e d : allowed e d → trace d [e] (effect e d).
Proof. intros. constructor; [done|constructor]. Qed.
Lemma trace_after d es d' : trace d es d' → d' = after es d.
Proof. induction 1 as [|d e es d' _ _ IH]; [done|exact IH]. Qed.

(** ** Computations that play events *)

(** Started here, the computation plays events that start a run in [I], the
    whole of one when it succeeds. *)
Definition plays {A} (db : DB) (I : list event → Prop) (m : M DB A) : Prop :=
  db_ok db → db_ok (m db).2 ∧ ∃ es rest, trace (dir db) es (dir (m db).2) ∧ I (es ++ rest) ∧
    match (m db).1 with inr _ => rest = [] | inl _ => True end.

Lemma plays_weaken {A} db (I J : list event → Prop) (m : M DB A) :
  plays db I m → (∀ es, I es → J es) → plays db J m.
Proof. intros Hm HIJ Hdb. destruct (Hm Hdb) as (? & es & rest & ? & ? & ?). eauto 8. Qed.
Lemma plays_ok {A} db I (m : M DB A) : (db_ok db → plays db I m) → plays db I m.
Proof. intros Hm Hdb. by apply Hm. Qed.
Lemma plays_ret {A} db (I : list event → Prop) (a : A) : I [] → plays db I (ret a).
Proof. intros HI Hdb. split; [done|]. exists [], []. split_and!; [constructor|done..]. Qed.
Lemma plays_Query {A} db (I : list event → Prop) (q : Tables → A) : I [] → plays db I (Query q).
Proof.
  intros HI Hdb. unfold Query. destruct (Exec_cases (λ t, inr (q t, t)) db) as [(a & t & [= <- <-] & ->)|[e ->]];
    (split; [done|]; exists [], []; split_and!; [constructor|done..]).
Qed.
Lemma plays_bind {A B} db (I1 I : list event → Prop) (m : M DB A) (k : A → M DB B) :
  plays db I1 m →
  (∀ a db1 es1, m db = (inr a, db1) → trace (dir db) es1 (dir db1) → I1 es1 →
     plays db1 (λ es2, I (es1 ++ es2)) (k a)) →
  (∀ es1, I1 es1 → ∃ es2, I (es1 ++ es2)) → plays db I (bind m k).
Proof.
  intros Hm Hk Hrest Hdb. destruct (Hm Hdb) as (Hdb1 & es & rest & Htr & HI & Hr).
  unfold bind. destruct (m db) as [[e|a] db1]; cbn [fst snd] in *.
  - split; [done|]. destruct (Hrest _ HI) as [es2 H2]. exists es, (rest ++ es2).
    by rewrite (assoc_L app).
  - subst rest. rewrite app_nil_r in HI.
    destruct (Hk a db1 es eq_refl Htr HI Hdb1) as (Hdb2 & es2 & rest2 & Htr2 & HI2 & Hr2).
    split; [done|]. exists (es ++ es2), rest2. rewrite <- (assoc_L app). split_and!; [|done..].
    by eapply trace_app.
Qed.
(** Reading something afterwards plays nothing more. *)
Lemma plays_then {A B} db (I : list event → Prop) (m : M DB A) (k : A → M DB B) :
  plays db I m → (∀ a db1, plays db1 (λ es, es = []) (k a)) → plays db I (bind m k).
Proof.
  intros Hm Hk. eapply plays_bind; [done| |].
  - intros a db1 es1 _ _ HI. eapply plays_weaken; [apply Hk|]. intros ? ->. by rewrite app_nil_r.
  - intros es1 HI. exists []. by rewrite app_nil_r.
Qed.
Lemma plays_wrap {A} db I msg (m : M DB A) : plays db I m → plays db I (wrap msg m).
Proof. unfold plays, wrap. intros Hm Hdb. specialize (Hm Hdb). by destruct (m db) as [[e|a] db1]. Qed.
Lemma plays_for {X} db (J : X → list event → Prop) (l : list X) body :
  (∀ x db, plays db (J x) (body x)) → (∀ x, ∃ es, J x es) →
  plays db (λ es, ∃ ess, es = concat ess ∧ Forall2 J l ess) (for_each l body).
Proof.
  intros Hbody HJ. revert db. induction l as [|x l IH]; intros db; simpl.
  { apply plays_ret. by exists []. }
  eapply plays_bind; [apply Hbody| |].
  - intros _ db1 es1 _ _ H1. eapply plays_weaken; [apply IH|]. intros es2 [ess [-> Hess]].
    exists (es1 :: ess). split; [done|by constructor].
  - intros es1 H1. assert (∃ ess, Forall2 J l ess) as [ess Hess].
    { clear IH. induction l as [|y l [ess Hess]]; [by exists []|]. destruct (HJ y) as [es Hes].
      exists (es :: ess). by constructor. }
    exists (concat ess), (es1 :: ess). split; [done|by constructor].
Qed.

(** A method that is one statement or one transaction: all or nothing, and
    nothing only when a statement fails or the event is not allowed. *)
Definition atomically {A} (I : event → Prop) (m : M DB A) : Prop := ∀ db, db_ok db →
  match m db with
  | (inr _, db') => ∃ e, I e ∧ allowed e (dir db) ∧ dir db' = effect e (dir db)
  | (inl _, db') => db_tables db' = db_tables db ∧
      (db_faults db = [] → ∀ e, I e → ¬ allowed e (dir db))
  end.

Lemma atomically_Exec {A} I (f : Tables → error + (A * Tables)) : mirrors I f → atomically I (Exec f).
Proof.
  intros Hf db Hdb. specialize (Hf _ Hdb). unfold Exec.
  destruct (db_faults db) as [|[] fs]; [|done|];
    destruct (f (db_tables db)) as [e|[a t]]; cbn [db_tables]; auto.
Qed.
Lemma atomically_Run e (f : Tables → Tables) :
  mirrors (eq e) (λ t, inr (tt, f t)) → atomically (eq e) (Run f).
Proof. apply atomically_Exec. Qed.
Lemma atomically_ret {A B} I (m : M DB A) (g : A → B) :
  atomically I m → atomically I (a <-- m;; ret (g a)).
Proof. intros Hm db Hdb. specialize (Hm db Hdb). unfold bind. by destruct (m db) as [[e|a] db1]. Qed.
Lemma atomically_settings e f :
  (∀ d, allowed e d) → (∀ d, effect e d = on_settings f d) →
  atomically (eq e) (Run (λ t, with_settings (f (t_settings t)) t)).
Proof. intros Ha He. apply atomically_Run, mirrors_run. intros t _. split; [done|by rewrite He]. Qed.
Lemma atomically_put k v : atomically (eq (SettingPut k v)) (put_setting k v).
Proof. by apply (atomically_settings (SettingPut k v) (insert k v)). Qed.

Lemma plays_atomically {A} I (m : M DB A) db :
  atomically I m → preserves db_ok m → (∃ e, I e) → plays db (λ es, ∃ e, es = [e] ∧ I e) m.
Proof.
  intros Hm Hp [e0 He0] Hdb. split; [by apply Hp|]. specialize (Hm db Hdb).
  destruct (m db) as [[e|a] db1]; cbn [fst snd].
  - destruct Hm as [-> _]. exists [], [e0]. split_and!; [constructor|by exists e0|done].
  - destruct Hm as (e & He & Ha & ->). exists [e], []. split_and!; [by apply trace_one|by exists e|done].
Qed.

(** ** The methods *)

Lemma atomically_SetUserNodes u ns : atomically (eq (PlacementSet u ns)) (SetUserNodes u ns).
Proof.
  intros [t faults] Hdb. pose proof (SetUserNodes_atomic t faults u ns) as H.
  assert (Hok : preserves db_ok (SetUserNodes u ns)).
  { apply preserves_transaction, preserves_bind; [apply preserves_Run; intros; by apply wf_delete_user_nodes|].
    intros; apply preserves_insert_user_nodes. }
  specialize (Hok _ Hdb). destruct (SetUserNodes u ns _) as [[e|[]] db']; destruct H as [H1 H2].
  - split; [done|]. cbn. intros -> _ <- Ha. cut (@inl _ unit e = inr tt); [done|]. apply H2; [done|].
    intros n Hn. destruct (Ha n Hn) as [Hu Hk]. by apply table_map_is_Some in Hu, Hk.
  - destruct H1 as (Ht & Hu & Hv). set (un := t_user_nodes (db_tables db')) in *.
    exists (PlacementSet u ns). split; [done|]. unfold db_ok in Hok. cbn [snd] in Hok. split.
    + intros n Hn. assert (Hin : (u, n) ∈ un) by (by apply Hu).
      pose proof (wf_un_user _ Hok _ Hin) as H3. pose proof (wf_un_node _ Hok _ Hin) as H4.
      rewrite Ht in H3, H4. split; by apply table_map_is_Some.
    + rewrite Ht, with_placed_directory. cbn [effect db_tables]. unfold on_placed. f_equal.
      apply set_eq. intros [v n]. cbn [d_placed directory].
      rewrite elem_of_union, elem_of_filter, !elem_of_list_to_set, list_elem_of_fmap.
      destruct (decide (v = u)) as [->|Hne]; [rewrite Hu|rewrite Hv by done]; split; naive_solver.
Qed.

Lemma atomically_iff {A} (I J : event → Prop) (m : M DB A) :
  (∀ e, I e ↔ J e) → atomically I m → atomically J m.
Proof.
  intros HIJ Hm db Hdb. specialize (Hm db Hdb). destruct (m db) as [[e|a] db'].
  - destruct Hm as [? Hm]. split; [done|]. intros Hf e' He'. by apply Hm, HIJ.
  - destruct Hm as (e & He%HIJ & ?). by exists e.
Qed.
Lemma atomically_eq {A} x (m : M DB A) : atomically (eq x) m → atomically (λ e, e = x) m.
Proof. apply atomically_iff. by split. Qed.
Lemma atomically_CreateUser now u m t f :
  atomically (one_event (OpCreateUser now u m t f)) (CreateUser now u m t f).
Proof. unfold CreateUser. apply atomically_ret, atomically_Exec, mirrors_new_user. Qed.
Lemma atomically_update_user id f c :
  (∀ r, ur_id (f r) = ur_id r) → (∀ r, account (f r) = changed c (account r)) →
  atomically (eq (Changed id c)) (update_user id f).
Proof. intros. by apply atomically_Exec, mirrors_update_user. Qed.
Lemma atomically_NewProfile now n d tags :
  atomically (one_event (OpCreateEmergencyProfile now n d tags)) (CreateEmergencyProfile now n d tags).
Proof. unfold CreateEmergencyProfile. apply atomically_ret, atomically_Exec, mirrors_new_profile. Qed.
Lemma atomically_UpdateProfile now id n d tags :
  atomically (eq (ProfileChanged id (mkProfile n d (marshal_tags tags)))) (UpdateEmergencyProfile now id n d tags).
Proof. unfold UpdateEmergencyProfile. apply atomically_ret, atomically_Exec, mirrors_update_profile. Qed.

Section Methods.
Context `{Clock}.

Lemma atomically_op op : atomic op = true → atomically (one_event op) (run_op op).
Proof.
destruct op; intros Ha; try discriminate Ha; cbn [run_op one_event];
  try (apply (atomically_ret _ _ (λ _, tt))); try apply atomically_eq;
  first [apply atomically_CreateUser|apply atomically_NewProfile|apply atomically_UpdateProfile
        |apply atomically_SetUserNodes|apply atomically_put
        |apply atomically_Run, mirrors_delete_user|apply atomically_Run, mirrors_drop_inbounds; done
        |apply atomically_Exec, mirrors_upsert_client|apply atomically_Run, mirrors_switch_client
        |apply atomically_Run, mirrors_drop_clients|apply atomically_Run, mirrors_drop_profile
        |apply atomically_Run, mirrors_backfill|apply atomically_Run, mirrors_unplace
        |by apply (atomically_settings (SettingsCleared ["balancer_runtime_config"]) (delete _))
        |by apply (atomically_settings (SettingsCleared _)
           (λ m, delete "emergency_active" (delete "emergency_profile_id" (delete "emergency_activated_at" m))))
        |apply atomically_update_user; by intros []
        |apply atomically_update_user; [done|]; intros []; cbn; by destruct enabled].
Qed.

Lemma one_event_ex op : atomic op = true → ∃ e, one_event op e.
Proof. by destruct op; intros Ha; try discriminate Ha; eexists; try exists 0%Z. Qed.

Lemma plays_put k v db : plays db (λ es, es = [SettingPut k v]) (put_setting k v).
Proof.
eapply plays_weaken; [apply (plays_atomically _ _ _ (atomically_put k v))|].
- apply preserves_put_setting.
- eauto.
- by intros es (e & -> & <-).
Qed.
Lemma plays_ActivateEmergency now id db :
  plays db (intended (OpActivateEmergency now id) (dir db)) (ActivateEmergency now id).
Proof.
unfold ActivateEmergency. eapply plays_bind; [apply plays_put| |].
- intros _ db1 es1 _ _ ->. eapply plays_bind; [apply plays_put| |].
  + intros _ db2 es2 _ _ ->. eapply plays_weaken; [apply plays_put|]. by intros es ->.
  + intros es2 ->. by eexists.
- intros es1 ->. by eexists.
Qed.

(** A put reads back the id of the row. *)
Lemma plays_put_row I (f : Tables → Tables) (q : Tables → option Z) db :
  mirrors I (λ t, inr (tt, f t)) → (∀ t, wf_tables t → wf_tables (f t)) → (∃ e, I e) →
  plays db (λ es, ∃ e, es = [e] ∧ I e) (Run f ;;; id <-- Query q;; id_or_no_rows id).
Proof.
intros Hm Hwf He. apply plays_then.
- apply plays_atomically; [by apply atomically_Exec|by apply preserves_Run|done].
- intros _ db1. apply plays_then; [by apply plays_Query|]. intros [id|] db2; [by apply plays_ret|].
  intros Hdb. split; [done|]. exists [], []. split_and!; [constructor|done..].
Qed.
Lemma plays_UpsertInbound now tag p port f raw db :
  plays db (intended (OpUpsertInbound now tag p port f raw) (dir db)) (UpsertInbound now tag p port f raw).
Proof.
apply plays_put_row; [apply mirrors_upsert_inbound|intros; by apply wf_upsert_inbound|].
exists (InboundPut 0 (mkInboundInfo tag p port f raw)). by exists 0%Z.
Qed.
Lemma is_put_ex n : ∃ e, is_put n e.
Proof. eexists. by exists 0%Z. Qed.
Lemma plays_UpsertNode now n db : plays db (λ es, ∃ e, es = [e] ∧ is_put n e) (UpsertNode now n).
Proof. apply plays_put_row; [apply mirrors_upsert_node|intros; by apply wf_upsert_node|apply is_put_ex]. Qed.

Lemma plays_Assign u ns db :
  plays db (intended (OpAssignUserToNodes u ns) (dir db)) (AssignUserToNodes u ns).
Proof.
eapply plays_weaken; [apply (plays_for _ (λ n es, es = [Placed u n]))|].
- intros n db1. eapply plays_weaken; [apply (plays_atomically (eq (Placed u n)))|].
  + apply atomically_Exec, mirrors_insert_user_node.
  + apply preserves_Exec. intros t [] t' Hwf. by apply wf_insert_user_node.
  + eauto.
  + by intros es (e & -> & <-).
- eauto.
- intros es [ess [-> Hess]]. cbn [intended]. induction Hess as [|n es ns ess -> _ IH]; [done|]. simpl. by rewrite IH.
Qed.

(** What a reconciliation switches off, read from the rows it lists. *)
Definition doomed (desired : list Node) (n : Node) : bool :=
  negb (bool_decide (Node_Name n ∈ Node_Name <$> desired) || negb (Node_Enabled n)).
Lemma doomed_vanished desired t id :
  wf_tables t →
  id ∈ Node_ID <$> bfilter (doomed desired) (map scan_node (stable_sort by_name (t_nodes t))) ↔
  vanished desired (directory t) id.
Proof.
intros Hwf. rewrite list_elem_of_fmap. setoid_rewrite elem_of_bfilter.
unfold vanished, doomed. cbn [directory d_nodes].
assert (Hbit : ∀ r, r ∈ t_nodes t → negb (Z.eqb (nr_enabled r) 0) = Z.eqb (nr_enabled r) 1).
{ intros r Hr. pose proof (wf_node_bits _ Hwf r Hr) as Hb.
  rewrite !elem_of_cons in Hb. by destruct Hb as [->|[->|[]%elem_of_nil]]. }
split.
- intros (n & -> & Hd & Hn). apply (list_elem_of_fmap scan_node) in Hn as (r & -> & Hr).
  apply elem_of_stable_sort in Hr. exists (node_info r). cbn in Hd |- *. rewrite Hbit in Hd by done.
  apply negb_true_iff, orb_false_iff in Hd as [H1%bool_decide_eq_false H2%negb_false_iff].
  split_and!; [|done..]. apply (table_map_at nr_id node_info); [apply Hwf|done].
- intros (v & Hv & He & Hno). apply lookup_table_map in Hv as (r & Hr & <- & <-); [|apply Hwf].
  exists (scan_node r). split; [done|]. split.
  + cbn in He, Hno |- *. rewrite Hbit, He by done. by rewrite bool_decide_eq_false_2.
  + by apply (list_elem_of_fmap_2 scan_node), elem_of_stable_sort.
Qed.
Lemma vanished_list desired d : ∃ ids : list Z, ∀ id, id ∈ ids ↔ vanished desired d id.
Proof.
exists (elements (dom (filter (λ kn, N_enabled kn.2 = true ∧ N_name kn.2 ∉ Node_Name <$> desired) (d_nodes d)))).
intros id. rewrite elem_of_elements, elem_of_dom. split.
- intros [n [Hn [H1 H2]]%map_lookup_filter_Some]. by exists n.
- intros (n & Hn & H1 & H2). exists n. by apply map_lookup_filter_Some.
Qed.
Lemma plays_upserts now desired db :
  plays db (Forall2 is_put desired)
    (for_each desired (λ n, wrap ("upsert node " +:+ Node_Name n) (UpsertNode now n) ;;; ret tt)).
Proof.
eapply plays_weaken; [apply (plays_for _ (λ n es, ∃ e, es = [e] ∧ is_put n e))|].
- intros n db1. apply plays_then; [apply plays_wrap, plays_UpsertNode|]. intros a db2. by apply plays_ret.
- intros n. destruct (is_put_ex n) as [e He]. by exists [e], e.
- intros es [ess [-> Hess]]. induction Hess as [|n es ns ess (e & -> & He) _ IH]; by constructor.
Qed.
Lemma plays_disables desired db :
  plays db (λ es, ∃ ids, es = NodeDisabled <$> ids ∧ ∀ id, id ∈ ids ↔ vanished desired (dir db) id)
    (existing <-- ListNodes;; for_each existing (λ n,
       if bool_decide (Node_Name n ∈ Node_Name <$> desired) || negb (Node_Enabled n) then ret tt
       else wrap ("disable vanished node " +:+ Node_Name n) (disable_node (Node_ID n)))).
Proof.
apply plays_ok. intros Hdb. eapply (plays_bind _ (λ es, es = [])); [by apply plays_Query| |].
- intros ns db1 es1 Hl _ ->. apply Query_inr in Hl as [-> Ht]. eapply plays_weaken.
  + apply (plays_for _ (λ n es, es = if doomed desired n then [NodeDisabled (Node_ID n)] else [])); [|eauto].
    intros n db2. unfold doomed. destruct (_ || _); cbn [negb]; [by apply plays_ret|]. apply plays_wrap.
    eapply plays_weaken; [apply (plays_atomically (eq (NodeDisabled (Node_ID n))))|].
    * apply atomically_Run, mirrors_disable_node.
    * apply preserves_Run. intros t Hwf. apply wf_update_nodes; try done. simpl. set_solver.
    * eauto.
    * by intros es (e & -> & <-).
  + cbv beta. set (ns := map scan_node _). intros es [ess [-> Hess]].
    exists (Node_ID <$> bfilter (doomed desired) ns). split.
    * cbn [app]. clearbody ns. induction Hess as [|n es ns ess -> _ IH]; [done|]. simpl. rewrite IH. by destruct (doomed desired n).
    * intros id. by apply doomed_vanished.
- intros es1 ->. destruct (vanished_list desired (dir db)) as [ids Hids]. by eexists _, ids.
Qed.
Lemma plays_ReconcileNodes now desired db :
  plays db (intended (OpReconcileNodes now desired) (dir db)) (ReconcileNodes now desired).
Proof.
eapply plays_bind; [apply plays_upserts| |].
- intros _ db1 puts _ Htr Hputs. eapply plays_weaken; [apply plays_disables|].
  intros es (ids & -> & Hids). exists puts, ids. split_and!; [done..|]. by rewrite <- (trace_after _ _ _ Htr).
- intros puts Hputs. destruct (vanished_list desired (after puts (dir db))) as [ids Hids].
  by exists (NodeDisabled <$> ids), puts, ids.
Qed.

Lemma plays_op op db : plays db (intended op (dir db)) (run_op op).
Proof.
assert (Hok := preserves_run_op op).
destruct (atomic op) eqn:Ha.
- eapply plays_weaken; [apply (plays_atomically _ _ _ (atomically_op op Ha) Hok (one_event_ex op Ha))|].
  intros es (e & -> & He). by destruct op; try discriminate Ha; exists e.
- destruct op; try discriminate Ha; clear Hok Ha; cbn [run_op].
  + apply plays_then; [apply plays_UpsertInbound|]. intros a db1. by apply plays_ret.
  + apply plays_ActivateEmergency.
  + apply plays_then; [apply plays_UpsertNode|]. intros a db1. by apply plays_ret.
  + apply plays_ReconcileNodes.
  + apply plays_Assign.
Qed.
End Methods.

(** ** Methods none of whose statements fails *)

Definition smooth {A} (m : M DB A) : Prop := ∀ t, ∃ a t', m (mkDB t []) = (inr a, mkDB t' []).
Lemma smooth_bind {A B} (m : M DB A) (k : A → M DB B) : smooth m → (∀ a, smooth (k a)) → smooth (bind m k).
Proof. intros Hm Hk t. destruct (Hm t) as (a & t1 & E). unfold bind. rewrite E. apply Hk. Qed.
Lemma smooth_ret {A} (a : A) : smooth (ret a).
Proof. intros t. by exists a, t. Qed.
Lemma smooth_Query {A} (q : Tables → A) : smooth (Query q).
Proof. intros t. by exists (q t), t. Qed.
Lemma smooth_Run f : smooth (Run f).
Proof. intros t. by exists tt, (f t). Qed.
Lemma smooth_wrap {A} msg (m : M DB A) : smooth m → smooth (wrap msg m).
Proof. intros Hm t. destruct (Hm t) as (a & t1 & E). exists a, t1. unfold wrap. by rewrite E. Qed.
Lemma smooth_for {X} (l : list X) body : (∀ x, smooth (body x)) → smooth (for_each l body).
Proof. intros Hb. induction l; simpl; [apply smooth_ret|]. by apply smooth_bind. Qed.
#[export] Hint Resolve smooth_bind smooth_ret smooth_Query smooth_Run smooth_wrap smooth_for : raven.

Lemma smooth_UpsertNode now n : smooth (UpsertNode now n).
Proof. intros t. destruct (UpsertNode_run now n t) as [id E]. by eexists _, _. Qed.
Lemma smooth_UpsertInbound now tag p port f raw : smooth (UpsertInbound now tag p port f raw).
Proof.
  intros t. unfold UpsertInbound, bind, Run, Query, Exec, inbound_id. cbn [db_faults db_tables tail].
  set (t' := upsert_inbound_rows _ _ _ _ _ _ t).
  assert (∃ i, i ∈ t_inbounds t' ∧ Inbound_Tag i = tag) as (i & Hi & E).
  { unfold t', upsert_inbound_rows. destruct (existsb _ _) eqn:E; simpl.
    - apply existsb_exists in E as (i & Hi & Et). eexists. split.
      + apply elem_of_update_rows. exists i. by rewrite list_elem_of_In, Et.
      + simpl. by apply String.eqb_eq.
    - eexists. rewrite elem_of_app, list_elem_of_singleton. split; [by right|done]. }
  destruct (List.find _ (t_inbounds t')) as [x|] eqn:Ef; [by eexists _, _|].
  rewrite find_None_iff in Ef. specialize (Ef i Hi). apply String.eqb_neq in Ef. done.
Qed.
#[export] Hint Resolve smooth_UpsertNode smooth_UpsertInbound : raven.

(** Placements that may all happen do happen. *)
Lemma trace_placed d u ns d' n :
  trace d (Placed u <$> ns) d' → n ∈ ns → known_user u d ∧ known_node n d.
Proof.
  revert d. induction ns as [|m ns IH]; intros d Htr Hn; [by apply not_elem_of_nil in Hn|].
  inversion Htr as [|? ? ? ? Ha Htr']; subst. apply elem_of_cons in Hn as [->|Hn]; [done|].
  apply (IH _ Htr' Hn).
Qed.

Section Refinement.
Context `{Clock}.

Lemma op_completes op t es d' :
  wf_tables t → intended op (directory t) es → trace (directory t) es d' →
  (run_op op (mkDB t [])).1 = inr tt.
Proof.
intros Hwf Hi Htr. destruct (atomic op) eqn:Ha.
- pose proof (atomically_op op Ha (mkDB t []) Hwf) as Hat.
  destruct (run_op op (mkDB t [])) as [[e|[]] db']; [exfalso|done].
  destruct Hat as [_ Hno]. assert (∃ e, es = [e] ∧ one_event op e) as (e0 & -> & He0)
    by (by destruct op; try discriminate Ha).
  inversion Htr; subst. by apply (Hno eq_refl e0).
- assert (Hs : ∀ m : M DB (), smooth m → (m (mkDB t [])).1 = inr tt).
  { intros m Hm. destruct (Hm t) as ([] & t' & E). by rewrite E. }
  destruct op; try discriminate Ha; cbn [run_op].
  + apply Hs. auto with raven.
  + apply Hs. unfold ActivateEmergency, put_setting. auto with raven.
  + apply Hs. auto with raven.
  + apply Hs. unfold ReconcileNodes, ListNodes, disable_node. apply smooth_bind; [auto with raven|].
    intros _. apply smooth_bind; [auto with raven|]. intros ns. apply smooth_for. intros n. case_if; auto with raven.
  + cbn [intended] in Hi. subst es. destruct (insert_user_nodes_total userID nodeIDs t) as [t' E].
    * intros n Hn. destruct (trace_placed _ _ _ _ _ Htr Hn) as [H1 H2]. by apply table_map_is_Some in H1, H2.
    * unfold AssignUserToNodes. by rewrite E.
Qed.

(** C3: The data-access layer implements the directory. Whatever method is
  called, on tables that satisfy the schema and with any of its statements
  failing, the directory goes along allowed events: the events the method is
  for when it succeeds, an initial part of them when it fails, and none when
  a method that is one statement or transaction fails. When no statement
  fails, a method whose events are allowed succeeds. *)
Theorem data_access_refines_directory t faults op :
  wf_tables t →
  let '(r, db') := run_op op (mkDB t faults) in
  (∃ es rest, trace (directory t) es (directory (db_tables db')) ∧
     intended op (directory t) (es ++ rest) ∧
     match r with inr _ => rest = [] | inl _ => atomic op = true → es = [] end) ∧
  (∀ es d', faults = [] → intended op (directory t) es → trace (directory t) es d' → r = inr tt).
Proof.
intros Hwf. pose proof (plays_op op (mkDB t faults) Hwf) as (_ & es & rest & Htr & Hi & Hr).
pose proof (λ Ha, atomically_op op Ha (mkDB t faults) Hwf) as Hat.
pose proof (λ es d', op_completes op t es d' Hwf) as Hc.
destruct (run_op op (mkDB t faults)) as [[e|a] db'] eqn:E; cbn [fst snd db_tables] in *.
- split; [|intros es' d' -> Hi' Htr'; by rewrite <- (Hc es' d' Hi' Htr'), E].
  destruct (atomic op) eqn:Ha; [|by exists es, rest].
  destruct (Hat eq_refl) as [-> _]. exists [], (es ++ rest). split_and!; [constructor|done..].
- split; [by exists es, rest|]. by destruct a.
Qed.
End Refinement.

(** Placing ann on a known node plays one event, on a missing one none. *)
Lemma data_access_refines_directory_witness :
  let H := DecimalClock in
  (run_op (OpSetUserNodes 1 [1%Z]) (mkDB sample [])).1 = inr tt ∧
  (run_op (OpSetUserNodes 1 [7%Z]) (mkDB sample [])).1 = inl fk_error ∧
  ∃ es, trace (directory sample) es (directory (db_tables (run_op (OpSetUserNodes 1 [7%Z]) (mkDB sample [])).2))
    ∧ es = [].
Proof.
  pose proof (@data_access_refines_directory DecimalClock sample [] (OpSetUserNodes 1 [7%Z]) wf_sample_tables) as Href.
  split; [reflexivity|]. split; [reflexivity|].
  destruct (run_op _ _) as [[e|a] db'] eqn:E; [|exfalso; vm_compute in E; discriminate E].
  destruct Href as [(es & rest & Htr & _ & Hes) _]. exists es. split; [done|by apply Hes].
Defined.
