(* ===== verification/DirectoryQueries.v ===== *)
(** * Reading the directory

    What the queries the server authenticates, serves and reconciles with
    answer, said in terms of the directory alone. *)

From S2P Require Import Prelude GoString Json JsonDecode Models Schema Database DatabaseFacts.
From S2P Require Import DatabaseProps Directory DirectoryFacts.

(** The user of a query is the account of an id. *)
Definition shows (u : User) (a : Account) : Prop :=
  User_Username u = A_name a ∧ User_Token u = A_token a
  ∧ User_Email u = (if String.eqb (TrimSpace (A_email a)) "" then A_name a else A_email a)
  ∧ User_FallbackToken u = default "" (A_fallback a) ∧ User_FallbackAccessedAt u = A_seen a
  ∧ User_Enabled u = A_enabled a ∧ User_Hy2Enabled u = A_hy2 a ∧ User_ClientRoutes u = A_routes a.
(** The answer to "which account has the key?". *)
Definition finds (d : Directory) (has : Z → Account → Prop) (r : error + option User) : Prop :=
  match r with
  | inr (Some u) => ∃ a, d_accounts d !! User_ID u = Some a ∧ has (User_ID u) a ∧ shows u a
  | inr None => ∀ id a, d_accounts d !! id = Some a → ¬ has id a
  | inl _ => False
  end.
(** A client of a query is the enabled grant of an inbound. *)
Definition granted (d : Directory) (user : Z) (c : UserClientFull) : Prop :=
  ∃ ib, d_grants d !! (user, UC_InboundID c) = Some (mkGrant (UC_ClientConfig c) true)
    ∧ d_inbounds d !! UC_InboundID c = Some ib ∧ UCF_InboundTag c = I_tag ib
    ∧ UCF_InboundProtocol c = I_protocol ib ∧ UCF_InboundPort c = I_port ib ∧ UCF_InboundRaw c = I_raw ib.
(** What a node should serve on an inbound. *)
Definition wants (d : Directory) (node : Z) (tag : string) (w : WantedClient) : Prop :=
  ∃ u a i ib, (u, node) ∈ d_placed d ∧ d_accounts d !! u = Some a ∧ A_enabled a = true
    ∧ d_grants d !! (u, i) = Some (mkGrant (Wanted_ClientConfig w) true)
    ∧ d_inbounds d !! i = Some ib ∧ I_tag ib = tag ∧ Wanted_Email w = A_email a.

Abbreviation answer m t := (m (mkDB t [])).1.

Lemma shows_scanUser r : shows (scanUser r) (account r).
Proof. by repeat split. Qed.
Lemma find_user_finds t p (has : Z → Account → Prop) :
  wf_tables t → (∀ r, p r = true ↔ has (ur_id r) (account r)) →
  finds (directory t) has (answer (find_user p) t).
Proof.
  intros Hwf Hp. unfold find_user, Query, Exec. cbn [db_faults db_tables fst].
  destruct (List.find p (t_users t)) as [r|] eqn:E; cbn [fmap option_fmap option_map finds].
  - apply find_Some_iff in E as [Hr Hpr]. exists (account r). split_and!.
    + by apply (table_map_at ur_id account); [apply Hwf|].
    + by apply Hp.
    + apply shows_scanUser.
  - rewrite find_None_iff in E. intros id a Ha. apply lookup_table_map in Ha as (r & Hr & <- & <-); [|apply Hwf].
    rewrite <- Hp, (E r Hr). done.
Qed.

Lemma elem_of_join_clients t uc ib :
  (uc, ib) ∈ join_clients t ↔
  uc ∈ t_user_clients t ∧ ib ∈ t_inbounds t ∧ uc_inbound_id uc = Inbound_ID ib.
Proof.
  unfold join_clients. rewrite list_elem_of_bind. split.
  - intros (uc' & (ib' & H & Hi)%list_elem_of_bind & Huc). apply list_elem_of_singleton in H as [= -> ->].
    apply elem_of_bfilter in Hi as [E%Z.eqb_eq Hi]. by rewrite E.
  - intros (Huc & Hib & E). exists uc. split; [|done]. apply list_elem_of_bind. exists ib.
    split; [by apply list_elem_of_singleton|]. apply elem_of_bfilter. by rewrite E, Z.eqb_refl.
Qed.
Lemma bfilter_key {R} (key : R → Z) (l : list R) k :
  NoDup (key <$> l) → k ∈ key <$> l → ∃ r, bfilter (λ r, Z.eqb (key r) k) l = [r].
Proof.
  induction l as [|x l IH]; intros Hd Hk; [by apply not_elem_of_nil in Hk|].
  rewrite fmap_cons in Hd, Hk. apply NoDup_cons in Hd as [Hx Hd]. simpl.
  destruct (Z.eqb_spec (key x) k) as [<-|Hne].
  - exists x. rewrite bfilter_none; [done|]. intros r Hr. apply Z.eqb_neq. intros E.
    apply Hx. rewrite <- E. by apply list_elem_of_fmap_2.
  - apply IH; [done|]. apply elem_of_cons in Hk as [->|Hk]; done.
Qed.
(** Every client row has its inbound. *)
Lemma join_clients_fst t : wf_tables t → fst <$> join_clients t = t_user_clients t.
Proof.
  intros Hwf. pose proof (wf_uc_inbound _ Hwf) as Hin. unfold join_clients.
  induction (t_user_clients t) as [|uc l IH]; [done|]. rewrite bind_cons, fmap_app, IH by set_solver.
  destruct (bfilter_key Inbound_ID (t_inbounds t) (uc_inbound_id uc)) as [ib ->]; [apply Hwf|set_solver|done].
Qed.
Lemma NoDup_user_rows t user l :
  wf_tables t → sublist l (join_clients t) → (∀ p, p ∈ l → uc_user_id p.1 = user) →
  NoDup ((λ p, uc_inbound_id p.1) <$> l).
Proof.
  intros Hwf Hl Hu.
  assert (Hd : NoDup (uc_pair <$> (fst <$> l))).
  { eapply sublist_NoDup; [apply (wf_uc_keys _ Hwf)|]. rewrite <- (join_clients_fst t Hwf).
    by apply fmap_sublist, fmap_sublist. }
  rewrite <- list_fmap_compose in Hd. clear Hl.
  induction l as [|p l IH]; [constructor|].
  apply NoDup_cons in Hd as [Hp Hd]. apply NoDup_cons.
  split; [|apply IH; [set_solver|done]]. intros (q & E & Hq)%list_elem_of_fmap. apply Hp.
  apply list_elem_of_fmap. exists q. split; [|done]. unfold uc_pair. cbn.
  rewrite E, (Hu p), (Hu q); set_solver.
Qed.
Lemma lookup_grant t u i cred :
  wf_tables t → d_grants (directory t) !! (u, i) = Some (mkGrant cred true) ↔
  ∃ uc, uc ∈ t_user_clients t ∧ uc_user_id uc = u ∧ uc_inbound_id uc = i
    ∧ uc_client_config uc = cred ∧ uc_enabled uc = 1%Z.
Proof.
  intros Hwf. cbn [directory d_grants]. rewrite lookup_table_map by apply (wf_uc_keys _ Hwf).
  unfold uc_pair, grant. split; intros (uc & H); exists uc.
  - destruct H as (Huc & [= <- <-] & [= <- E%Z.eqb_eq]). by split_and!.
  - destruct H as (Huc & <- & <- & <- & ->). by split_and!.
Qed.

Lemma GetUserClients_granted t user :
  wf_tables t →
  ∃ cs, answer (GetUserClients user) t = inr cs ∧ NoDup ((λ c : UserClientFull, UC_InboundID c) <$> cs) ∧
    (∀ c : UserClientFull, c ∈ cs → granted (directory t) user c) ∧
    ∀ i cred, d_grants (directory t) !! (user, i) = Some (mkGrant cred true) →
      ∃ c : UserClientFull, c ∈ cs ∧ UC_InboundID c = i ∧ UC_ClientConfig c = cred.
Proof.
  intros Hwf. eexists. split; [reflexivity|]. cbn [db_tables]. set (rows := bfilter _ (join_clients t)).
  assert (Hrows : ∀ uc ib, (uc, ib) ∈ rows ↔ uc_user_id uc = user ∧ uc_enabled uc = 1%Z ∧ (uc, ib) ∈ join_clients t).
  { intros uc ib. unfold rows. rewrite elem_of_bfilter, andb_true_iff, !Z.eqb_eq. cbn. tauto. }
  assert (Hin : ∀ c, c ∈ map scan_client (stable_sort clients_by_tag rows) ↔
    ∃ p, c = scan_client p ∧ p ∈ rows).
  { intros c. rewrite (list_elem_of_fmap scan_client). by setoid_rewrite elem_of_stable_sort. }
  split_and!.
  - change (map scan_client ?l) with (scan_client <$> l). rewrite <- list_fmap_compose.
    rewrite (list_fmap_ext _ (λ p, uc_inbound_id p.1)) by (by intros _ [] _).
    rewrite stable_sort_perm. apply (NoDup_user_rows t user); [done|apply bfilter_sublist|].
    by intros [uc ib] [Hu _]%Hrows.
  - intros c ([uc ib] & -> & (Hu & He & Hj)%Hrows)%Hin. apply elem_of_join_clients in Hj as (Huc & Hib & E).
    exists (inbound_info ib). cbn [scan_client UCF_UserClient UC_InboundID UC_ClientConfig].
    split_and!; [|rewrite E; by apply (table_map_at Inbound_ID inbound_info); [apply Hwf|]|done..].
    apply lookup_grant; [done|]. by exists uc.
  - intros i cred (uc & Huc & Hu & Hi & Hc & He)%lookup_grant; [|done].
    pose proof (wf_uc_inbound _ Hwf uc Huc) as (ib & E & Hib)%list_elem_of_fmap.
    exists (scan_client (uc, ib)). split; [|by split]. apply Hin. exists (uc, ib). split; [done|].
    apply Hrows. split_and!; [done..|]. by apply elem_of_join_clients.
Qed.
Lemma ListWanted_wants t node tag w :
  wf_tables t →
  (w ∈ match answer (ListWantedClientsForNode node tag) t with inr l => l | inl _ => [] end) ↔
  wants (directory t) node tag w.
Proof.
  intros Hwf. rewrite ListWantedClientsForNode_spec. unfold wants. split.
  - intros (uc & ib & u & Huc & Hib & Hu & E1 & E2 & Ht & H1 & H2 & Hp & ->).
    exists (ur_id u), (account u), (Inbound_ID ib), (inbound_info ib). cbn [Wanted_Email Wanted_ClientConfig].
    split_and!; [by apply elem_of_list_to_set| |cbn; by rewrite H1| | |done..].
    + by apply (table_map_at ur_id account); [apply Hwf|].
    + apply lookup_grant; [done|]. by exists uc.
    + by apply (table_map_at Inbound_ID inbound_info); [apply Hwf|].
  - intros (u & a & i & ib & Hp & Ha & He & Hg & Hi & Ht & Hm).
    apply elem_of_list_to_set in Hp. apply lookup_grant in Hg as (uc & Huc & Hu & E & Hc & Hb); [|done].
    apply lookup_table_map in Ha as (ru & Hru & <- & <-); [|apply Hwf].
    apply lookup_table_map in Hi as (rib & Hrib & <- & <-); [|apply Hwf].
    exists uc, rib, ru. apply Z.eqb_eq in He. destruct w as [m c]. cbn in Hc, Hm, Ht. subst.
    by split_and!.
Qed.

(** C13: The queries the server authenticates, serves and reconciles with
    answer from the directory: a subscription or fallback token, or an id,
    finds the account that has it and nobody else; the clients of a user are
    the enabled grants of the account, each once, with the data of the
    inbound; a node is to serve exactly the enabled grants of its inbound to
    the enabled accounts placed on it. *)
Theorem queries_read_directory t :
  wf_tables t → let d := directory t in
  (∀ token, finds d (λ _ a, A_token a = token) (answer (GetUserByToken token) t)) ∧
  (∀ token, token ≠ "" → finds d (λ _ a, A_fallback a = Some token) (answer (GetUserByFallbackToken token) t)) ∧
  (∀ id, finds d (λ id' _, id' = id) (answer (GetUserByID id) t)) ∧
  (∀ user, ∃ cs, answer (GetUserClients user) t = inr cs ∧
     NoDup ((λ c : UserClientFull, UC_InboundID c) <$> cs) ∧
     (∀ c : UserClientFull, c ∈ cs → granted d user c) ∧
     ∀ i cred, d_grants d !! (user, i) = Some (mkGrant cred true) →
       ∃ c : UserClientFull, c ∈ cs ∧ UC_InboundID c = i ∧ UC_ClientConfig c = cred) ∧
  (∀ node tag, ∃ ws, answer (ListWantedClientsForNode node tag) t = inr ws ∧
     ∀ w, w ∈ ws ↔ wants d node tag w).
Proof.
  intros Hwf d. split_and!.
  - intros token. apply find_user_finds; [done|]. intros r. apply String.eqb_eq.
  - intros token Hne. unfold GetUserByFallbackToken. rewrite (proj2 (String.eqb_neq _ _)) by done.
    apply find_user_finds; [done|]. intros r. cbn [account A_fallback].
    destruct (ur_fallback_token r); [rewrite String.eqb_eq|]; naive_solver.
  - intros id. apply find_user_finds; [done|]. intros r. apply Z.eqb_eq.
  - intros user. by apply GetUserClients_granted.
  - intros node tag. eexists. split; [reflexivity|]. intros w. by apply (ListWanted_wants t node tag w).
Qed.

(** The query on the sample finds ann by her token, and no other account. *)
Lemma queries_read_directory_witness :
  finds (directory sample) (λ _ a, A_token a = "tok-a") (answer (GetUserByToken "tok-a") sample) ∧
  (∃ a, d_accounts (directory sample) !! 1%Z = Some a ∧ A_name a = "ann") ∧
  d_grants (directory sample) !! (1, 1)%Z = Some (mkGrant "{}" false).
Proof.
  destruct (queries_read_directory sample wf_sample_tables) as (H1 & _).
  split; [apply H1|]. split; [by eexists|done].
Defined.
