(* ===== verification/Syncer.v ===== *)
(** * The synchroniser: [internal/syncer/syncer.go], [internal/syncer/status.go],
    [internal/syncer/token.go]

    One pass of [Sync] over the database, the host with its configuration
    directory, and the synchroniser's own health record. [now] is the value
    every [time.Now()] of the pass returns. The ticker, the file watcher and
    the log lines are not modelled; the mutex of the health record makes each
    of its operations one step. *)

From S2P Require Import Prelude GoString Json JsonDecode Models Config XrayTypes Parser.
From S2P Require Import ConfigWriter Admin Schema Database.
From Stdlib Require Import Ascii.

(** ** The health record *)

Record DriftEntry := mkDriftEntry { Drift_Username : string; Drift_InboundTag : string }.

(** Times are nanoseconds since 1970; this is [time.Time{}]. *)
Definition zero_time : Z := (-62135596800 * 1000000000)%Z.
Definition hour : Z := (3600 * 1000000000)%Z.
Definition errorRingSize : nat := 12.

(** The index of the first time stamp after the cutoff, 0 when there is none. *)
Fixpoint first_after (cutoff : Z) (i : nat) (timestamps : list Z) : nat :=
  match timestamps with
  | [] => 0
  | ts :: r => if (cutoff <? ts)%Z then i else first_after cutoff (S i) r
  end.
Definition push (t : Z) (timestamps : list Z) : list Z :=
  let timestamps := timestamps ++ [t] in
  let idx := first_after (t - hour) 0 timestamps in
  let timestamps := if Nat.ltb 0 idx then drop idx timestamps else timestamps in
  if Nat.ltb (errorRingSize * 4) (length timestamps)
  then drop (length timestamps - errorRingSize * 4) timestamps else timestamps.
Definition countSince (cutoff : Z) (timestamps : list Z) : nat :=
  length (bfilter (λ t, (cutoff <? t)%Z) timestamps).

Record statusState := mkStatusState {
  st_probeOK : bool; st_probeErr : string; st_lastAt : Z; st_lastOK : bool; st_lastErr : string;
  st_errors : list Z; st_dbUsers : Z; st_confUsers : Z; st_drift : list DriftEntry }.
Definition new_status : statusState := mkStatusState false "" zero_time false "" [] 0 0 [].

Record SyncStatus := mkSyncStatus {
  LastSyncAt : Z; LastSyncOK : bool; LastError : string; ErrorsLastHour : nat;
  DBUsers : Z; ConfigUsers : Z; Drift : list DriftEntry; ProbeOK : bool; ProbeError : string }.
Definition snapshot (now : Z) (s : statusState) : SyncStatus :=
  mkSyncStatus (st_lastAt s) (st_lastOK s) (st_lastErr s) (countSince (now - hour) (st_errors s))
    (st_dbUsers s) (st_confUsers s) (st_drift s) (st_probeOK s) (st_probeErr s).
Definition record_sync (at_ : Z) (ok : bool) (errMsg : string) (dbUsers confUsers : Z)
    (drift : list DriftEntry) (s : statusState) : statusState :=
  mkStatusState (st_probeOK s) (st_probeErr s) at_ ok errMsg
    (if ok then st_errors s else push at_ (st_errors s)) dbUsers confUsers drift.
Definition setProbe (ok : bool) (errMsg : string) (s : statusState) : statusState :=
  mkStatusState ok errMsg (st_lastAt s) (st_lastOK s) (st_lastErr s) (st_errors s) (st_dbUsers s)
    (st_confUsers s) (st_drift s).
(** [Probe]; [written] is the outcome of writing the probe file. *)
Definition Probe (cfg : Config) (written : option error) : statusState → statusState :=
  if String.eqb (C_ConfigDir cfg) "" then setProbe true ""
  else match written with Some e => setProbe false e | None => setProbe true "" end.

(** ** Names *)

Definition one_char (n : N) : string := String (ascii_of_N n) "".
(** The pairs of [strings.NewReplacer]: blank, tab, newline, return, the two
    quotes, the semicolon, the double dash. *)
Definition username_pairs : list (string * string) :=
  [(" ", "_"); (one_char 9, "_"); (one_char 10, ""); (one_char 13, ""); ("'", "");
   (one_char 34, ""); (";", ""); ("--", "")].
Definition sanitizeUsername (s : string) : string :=
  let result := Replace username_pairs (TrimSpace s) in
  if Nat.ltb 64 (String.length result) then String.substring 0 64 result else result.

Definition generateToken : M Host string := b <-- RandRead 32;; ret (Hex b).

(** The raw configuration of an inbound the server makes up. *)
Definition managed_protocol (protocol : string) : bool :=
  bool_decide (protocol ∈ ["vless"; "vmess"; "trojan"; "shadowsocks"]).
Definition managed_raw (tag protocol : string) (port : Z) : string :=
  let q := one_char 34 in
  "{" +:+ q +:+ "tag" +:+ q +:+ ":" +:+ q +:+ tag +:+ q +:+ "," +:+ q +:+ "protocol" +:+ q +:+ ":"
    +:+ q +:+ protocol +:+ q +:+ "," +:+ q +:+ "port" +:+ q +:+ ":" +:+ Itoa port +:+ "}".
Definition managed_port (cfg : Config) : Z :=
  if (C_APIUserInboundPort cfg <=? 0)%Z then 443 else C_APIUserInboundPort cfg.

(** The order in which [range] visits the map of parsed files. *)
Class FileOrder := {
  file_order : list (string * list ParsedInbound) → list (string * list ParsedInbound);
  file_order_perm : ∀ l, file_order l ≡ₚ l }.

(** [v, _ := m()]: the zero value when the call fails. *)
Definition or_zero {S A} (zero : A) (m : M S A) : M S A :=
  r <-- try m;; ret (match r with inr a => a | inl _ => zero end).
(** [if err := m(); err != nil { log }] *)
Definition logged {S A} (m : M S A) : M S () := try m ;;; ret tt.

Section Syncer.
Context {E : Type} `{HandlerService E} `{FileOrder} (cfg : Config) (now : Z).

Record SyncState := mkSyncState { sy_db : DB; sy_world : Host * E; sy_status : statusState }.
Definition sy_on_db {A} (m : M DB A) : M SyncState A := λ s,
let '(r, db) := m (sy_db s) in (r, mkSyncState db (sy_world s) (sy_status s)).
Definition sy_on_host {A} (m : M Host A) : M SyncState A := λ s,
let '(r, w) := on_host m (sy_world s) in (r, mkSyncState (sy_db s) w (sy_status s)).
Definition sy_on_engine {A} (m : M E A) : M SyncState A := λ s,
let '(r, w) := on_engine m (sy_world s) in (r, mkSyncState (sy_db s) w (sy_status s)).
Definition sy_record (f : statusState → statusState) : M SyncState () :=
modify (λ s, mkSyncState (sy_db s) (sy_world s) (f (sy_status s))).

(** ** Importing the configuration files *)

(** The user of an identity, created when there is none. *)
Definition find_or_create (identity : string) : M SyncState Z :=
found <-- wrap_err "lookup user" (sy_on_db (GetUserByUsername identity));;
match found with
| Some user => ret (User_ID user)
| None =>
    token <-- sy_on_host generateToken;;
    fallbackToken <-- sy_on_host generateToken;;
    user <-- wrap_err ("create user " +:+ identity)
               (sy_on_db (CreateUser now identity identity token fallbackToken));;
    ret (User_ID user)
end.
Definition syncClient (inboundID : Z) (client : ParsedClient) : M SyncState () :=
let identity := sanitizeUsername (PC_Identity client) in
if String.eqb identity "" then throw "empty client identity"
else
  userID <-- find_or_create identity;;
  sy_on_db (UpsertUserClient userID inboundID (PC_ConfigJSON client)).

(** The clients of an inbound; the number that were synced. *)
Fixpoint import_clients (inboundID : Z) (clients : list ParsedClient) : M SyncState nat :=
match clients with
| [] => ret 0%nat
| c :: r =>
    err <-- try (syncClient inboundID c);;
    n <-- import_clients inboundID r;;
    ret (match err with inl _ => n | inr _ => S n end)
end.

(** [totalInbounds] and [totalClients] of the inbounds of one file. *)
Fixpoint import_inbounds (file : string) (inbounds : list ParsedInbound) : M SyncState (nat * nat) :=
match inbounds with
| [] => ret (0%nat, 0%nat)
| ib :: r =>
    ibID <-- try (sy_on_db (UpsertInbound now (PI_Tag ib) (PI_Protocol ib) (PI_Port ib) file (PI_RawJSON ib)));;
    match ibID with
    | inl _ => import_inbounds file r
    | inr id =>
        n <-- import_clients id (PI_Clients ib);;
        rest <-- import_inbounds file r;;
        ret (S rest.1, n + rest.2)%nat
    end
end.

(** Inbounds of the file that are no longer in it. *)
Definition remove_stale (file : string) (inbounds : list ParsedInbound) : M SyncState () :=
removedTags <-- or_zero [] (sy_on_db (GetInboundTagsNotInFile file (map PI_Tag inbounds)));;
for_each removedTags (λ tag, logged (sy_on_db (DeleteInboundByTag tag))).

Fixpoint import_files (parsed : list (string * list ParsedInbound)) : M SyncState (nat * nat) :=
match parsed with
| [] => ret (0%nat, 0%nat)
| (file, inbounds) :: r =>
    remove_stale file inbounds ;;;
    n <-- import_inbounds file inbounds;;
    rest <-- import_files r;;
    ret (n.1 + rest.1, n.2 + rest.2)%nat
end.

(** ** Writing database users back to the files *)

Record Persisted := mkPersisted {
P_drift : list DriftEntry; P_firstSyncErr : string; P_dbUserTotal : Z; P_configUserHits : Z }.
Definition first_error (old new : error) : error := if String.eqb old "" then new else old.

Definition restore_user (u : UserClientForInbound) : RestoreUser :=
mkRestoreUser (XrayClientEmail u) (UCFI_ClientConfig u) (UCFI_Protocol u).

(** [xray.GetExistingIdentitiesInInbound] on the directory. *)
Definition existing_identities (dir tag : string) (h : Host) : error + gset string :=
match ParseConfigDir dir (ReadDir h dir) with
| inl e => inl ("parse config: " +:+ e)
| inr parsed => GetExistingIdentitiesInInbound (file_order parsed) tag
end.

Definition persist_inbound (ib : Inbound) (acc : Persisted) : M SyncState Persisted :=
users <-- or_zero [] (sy_on_db (ListUserClientsByInboundTag (Inbound_Tag ib)));;
match users with
| [] => ret acc
| _ =>
    let total := (P_dbUserTotal acc + Z.of_nat (length users))%Z in
    s <-- get;;
    match existing_identities (C_ConfigDir cfg) (Inbound_Tag ib) (sy_world s).1 with
    | inl e =>
        ret (mkPersisted (P_drift acc)
          (first_error (P_firstSyncErr acc) ("inbound " +:+ Inbound_Tag ib +:+ ": " +:+ e))
          total (P_configUserHits acc))
    | inr idents =>
        res <-- sy_on_host (SyncDBToConfig (C_ConfigDir cfg) (Inbound_Tag ib) (map restore_user users) idents);;
        let res := res.1 in
        ret (mkPersisted
          (P_drift acc ++ map (λ u, mkDriftEntry u (Inbound_Tag ib)) (Sync_FailedUsers res))
          (if String.eqb (Sync_FirstError res) "" then P_firstSyncErr acc
           else first_error (P_firstSyncErr acc) ("inbound " +:+ Inbound_Tag ib +:+ ": " +:+ Sync_FirstError res))
          total (P_configUserHits acc + Z.of_nat (size idents)))
    end
end.
Fixpoint persist_inbounds (inbounds : list Inbound) (acc : Persisted) : M SyncState Persisted :=
match inbounds with
| [] => ret acc
| ib :: r => acc <-- persist_inbound ib acc;; persist_inbounds r acc
end.
Definition persist_users : M SyncState Persisted :=
let none := mkPersisted [] "" 0 0 in
if String.eqb (TrimSpace (C_XrayAPIAddr cfg)) "" then ret none
else
  inbounds <-- or_zero [] (sy_on_db ListInbounds);;
  persist_inbounds inbounds none.

(** ** A pass *)

Definition syncXray : M SyncState () :=
s <-- get;;
match ParseConfigDirWith (C_ConfigDir cfg) (ReadDir (sy_world s).1 (C_ConfigDir cfg))
        (C_VLESSClientEncryption cfg) with
| inl e => throw ("parse config dir: " +:+ e)
| inr parsed =>
    import_files (file_order parsed) ;;;
    p <-- persist_users;;
    let ok := String.eqb (P_firstSyncErr p) "" && match P_drift p with [] => true | _ => false end in
    sy_record (record_sync now ok (P_firstSyncErr p) (P_dbUserTotal p) (P_configUserHits p) (P_drift p))
end.

(** The inbound of [api_user_inbound_tag] exists even without a file. *)
Definition ensure_api_inbound : M SyncState () :=
let tag := TrimSpace (C_APIUserInboundTag cfg) in
let protocol := TrimSpace (C_APIUserInboundProtocol cfg) in
if String.eqb tag "" || String.eqb protocol "" then ret tt
else
  inbounds <-- or_zero [] (sy_on_db ListInbounds);;
  if existsb (λ ib, String.eqb (Inbound_Tag ib) tag) inbounds then ret tt
  else
    let protocol := ToLower protocol in
    if managed_protocol protocol then
      logged (sy_on_db (UpsertInbound now tag protocol (managed_port cfg) "api-managed"
                          (managed_raw tag protocol (managed_port cfg))))
    else ret tt.

Definition Sync : M SyncState () :=
ensure_api_inbound ;;;
if IsXrayEnabled cfg then syncXray else ret tt.

(** ** Start-up *)

Definition restore_inbound (apiAddr : string) (ib : Inbound) : M SyncState () :=
users <-- try (sy_on_db (ListUserClientsByInboundTag (Inbound_Tag ib)));;
match users with
| inl _ | inr [] => ret tt
| inr users => sy_on_engine (RestoreUsersToXray apiAddr (Inbound_Tag ib) (map restore_user users))
end.
Definition RestoreOnStartup : M SyncState () :=
let apiAddr := TrimSpace (C_XrayAPIAddr cfg) in
if String.eqb apiAddr "" then ret tt
else
  inbounds <-- try (sy_on_db ListInbounds);;
  match inbounds with
  | inl _ => ret tt
  | inr inbounds => for_each inbounds (restore_inbound apiAddr)
  end.
End Syncer.
Arguments SyncState : clear implicits.

(** The interval of the periodic pass, in seconds. *)
Definition sync_interval (cfg : Config) : Z :=
  if (C_SyncInterval cfg <? 1)%Z then 60 else C_SyncInterval cfg.
