(* ===== verification/Watcher.v ===== *)
(** * When a pass runs: [Start] and [watch] of [internal/syncer/syncer.go]

    The two goroutines as one machine: the periodic ticker, and the watcher of
    the configuration directory with its debounce timer. What wakes them up is
    an event with its time; a step is the code between two waits. A pass is a
    parameter here, so that the machine composes with any state
    ([Users.syncer_Sync] is the one the server runs). Times are nanoseconds. *)

From S2P Require Import Prelude GoString.

Definition debounce : Z := (500 * 1000000)%Z.

Inductive event :=
  | PeriodicTick              (** [ticker.C] *)
  | FileEvent (name : string) (** [watcher.Events] *)
  | TimerFired                (** [debounce.C] *)
  | WatchError                (** [watcher.Errors] *)
  | WatchClosed               (** one of the watcher's channels is closed *)
  | Done.                     (** [ctx.Done()] *)

(** Whether the ticker loop runs; and the watcher's timer, [None] when its
    goroutine has returned, the deadline when the timer is armed. *)
Record Loops := mkLoops { ticking : bool; watching : option (option Z) }.

(** [fsnotify.NewWatcher] and [watcher.Add] may fail: then only the ticker is
    left. The timer is drained before the loop. *)
Definition Start (watcher_ok : bool) : Loops :=
  mkLoops true (if watcher_ok then Some None else None).

Section Machine.
Context {S : Type} (Sync : Z → S → S).

(** [None] when the event cannot happen: a goroutine has returned, or the timer
    is not due. *)
Definition watch (t : Z) (ev : event) (timer : option Z) (s : S) : option (option (option Z) * S) :=
  match ev with
  | FileEvent name => Some (Some (if HasSuffix name ".json" then Some (t + debounce)%Z else timer), s)
  | TimerFired =>
      match timer with
      | Some deadline => if (deadline <=? t)%Z then Some (Some None, Sync t s) else None
      | None => None
      end
  | WatchError => Some (Some timer, s)
  | WatchClosed => Some (None, s)
  | PeriodicTick | Done => None
  end.
Definition step (t : Z) (ev : event) (c : Loops * S) : option (Loops * S) :=
  let '(l, s) := c in
  match ev with
  | Done => Some (mkLoops false None, s)
  | PeriodicTick => if ticking l then Some (l, Sync t s) else None
  | _ =>
      timer ← watching l;
      '(w, s) ← watch t ev timer s;
      Some (mkLoops (ticking l) w, s)
  end.
Fixpoint loops_run (trace : list (Z * event)) (c : Loops * S) : option (Loops * S) :=
  match trace with
  | [] => Some c
  | (t, ev) :: r => c ← step t ev c; loops_run r c
  end.
End Machine.

(** ** What the machine guarantees *)

Definition is_change (ev : event) : bool :=
  match ev with FileEvent name => HasSuffix name ".json" | _ => false end.
Definition is_fired (ev : event) : bool := match ev with TimerFired => true | _ => false end.
(** The last change that no pass has followed yet. *)
Fixpoint last_change (trace : list (Z * event)) (before : option Z) : option Z :=
  match trace with
  | [] => before
  | (t, ev) :: r => last_change r (if is_change ev then Some t else if is_fired ev then None else before)
  end.
Definition count (p : event → bool) (trace : list (Z * event)) : nat :=
  length (bfilter (λ te, p te.2) trace).

Section Guarantees.
Context {S : Type} (Sync : Z → S → S).
Abbreviation armed c := ((λ t : Z, (t + debounce)%Z) <$> c).

(** The timer is what the pending change says. *)
Definition in_step (pending : option Z) (l : Loops) : Prop :=
  watching l = None ∨ watching l = Some (armed pending).

Lemma step_in_step t ev pending l s l' s' :
  in_step pending l → step Sync t ev (l, s) = Some (l', s') →
  in_step (last_change [(t, ev)] pending) l' ∧ (is_fired ev = true → ∃ c, pending = Some c ∧ (c + debounce <= t)%Z).
Proof.
  intros Hl Hs. destruct ev as [|name| | | |]; cbn in *.
  - destruct (ticking l); by simplify_eq.
  - destruct Hl as [Hl|Hl]; rewrite Hl in Hs; [done|]. cbn in Hs. simplify_eq. split; [|done]. right. cbn.
    by destruct (HasSuffix name ".json").
  - destruct Hl as [Hl|Hl]; rewrite Hl in Hs; [done|]. cbn in Hs. destruct pending as [c|]; [|done]. cbn in Hs.
    destruct (Z.leb_spec (c + debounce) t); [|done]. cbn in Hs. simplify_eq. split; [by right|]. intros _. by exists c.
  - destruct Hl as [Hl|Hl]; rewrite Hl in Hs; [done|]. cbn in Hs. simplify_eq. split; [by right|done].
  - destruct (watching l); [|done]. cbn in Hs. simplify_eq. split; [by left|done].
  - simplify_eq. split; [by left|done].
Qed.

Lemma last_change_cons t ev trace pending :
  last_change ((t, ev) :: trace) pending = last_change trace (last_change [(t, ev)] pending).
Proof. done. Qed.

Lemma run_in_step trace pending l s l' s' :
  in_step pending l → loops_run Sync trace (l, s) = Some (l', s') → in_step (last_change trace pending) l'.
Proof.
  revert pending l s. induction trace as [|[t ev] trace IH]; intros pending l s Hl Hr; cbn [loops_run] in Hr; [by simplify_eq|].
  destruct (step Sync t ev (l, s)) as [[l1 s1]|] eqn:Es; [|done]. cbn [mbind option_bind] in Hr.
  destruct (step_in_step _ _ _ _ _ _ _ Hl Es) as [Hl1 _]. rewrite last_change_cons. by eapply IH.
Qed.

Lemma loops_run_app trace1 trace2 c :
  loops_run Sync (trace1 ++ trace2) c = c ← loops_run Sync trace1 c; loops_run Sync trace2 c.
Proof.
  revert c. induction trace1 as [|[t ev] trace1 IH]; intros c; [done|]. cbn [app loops_run].
  destruct (step Sync t ev c) as [c1|]; [apply IH|done].
Qed.

(** A pass consumes a change: at most one pass for each, and one more for a
    change that was pending. *)
Lemma run_counts trace pending l s l' s' :
  in_step pending l → loops_run Sync trace (l, s) = Some (l', s') →
  count is_fired trace ≤ count is_change trace + match pending with Some _ => 1 | None => 0 end.
Proof.
  revert pending l s. induction trace as [|[t ev] trace IH]; intros pending l s Hl Hr; cbn [loops_run] in Hr; [cbn; lia|].
  destruct (step Sync t ev (l, s)) as [[l1 s1]|] eqn:Es; [|done]. cbn [mbind option_bind] in Hr.
  destruct (step_in_step _ _ _ _ _ _ _ Hl Es) as [Hl1 Hf]. specialize (IH _ _ _ Hl1 Hr).
  unfold count in *. cbn [bfilter last_change snd] in *.
  destruct ev as [|name| | | |]; cbn [is_change is_fired length] in *; try lia.
  - destruct (HasSuffix name ".json"); cbn [length] in *; [|lia]. destruct pending; lia.
  - destruct Hf as (c & -> & _); [done|]. lia.
Qed.

(** C18: No change of the configuration directory is forgotten, and a burst of
    changes is one pass. As long as the watcher lives its timer is armed
    exactly when a [.json] file changed after its last pass, for half a second
    after the latest change, and then it can fire; it never fires earlier, nor
    without a change; and it runs at most one pass for each change, so once the
    files stop changing at most one pass is left to run. *)
Theorem watcher_covers_changes ok trace s l' s' :
  loops_run Sync trace (Start ok, s) = Some (l', s') →
  (watching l' ≠ None → watching l' = Some (armed (last_change trace None))) ∧
  (watching l' ≠ None → ∀ c t, last_change trace None = Some c → (c + debounce <= t)%Z →
     step Sync t TimerFired (l', s') = Some (mkLoops (ticking l') (Some None), Sync t s')) ∧
  (∀ before t after, trace = before ++ (t, TimerFired) :: after →
     ∃ c, last_change before None = Some c ∧ (c + debounce <= t)%Z) ∧
  (∀ before quiet, trace = before ++ quiet → count is_change quiet = 0 → count is_fired quiet ≤ 1).
Proof.
  intros Hr. assert (H0 : in_step None (Start ok)) by (destruct ok; [by right|by left]).
  pose proof (run_in_step _ _ _ _ _ _ H0 Hr) as Hl. split_and!.
  - intros Hw. by destruct Hl.
  - intros Hw c t Hc Ht. destruct Hl as [|Hl]; [done|]. rewrite Hc in Hl. cbn in *. rewrite Hl. cbn.
    by rewrite (proj2 (Z.leb_le _ _) Ht).
  - intros before t after ->. rewrite loops_run_app in Hr.
    destruct (loops_run Sync before (Start ok, s)) as [[l1 s1]|] eqn:E1; [|done].
    cbn [mbind option_bind loops_run] in Hr. apply bind_Some in Hr as ([l2 s2] & Hs & _).
    destruct (step_in_step _ _ _ _ _ _ _ (run_in_step _ _ _ _ _ _ H0 E1) Hs) as [_ Hf]. by apply Hf.
  - intros before quiet -> Hq. rewrite loops_run_app in Hr.
    destruct (loops_run Sync before (Start ok, s)) as [[l1 s1]|] eqn:E1; [|done].
    cbn [mbind option_bind] in Hr. pose proof (run_counts _ _ _ _ _ _ (run_in_step _ _ _ _ _ _ H0 E1) Hr) as Hc. rewrite Hq in Hc.
    destruct (last_change before None); lia.
Qed.
End Guarantees.

(** A file is written twice within the half second: one pass, counted by the
    state, half a second after the second write. *)
Definition two_writes : list (Z * event) :=
  [(0%Z, FileEvent "/etc/xray/a.json"); (100%Z, FileEvent "/etc/xray/a.json.tmp");
   (200%Z, FileEvent "/etc/xray/a.json")].
Lemma watcher_covers_changes_witness :
  step (λ _ n, Datatypes.S n) (200 + debounce)%Z TimerFired
    (mkLoops true (Some (Some (200 + debounce)%Z)), 0) = Some (mkLoops true (Some None), 1).
Proof.
  pose proof (watcher_covers_changes (λ _ n, Datatypes.S n) true two_writes 0
    (mkLoops true (Some (Some (200 + debounce)%Z))) 0 eq_refl) as (_ & Hf & _).
  apply (Hf ltac:(done) 200%Z); [reflexivity|lia].
Defined.
