(* ===== verification/Server.v ===== *)
(** * The HTTP server's shared parts: [internal/api/server.go]

    A handler is a computation over the server's state ([State]): the
    database, the host with its random source, the running engines and the
    per-node status. It ends with a value, which the handler writes as JSON,
    or with a [Status], the pair that [jsonError] sends. The router, the
    headers and the log are not modelled; time stands still during a request
    ([now]). *)

From S2P Require Import Prelude GoString Json JsonDecode Net Models Config Schema Database.
From S2P Require Import XrayTypes Parser ConfigWriter Admin Syncer.
From Stdlib Require Import Ascii.

Record Request := mkRequest {
  R_Vars : gmap string string;        (** the route variables of gorilla/mux *)
  R_Query : gmap string string;       (** the first value of each query key *)
  R_Headers : gmap string string; R_UserAgent : string; R_RemoteAddr : string;
  R_Fallback : bool;                  (** [ctxFallbackKey] in the context *)
  R_Body : string }.

Definition Vars (r : Request) (k : string) : string := default "" (R_Vars r !! k).
Definition QueryGet (r : Request) (k : string) : string := default "" (R_Query r !! k).
Definition HeaderGet (r : Request) (k : string) : string := default "" (R_Headers r !! k).

Record Status := mkStatus { Code : Z; Msg : string }.
Definition StatusBadRequest : Z := 400.
Definition StatusUnauthorized : Z := 401.
Definition StatusForbidden : Z := 403.
Definition StatusNotFound : Z := 404.
Definition StatusConflict : Z := 409.
Definition StatusInternalServerError : Z := 500.
Definition StatusServiceUnavailable : Z := 503.

(** ** Handlers *)

Definition H (S A : Type) : Type := S → (Status + A) * S.
Definition hret {S A} (a : A) : H S A := λ s, (inr a, s).
Definition jsonError {S A} (msg : string) (code : Z) : H S A := λ s, (inl (mkStatus code msg), s).
Definition hbind {S A B} (m : H S A) (k : A → H S B) : H S B := λ s,
  match m s with (inl e, s') => (inl e, s') | (inr a, s') => k a s' end.
Notation "x <== m ;; k" := (hbind m (λ x, k))
  (at level 100, m at next level, right associativity) : raven_scope.

(** A call whose error the handler inspects, and one it answers with a status. *)
Definition attempt {S A} (m : M S A) : H S (error + A) := λ s, let '(r, s') := m s in (inr r, s').
Definition or_fail {S A} (m : M S A) (answer : error → Status) : H S A := λ s,
  match m s with (inl e, s') => (inl (answer e), s') | (inr a, s') => (inr a, s') end.
(** [jsonError(w, err.Error(), http.StatusInternalServerError)] *)
Definition or_500 {S A} (m : M S A) : H S A := or_fail m (mkStatus StatusInternalServerError).
Definition or_400 {S A} (r : error + A) : H S A :=
  match r with inl e => jsonError e StatusBadRequest | inr a => hret a end.

(** ** The state *)

Record nodeSyncStatus := mkNodeSyncStatus {
  NS_Reachable : bool; NS_LastApplyOK : bool; NS_UsersTarget : Z; NS_UsersPresent : Z;
  NS_ApplyErrors : Z; NS_LastReconcileAt : Z; NS_LastError : string }.

(** The synchroniser as the server sees it: its health record, the passes
    that [go Sync()] has started and that have not run yet, and the decisions
    of the Go scheduler at the next [go] statements: [true] runs the goroutine
    before its caller goes on, [false] (and the end of the list) later. *)
Record Background := mkBackground {
  bg_status : statusState; bg_pending : nat; bg_schedule : list bool }.

Record State (E : Type) := mkState {
  sv_db : DB; sv_world : Host * E; sv_nodeStatus : gmap string nodeSyncStatus;
  sv_fallbackDenied : Z; sv_background : Background }.
Arguments mkState {E}. Arguments sv_db {E}. Arguments sv_world {E}. Arguments sv_nodeStatus {E}.
Arguments sv_fallbackDenied {E}. Arguments sv_background {E}.

Section Lenses.
Context {E : Type}.
Definition on_db {A} (m : M DB A) : M (State E) A := λ s,
let '(r, db) := m (sv_db s) in (r, mkState db (sv_world s) (sv_nodeStatus s) (sv_fallbackDenied s) (sv_background s)).
Definition on_world {A} (m : M (Host * E) A) : M (State E) A := λ s,
let '(r, w) := m (sv_world s) in (r, mkState (sv_db s) w (sv_nodeStatus s) (sv_fallbackDenied s) (sv_background s)).
Definition on_syncer {A} (m : M (SyncState E) A) : M (State E) A := λ s,
  let bg := sv_background s in
  let '(r, y) := m (mkSyncState (sv_db s) (sv_world s) (bg_status bg)) in
  (r, mkState (sy_db y) (sy_world y) (sv_nodeStatus s) (sv_fallbackDenied s)
        (mkBackground (sy_status y) (bg_pending bg) (bg_schedule bg))).
Definition random {A} (m : M Host A) : M (State E) A := on_world (λ w, let '(r, h) := m w.1 in (r, (h, w.2))).

(** ** Requests *)

Definition maxRequestBodyBytes : nat := 512 * 1024.
(** [json.NewDecoder(limitRequestBody(r)).Decode(&v)]: the first JSON value
  of the first 512 KB. *)
Definition limitRequestBody (r : Request) : string := String.substring 0 maxRequestBodyBytes (R_Body r).
Definition Decode {A} (d : decoder A) (s : string) : error + A :=
match parse_val (2 + 2 * String.length s) s with
| Some (v, _) => decode d v
| None => inl json_error
end.
Definition decode_body {A} (d : decoder A) (r : Request) : H (State E) A :=
match Decode d (limitRequestBody r) with
| inl _ => jsonError "invalid json body" StatusBadRequest
| inr a => hret a
end.

Definition getByID (r : Request) : H (State E) User :=
let idStr := TrimSpace (Vars r "id") in
if String.eqb idStr "" then jsonError "invalid id" StatusBadRequest
else
  user <== or_500 (on_db (match ParseInt idStr with
                          | Some id => GetUserByID id
                          | None => GetUserByUsername idStr
                          end));;
  match user with None => jsonError "user not found" StatusNotFound | Some u => hret u end.

Definition generateToken : M (State E) string := b <-- random (RandRead 32);; ret (Hex b).
Definition generateRouteID : M (State E) string := b <-- random (RandRead 8);; ret (Hex b).
End Lenses.

Definition username_char (c : ascii) : bool :=
  is_upper c || is_lower c || is_digit c
  || is_char c 95 || is_char c 46 || is_char c 64 || is_char c 45.
Definition usernameValid (s : string) : bool :=
  string_forallb username_char s && Nat.leb 1 (String.length s) && Nat.leb (String.length s) 64.
Definition validateUsername (s : string) : error + () :=
  let s := TrimSpace s in
  if String.eqb s "" then inl "username required"
  else if usernameValid s then inr tt
  else inl "username must be 1–64 chars: letters, digits, underscore, hyphen, at, dot".

(** Limit, offset and whether the query asks for a page. *)
Definition parsePagination (r : Request) : Z * Z * bool :=
  let limitStr := QueryGet r "limit" in
  let offsetStr := QueryGet r "offset" in
  if String.eqb limitStr "" && String.eqb offsetStr "" then (0%Z, 0%Z, false)
  else
    let limit := match Atoi limitStr with
      | Some n => if (0 <? n)%Z then if (100 <? n)%Z then 100%Z else n else 50%Z
      | None => 50%Z
      end in
    let offset := match Atoi offsetStr with
      | Some n => if (0 <=? n)%Z then n else 0%Z
      | None => 0%Z
      end in
    (limit, offset, true).

(** The middleware of [/api]: [None] lets the request through. *)
Definition adminAuth (cfg : Config) (r : Request) : option Status :=
  if String.eqb (C_AdminToken cfg) "" then
    Some (mkStatus StatusServiceUnavailable "admin API disabled: admin_token not configured")
  else if String.eqb (HeaderGet r "X-Admin-Token") (C_AdminToken cfg) then None
  else Some (mkStatus StatusUnauthorized "unauthorized").

Definition effectiveHost (cfg : Config) (r : Request) : string :=
  if R_Fallback r && negb (String.eqb (C_FallbackServerHost cfg) "") then C_FallbackServerHost cfg
  else C_ServerHost cfg.
Definition effectiveInboundHosts (cfg : Config) (r : Request) : gmap string string :=
  match R_Fallback r, C_FallbackInboundHosts cfg with
  | true, Some hosts => hosts
  | _, _ => C_InboundHosts cfg
  end.

Definition requestFromLoopback (r : Request) : bool :=
  let host := match SplitHostPort (R_RemoteAddr r) with Some (h, _) => h | None => R_RemoteAddr r end in
  match ParseIP host with Some ip => IsLoopback ip | None => false end.

(** [firstNonEmptyString]: the first value that is not blank. *)
Definition firstNonEmptyString (values : list string) : string :=
  default "" (List.find (λ v, negb (String.eqb (TrimSpace v) "")) values).

(** The engine backend the configuration selects. *)
Definition buildAdmin {E} `{HandlerService E} (cfg : Config) : AdminAPI (Host * E) :=
  match C_Nodes cfg with
  | [] =>
      let apiAddr := TrimSpace (C_XrayAPIAddr cfg) in
      if String.eqb apiAddr "" then NewFileAdmin (C_ConfigDir cfg)
      else NewGRPCAdmin apiAddr (C_ConfigDir cfg)
  | nodes => NewFanoutAdmin (map (λ n, mkNamedAdmin (NC_Name n) (NewGRPCAdmin (NC_APIAddr n) ""))
               (bfilter IsEnabled nodes))
  end.
