(* ===== verification/Routes.v ===== *)
(** * Routing rules and balancer settings: the route handlers of [internal/api/server.go]

    The per-user rules are stored as JSON in the user's row, the global rules
    and the balancer override in the settings table. A handler returns what it
    writes as JSON: the index, the rule concerned and the new list. *)

From S2P Require Import Prelude GoString Json JsonDecode Models Config Schema Database.
From S2P Require Import ConfigWriter Server.
From Stdlib Require Import Ascii.

Definition parseUserRoutes (raw : string) : error + list UserRouteRule :=
  let raw := TrimSpace raw in
  if String.eqb raw "" then inr [] else Unmarshal (d_list decode_UserRouteRule) raw.

Definition no_effective_fields (rule : UserRouteRule) : bool :=
  match Route_Domain rule, Route_IP rule, Route_Protocol rule, Route_InboundTag rule with
  | [], [], [], [] =>
      String.eqb (TrimSpace (Route_Network rule)) "" && String.eqb (TrimSpace (Route_Port rule)) ""
  | _, _, _, _ => false
  end.

(** The first selector that is in the wrong list. *)
Fixpoint bad_selector (wrong : string) (msg : string → error) (l : list string) : option error :=
  match l with
  | [] => None
  | d :: r =>
      let v := TrimSpace (ToLower d) in
      if HasPrefix v wrong then Some (msg d)
      else if HasPrefix v "geositeip:" then
        Some ("invalid selector " +:+ Quote d +:+ "; use geosite:... in domain or geoip:... in ip")
      else bad_selector wrong msg r
  end.
Definition bracketed (kind selector : string) : string :=
  kind +:+ ":[" +:+ String Json.quote_char (selector +:+ String Json.quote_char "]").
Definition validateRouteSelectors (rule : UserRouteRule) : option error :=
  match bad_selector "geoip:" (λ d, "domain contains geoip selector " +:+ Quote d
          +:+ "; use " +:+ bracketed "ip" "geoip:...") (Route_Domain rule) with
  | Some e => Some e
  | None => bad_selector "geosite:" (λ ip, "ip contains geosite selector " +:+ Quote ip
          +:+ "; use " +:+ bracketed "domain" "geosite:...") (Route_IP rule)
  end.

Definition allowed_target (rule : UserRouteRule) : bool :=
  let tag := ToLower (TrimSpace (Route_OutboundTag rule)) in
  String.eqb tag "direct" || String.eqb tag "proxy" || String.eqb tag "block".

(** What is wrong with rule number [i], the ids before it being [seen]. *)
Definition rule_error (i : Z) (seen : list string) (rule : UserRouteRule) : option error :=
  let at_ := "rules[" +:+ Itoa i +:+ "]" in
  if negb (String.eqb (TrimSpace (Route_ID rule)) "") && bool_decide (Route_ID rule ∈ seen) then
    Some (at_ +:+ ".id must be unique")
  else if negb (allowed_target rule) then
    Some (at_ +:+ ".outboundTag must be one of: direct, proxy, block")
  else if no_effective_fields rule then Some (at_ +:+ " has no effective fields")
  else if negb (String.eqb (Route_Type rule) "")
          && negb (String.eqb (ToLower (TrimSpace (Route_Type rule))) "field") then
    Some (at_ +:+ ".type must be 'field' or empty")
  else match validateRouteSelectors rule with
       | Some e => Some (at_ +:+ " " +:+ e)
       | None => None
       end.
Fixpoint validate_from (i : Z) (seen : list string) (rules : list UserRouteRule) : option error :=
  match rules with
  | [] => None
  | rule :: r =>
      match rule_error i seen rule with
      | Some e => Some e
      | None => validate_from (i + 1)
                  (if String.eqb (TrimSpace (Route_ID rule)) "" then seen else Route_ID rule :: seen) r
      end
  end.
Definition validateUserRoutes (rules : list UserRouteRule) : option error := validate_from 0 [] rules.

Definition with_route_id (rule : UserRouteRule) (id : string) : UserRouteRule :=
  mkUserRouteRule id (Route_Type rule) (Route_OutboundTag rule) (Route_Domain rule) (Route_IP rule)
    (Route_Network rule) (Route_Port rule) (Route_Protocol rule) (Route_InboundTag rule).
Definition blank_id (rule : UserRouteRule) : bool := String.eqb (TrimSpace (Route_ID rule)) "".

Fixpoint find_index (i : Z) (p : UserRouteRule → bool) (rules : list UserRouteRule) : Z :=
  match rules with
  | [] => (-1)%Z
  | r :: rest => if p r then i else find_index (i + 1) p rest
  end.
Definition findRouteIndexByID (rules : list UserRouteRule) (routeID : string) : Z :=
  find_index 0 (λ r, String.eqb (TrimSpace (Route_ID r)) routeID) rules.

(** A single rule, bare or as the member [rule] of an object. *)
Definition looks_like_rule (rule : UserRouteRule) : bool :=
  negb (String.eqb (Route_OutboundTag rule) "") || negb (String.eqb (Route_Type rule) "")
  || negb (Nat.eqb (length (Route_Domain rule) + length (Route_IP rule) + length (Route_Protocol rule)
                    + length (Route_InboundTag rule)) 0)
  || negb (String.eqb (Route_Network rule) "") || negb (String.eqb (Route_Port rule) "").
Definition d_wrapped_rule : decoder UserRouteRule := λ j,
  kvs <~ d_object j;; d_field decode_UserRouteRule "rule" kvs.
Definition decodeUserRouteFromBody (data : string) : error + UserRouteRule :=
  let wrapped := match Unmarshal d_wrapped_rule data with
    | inr rule => if String.eqb (Route_OutboundTag rule) "" then inl "invalid json body" else inr rule
    | inl _ => inl "invalid json body"
    end in
  match Unmarshal decode_UserRouteRule data with
  | inr rule => if looks_like_rule rule then inr rule else wrapped
  | inl _ => wrapped
  end.

(** A whole list: the member [rules] of an object, or a bare array; [None] is
    the nil slice that the body [null] leaves. *)
Definition d_rules : decoder (option (list UserRouteRule)) := λ j,
  kvs <~ d_object j;; d_field (d_slice decode_UserRouteRule) "rules" kvs.
Definition decode_rules_payload (body : string) : error + option (list UserRouteRule) :=
  match Unmarshal d_rules body with
  | inr (Some rules) => inr (Some rules)
  | _ => match Unmarshal (d_slice decode_UserRouteRule) body with
         | inr raw => inr raw
         | inl _ => inl "invalid json body"
         end
  end.
(** [json.Marshal(rules)] *)
Definition marshal_slice (rules : option (list UserRouteRule)) : string :=
  match rules with Some rules => marshal_routes rules | None => json_marshal JNull end.

Definition parseRouteIndex (r : Request) : error + Z :=
  match Atoi (Vars r "index") with Some i => inr i | None => inl "invalid route index" end.

Definition in_range (index : Z) (rules : list UserRouteRule) : bool :=
  (0 <=? index)%Z && (index <? Z.of_nat (length rules))%Z.
(** [rules[index] = rule] and [append(rules[:index], rules[index+1:]...)] *)
Definition set_at (index : Z) (rule : UserRouteRule) (rules : list UserRouteRule) : list UserRouteRule :=
  <[Z.to_nat index := rule]> rules.
Definition remove_at (index : Z) (rules : list UserRouteRule) : list UserRouteRule :=
  delete (Z.to_nat index) rules.

(** [index], [rule] or [removed], and [rules] of the JSON answers. *)
Record RouteReply := mkRouteReply {
  Reply_Index : Z; Reply_Rule : UserRouteRule; Reply_Rules : list UserRouteRule }.

Section Routes.
Context {E : Type} (cfg : Config) (now : Z).

(** Fresh ids for the rules without one; [true] when there were any. *)
Fixpoint assignRouteIDs (rules : list UserRouteRule) : M (State E) (list UserRouteRule * bool) :=
match rules with
| [] => ret ([], false)
| rule :: r =>
    if blank_id rule then
      id <-- generateRouteID;; rest <-- assignRouteIDs r;;
      ret (with_route_id rule id :: rest.1, true)
    else
      rest <-- assignRouteIDs r;; ret (rule :: rest.1, rest.2)
end.

Definition assign_slice (rules : option (list UserRouteRule)) : M (State E) (option (list UserRouteRule)) :=
match rules with
| Some rules => assigned <-- assignRouteIDs rules;; ret (Some assigned.1)
| None => ret None
end.

Definition saveUserRoutes (userID : Z) (rules : option (list UserRouteRule)) : M (State E) () :=
on_db (UpdateUserClientRoutes now userID (marshal_slice rules)).

(** The start of the handlers: the stored rules, every one with an id; ids
  assigned here are saved at once. *)
Definition stored_rules (user : User) : H (State E) (list UserRouteRule) :=
match parseUserRoutes (User_ClientRoutes user) with
| inl e => jsonError ("invalid stored routes: " +:+ e) StatusInternalServerError
| inr rules =>
    assigned <== or_500 (assignRouteIDs rules);;
    let '(rules, changed) := assigned in
    _ <== (if changed then or_500 (saveUserRoutes (User_ID user) (Some rules)) else hret tt);;
    hret rules
end.

Definition checked (rules : list UserRouteRule) : H (State E) () :=
match validateUserRoutes rules with Some e => jsonError e StatusBadRequest | None => hret tt end.

Definition getUserRoutes (r : Request) : H (State E) (list UserRouteRule) :=
user <== getByID r;; stored_rules user.

Definition setUserRoutes (r : Request) : H (State E) (option (list UserRouteRule)) :=
user <== getByID r;;
rules <== or_400 (decode_rules_payload (limitRequestBody r));;
_ <== checked (default [] rules);;
rules <== or_500 (assign_slice rules);;
_ <== or_500 (saveUserRoutes (User_ID user) rules);;
hret rules.

Definition addUserRoute (r : Request) : H (State E) RouteReply :=
user <== getByID r;;
rule <== or_400 (decodeUserRouteFromBody (limitRequestBody r));;
_ <== checked [rule];;
rule <== (if blank_id rule then id <== or_500 generateRouteID;; hret (with_route_id rule id)
          else hret rule);;
rules <== stored_rules user;;
let rules := rules ++ [rule] in
_ <== or_500 (saveUserRoutes (User_ID user) (Some rules));;
hret (mkRouteReply (Z.of_nat (length rules) - 1) rule rules).

Definition updateUserRoute (r : Request) : H (State E) RouteReply :=
user <== getByID r;;
index <== or_400 (parseRouteIndex r);;
rule <== or_400 (decodeUserRouteFromBody (limitRequestBody r));;
_ <== checked [rule];;
rules <== stored_rules user;;
if negb (in_range index rules) then jsonError "route index out of range" StatusNotFound
else
  let rule := if blank_id rule
    then with_route_id rule (default "" (Route_ID <$> rules !! Z.to_nat index)) else rule in
  rule <== (if blank_id rule then id <== or_500 generateRouteID;; hret (with_route_id rule id)
            else hret rule);;
  let rules := set_at index rule rules in
  _ <== or_500 (saveUserRoutes (User_ID user) (Some rules));;
  hret (mkRouteReply index rule rules).

Definition updateUserRouteByID (r : Request) : H (State E) RouteReply :=
user <== getByID r;;
let routeID := TrimSpace (Vars r "routeId") in
if String.eqb routeID "" then jsonError "missing route id" StatusBadRequest
else
  rule <== or_400 (decodeUserRouteFromBody (limitRequestBody r));;
  let rule := if blank_id rule then with_route_id rule routeID else rule in
  if negb (String.eqb (TrimSpace (Route_ID rule)) routeID) then
    jsonError "route id mismatch" StatusBadRequest
  else
    _ <== checked [rule];;
    rules <== stored_rules user;;
    let idx := findRouteIndexByID rules routeID in
    if (idx <? 0)%Z then jsonError "route id not found" StatusNotFound
    else
      let rules := set_at idx rule rules in
      _ <== or_500 (saveUserRoutes (User_ID user) (Some rules));;
      hret (mkRouteReply idx rule rules).

(** The end of the two deletions, at a valid index. *)
Definition delete_at (user : User) (idx : Z) (rules : list UserRouteRule) : H (State E) RouteReply :=
match rules !! Z.to_nat idx with
| None => jsonError "route index out of range" StatusNotFound
| Some removed =>
    let rules := remove_at idx rules in
    _ <== or_500 (saveUserRoutes (User_ID user) (Some rules));;
    hret (mkRouteReply idx removed rules)
end.

Definition deleteUserRoute (r : Request) : H (State E) RouteReply :=
user <== getByID r;;
index <== or_400 (parseRouteIndex r);;
rules <== stored_rules user;;
if negb (in_range index rules) then jsonError "route index out of range" StatusNotFound
else delete_at user index rules.

Definition deleteUserRouteByID (r : Request) : H (State E) RouteReply :=
user <== getByID r;;
let routeID := TrimSpace (Vars r "routeId") in
if String.eqb routeID "" then jsonError "missing route id" StatusBadRequest
else
  rules <== stored_rules user;;
  let idx := findRouteIndexByID rules routeID in
  if (idx <? 0)%Z then jsonError "route id not found" StatusNotFound
  else delete_at user idx rules.

(** ** Global rules *)

Definition save_global (rules : option (list UserRouteRule)) : H (State E) () :=
or_500 (on_db (UpdateGlobalClientRoutes (marshal_slice rules))).

Definition stored_global_rules : H (State E) (list UserRouteRule) :=
raw <== or_500 (on_db GetGlobalClientRoutes);;
match parseUserRoutes raw with
| inl e => jsonError ("invalid stored global routes: " +:+ e) StatusInternalServerError
| inr rules =>
    assigned <== or_500 (assignRouteIDs rules);;
    let '(rules, changed) := assigned in
    _ <== (if changed then save_global (Some rules) else hret tt);;
    hret rules
end.

Definition getGlobalRoutes : H (State E) (list UserRouteRule) := stored_global_rules.

Definition setGlobalRoutes (r : Request) : H (State E) (option (list UserRouteRule)) :=
rules <== or_400 (decode_rules_payload (limitRequestBody r));;
_ <== checked (default [] rules);;
rules <== or_500 (assign_slice rules);;
_ <== save_global rules;;
hret rules.

Definition addGlobalRoute (r : Request) : H (State E) RouteReply :=
rule <== or_400 (decodeUserRouteFromBody (limitRequestBody r));;
rule <== (if blank_id rule then id <== or_500 generateRouteID;; hret (with_route_id rule id)
          else hret rule);;
_ <== checked [rule];;
rules <== stored_global_rules;;
let rules := rules ++ [rule] in
_ <== checked rules;;
_ <== save_global (Some rules);;
hret (mkRouteReply (Z.of_nat (length rules) - 1) rule rules).

Definition deleteGlobalRoutes : H (State E) () := or_500 (on_db (UpdateGlobalClientRoutes "[]")).

(** ** Balancer settings *)

Definition normalizeBalancerStrategyInput (v : string) : string :=
let s := ToLower (TrimSpace v) in
if String.eqb s "random" then "random"
else if String.eqb s "roundrobin" then "roundRobin"
else if String.eqb s "leastping" then "leastPing"
else if String.eqb s "leastload" then "leastLoad"
else "".

Definition getEffectiveBalancerConfig : M DB (string * string * string) :=
override <-- GetBalancerRuntimeConfig;;
ret (match override with
     | Some o =>
         (firstNonEmptyString [TrimSpace (BRC_Strategy o); C_BalancerStrategy cfg],
          firstNonEmptyString [TrimSpace (BRC_ProbeURL o); C_BalancerProbeURL cfg],
          firstNonEmptyString [TrimSpace (BRC_ProbeInterval o); C_BalancerProbeFreq cfg])
     | None => (C_BalancerStrategy cfg, C_BalancerProbeURL cfg, C_BalancerProbeFreq cfg)
     end).

(** [effective] and [runtime_override] of the answer. *)
Definition getBalancerConfig
  : H (State E) (string * string * string * option BalancerRuntimeConfig) :=
effective <== or_500 (on_db getEffectiveBalancerConfig);;
override <== or_500 (on_db GetBalancerRuntimeConfig);;
hret (effective, override).

Definition d_balancer_request : decoder (BalancerRuntimeConfig * bool) := λ j,
kvs <~ d_object j;;
s <~ d_field d_string "strategy" kvs;; u <~ d_field d_string "probe_url" kvs;;
i <~ d_field d_string "probe_interval" kvs;; reset <~ d_field d_bool "reset" kvs;;
dret (mkBalancerRuntime s u i, reset).

(** The override that is now in force, none after a reset. *)
Definition setBalancerConfig (r : Request) : H (State E) (option BalancerRuntimeConfig) :=
req <== decode_body d_balancer_request r;;
let '(req, reset) := req in
if reset : bool then
  _ <== or_500 (on_db DeleteBalancerRuntimeConfig);; hret None
else
  let strategy := normalizeBalancerStrategyInput (BRC_Strategy req) in
  if String.eqb strategy "" then
    jsonError "strategy must be one of: random, roundRobin, leastPing, leastLoad" StatusBadRequest
  else
    let or_default v d := if String.eqb (TrimSpace v) "" then d else TrimSpace v in
    let override := mkBalancerRuntime strategy (or_default (BRC_ProbeURL req) (C_BalancerProbeURL cfg))
      (or_default (BRC_ProbeInterval req) (C_BalancerProbeFreq cfg)) in
    _ <== or_500 (on_db (SetBalancerRuntimeConfig override));;
    hret (Some override).
End Routes.
