(* ===== verification/Nodes.v ===== *)
(** * Multi-node placement and reconciliation: [internal/api/nodes.go]

    The expansion of a user's clients to the nodes that serve them, the
    placement handlers, and the add-only reconcile pass over the nodes. Log
    lines and the ticker of [ReconcileNodesLoop] are not modelled. *)

From S2P Require Import Prelude GoString Json JsonDecode Models Config Schema Database.
From S2P Require Import ConfigWriter Admin Server.

Section Expand.
Variable cfg : Config.

(** The enabled nodes the user is placed on that serve the tag. *)
Definition serving (allNodes : list Node) (placed : list Z) (tag : string) : list Node :=
bfilter (λ n, Node_Enabled n && bool_decide (Node_ID n ∈ placed)
              && String.eqb (Node_InboundTag n) tag) allNodes.
Definition on_node (c : UserClientFull) (n : Node) : UserClientFull :=
UCF_with_node c (Node_Name n) (Node_PublicHost n) (Node_PublicPort n).

Definition expandClientsForNodes (userID : Z) (clients : list UserClientFull)
  : M DB (list UserClientFull) :=
match C_Nodes cfg with
| [] => ret clients
| _ =>
    ids <-- try (ListNodeIDsForUser userID);;
    match ids with
    | inl _ | inr [] => ret clients
    | inr nodeIDs =>
        nodes <-- try ListNodes;;
        match nodes with
        | inl _ => ret clients
        | inr allNodes =>
            ret (c ← clients; map (on_node c) (serving allNodes nodeIDs (UCF_InboundTag c)))
        end
    end
end.
End Expand.

(** The wanted clients that are not in the runtime set. *)
Definition clientsToAdd (want : list WantedClient) (have : list string) : list WantedClient :=
  bfilter (λ w, negb (bool_decide (Wanted_Email w ∈ have))) want.

Definition isBenignAddExists (e : error) : bool := Contains (ToLower e) "exist".

Section Nodes.
Context {E : Type} `{HandlerService E} (cfg : Config) (now : Z).

Definition single_node : bool := match C_Nodes cfg with [] => true | _ => false end.

(** ** Placement handlers *)

Definition listNodes : Server.H (State E) (list Node) := or_500 (on_db ListNodes).
Definition getUserNodes (r : Request) : Server.H (State E) (list Node) :=
user <== getByID r;; or_500 (on_db (ListNodesForUser (User_ID user))).

(** The ids of the known names, and the unknown names. *)
Fixpoint resolveNodeNames (names : list string) : M DB (list Z * list string) :=
match names with
| [] => ret ([], [])
| name :: r =>
    let name := TrimSpace name in
    if String.eqb name "" then resolveNodeNames r
    else
      n <-- GetNodeByName name;;
      rest <-- resolveNodeNames r;;
      ret (match n with
           | Some n => (Node_ID n :: rest.1, rest.2)
           | None => (rest.1, name :: rest.2)
           end)
end.
Definition unknown_nodes (bad : list string) : error := "unknown node(s): " +:+ Join bad ", ".

Definition d_nodes : decoder (list string) := λ j,
kvs <~ d_object j;; d_field (d_list d_string) "nodes" kvs.
Definition setUserNodes (r : Request) : Server.H (State E) (list Node) :=
if single_node then jsonError "multi-node not configured" StatusBadRequest
else
  user <== getByID r;;
  names <== decode_body d_nodes r;;
  resolved <== or_500 (on_db (resolveNodeNames names));;
  let '(ids, bad) := resolved in
  match bad with
  | _ :: _ => jsonError (unknown_nodes bad) StatusBadRequest
  | [] =>
      _ <== or_500 (on_db (SetUserNodes (User_ID user) ids));;
      nodes <== attempt (on_db (ListNodesForUser (User_ID user)));;
      hret (match nodes with inr ns => ns | inl _ => [] end)
  end.

Definition deleteUserNode (r : Request) : Server.H (State E) string :=
if single_node then jsonError "multi-node not configured" StatusBadRequest
else
  user <== getByID r;;
  let name := TrimSpace (Vars r "nodeName") in
  node <== or_500 (on_db (GetNodeByName name));;
  match node with
  | None => jsonError "node not found" StatusNotFound
  | Some node =>
      _ <== or_500 (on_db (RemoveUserFromNode (User_ID user) (Node_ID node)));;
      hret name
  end.

Definition placeUserOnNodes (userID : Z) (names : list string) : M DB () :=
if single_node then ret tt
else
  ids <-- (match names with
           | [] => EnabledNodeIDs
           | _ => resolved <-- resolveNodeNames names;;
                  match resolved.2 with
                  | [] => ret resolved.1
                  | bad => throw (unknown_nodes bad)
                  end
           end);;
  SetUserNodes userID ids.

(** ** Reconciliation *)

Definition storeNodeStatus (name : string) (st : nodeSyncStatus) : M (State E) () := λ s,
(inr tt, mkState (sv_db s) (sv_world s) (<[name := st]> (sv_nodeStatus s)) (sv_fallbackDenied s) (sv_background s)).

(** Re-adds one by one; the number of failures that are not benign. *)
Fixpoint apply_adds (n : Node) (adds : list WantedClient) : M E Z :=
match adds with
| [] => ret 0%Z
| w :: r =>
    err <-- try (AddExistingClientToInboundViaAPI (Node_APIAddr n) (Node_InboundTag n)
                   (Wanted_Email w) (Wanted_ClientConfig w));;
    errors <-- apply_adds n r;;
    ret (match err with
         | inl e => if isBenignAddExists e then errors else (errors + 1)%Z
         | inr _ => errors
         end)
end.

Definition reconcileOneNode (n : Node) : M (State E) () :=
want <-- try (on_db (ListWantedClientsForNode (Node_ID n) (Node_InboundTag n)));;
match want with
| inl e => storeNodeStatus (Node_Name n)
             (mkNodeSyncStatus false false 0 0 0 now ("list wanted: " +:+ e))
| inr want =>
    let target := Z.of_nat (length want) in
    have <-- try (on_world (on_engine (GetInboundUsersViaAPI (Node_APIAddr n) (Node_InboundTag n))));;
    match have with
    | inl e => storeNodeStatus (Node_Name n) (mkNodeSyncStatus false false target 0 0 now e)
    | inr have =>
        applyErrors <-- on_world (on_engine (apply_adds n (clientsToAdd want have)));;
        storeNodeStatus (Node_Name n)
          (mkNodeSyncStatus true (Z.eqb applyErrors 0) target (Z.of_nat (length have))
             applyErrors now "")
    end
end.

Definition reconcileNodesOnce : M (State E) () :=
nodes <-- try (on_db ListNodes);;
match nodes with
| inl _ => ret tt
| inr nodes => for_each nodes (λ n, if Node_Enabled n then reconcileOneNode n else ret tt)
end.

Definition snapshotNodeStatus (s : State E) : option (gmap string nodeSyncStatus) :=
if single_node then None
else if bool_decide (sv_nodeStatus s = ∅) then None else Some (sv_nodeStatus s).
End Nodes.
