(* ===== verification/SubLinks.v ===== *)
(** * Share links: the link builders of [internal/api/sub_links.go]

    One URI per proxy outbound of a generated configuration. [url.Values] is a
    list of pairs sorted by key, as its [Encode] prints it. The raw text of
    [settings.finalmask] is the compact print of its value. *)

From S2P Require Import Prelude GoString Json JsonDecode Base64 XrayTypes Parser Server.
From Stdlib Require Import Ascii.

(** ** [net/url] *)

Definition upper_hex (n : N) : ascii := if (n <? 10)%N then chr (48 + n) else chr (55 + n).
Definition url_unreserved (c : ascii) : bool :=
  is_upper c || is_lower c || is_digit c
  || is_char c 45 || is_char c 95 || is_char c 46 || is_char c 126.
Definition escape_byte (c : ascii) : string :=
  if is_char c 32 then "+"
  else if url_unreserved c then String c ""
  else String "%" (String (upper_hex (code c / 16)) (String (upper_hex (code c mod 16)) "")).
Fixpoint QueryEscape (s : string) : string :=
  match s with EmptyString => "" | String c r => escape_byte c +:+ QueryEscape r end.

Definition Values := list (string * string).
Definition Values_Set (k v : string) (q : Values) : Values := map_set k v q.
Definition encode_pair (kv : string * string) : string := QueryEscape kv.1 +:+ "=" +:+ QueryEscape kv.2.
Definition Encode (q : Values) : string := Join (map encode_pair q) "&".
(** [if v != "" { params.Set(k, v) }] *)
Definition set_nonempty (k v : string) (q : Values) : Values :=
  if String.eqb v "" then q else Values_Set k v q.

(** ** Reading outbound settings back *)

Definition decode_VLESSUser : decoder VLESSUser := λ j,
  kvs <~ d_object j;;
  id <~ d_field d_string "id" kvs;; flow <~ d_field d_string "flow" kvs;;
  enc <~ d_field d_string "encryption" kvs;; email <~ d_field d_string "email" kvs;;
  level <~ d_field d_int "level" kvs;; testpre <~ d_field d_uint32 "testpre" kvs;;
  dret (mkVLESSUser id flow enc email level testpre).
Definition decode_VLESSServer : decoder VLESSServer := λ j,
  kvs <~ d_object j;;
  a <~ d_field d_string "address" kvs;; p <~ d_field d_int "port" kvs;;
  us <~ d_field (d_list decode_VLESSUser) "users" kvs;; dret (mkVLESSServer a p us).
Definition decode_VLESSOut : decoder VLESSOutboundSettings := λ j,
  kvs <~ d_object j;;
  v <~ d_field (d_list decode_VLESSServer) "vnext" kvs;; dret (mkVLESSOut v).
Definition decode_VMessUser : decoder VMessUser := λ j,
  kvs <~ d_object j;;
  id <~ d_field d_string "id" kvs;; aid <~ d_field d_int "alterId" kvs;;
  sec <~ d_field d_string "security" kvs;; level <~ d_field d_int "level" kvs;;
  dret (mkVMessUser id aid sec level).
Definition decode_VMessServer : decoder VMessServer := λ j,
  kvs <~ d_object j;;
  a <~ d_field d_string "address" kvs;; p <~ d_field d_int "port" kvs;;
  us <~ d_field (d_list decode_VMessUser) "users" kvs;; dret (mkVMessServer a p us).
Definition decode_VMessOut : decoder VMessOutboundSettings := λ j,
  kvs <~ d_object j;;
  v <~ d_field (d_list decode_VMessServer) "vnext" kvs;; dret (mkVMessOut v).
Definition decode_TrojanServer : decoder TrojanServer := λ j,
  kvs <~ d_object j;;
  a <~ d_field d_string "address" kvs;; p <~ d_field d_int "port" kvs;;
  pwd <~ d_field d_string "password" kvs;; level <~ d_field d_int "level" kvs;;
  dret (mkTrojanServer a p pwd level).
Definition decode_TrojanOut : decoder TrojanOutboundSettings := λ j,
  kvs <~ d_object j;;
  v <~ d_field (d_list decode_TrojanServer) "servers" kvs;; dret (mkTrojanOut v).
Definition decode_SSServer : decoder ShadowsocksServer := λ j,
  kvs <~ d_object j;;
  a <~ d_field d_string "address" kvs;; p <~ d_field d_int "port" kvs;;
  m <~ d_field d_string "method" kvs;; pwd <~ d_field d_string "password" kvs;;
  level <~ d_field d_int "level" kvs;; uot <~ d_field d_bool "uot" kvs;;
  dret (mkSSServer a p m pwd level uot).
Definition decode_SSOut : decoder ShadowsocksOutboundSettings := λ j,
  kvs <~ d_object j;;
  v <~ d_field (d_list decode_SSServer) "servers" kvs;; dret (mkSSOut v).

(** ** Parameters *)

(** The text of a nested document, read as a map; nil when it is not one. *)
Definition as_map (raw : option json) : list (string * json) :=
  match raw with
  | Some j => match decode d_map j with inr (Some m) => m | _ => [] end
  | None => []
  end.

(** [if v, ok := m[k].(string); ok && v != "" { params.Set(p, v) }] *)
Definition set_from (m : list (string * json)) (k p : string) (q : Values) : Values :=
  match map_get k m with Some (JStr v) => set_nonempty p v q | _ => q end.

Definition applyTransportParams (params : Values) (ss : StreamSettings) : Values :=
  let net := Stream_Network ss in
  if String.eqb net "ws" then
    let ws := as_map (Stream_WSSettings ss) in
    set_from ws "host" "host" (set_from ws "path" "path" params)
  else if String.eqb net "grpc" then
    set_from (as_map (Stream_GRPCSettings ss)) "serviceName" "serviceName" params
  else if String.eqb net "xhttp" then
    let xh := as_map (Stream_XHTTPSettings ss) in
    let params := set_from xh "mode" "mode" (set_from xh "host" "host" (set_from xh "path" "path" params)) in
    match map_get "extra" xh with
    | Some (JObj (_ :: _ as ex)) => Values_Set "extra" (json_marshal (JObj ex)) params
    | _ => params
    end
  else params.

Definition applyTLSCertParams (params : Values) (tls : TLSSettings) : Values :=
  let params := match TLS_PinnedPeerCertSha256 tls with
    | [] => params
    | pins => Values_Set "pcs" (Join pins ",") params
    end in
  set_nonempty "vcn" (TLS_VerifyPeerCertByName tls) params.

Definition extractFinalmask (settings : option json) : string :=
  match settings with
  | Some (JObj kvs) =>
      match lookup_last "finalmask" kvs with
      | None => ""
      | Some fm =>
          let trimmed := TrimSpace (json_marshal fm) in
          if String.eqb trimmed "" || String.eqb trimmed "null" || String.eqb trimmed "{}" then ""
          else trimmed
      end
  | _ => ""
  end.

(** ** The four link formats *)

Definition decode_settings {A} (d : decoder A) (settings : option json) : option A :=
  match settings with
  | Some j => match decode d j with inr a => Some a | inl _ => None end
  | None => None
  end.

Definition vless_reality_params (rs : RealitySettings) (q : Values) : Values :=
  set_nonempty "pqv" (Reality_MLDSA65Verify rs) (set_nonempty "spx" (Reality_SpiderX rs)
    (set_nonempty "sid" (Reality_ShortId rs) (set_nonempty "pbk" (Reality_PublicKey rs)
      (set_nonempty "fp" (Reality_Fingerprint rs) (set_nonempty "sni" (Reality_ServerName rs) q))))).

Definition vless_params (ob : Outbound) (u : VLESSUser) : Values :=
  let params := Values_Set "encryption" (firstNonEmptyString [VLESSU_Encryption u; "none"]) [] in
  let params := set_nonempty "flow" (VLESSU_Flow u) params in
  let params := match Out_StreamSettings ob with
    | None => params
    | Some ss =>
        let params := Values_Set "type" (firstNonEmptyString [Stream_Network ss; "tcp"]) params in
        let params := set_nonempty "security" (Stream_Security ss) params in
        let params := match Stream_RealitySettings ss with
          | Some rs => if String.eqb (Stream_Security ss) "reality" then vless_reality_params rs params else params
          | None => params
          end in
        let params := match Stream_TLSSettings ss with
          | Some tls => if String.eqb (Stream_Security ss) "tls" then applyTLSCertParams params tls else params
          | None => params
          end in
        applyTransportParams params ss
    end in
  set_nonempty "fm" (extractFinalmask (Out_Settings ob)) params.

(** [scheme://user@address:port?query#name] *)
Definition share_uri (scheme user address : string) (port : Z) (params : Values) (name : string) : string :=
  scheme +:+ "://" +:+ QueryEscape user +:+ "@" +:+ address +:+ ":" +:+ Itoa port +:+ "?"
    +:+ Encode params +:+ "#" +:+ QueryEscape name.

Definition buildVLESSLink (ob : Outbound) : string :=
  match decode_settings decode_VLESSOut (Out_Settings ob) with
  | Some (mkVLESSOut (mkVLESSServer address port (u :: _) :: _)) =>
      share_uri "vless" (VLESSU_ID u) address port (vless_params ob u) (Out_Tag ob)
  | _ => ""
  end.

(** [item[k] = m[key].(string)] when it is a string *)
Definition item_from (m : list (string * json)) (key k : string) (item : Values) : Values :=
  match map_get key m with Some (JStr v) => Values_Set k v item | _ => item end.
Definition applyVMessTransport (item : Values) (ss : StreamSettings) : Values :=
  let net := Stream_Network ss in
  if String.eqb net "ws" then
    let ws := as_map (Stream_WSSettings ss) in
    item_from ws "host" "host" (item_from ws "path" "path" item)
  else if String.eqb net "grpc" then
    item_from (as_map (Stream_GRPCSettings ss)) "serviceName" "path" item
  else item.

Definition vmess_item (ob : Outbound) (address : string) (port : Z) (u : VMessUser) : Values :=
  let item := foldl (λ m kv, Values_Set kv.1 kv.2 m) []
    [("v", "2"); ("ps", Out_Tag ob); ("add", address); ("port", Itoa port); ("id", VMessU_ID u);
     ("aid", Itoa (VMessU_AlterId u)); ("scy", firstNonEmptyString [VMessU_Security u; "auto"]);
     ("net", "tcp"); ("type", "none"); ("host", ""); ("path", ""); ("tls", ""); ("sni", "");
     ("alpn", ""); ("fp", "")] in
  match Out_StreamSettings ob with
  | None => item
  | Some ss =>
      let item := if String.eqb (Stream_Network ss) "" then item
                  else Values_Set "net" (Stream_Network ss) item in
      let item := if String.eqb (Stream_Security ss) "tls" || String.eqb (Stream_Security ss) "reality"
                  then Values_Set "tls" (Stream_Security ss) item else item in
      let item := match Stream_TLSSettings ss with
        | Some tls => Values_Set "fp" (TLS_Fingerprint tls) (Values_Set "sni" (TLS_ServerName tls) item)
        | None => item end in
      let item := match Stream_RealitySettings ss with
        | Some rs => Values_Set "fp" (Reality_Fingerprint rs) (Values_Set "sni" (Reality_ServerName rs) item)
        | None => item end in
      applyVMessTransport item ss
  end.
Definition buildVMessLink (ob : Outbound) : string :=
  match decode_settings decode_VMessOut (Out_Settings ob) with
  | Some (mkVMessOut (mkVMessServer address port (u :: _) :: _)) =>
      "vmess://" +:+ EncodeToString StdEncoding
        (json_marshal (JObj (map (λ kv, (kv.1, JStr kv.2)) (vmess_item ob address port u))))
  | _ => ""
  end.

Definition trojan_params (ob : Outbound) : Values :=
  let params := match Out_StreamSettings ob with
    | None => []
    | Some ss =>
        let params := Values_Set "type" (firstNonEmptyString [Stream_Network ss; "tcp"]) [] in
        let params := set_nonempty "security" (Stream_Security ss) params in
        let params := match Stream_TLSSettings ss with
          | Some tls => applyTLSCertParams (set_nonempty "fp" (TLS_Fingerprint tls)
                          (set_nonempty "sni" (TLS_ServerName tls) params)) tls
          | None => params
          end in
        applyTransportParams params ss
    end in
  set_nonempty "fm" (extractFinalmask (Out_Settings ob)) params.
Definition buildTrojanLink (ob : Outbound) : string :=
  match decode_settings decode_TrojanOut (Out_Settings ob) with
  | Some (mkTrojanOut (sv :: _)) =>
      share_uri "trojan" (TrojanS_Password sv) (TrojanS_Address sv) (TrojanS_Port sv)
        (trojan_params ob) (Out_Tag ob)
  | _ => ""
  end.

Definition buildSSLink (ob : Outbound) : string :=
  match decode_settings decode_SSOut (Out_Settings ob) with
  | Some (mkSSOut (sv :: _)) =>
      "ss://" +:+ EncodeToString StdEncoding (SSS_Method sv +:+ ":" +:+ SSS_Password sv) +:+ "@"
        +:+ SSS_Address sv +:+ ":" +:+ Itoa (SSS_Port sv) +:+ "#" +:+ QueryEscape (Out_Tag ob)
  | _ => ""
  end.

Record proxyLink := mkProxyLink { Link_Protocol : string; Link_Tag : string; Link_URL : string }.

Definition link_of (ob : Outbound) : option proxyLink :=
  let p := Out_Protocol ob in
  let entry l := if String.eqb l "" then None else Some (mkProxyLink p (Out_Tag ob) l) in
  if String.eqb p "vless" then entry (buildVLESSLink ob)
  else if String.eqb p "vmess" then entry (buildVMessLink ob)
  else if String.eqb p "trojan" then entry (buildTrojanLink ob)
  else if String.eqb p "shadowsocks" then entry (buildSSLink ob)
  else None.
Definition buildProxyLinkEntries (cfg : ClientConfig) : list proxyLink := omap link_of (Cfg_Outbounds cfg).
Definition buildProxyLinks (cfg : ClientConfig) : list string := map Link_URL (buildProxyLinkEntries cfg).

(** The bodies of the text and base64 answers. *)
Definition writeProxyLinksText (cfg : ClientConfig) (extra : list string) : string :=
  Join (buildProxyLinks cfg ++ extra) (String (ascii_of_N 10) "").
Definition writeProxyLinksB64 (cfg : ClientConfig) (extra : list string) : string :=
  EncodeToString StdEncoding (writeProxyLinksText cfg extra).
