(* ===== verification/Subscription.v ===== *)
(** * Subscriptions: the public handlers of [internal/api/server.go],
    [internal/api/sub_links.go], [internal/api/fallback.go] and
    [internal/api/hysteria.go]

    From a token to the clients that are served, the node expansion, the
    generated configuration and its two renderings. The headers, among them
    the one that announces emergency mode, are not modelled; the deferred
    write of [fallback_accessed_at] is done at once. *)

From S2P Require Import Prelude GoString Json JsonDecode Base64 Models Config XrayTypes Schema.
From S2P Require Import Database Generator Admin Server Routes Nodes SubLinks.
From Stdlib Require Import Ascii.

(** ** Filters *)

Definition filterExcludedInbounds (cfg : Config) (clients : list UserClientFull) : list UserClientFull :=
  bfilter (λ c, negb (bool_decide (UCF_InboundTag c ∈ C_ExcludeInboundTags cfg))) clients.

(** [FallbackInboundTags]: a whitelist on the fallback routes, a blacklist on
    the primary ones. *)
Definition split_fallback (cfg : Config) (isFallback : bool) (clients : list UserClientFull)
    : list UserClientFull :=
  match C_FallbackInboundTags cfg with
  | [] => clients
  | tags => bfilter (λ c, Bool.eqb isFallback (bool_decide (UCF_InboundTag c ∈ tags))) clients
  end.

(** Emergency mode: the profile's tags only, unless nothing would be left. *)
Definition restrict_emergency (st : EmergencyStatus) (clients : list UserClientFull) : list UserClientFull :=
  match Emergency_Profile st with
  | Some p =>
      match Profile_InboundTags p with
      | [] => clients
      | tags =>
          match bfilter (λ c, bool_decide (UCF_InboundTag c ∈ tags)) clients with
          | [] => clients
          | emergency => emergency
          end
      end
  | None => clients
  end.

Definition extractProtocolFilter (r : Request) : string :=
  let p := ToLower (TrimSpace (Vars r "protocol")) in
  if negb (String.eqb p "") then p else ToLower (TrimSpace (QueryGet r "protocol")).
Definition extractInboundTagFilter (r : Request) : string :=
  let t := TrimSpace (Vars r "inboundTag") in
  if negb (String.eqb t "") then t else TrimSpace (QueryGet r "inbound_tag").

Definition matchesInboundTagFilter (inboundTag filter : string) (index : Z) : bool :=
  let filter := TrimSpace filter in
  if String.eqb filter "" then true
  else if String.eqb inboundTag filter then true
  else
    let sanitized := sanitizeTag inboundTag in
    String.eqb sanitized filter
    || String.eqb (sanitized +:+ String "-" (Itoa index)) filter.

Fixpoint filter_tags (t : string) (i : Z) (clients : list UserClientFull) : list UserClientFull :=
  match clients with
  | [] => []
  | c :: r =>
      if matchesInboundTagFilter (UCF_InboundTag c) t i then c :: filter_tags t (i + 1) r
      else filter_tags t (i + 1) r
  end.
Definition applySubscriptionFiltersWithProtocol (clients : list UserClientFull) (r : Request)
    (forcedProtocol : string) : list UserClientFull :=
  let p := ToLower (TrimSpace forcedProtocol) in
  let p := if String.eqb p "" then extractProtocolFilter r else p in
  let result := if String.eqb p "" then clients
                else bfilter (λ c, EqualFold (UCF_InboundProtocol c) p) clients in
  let t := extractInboundTagFilter r in
  if String.eqb t "" then result else filter_tags t 0 result.

(** ** The lightweight routing profile *)

Definition isMobileProfileRequest (r : Request) : bool :=
  let profile := ToLower (TrimSpace (QueryGet r "profile")) in
  let mobile := ToLower (TrimSpace (QueryGet r "mobile")) in
  let ua := ToLower (R_UserAgent r) in
  String.eqb profile "mobile"
  || (String.eqb mobile "1" || String.eqb mobile "true" || String.eqb mobile "yes")
  || (Contains ua "android" || Contains ua "iphone" || Contains ua "ipad"
      || Contains ua "v2box" || Contains ua "v2rayng" || Contains ua "nekobox").

Definition is_geo_selector (v : string) : bool :=
  let s := ToLower (TrimSpace v) in HasPrefix s "geosite:" || HasPrefix s "geoip:".
Definition stripGeoSelectors (values : list string) : list string :=
  bfilter (λ v, negb (is_geo_selector v)) values.
Definition strip_rule (rule : RoutingRule) : RoutingRule :=
  mkRule (Rule_Type rule) (Rule_InboundTag rule) (Rule_OutboundTag rule) (Rule_BalancerTag rule)
    (stripGeoSelectors (Rule_Domain rule)) (stripGeoSelectors (Rule_IP rule)) (Rule_Network rule)
    (Rule_Port rule) (Rule_Protocol rule).
Definition effective_rule (rule : RoutingRule) : bool :=
  match Rule_Domain rule, Rule_IP rule, Rule_Protocol rule, Rule_InboundTag rule with
  | [], [], [], [] =>
      negb (String.eqb (TrimSpace (Rule_Network rule)) "" && String.eqb (TrimSpace (Rule_Port rule)) "")
  | _, _, _, _ => true
  end.
Definition applyMobileRoutingProfile (cfg : ClientConfig) : ClientConfig :=
  mkClientConfig (Cfg_Log cfg) (Cfg_DNS cfg) (Cfg_Inbounds cfg) (Cfg_Outbounds cfg)
    (Cfg_Observatory cfg)
    (with_rules (Cfg_Routing cfg)
      (bfilter effective_rule (map strip_rule (Routing_Rules (Cfg_Routing cfg))))).

(** ** The Hysteria2 reserve *)

Definition buildHysteria2URI (auth name : string) (h : HysteriaConfig) : string :=
  let q : Values := if negb (String.eqb (Hy_ObfsType h) "") && negb (String.eqb (Hy_ObfsPassword h) "")
    then Values_Set "obfs-password" (Hy_ObfsPassword h) (Values_Set "obfs" (Hy_ObfsType h) []) else [] in
  let q := set_nonempty "sni" (Hy_SNI h) q in
  let q := if String.eqb (Hy_CertPin h) "" then q
           else Values_Set "insecure" "1" (Values_Set "pinSHA256" (Hy_CertPin h) q) in
  "hysteria2://" +:+ QueryEscape auth +:+ "@" +:+ Hy_Host h +:+ ":" +:+ Itoa (Hy_Port h) +:+ "/?"
    +:+ Encode q +:+ "#" +:+ QueryEscape name.

Section Subscription.
Context `{Curve} `{Clock}.
Variables (cfg : Config) (now : Z).

(** The URI that rides the general link list, when it does. *)
Definition hysteriaMainSubExtra (token : string) : M DB (list string) :=
match C_Hysteria cfg with
| None => ret []
| Some h =>
    if negb (Hy_Enabled h) || negb (Hy_InMainSub h) || String.eqb token "" then ret []
    else
      user <-- try (GetUserByToken token);;
      ret (match user with
           | inr (Some u) =>
               if User_Enabled u && User_Hy2Enabled u
               then [buildHysteria2URI (User_Token u) "hy2-reserve" h] else []
           | _ => []
           end)
end.

(** The user a subscription token admits. *)
Definition admitted (token : string) : Server.H DB User :=
if String.eqb token "" then jsonError "missing token" StatusBadRequest
else
  user <== attempt (GetUserByToken token);;
  match user with
  | inl _ | inr None => jsonError "invalid token" StatusNotFound
  | inr (Some u) => if User_Enabled u then hret u else jsonError "user disabled" StatusForbidden
  end.
Definition internal_error {A} (m : M DB A) : Server.H DB A :=
or_fail m (λ _, mkStatus StatusInternalServerError "internal error").

(** From the filtered clients to the configuration; both pipelines end so. *)
Definition generate (r : Request) (user : User) (clients : list UserClientFull)
  : Server.H DB ClientConfig :=
match clients with
| [] => jsonError "no enabled clients matched filters" StatusNotFound
| _ =>
    globalRoutesJSON <== internal_error GetGlobalClientRoutes;;
    balancer <== internal_error (getEffectiveBalancerConfig cfg);;
    let '(strategy, probeURL, probeInterval) := balancer in
    clients <== or_500 (expandClientsForNodes cfg (User_ID user) clients);;
    match clients with
    | [] => jsonError "no client endpoints after node placement" StatusNotFound
    | _ =>
        match GenerateClientConfig (effectiveHost cfg r) (effectiveInboundHosts cfg r)
                (C_InboundPorts cfg) user clients globalRoutesJSON strategy probeURL probeInterval
                (C_SocksInboundPort cfg) (C_HTTPInboundPort cfg) (C_ClientDNSServers cfg)
                (C_ClientBlackholeResponse cfg) with
        | inl e => jsonError ("could not generate config: " +:+ e) StatusInternalServerError
        | inr c => hret c
        end
    end
end.

(** ** The configuration *)

Inductive SubBody := SubConfig (c : ClientConfig) | SubText (payload : string).

(** The clients of [handleSubscription], emergency mode included. *)
Definition subscription_clients (r : Request) (user : User) : Server.H DB (list UserClientFull) :=
clients <== internal_error (GetUserClients (User_ID user));;
let clients := split_fallback cfg (R_Fallback r) (filterExcludedInbounds cfg clients) in
em <== attempt GetEmergencyStatus;;
let clients := match em with
  | inr st => if Emergency_Active st then restrict_emergency st clients else clients
  | inl _ => clients
  end in
hret (applySubscriptionFiltersWithProtocol clients r "").

Definition handleSubscription (r : Request) : Server.H DB SubBody :=
user <== admitted (Vars r "token");;
clients <== subscription_clients r user;;
c <== generate r user clients;;
let c := if isMobileProfileRequest r then applyMobileRoutingProfile c else c in
let format := ToLower (TrimSpace (QueryGet r "format")) in
hyExtra <== or_500 (hysteriaMainSubExtra (User_Token user));;
if String.eqb format "v2box" || String.eqb format "links" || String.eqb format "links.txt" then
  hret (SubText (writeProxyLinksText c hyExtra))
else if String.eqb format "b64" || String.eqb format "links.b64" then
  hret (SubText (writeProxyLinksB64 c hyExtra))
else hret (SubConfig c).

(** [q.Set("profile", "mobile")] *)
Definition mobile_request (r : Request) : Request :=
mkRequest (R_Vars r) (<["profile" := "mobile"]> (R_Query r)) (R_Headers r) (R_UserAgent r)
  (R_RemoteAddr r) (R_Fallback r) (R_Body r).
Definition handleCompactSubscription (r : Request) : Server.H DB SubBody :=
handleSubscription (mobile_request r).

(** ** Link lists *)

(** Errors of the link handlers are all sent as 404. *)
Definition as_not_found {A} (m : Server.H DB A) : Server.H DB A := λ s,
match m s with (inl st, s') => (inl (mkStatus StatusNotFound (Msg st)), s') | ok => ok end.

Definition generateConfigForSubscriptionRequestWithForcedProtocol (r : Request)
  (forcedProtocol : string) : Server.H DB (ClientConfig * User) :=
user <== admitted (Vars r "token");;
clients <== internal_error (GetUserClients (User_ID user));;
let clients := split_fallback cfg (R_Fallback r) (filterExcludedInbounds cfg clients) in
c <== generate r user (applySubscriptionFiltersWithProtocol clients r forcedProtocol);;
hret (c, user).

Definition handleSubscriptionLinksByFormatAndProtocol (r : Request) (b64 : bool)
  (forcedProtocol : string) : Server.H DB string :=
got <== as_not_found (generateConfigForSubscriptionRequestWithForcedProtocol r forcedProtocol);;
extra <== or_500 (if String.eqb forcedProtocol "" then hysteriaMainSubExtra (Vars r "token")
                  else ret []);;
hret (if b64 then writeProxyLinksB64 got.1 extra else writeProxyLinksText got.1 extra).

Definition handleVLESSLinkByTag (r : Request) (b64 : bool) : Server.H DB string :=
let tag := TrimSpace (Vars r "vlessTag") in
if String.eqb tag "" then jsonError "missing vless tag" StatusBadRequest
else
  got <== as_not_found (generateConfigForSubscriptionRequestWithForcedProtocol r "");;
  match List.find (λ e, String.eqb (Link_Protocol e) "vless" && String.eqb (Link_Tag e) tag)
          (buildProxyLinkEntries got.1) with
  | Some e => hret (if b64 then EncodeToString StdEncoding (Link_URL e) else Link_URL e)
  | None => jsonError ("vless link not found for tag: " +:+ tag) StatusNotFound
  end.

(** The items of the list: tag, link and its base64. *)
Definition handleVLESSList (r : Request) : Server.H DB (list (string * string * string)) :=
got <== as_not_found (generateConfigForSubscriptionRequestWithForcedProtocol r "");;
hret (map (λ e, (Link_Tag e, Link_URL e, EncodeToString StdEncoding (Link_URL e)))
        (bfilter (λ e, String.eqb (Link_Protocol e) "vless") (buildProxyLinkEntries got.1))).

(** The protocols and tags of the index page. *)
Definition distinct_nonblank (l : list string) : list string :=
sort_strings (remove_dups (bfilter (λ s, negb (String.eqb s "")) l)).
Definition handleSubscriptionLinks (r : Request) : Server.H DB (User * list string * list string) :=
user <== admitted (Vars r "token");;
clients <== internal_error (GetUserClients (User_ID user));;
match filterExcludedInbounds cfg clients with
| [] => jsonError "no enabled clients" StatusNotFound
| clients =>
    hret (user, distinct_nonblank (map (λ c, ToLower (TrimSpace (UCF_InboundProtocol c))) clients),
          distinct_nonblank (map (λ c, TrimSpace (UCF_InboundTag c)) clients))
end.

(** ** The fallback routes *)

(** [withFallbackAuth next]: the request is handed on under the user's
  primary token, marked as a fallback request. *)
Definition fallback_request (r : Request) (user : User) : Request :=
mkRequest {["token" := User_Token user]} (R_Query r) (R_Headers r) (R_UserAgent r)
  (R_RemoteAddr r) true (R_Body r).
Definition withFallbackAuth {A} (next : Request → Server.H DB A) (r : Request) : Server.H DB A :=
let fallbackToken := Vars r "token" in
if String.eqb fallbackToken "" then jsonError "missing token" StatusBadRequest
else
  enabled <== internal_error GetFallbackEnabled;;
  if negb enabled then jsonError "fallback subscription disabled" StatusForbidden
  else
    user <== attempt (GetUserByFallbackToken fallbackToken);;
    match user with
    | inl _ | inr None => jsonError "invalid token" StatusNotFound
    | inr (Some u) =>
        if negb (User_Enabled u) then jsonError "user disabled" StatusForbidden
        else
          _ <== attempt (SetFallbackAccessedAt (User_ID u) now);;
          next (fallback_request r u)
    end.

(** ** Hysteria2 handlers *)

Definition handleHysteriaSub (r : Request) (b64 : bool) : Server.H DB string :=
match C_Hysteria cfg with
| Some h =>
    if negb (Hy_Enabled h) then jsonError "hysteria reserve not enabled" StatusNotFound
    else
      user <== attempt (GetUserByToken (Vars r "token"));;
      match user with
      | inl _ | inr None => jsonError "invalid token" StatusNotFound
      | inr (Some u) =>
          if negb (User_Enabled u) then jsonError "user disabled" StatusForbidden
          else if negb (User_Hy2Enabled u) then
            jsonError "hysteria2 reserve not enabled for this user" StatusForbidden
          else
            let uri := buildHysteria2URI (User_Token u) "hy2-reserve" h in
            hret (if b64 then EncodeToString StdEncoding uri else uri)
      end
| None => jsonError "hysteria reserve not enabled" StatusNotFound
end.

Definition d_auth : decoder string := λ j, kvs <~ d_object j;; 
addr <~ d_field d_string "addr" kvs;; auth <~ d_field d_string "auth" kvs;;
tx <~ d_field d_int "tx" kvs;; dret auth.
(** The id of the admitted connection; [None] is [ok: false]. *)
Definition handleHysteriaAuth (r : Request) : Server.H DB (option string) :=
if negb (requestFromLoopback r) then jsonError "forbidden" StatusForbidden
else
  match Decode d_auth (limitRequestBody r) with
  | inl _ => hret None
  | inr auth =>
      if String.eqb auth "" then hret None
      else
        user <== attempt (GetUserByToken auth);;
        hret (match user with
              | inr (Some u) => if User_Enabled u then Some (User_Username u) else None
              | _ => None
              end)
  end.
End Subscription.
