(* ===== verification/ServerFacts.v ===== *)
(** * Reasoning about handlers

    Inversion of successful runs, and what a query can do to the database. *)

From S2P Require Import Prelude GoString Json JsonDecode Models Schema Database DatabaseFacts Server.

Lemma hbind_inr {S A B} (m : H S A) (k : A → H S B) s b s' :
  hbind m k s = (inr b, s') → ∃ a s1, m s = (inr a, s1) ∧ k a s1 = (inr b, s').
Proof. unfold hbind. destruct (m s) as [[e|a] s1]; [done|]. by exists a, s1. Qed.

Lemma or_fail_inr {S A} (m : M S A) answer s a s' :
  or_fail m answer s = (inr a, s') → m s = (inr a, s').
Proof. unfold or_fail. destruct (m s) as [[e|x] s1]; intros; by simplify_eq. Qed.

Lemma attempt_inr {S A} (m : M S A) s r s' : attempt m s = (inr r, s') → m s = (r, s').
Proof. unfold attempt. destruct (m s) as [x s1]. by intros [= -> ->]. Qed.

Lemma hret_inr {S A} (a b : A) (s s' : S) : hret a s = (inr b, s') → a = b ∧ s = s'.
Proof. by intros [= -> ->]. Qed.

(** A computation that leaves the tables alone, whatever happens. *)
Definition reads {A} (m : M DB A) : Prop := ∀ db, db_tables (m db).2 = db_tables db.

Lemma reads_Query {A} (q : Tables → A) : reads (Query q).
Proof. intros db. unfold Query, Exec. by destruct (db_faults db) as [|[] ?]. Qed.
Lemma reads_ret {A} (a : A) : reads (ret a).
Proof. done. Qed.
Lemma reads_throw {A} e : reads (throw (A := A) e).
Proof. done. Qed.
Lemma reads_bind {A B} (m : M DB A) (k : A → M DB B) : reads m → (∀ a, reads (k a)) → reads (bind m k).
Proof.
  intros Hm Hk db. unfold bind. specialize (Hm db). destruct (m db) as [[e|a] db1]; [done|].
  by rewrite Hk.
Qed.
Lemma reads_try {A} (m : M DB A) : reads m → reads (try m).
Proof. intros Hm db. unfold try. specialize (Hm db). by destruct (m db). Qed.
#[export] Hint Resolve reads_Query reads_ret reads_throw reads_bind reads_try : raven.

Lemma reads_run {A} (m : M DB A) db r db' : reads m → m db = (r, db') → db_tables db' = db_tables db.
Proof. intros Hm E. specialize (Hm db). by rewrite E in Hm. Qed.

Lemma find_user_inr p db u db' :
  find_user p db = (inr (Some u), db') →
  db_tables db' = db_tables db ∧
  ∃ r, r ∈ t_users (db_tables db) ∧ p r = true ∧ u = scanUser r.
Proof.
  intros [Hu Ht]%Query_inr. split; [done|]. destruct (List.find p _) as [r|] eqn:E; [|done].
  apply find_Some_iff in E as [? ?]. simplify_eq/=. by exists r.
Qed.

(** With no failure to come, a query answers and changes nothing. *)
Lemma Query_run {A} (q : Tables → A) t : Query q (mkDB t []) = (inr (q t), mkDB t []).
Proof. done. Qed.

(** *** The state of the server *)

Section Server.
Context {E : Type}.

Lemma or_500_inr {A} (m : M (State E) A) s a s' : or_500 m s = (inr a, s') → m s = (inr a, s').
Proof. apply or_fail_inr. Qed.

Lemma on_db_inr {A} (m : M DB A) (s : State E) a s' :
on_db m s = (inr a, s') → ∃ db', m (sv_db s) = (inr a, db') ∧ sv_db s' = db'.
Proof. unfold on_db. destruct (m (sv_db s)) as [r db']. intros [= -> <-]. by exists db'. Qed.

(** The user that [getByID] finds, by id or by name. *)
Definition selects (r : Request) (row : user_row) : bool :=
match ParseInt (TrimSpace (Vars r "id")) with
| Some id => Z.eqb (ur_id row) id
| None => String.eqb (ur_username row) (TrimSpace (Vars r "id"))
end.

Lemma getByID_inr r (s : State E) u s' :
getByID r s = (inr u, s') →
TrimSpace (Vars r "id") ≠ "" ∧ db_tables (sv_db s') = db_tables (sv_db s) ∧
∃ row, List.find (selects r) (t_users (db_tables (sv_db s))) = Some row ∧ u = scanUser row.
Proof.
unfold getByID. destruct (String.eqb_spec (TrimSpace (Vars r "id")) ""); [done|].
intros (o & s1 & (db' & Hq & <-)%or_500_inr%on_db_inr & Hk)%hbind_inr.
assert (find_user (selects r) (sv_db s) = (inr o, sv_db s1)) as Hq'%Query_inr.
{ unfold selects. destruct (ParseInt _); exact Hq. }
destruct Hq' as [-> Ht]. destruct (List.find _ _) as [row|]; [|done].
apply hret_inr in Hk as [<- <-]. split_and!; try done. by exists row.
Qed.

Lemma getByID_run r (s : State E) row :
TrimSpace (Vars r "id") ≠ "" → db_faults (sv_db s) = [] →
List.find (selects r) (t_users (db_tables (sv_db s))) = Some row →
getByID r s = (inr (scanUser row), s).
Proof.
intros Hne%String.eqb_neq Hf Hfind. unfold getByID. rewrite Hne.
unfold hbind, or_500, or_fail, on_db. destruct s as [[t fs] w ns fd]. simpl in *. subst fs.
unfold selects in Hfind. destruct (ParseInt _) as [id|]; cbn; by rewrite Hfind.
Qed.
End Server.

(** *** What a handler does to the state *)

Section HAdvances.
Context {T : Type} (R : T → T → Prop) {HR : PreOrder R} {S : Type} (π : S → T).

Definition h_advances {A} (m : H S A) : Prop := ∀ s, R (π s) (π (m s).2).

Lemma h_advances_ret {A} (a : A) : h_advances (hret a).
Proof using HR. by intros s. Qed.
Lemma h_advances_error {A} msg code : h_advances (jsonError (A := A) msg code).
Proof using HR. by intros s. Qed.
Lemma h_advances_bind {A B} (m : H S A) (k : A → H S B) :
  h_advances m → (∀ a, h_advances (k a)) → h_advances (hbind m k).
Proof using HR.
  intros Hm Hk s. unfold hbind. specialize (Hm s). destruct (m s) as [[e|a] s1]; simpl in *; [done|].
  etrans; [done|apply Hk].
Qed.
Lemma h_advances_attempt {A} (m : M S A) : advances R π m → h_advances (attempt m).
Proof. intros Hm s. unfold attempt. specialize (Hm s). by destruct (m s). Qed.
Lemma h_advances_or_fail {A} (m : M S A) answer : advances R π m → h_advances (or_fail m answer).
Proof. intros Hm s. unfold or_fail. specialize (Hm s). by destruct (m s) as [[e|a] s1]. Qed.
Lemma h_advances_or_500 {A} (m : M S A) : advances R π m → h_advances (or_500 m).
Proof. apply h_advances_or_fail. Qed.
Lemma h_advances_or_400 {A} (r : error + A) : h_advances (or_400 r).
Proof using HR. destruct r; [apply h_advances_error|apply h_advances_ret]. Qed.
End HAdvances.
#[export] Hint Resolve h_advances_ret h_advances_error h_advances_bind h_advances_attempt
  h_advances_or_fail h_advances_or_500 h_advances_or_400 : raven.
