(* ===== verification/SubscriptionProps.v ===== *)
(** * What the subscription handlers guarantee

    Who is served, what is served to whom, and what the links carry. *)

From S2P Require Import Prelude GoString Json JsonDecode Base64 Models Config XrayTypes Schema.
From S2P Require Import Database DatabaseFacts DatabaseProps Generator GeneratorProps Admin.
From S2P Require Import Server ServerFacts Routes Nodes SubLinks Subscription.
From Stdlib Require Import Ascii.

(** The token is the current subscription token of an enabled user. *)
Definition admits (t : Tables) (token : string) (u : User) : Prop :=
  ∃ r, r ∈ t_users t ∧ ur_token r = token ∧ ur_enabled r = 1%Z ∧ u = scanUser r.

Lemma scanUser_enabled r : User_Enabled (scanUser r) = true → ur_enabled r = 1%Z.
Proof. intros H%Z.eqb_eq. done. Qed.

Lemma admitted_inr token db u db' :
  admitted token db = (inr u, db') → admits (db_tables db) token u ∧ db_tables db' = db_tables db.
Proof.
  unfold admitted. case_if; [done|]. intros (o & db1 & Hq%attempt_inr & H)%hbind_inr.
  destruct o as [e|[v|]]; try done. destruct (User_Enabled v) eqn:Ev; [|done].
  apply hret_inr in H as [-> ->]. apply find_user_inr in Hq as (Ht & r & Hr & Hp%String.eqb_eq & ->).
  split; [|done]. exists r. split_and!; try done. by apply scanUser_enabled.
Qed.

(** ** The Hysteria2 gate *)

(** The authentication backend of the Hysteria2 daemon admits a connection
    only for a request from a loopback address whose secret is the current
    subscription token of an enabled user, and labels it with that user's
    name; it changes nothing. *)
Lemma handleHysteriaAuth_admits r db id db' :
  handleHysteriaAuth r db = (inr (Some id), db') →
  requestFromLoopback r = true ∧ db_tables db' = db_tables db ∧
  ∃ auth u, Decode d_auth (limitRequestBody r) = inr auth ∧ auth ≠ "" ∧
    admits (db_tables db) auth u ∧ id = User_Username u.
Proof.
  unfold handleHysteriaAuth. destruct (requestFromLoopback r) eqn:El; [|done]. cbn [negb].
  destruct (Decode d_auth _) as [e|auth] eqn:Ed; [done|].
  destruct (String.eqb_spec auth "") as [|Hne]; [done|].
  intros (o & db1 & Hu%attempt_inr & Hk)%hbind_inr. apply hret_inr in Hk as [Hid <-].
  destruct o as [e|[u|]]; try done. destruct (User_Enabled u) eqn:Ee; [|done]. simplify_eq.
  apply find_user_inr in Hu as (Ht & row & Hrow & Hp%String.eqb_eq & ->).
  split; [done|]. split; [done|]. exists auth, (scanUser row). split_and!; try done.
  exists row. split_and!; try done. by apply scanUser_enabled.
Qed.

Lemma handleHysteriaSub_admits cfg r b64 db x db' :
  handleHysteriaSub cfg r b64 db = (inr x, db') → ∃ u, admits (db_tables db) (Vars r "token") u.
Proof.
  unfold handleHysteriaSub. destruct (C_Hysteria cfg) as [h|]; [|done]. case_if; [done|].
  intros (o & db1 & Hu%attempt_inr & Hk)%hbind_inr. destruct o as [e|[u|]]; try done.
  destruct (User_Enabled u) eqn:Ee; [|done].
  apply find_user_inr in Hu as (_ & row & Hrow & Hp%String.eqb_eq & ->).
  exists (scanUser row), row. split_and!; try done. by apply scanUser_enabled.
Qed.

Section SubscriptionProps.
Context `{Curve} `{Clock}.
Variables (cfg : Config) (now : Z).

(** C7: Nothing is served without a valid token: the JSON configuration,
  the link lists, the single link, the list and the index of links are
  only produced for a token that is, at that moment, the subscription
  token of an enabled user; an unknown, rotated or disabled one gets an
  error. *)
Theorem served_only_with_token r db :
(∀ b db', handleSubscription cfg r db = (inr b, db') → ∃ u, admits (db_tables db) (Vars r "token") u) ∧
(∀ b64 proto x db', handleSubscriptionLinksByFormatAndProtocol cfg r b64 proto db = (inr x, db') →
   ∃ u, admits (db_tables db) (Vars r "token") u) ∧
(∀ b64 x db', handleVLESSLinkByTag cfg r b64 db = (inr x, db') →
   ∃ u, admits (db_tables db) (Vars r "token") u) ∧
(∀ x db', handleVLESSList cfg r db = (inr x, db') → ∃ u, admits (db_tables db) (Vars r "token") u) ∧
(∀ x db', handleSubscriptionLinks cfg r db = (inr x, db') → ∃ u, admits (db_tables db) (Vars r "token") u) ∧
(∀ b64 x db', handleHysteriaSub cfg r b64 db = (inr x, db') → ∃ u, admits (db_tables db) (Vars r "token") u) ∧
(∀ name db', handleHysteriaAuth r db = (inr (Some name), db') → requestFromLoopback r = true ∧
   ∃ auth u, Decode d_auth (limitRequestBody r) = inr auth ∧ admits (db_tables db) auth u ∧ name = User_Username u).
Proof using Type.
assert (Hgen : ∀ proto x db', as_not_found (generateConfigForSubscriptionRequestWithForcedProtocol cfg r proto) db
  = (inr x, db') → ∃ u, admits (db_tables db) (Vars r "token") u).
{ unfold as_not_found. intros proto x db' Hx.
  destruct (generateConfigForSubscriptionRequestWithForcedProtocol cfg r proto db) as [[st|y] db1] eqn:E; [done|].
  apply hbind_inr in E as (u & db2 & [Hu _]%admitted_inr & _). by exists u. }
split_and!.
- intros b db' (u & db1 & [Hu _]%admitted_inr & _)%hbind_inr. by exists u.
- intros b64 proto x db' (u & db1 & Hu & _)%hbind_inr. by eapply Hgen.
- unfold handleVLESSLinkByTag. intros b64 x db'. case_if; [done|].
  intros (u & db1 & Hu & _)%hbind_inr. by eapply Hgen.
- intros x db' (u & db1 & Hu & _)%hbind_inr. by eapply Hgen.
- intros x db' (u & db1 & [Hu _]%admitted_inr & _)%hbind_inr. by exists u.
- intros b64 x db'. apply handleHysteriaSub_admits.
- intros name db' (Hl & _ & auth & u & Hd & _ & Hu & ->)%handleHysteriaAuth_admits. split; [done|]. by exists auth, u.
Qed.

Lemma split_fallback_iff isFallback clients c :
c ∈ split_fallback cfg isFallback clients ↔
c ∈ clients ∧ (C_FallbackInboundTags cfg = [] ∨
               (isFallback = true ↔ UCF_InboundTag c ∈ C_FallbackInboundTags cfg)).
Proof using Type.
unfold split_fallback. destruct (C_FallbackInboundTags cfg) as [|x tags]; [naive_solver|].
rewrite elem_of_bfilter, Bool.eqb_true_iff.
destruct isFallback; case_bool_decide as Ht; split; intros [? ?]; split; try done; try (by right);
  [naive_solver|..]; destruct H2 as [?|Hi]; try done; exfalso; naive_solver.
Qed.

Lemma restrict_emergency_sub st clients c : c ∈ restrict_emergency st clients → c ∈ clients.
Proof using Type.
unfold restrict_emergency. destruct (Emergency_Profile st) as [p|]; [|done].
destruct (Profile_InboundTags p) as [|x tags]; [done|].
destruct (bfilter _ clients) as [|y l] eqn:E; [done|]. intros Hc. rewrite <- E in Hc.
by apply elem_of_bfilter in Hc as [_ ?].
Qed.

Lemma filter_tags_sub t i clients c : c ∈ filter_tags t i clients → c ∈ clients.
Proof using Type.
revert i. induction clients as [|x l IH]; intros i; simpl; [done|].
case_if; rewrite ?elem_of_cons; naive_solver.
Qed.

Lemma filters_sub r proto clients c :
c ∈ applySubscriptionFiltersWithProtocol clients r proto → c ∈ clients.
Proof using Type.
unfold applySubscriptionFiltersWithProtocol. case_if; [|intros Hc%filter_tags_sub; revert Hc];
  case_if; try done; by intros [_ ?]%elem_of_bfilter.
Qed.

Lemma GetUserClients_inr userID db cs db' :
GetUserClients userID db = (inr cs, db') →
db_tables db' = db_tables db ∧
∀ c, c ∈ cs → ∃ uc ib, (uc, ib) ∈ join_clients (db_tables db) ∧ uc_user_id uc = userID ∧
  uc_enabled uc = 1%Z ∧ c = scan_client (uc, ib).
Proof using Type.
intros [-> Ht]%Query_inr. split; [done|]. intros c Hc.
apply list_elem_of_fmap in Hc as ([uc ib] & -> & Hc). apply elem_of_stable_sort, elem_of_bfilter in Hc.
destruct Hc as [[? ?]%andb_true_iff Hc]. bool_simp. by exists uc, ib.
Qed.


(** C10: The killswitch and the fallback token: a fallback route reaches its
  handler only while the fallback is enabled, for the fallback token of an
  enabled user, and then under that user's primary token and marked as a
  fallback request; while it is disabled every request is refused with
  403, whatever the token. *)
Theorem withFallbackAuth_gate {A} (next : Request → Server.H DB A) r db :
(∀ x db', withFallbackAuth now next r db = (inr x, db') →
   t_settings (db_tables db) !! "fallback_enabled" ≠ Some "false" ∧
   ∃ row db1, row ∈ t_users (db_tables db) ∧ ur_fallback_token row = Some (Vars r "token") ∧
     ur_enabled row = 1%Z ∧ next (fallback_request r (scanUser row)) db1 = (inr x, db')) ∧
(db_faults db = [] → Vars r "token" ≠ "" →
 t_settings (db_tables db) !! "fallback_enabled" = Some "false" →
 withFallbackAuth now next r db = (inl (mkStatus StatusForbidden "fallback subscription disabled"), db)).
Proof using Type.
split.
- intros x db'. unfold withFallbackAuth. case_if; [done|].
  intros (en & db1 & Hen%or_fail_inr & Hk)%hbind_inr.
  apply bind_ok in Hen as (val & db2 & Hq%Query_inr & [= Hen <-]).
  destruct Hq as [-> Ht]. destruct en; [|done]. simpl in Hk.
  apply hbind_inr in Hk as (o & db3 & Hu%attempt_inr & Hk). destruct o as [e|[u|]]; try done.
  destruct (User_Enabled u) eqn:Ee; [|done]. simpl in Hk.
  apply hbind_inr in Hk as (w & db4 & _ & Hk).
  unfold GetUserByFallbackToken in Hu. rewrite Heqb in Hu.
  apply find_user_inr in Hu as (_ & row & Hrow & Hp & ->). rewrite Ht in Hrow.
  split; [intros Hf; by rewrite Hf in Hen|]. exists row, db4. split_and!; try done; [|by apply scanUser_enabled].
  destruct (ur_fallback_token row); [by apply String.eqb_eq in Hp as ->|done].
- intros Hf Hv%String.eqb_neq Hs. unfold withFallbackAuth. rewrite Hv.
  destruct db as [t fs]. simpl in *. subst fs. unfold hbind, internal_error, or_fail.
  cbn. by rewrite Hs.
Qed.
End SubscriptionProps.

(** ** The lightweight profile *)

Definition geo_free (rule : RoutingRule) : bool :=
  forallb (λ v, negb (is_geo_selector v)) (Rule_Domain rule)
  && forallb (λ v, negb (is_geo_selector v)) (Rule_IP rule).

Lemma strip_geo_free rule : geo_free (strip_rule rule) = true.
Proof.
  unfold geo_free, strip_rule, stripGeoSelectors. cbn.
  apply andb_true_iff. split; apply forallb_forall; intros v Hv%list_elem_of_In;
    by apply elem_of_bfilter in Hv as [? _].
Qed.
Lemma strip_id rule : geo_free rule = true → strip_rule rule = rule.
Proof.
  intros [Hd Hi]%andb_true_iff. rewrite forallb_forall in Hd, Hi. destruct rule. unfold strip_rule, stripGeoSelectors. cbn in *.
  f_equal; apply bfilter_all; intros x Hx%list_elem_of_In; auto.
Qed.

(** The lightweight profile only touches routing rules: afterwards no
    rule has a geo selector and every rule matches on something; the rules
    that had none and matched on something are all still there, unchanged and
    in order; outbounds, inbounds, DNS, observatory and balancers are the
    same. *)
Lemma applyMobileRoutingProfile_spec cfg :
  let cfg' := applyMobileRoutingProfile cfg in
  Forall (λ r, geo_free r = true ∧ effective_rule r = true) (Routing_Rules (Cfg_Routing cfg')) ∧
  sublist (bfilter (λ r, geo_free r && effective_rule r) (Routing_Rules (Cfg_Routing cfg)))
          (Routing_Rules (Cfg_Routing cfg')) ∧
  Cfg_Outbounds cfg' = Cfg_Outbounds cfg ∧ Cfg_Inbounds cfg' = Cfg_Inbounds cfg ∧
  Cfg_DNS cfg' = Cfg_DNS cfg ∧ Cfg_Observatory cfg' = Cfg_Observatory cfg ∧
  Routing_Balancers (Cfg_Routing cfg') = Routing_Balancers (Cfg_Routing cfg).
Proof.
  intros cfg'. split_and!; try done; subst cfg'; cbn.
  - apply Forall_forall. intros r [He Hr]%elem_of_bfilter. apply list_elem_of_fmap in Hr as (r0 & -> & _).
    by rewrite strip_geo_free.
  - induction (Routing_Rules (Cfg_Routing cfg)) as [|r rs IH]; [constructor|]. cbn [bfilter List.filter map].
    destruct (geo_free r) eqn:Eg; simpl.
    + rewrite (strip_id r Eg). by destruct (effective_rule r); [constructor|].
    + by destruct (effective_rule (strip_rule r)); [constructor|].
Qed.

(** ** Examples behind the findings *)

(** A rule for one geosite and port becomes a rule for the whole port. *)
Lemma mobile_profile_widens_rule :
  let rule := mkRule "field" [] "direct" "" ["geosite:private"] [] "" "443" [] in
  bfilter effective_rule (map strip_rule [rule]) = [mkRule "field" [] "direct" "" [] [] "" "443" []].
Proof. reflexivity. Qed.

(** The filter counts positions before the generator sorts: the second client
    is emitted as [xhttp-in-0], a tag the filter does not find. *)
Lemma generated_tag_not_matched :
  let client tag := mkUserClientFull (mkUserClient 1 1 1 "" true) tag "vless" 443 "" "" "" 0 in
  sortClientsXHTTPFirst [client "tcp-in"; client "xhttp-in"] = [client "xhttp-in"; client "tcp-in"] ∧
  outbound_tag "xhttp-in" 0 = "xhttp-in-0" ∧
  filter_tags "xhttp-in-0" 0 [client "tcp-in"; client "xhttp-in"] = [].
Proof. vm_compute. done. Qed.

(** The Hysteria2 backend admits a user whose reserve is switched off. *)
Definition hy2_off_row : user_row :=
  mkUserRow 1 "ann" "ann" "tok-a" None None 1 "[]" 0 10 10.
Definition hy2_off_db : DB :=
  mkDB (with_users [hy2_off_row] 1 empty_tables) [].
Definition auth_request : Request :=
  mkRequest ∅ ∅ ∅ "" "127.0.0.1:5000" false (json_marshal (JObj [("auth", JStr "tok-a")])).
Lemma hysteria_auth_ignores_hy2_enabled :
  (handleHysteriaAuth auth_request hy2_off_db).1 = inr (Some "ann") ∧
  User_Hy2Enabled (scanUser hy2_off_row) = false.
Proof. vm_compute. done. Qed.

(** ** Witnesses *)

Lemma handleHysteriaAuth_admits_witness : ∃ db',
  handleHysteriaAuth auth_request hy2_off_db = (inr (Some "ann"), db') ∧
  ∃ auth u, Decode d_auth (limitRequestBody auth_request) = inr auth ∧ admits (db_tables hy2_off_db) auth u.
Proof.
  destruct (handleHysteriaAuth auth_request hy2_off_db) as [[e|[id|]] db'] eqn:E;
    [exfalso; vm_compute in E; discriminate E| |exfalso; vm_compute in E; discriminate E].
  assert (id = "ann") as -> by (vm_compute in E; congruence).
  exists db'. split; [done|].
  destruct (handleHysteriaAuth_admits _ _ _ _ E) as (_ & _ & auth & u & H1 & _ & H2 & _). by exists auth, u.
Defined.

Definition demo_config : Config :=
  mkConfig ":8080" "" "" 0 "vpn.example" "/etc/xray/config.d" "db.sqlite" 60
    "http://localhost:8080" "" "" None ["fb-in"] [] ["hidden-in"] None "" "leastPing"
    "https://www.gstatic.com/generate_204" "30s" 0 0 0 0 "" "" "" 0 "" ∅ ∅ "" [] ∅ None 30 [] 0.
Definition demo_inbound (id : Z) (tag : string) : Inbound :=
  mkInbound id tag "vless" 443 "a.json"
    (json_marshal (JObj [("tag", JStr tag); ("port", JInt 443); ("protocol", JStr "vless")])) 5.
Definition demo_client_config : string := marshal_Stored (mkStored "vless" "u-1" 0 "" "ann" "none" 0 "" "" "").
(** Ann has a client on a normal, an excluded and a fallback inbound. *)
Definition demo_tables : Tables := mkTables [ann_row; bob_row]
  [demo_inbound 1 "main-in"; demo_inbound 2 "hidden-in"; demo_inbound 3 "fb-in"]
  [mkUcRow 1 1 1 demo_client_config 1; mkUcRow 2 1 2 demo_client_config 1; mkUcRow 3 1 3 demo_client_config 1]
  ∅ [] [] [] 2 3 3 0 0.
Definition get_request (token : string) (fallback : bool) : Request :=
  mkRequest {["token" := token]} ∅ ∅ "" "10.1.2.3:999" fallback "".

Lemma served_only_with_token_witness :
  (∃ b db', @handleSubscription IdentityCurve DecimalClock demo_config (get_request "tok-a" false) (mkDB demo_tables [])
     = (inr b, db')) ∧ (∃ u, admits demo_tables "tok-a" u).
Proof.
  destruct (@handleSubscription IdentityCurve DecimalClock demo_config (get_request "tok-a" false) (mkDB demo_tables []))
    as [[e|b] db'] eqn:E; [exfalso; vm_compute in E; discriminate E|].
  split; [by exists b, db'|].
  exact (proj1 (@served_only_with_token IdentityCurve DecimalClock demo_config (get_request "tok-a" false)
    (mkDB demo_tables [])) b db' E).
Defined.


Lemma withFallbackAuth_gate_witness :
  let db := mkDB (with_settings {["fallback_enabled" := "false"]} demo_tables) [] in
  withFallbackAuth 5 (λ _, hret tt) (get_request "fb-a" false) db
  = (inl (mkStatus StatusForbidden "fallback subscription disabled"), db).
Proof. intros db. apply (proj2 (withFallbackAuth_gate 5 (λ _, hret tt) (get_request "fb-a" false) db)); done. Defined.
