(* ===== verification/SubLinksProps.v ===== *)
(** * Share links parse back

    [parse_share] splits a URI the way [net/url] does (fragment, scheme,
    query, user, host and port) and undoes the percent encoding; the links
    the code builds parse back to what they were built from. *)

From S2P Require Import Prelude GoString Json JsonDecode Base64 Net Models XrayTypes Parser.
From S2P Require Import Generator Server SubLinks.
From Stdlib Require Import Ascii.

(** ** Percent encoding *)

Fixpoint QueryUnescape (s : string) : option string :=
  match s with
  | EmptyString => Some ""
  | String c r =>
      if is_char c 37 then
        match r with
        | String a (String b r') =>
            x ← hex_val a; y ← hex_val b; t ← QueryUnescape r'; Some (String (chr (x * 16 + y)) t)
        | _ => None
        end
      else t ← QueryUnescape r; Some (String (if is_char c 43 then chr 32 else c) t)
  end.

Lemma QueryUnescape_byte c s :
  QueryUnescape (escape_byte c +:+ s) = t ← QueryUnescape s; Some (String c t).
Proof. destruct c as [[] [] [] [] [] [] [] []]; reflexivity. Qed.

Lemma QueryUnescape_QueryEscape s : QueryUnescape (QueryEscape s) = Some s.
Proof. induction s as [|c s IH]; simpl; [done|]. by rewrite QueryUnescape_byte, IH. Qed.

Definition query_safe (c : ascii) : bool := url_unreserved c || is_char c 37 || is_char c 43.
Lemma escape_byte_safe c : string_forallb query_safe (escape_byte c) = true.
Proof. destruct c as [[] [] [] [] [] [] [] []]; vm_compute; reflexivity. Qed.
Lemma QueryEscape_safe s : string_forallb query_safe (QueryEscape s) = true.
Proof. induction s as [|c s IH]; simpl; [done|]. by rewrite string_forallb_app, escape_byte_safe. Qed.
Lemma QueryEscape_without c s : query_safe c = false → contains_char c (QueryEscape s) = false.
Proof. intros Hc. eapply contains_char_forallb; [exact Hc|]. apply QueryEscape_safe. Qed.

(** ** A parser for share links *)

Fixpoint split_all (c : ascii) (s : string) : list string :=
  match s with
  | EmptyString => [""]
  | String x r =>
      if Ascii.eqb x c then "" :: split_all c r
      else match split_all c r with h :: t => String x h :: t | [] => [String x ""] end
  end.
Definition parse_pair (s : string) : option (string * string) :=
  '(k, v) ← split_first "=" s; k ← QueryUnescape k; v ← QueryUnescape v; Some (k, v).
Definition parse_query (s : string) : option Values :=
  if String.eqb s "" then Some [] else mapM parse_pair (split_all "&" s).

Record share := mkShare {
  sh_scheme : string; sh_user : string; sh_host : string; sh_port : Z;
  sh_params : Values; sh_name : string }.
Definition parse_share (s : string) : option share :=
  '(s, name) ← split_first "#" s;
  '(scheme, s) ← split_first ":" s;
  let s := TrimPrefix s "//" in
  '(s, query) ← split_first "?" s;
  '(user, s) ← split_first "@" s;
  '(host, port) ← split_last ":" s;
  port ← parse_dec port; user ← QueryUnescape user; name ← QueryUnescape name;
  params ← parse_query query;
  Some (mkShare scheme user host port params name).

Lemma split_all_none c a : contains_char c a = false → split_all c a = [a].
Proof.
  induction a as [|x a IH]; simpl; [done|]. intros [-> H]%orb_false_iff. by rewrite IH.
Qed.
Lemma split_all_app c a b :
  contains_char c a = false → split_all c (a +:+ String c b) = a :: split_all c b.
Proof.
  induction a as [|x a IH]; simpl; [by rewrite Ascii.eqb_refl|].
  intros [-> H]%orb_false_iff. by rewrite IH.
Qed.
Lemma split_all_Join c l x :
  Forall (λ s, contains_char c s = false) (x :: l) → split_all c (Join (x :: l) (String c "")) = x :: l.
Proof.
  revert x. induction l as [|y l IH]; intros x Hf; apply Forall_cons in Hf as [Hx Hf].
  - by apply split_all_none.
  - change (Join (x :: y :: l) (String c "")) with (x +:+ String c (Join (y :: l) (String c ""))).
    by rewrite split_all_app, IH.
Qed.

Lemma parse_encode_pair kv : parse_pair (encode_pair kv) = Some kv.
Proof.
  destruct kv as [k v]. unfold parse_pair, encode_pair. cbn [fst snd String.append].
  rewrite split_first_app by by apply QueryEscape_without. simpl. by rewrite !QueryUnescape_QueryEscape.
Qed.

Definition share_chars (c : ascii) : bool := query_safe c || is_char c 61 || is_char c 38.
Lemma encode_pair_without c kv :
  query_safe c = false → is_char c 61 = false → contains_char c (encode_pair kv) = false.
Proof.
  intros Hc He. unfold encode_pair. rewrite contains_char_app, QueryEscape_without by done.
  cbn [String.append contains_char orb]. rewrite QueryEscape_without by done. destruct (Ascii.eqb_spec "=" c); [by subst|done].
Qed.
Lemma Encode_without c q :
  query_safe c = false → is_char c 61 = false → is_char c 38 = false →
  contains_char c (Encode q) = false.
Proof.
  intros Hc He Ha. unfold Encode. induction q as [|kv [|kv' q] IH]; [done|by apply encode_pair_without|].
  change (Join (map encode_pair (kv :: kv' :: q)) "&")
    with (encode_pair kv +:+ String "&" (Join (map encode_pair (kv' :: q)) "&")).
  rewrite contains_char_app, encode_pair_without by done. cbn [contains_char orb].
  destruct (Ascii.eqb_spec "&" c); [by subst|exact IH].
Qed.

Lemma parse_query_Encode q : parse_query (Encode q) = Some q.
Proof.
  destruct q as [|kv q]; [done|]. unfold parse_query.
  assert (Encode (kv :: q) ≠ "") as Hne%String.eqb_neq.
  { unfold Encode. destruct q; simpl; unfold encode_pair; destruct (QueryEscape kv.1); done. }
  rewrite Hne. unfold Encode. rewrite map_cons, split_all_Join.
  - rewrite <- map_cons. generalize (kv :: q). intros l. induction l as [|x l IH]; [done|].
    cbn [map mapM]. by rewrite parse_encode_pair, IH.
  - apply (Forall_map encode_pair (λ s, contains_char "&" s = false) (kv :: q)).
    apply Forall_forall. intros x _. by apply encode_pair_without.
Qed.

(** Addresses that do not break a URI. *)
Definition host_ok (address : string) : bool :=
  string_forallb (λ c, negb (is_char c 35 || is_char c 63 || is_char c 64)) address.
Definition scheme_ok (scheme : string) : bool := string_forallb is_lower scheme.

Lemma dec_chars z : string_forallb (λ c, is_digit c || is_char c 45) (Itoa z) = true.
Proof.
  assert (∀ d, string_forallb (λ c, is_digit c || is_char c 45)
    (DecimalString.NilEmpty.string_of_uint d) = true) as Hd by (intros d; by induction d).
  unfold Itoa, DecimalString.NilZero.string_of_int.
  destruct (Z.to_int z) as [d|d]; simpl; destruct d; try done; apply (Hd (_ d)).
Qed.
Lemma Itoa_without c z : is_digit c || is_char c 45 = false → contains_char c (Itoa z) = false.
Proof. intros Hc. by eapply (contains_char_forallb (λ c, is_digit c || is_char c 45)), dec_chars. Qed.

Lemma share_uri_parses scheme user address port params name :
  scheme_ok scheme = true → host_ok address = true →
  parse_share (share_uri scheme user address port params name)
  = Some (mkShare scheme user address port params name).
Proof.
  intros Hs Ha. unfold share_uri.
  assert (Hsc : ∀ c, is_lower c = false → contains_char c scheme = false).
  { intros c Hc. by eapply contains_char_forallb. }
  assert (Had : ∀ c, is_char c 35 || is_char c 63 || is_char c 64 = true → contains_char c address = false).
  { intros c Hc. eapply contains_char_forallb; [|exact Ha]. simpl. by rewrite Hc. }
  set (rest := QueryEscape user +:+ "@" +:+ address +:+ ":" +:+ Itoa port).
  assert (scheme +:+ "://" +:+ QueryEscape user +:+ "@" +:+ address +:+ ":" +:+ Itoa port +:+ "?"
    +:+ Encode params +:+ "#" +:+ QueryEscape name
    = (scheme +:+ String ":" ("//" +:+ rest +:+ String "?" (Encode params))) +:+ String "#" (QueryEscape name)) as ->.
  { unfold rest. app_simp. done. }
  assert (Hrest : ∀ c, query_safe c = false → is_char c 35 || is_char c 63 = true →
    contains_char c rest = false).
  { intros c Hc Hq. unfold rest. rewrite !contains_char_app. rewrite QueryEscape_without by done.
    rewrite Had by (by rewrite Hq). rewrite Itoa_without; [revert Hq; all_bytes c|revert Hq; all_bytes c]. }
  unfold parse_share. rewrite split_first_app.
  2: { rewrite contains_char_app, Hsc by done. cbn.
       rewrite contains_char_app, Hrest by done. cbn. by apply Encode_without. }
  simpl. rewrite split_first_app by by apply Hsc. simpl.
  assert (∀ r, TrimPrefix (String "/" (String "/" r)) "//" = r) as -> by (intros r; by destruct r).
  rewrite split_first_app by by apply Hrest. simpl. unfold rest. cbn [String.append].
  rewrite split_first_app by by apply QueryEscape_without. simpl.
  rewrite split_last_app by by apply Itoa_without. simpl.
  by rewrite parse_dec_Itoa; simpl; rewrite !QueryUnescape_QueryEscape; simpl; rewrite parse_query_Encode.
Qed.

(** ** Settings read back *)

Lemma decode_encode_VLESSUser u :
  int64_ok (VLESSU_Level u) = true → uint32_ok (VLESSU_Testpre u) = true →
  decode_VLESSUser (encode_VLESSUser u) = (u, true).
Proof. intros Hl Ht. destruct u. unfold decode_VLESSUser, encode_VLESSUser, d_int, d_uint32. read_struct. Qed.
Lemma decode_encode_VMessUser u :
  int64_ok (VMessU_AlterId u) = true → int64_ok (VMessU_Level u) = true →
  decode_VMessUser (encode_VMessUser u) = (u, true).
Proof. intros Ha Hl. destruct u as [id aid sec lvl]. cbn [VMessU_AlterId VMessU_Level] in *.
  unfold decode_VMessUser, encode_VMessUser, d_int. read_struct. Qed.

Lemma d_list_one {A B} (d : decoder A) (enc : B → json) (b : B) a :
  d (enc b) = (a, true) → d_list d (JArr (map enc [b])) = ([a], true).
Proof. intros H. unfold d_list, d_slice, d_elems. simpl. by rewrite H. Qed.

Lemma d_int_ok z : int64_ok z = true → d_int (JInt z) = (z, true).
Proof. intros H. unfold d_int, d_int_in. by rewrite H. Qed.

(** Evaluate a decoder on a concrete object, given its inner results. *)
Ltac read_obj :=
  cbn [d_object]; unfold dbind at 1; unfold d_field; cbn [lookup_fold]; eval_keys; cbv beta iota;
  rewrite ?d_int_ok by done.

Lemma read_VLESS host port cred :
  int64_ok port = true → uint32_ok (Stored_Testpre cred) = true → ∃ u,
  decode_settings decode_VLESSOut (Some (buildVLESSSettings host port cred))
    = Some (mkVLESSOut [mkVLESSServer host port [u]]) ∧
  VLESSU_ID u = Stored_ID cred ∧ VLESSU_Flow u = Stored_Flow cred ∧
  VLESSU_Encryption u = firstNonEmptyString [TrimSpace (Stored_Encryption cred); "none"].
Proof.
  intros Hp Ht. eexists (mkVLESSUser _ _ _ _ _ _). unfold decode_settings, buildVLESSSettings, encode_VLESSOut.
  cbn [VLESSOut_Vnext]. unfold decode, decode_VLESSOut.
  match goal with |- context [mkVLESSUser ?a ?b ?c ?d ?e ?f] =>
    pose proof (decode_encode_VLESSUser (mkVLESSUser a b c d e f) eq_refl Ht) as Hu end.
  apply d_list_one in Hu.
  match goal with |- context [JArr (map ?f [?x])] =>
    assert (Hs : decode_VLESSServer (f x) = (x, true)) end.
  { cbn [VLESSS_Address VLESSS_Port VLESSS_Users]. unfold decode_VLESSServer. read_obj. by rewrite Hu. }
  apply d_list_one in Hs. read_obj. rewrite Hs. cbn. split; [reflexivity|]. split_and!; try done. unfold firstNonEmptyString. simpl. rewrite TrimSpace_idem.
  by destruct (String.eqb_spec (TrimSpace (Stored_Encryption cred)) "") as [->|].
Qed.

Lemma read_VMess host port cred :
  int64_ok port = true → int64_ok (Stored_AlterId cred) = true →
  decode_settings decode_VMessOut (Some (buildVMessSettings host port cred))
  = Some (mkVMessOut [mkVMessServer host port [mkVMessUser (Stored_ID cred) (Stored_AlterId cred) "auto" 0]]).
Proof.
  intros Hp Ha. unfold decode_settings, buildVMessSettings, encode_VMessOut.
  cbn [VMessOut_Vnext]. unfold decode, decode_VMessOut.
  pose proof (decode_encode_VMessUser (mkVMessUser (Stored_ID cred) (Stored_AlterId cred) "auto" 0) Ha eq_refl) as Hu.
  apply d_list_one in Hu.
  match goal with |- context [JArr (map ?f [?x])] =>
    assert (Hs : decode_VMessServer (f x) = (x, true)) end.
  { cbn [VMessS_Address VMessS_Port VMessS_Users]. unfold decode_VMessServer. read_obj. by rewrite Hu. }
  apply d_list_one in Hs. read_obj. by rewrite Hs.
Qed.

Lemma read_Trojan host port cred :
  int64_ok port = true →
  decode_settings decode_TrojanOut (Some (buildTrojanSettings host port cred))
  = Some (mkTrojanOut [mkTrojanServer host port (Stored_Password cred) 0]).
Proof.
  intros Hp. unfold decode_settings, buildTrojanSettings, encode_TrojanOut.
  cbn [TrojanOut_Servers]. unfold decode, decode_TrojanOut.
  match goal with |- context [JArr (map ?f [?x])] =>
    assert (Hs : decode_TrojanServer (f x) = (x, true)) end.
  { cbn [TrojanS_Address TrojanS_Port TrojanS_Password TrojanS_Level omit_int Z.eqb app].
    unfold decode_TrojanServer. by read_obj. }
  apply d_list_one in Hs. read_obj. by rewrite Hs.
Qed.

Lemma read_SS host port cred :
  int64_ok port = true →
  decode_settings decode_SSOut (Some (buildShadowsocksSettings host port cred))
  = Some (mkSSOut [mkSSServer host port
      (if String.eqb (Stored_Method cred) "" then "aes-256-gcm" else Stored_Method cred)
      (Stored_Password cred) 0 false]).
Proof.
  intros Hp. unfold decode_settings, buildShadowsocksSettings, encode_SSOut.
  cbn [SSOut_Servers]. unfold decode, decode_SSOut.
  match goal with |- context [JArr (map ?f [?x])] =>
    assert (Hs : decode_SSServer (f x) = (x, true)) end.
  { cbn [SSS_Address SSS_Port SSS_Method SSS_Password SSS_Level SSS_UoT omit_int omit_bool Z.eqb app].
    unfold decode_SSServer. by read_obj. }
  apply d_list_one in Hs. read_obj. by rewrite Hs.
Qed.

(** ** Properties *)


(** The credential part of a Shadowsocks link, and the document of a VMess one. *)
Definition ss_credential (link : string) : option string :=
  '(cred, _) ← split_first "@" (TrimPrefix link "ss://"); DecodeString StdEncoding cred.
Definition vmess_document (link : string) : option json :=
  raw ← DecodeString StdEncoding (TrimPrefix link "vmess://"); json_parse raw.

Lemma TrimPrefix_app p s : TrimPrefix (p +:+ s) p = s.
Proof.
  unfold TrimPrefix, HasPrefix. rewrite prefix_app. induction p as [|c p IH]; [by destruct s|exact IH].
Qed.

#[local] Ltac Zify.zify_post_hook ::= Z.to_euclidean_division_equations.

Lemma encoded_without_at s : contains_char "@" (EncodeToString StdEncoding s) = false.
Proof.
  assert (Hc : ∀ n, (n < 64)%N → Ascii.eqb (sextet_char StdEncoding n) "@" = false).
  { intros n Hn. assert (n ∈ map N.of_nat (seq 0 64)) as Hin.
    { apply list_elem_of_In, in_map_iff. exists (N.to_nat n). rewrite in_seq. lia. }
    clear Hn. revert n Hin. decide_closed. }
  revert s. fix IH 1. intros [|a [|b [|c r]]]; [done|..];
    cbn [EncodeToString contains_char padding enc_pad StdEncoding];
    try pose proof (code_bound a); try pose proof (code_bound b); try pose proof (code_bound c);
    rewrite !Hc by lia; rewrite ?IH; done.
Qed.


(** The stream settings touch six members of the VMess document only. *)
Definition stream_members : list string := ["net"; "tls"; "sni"; "fp"; "path"; "host"].
Lemma vmess_item_get k ob address port u :
  k ∉ stream_members →
  map_get k (vmess_item ob address port u)
  = map_get k (vmess_item (mkOutbound (Out_Tag ob) "" None None None) address port u).
Proof.
  intros Hk. unfold vmess_item. cbn [Out_Tag Out_StreamSettings].
  generalize (foldl (λ m kv, Values_Set kv.1 kv.2 m) []
    [("v", "2"); ("ps", Out_Tag ob); ("add", address); ("port", Itoa port); ("id", VMessU_ID u);
     ("aid", Itoa (VMessU_AlterId u)); ("scy", firstNonEmptyString [VMessU_Security u; "auto"]);
     ("net", "tcp"); ("type", "none"); ("host", ""); ("path", ""); ("tls", ""); ("sni", "");
     ("alpn", ""); ("fp", "")]). intros base.
  destruct (Out_StreamSettings ob) as [ss|]; [|done].
  assert (Hset : ∀ k', k' ∈ stream_members → ∀ v m, map_get k (Values_Set k' v m) = map_get k m).
  { intros k' Hk' v m. apply map_get_set_ne. by intros ->. }
  assert (Hitem : ∀ m key k', k' ∈ stream_members → ∀ item, map_get k (item_from m key k' item) = map_get k item).
  { intros m key k' Hk' item. unfold item_from. repeat case_match; by rewrite ?Hset. }
  unfold applyVMessTransport. case_if; [|case_if]; rewrite ?Hitem by decide_closed;
    (destruct (Stream_RealitySettings ss); rewrite ?Hset by decide_closed);
    (destruct (Stream_TLSSettings ss); rewrite ?Hset by decide_closed);
    (case_if; rewrite ?Hset by decide_closed); case_if; by rewrite ?Hset by decide_closed.
Qed.

Lemma vmess_item_wf item : json_wf (JObj (map (λ kv : string * string, (kv.1, JStr kv.2)) item)) = true.
Proof. simpl. by induction item. Qed.

(** C37: The Shadowsocks link carries method and password, and the VMess link
      the share document with the id, the alterId, the address and the port of
      the account, both behind base64. *)
Theorem ss_vmess_links_decode host port cred tag stream mux :
  int64_ok port = true → int64_ok (Stored_AlterId cred) = true →
  (let ob := mkOutbound tag "shadowsocks" (Some (buildShadowsocksSettings host port cred)) stream mux in
   ss_credential (buildSSLink ob)
   = Some ((if String.eqb (Stored_Method cred) "" then "aes-256-gcm" else Stored_Method cred)
           +:+ ":" +:+ Stored_Password cred)) ∧
  (let ob := mkOutbound tag "vmess" (Some (buildVMessSettings host port cred)) stream mux in
   ∃ item, vmess_document (buildVMessLink ob) = Some (JObj (map (λ kv, (kv.1, JStr kv.2)) item)) ∧
     item = vmess_item ob host port (mkVMessUser (Stored_ID cred) (Stored_AlterId cred) "auto" 0) ∧
     map_get "id" item = Some (Stored_ID cred) ∧ map_get "aid" item = Some (Itoa (Stored_AlterId cred)) ∧
     map_get "add" item = Some host ∧ map_get "port" item = Some (Itoa port) ∧
     map_get "ps" item = Some tag).
Proof.
  intros Hp Ha. split.
  - unfold buildSSLink. cbn [Out_Settings]. rewrite read_SS by done. cbn [SSS_Method SSS_Password SSS_Address].
    unfold ss_credential. rewrite (TrimPrefix_app "ss://"). cbn [String.append].
    rewrite split_first_app by apply encoded_without_at. simpl.
    by rewrite DecodeString_EncodeToString by apply StdEncoding_ok.
  - eexists. split; [|split; [reflexivity|]].
    + unfold buildVMessLink. cbn [Out_Settings]. rewrite read_VMess by done. unfold vmess_document.
      rewrite (TrimPrefix_app "vmess://"), DecodeString_EncodeToString by apply StdEncoding_ok. simpl.
      apply json_parse_marshal, vmess_item_wf.
    + split_and!; rewrite vmess_item_get by decide_closed; reflexivity.
Qed.

(** No outbound the generator builds has a [finalmask], so no link has [fm]. *)
Lemma generated_finalmask_absent proto host port cred settings :
  build_settings proto host port cred = inr settings → extractFinalmask (Some settings) = "".
Proof. unfold build_settings. intros H. repeat case_if; simplify_eq; reflexivity. Qed.

(** ** Witnesses *)

Definition demo_cred : StoredClientConfig :=
  mkStored "vless" "a b&c#d" 4 "xtls-rprx-vision" "" "none" 0 "p@ss/word" "" "".


Lemma ss_vmess_links_decode_witness :
  let ob := mkOutbound "in-0" "shadowsocks" (Some (buildShadowsocksSettings "h" 443 demo_cred)) None None in
  ss_credential (buildSSLink ob) = Some "aes-256-gcm:p@ss/word".
Proof. exact (proj1 (ss_vmess_links_decode "h" 443 demo_cred "in-0" None None eq_refl eq_refl)). Defined.
