(* ===== verification/RoutesProps.v ===== *)
(** * What the route handlers guarantee

    Which rules are accepted, that what is stored is what is read back, and
    that the balancer override is the one in force. *)

From S2P Require Import Prelude GoString Json JsonDecode Net Models Config XrayTypes Schema.
From S2P Require Import Database DatabaseProps Generator GeneratorProps ConfigWriter.
From S2P Require Import ConfigWriterProps Syncer Server ServerFacts Routes.
From Stdlib Require Import Ascii.

(** ** Validation *)

(** A selector that does not start with one of the prefixes, up to case and
    white space. *)
Definition selector_ok (wrong : string) (v : string) : Prop :=
  HasPrefix (TrimSpace (ToLower v)) wrong = false ∧ HasPrefix (TrimSpace (ToLower v)) "geositeip:" = false.

(** What a rule must satisfy, as the API documents it. *)
Record rule_valid (rule : UserRouteRule) : Prop := {
  rv_target : ToLower (TrimSpace (Route_OutboundTag rule)) ∈ ["direct"; "proxy"; "block"];
  rv_effective : Route_Domain rule ≠ [] ∨ Route_IP rule ≠ [] ∨ Route_Protocol rule ≠ []
    ∨ Route_InboundTag rule ≠ [] ∨ TrimSpace (Route_Network rule) ≠ "" ∨ TrimSpace (Route_Port rule) ≠ "";
  rv_type : Route_Type rule = "" ∨ ToLower (TrimSpace (Route_Type rule)) = "field";
  rv_domain : Forall (selector_ok "geoip:") (Route_Domain rule);
  rv_ip : Forall (selector_ok "geosite:") (Route_IP rule) }.

Lemma bad_selector_none wrong msg l : bad_selector wrong msg l = None ↔ Forall (selector_ok wrong) l.
Proof.
  induction l as [|d l IH]; simpl; [by split|]. rewrite Forall_cons. unfold selector_ok at 1.
  destruct (HasPrefix (TrimSpace (ToLower d)) wrong); [naive_solver|].
  destruct (HasPrefix (TrimSpace (ToLower d)) "geositeip:"); naive_solver.
Qed.

Lemma allowed_target_iff rule :
  allowed_target rule = true ↔ ToLower (TrimSpace (Route_OutboundTag rule)) ∈ ["direct"; "proxy"; "block"].
Proof.
  unfold allowed_target. rewrite !orb_true_iff, !String.eqb_eq, !elem_of_cons, elem_of_nil. tauto.
Qed.

Lemma effective_iff rule :
  no_effective_fields rule = false ↔
  Route_Domain rule ≠ [] ∨ Route_IP rule ≠ [] ∨ Route_Protocol rule ≠ []
  ∨ Route_InboundTag rule ≠ [] ∨ TrimSpace (Route_Network rule) ≠ "" ∨ TrimSpace (Route_Port rule) ≠ "".
Proof.
  unfold no_effective_fields.
  destruct (Route_Domain rule), (Route_IP rule), (Route_Protocol rule), (Route_InboundTag rule);
    try (split; [intros _; auto 10|done]); try (split; [intros _|done]; tauto || (repeat (left; done) || right)).
  all: try (split; [intros _; naive_solver|done]).
  rewrite andb_false_iff, !String.eqb_neq. naive_solver.
Qed.

Lemma rule_error_none i seen rule :
  rule_error i seen rule = None ↔
  rule_valid rule ∧ (TrimSpace (Route_ID rule) = "" ∨ Route_ID rule ∉ seen).
Proof.
  unfold rule_error.
  destruct (negb _ && bool_decide (Route_ID rule ∈ seen)) eqn:Eid.
  { split; [done|]. intros [_ Hid]. bool_simp. destruct Hid; done. }
  assert (Hid : TrimSpace (Route_ID rule) = "" ∨ Route_ID rule ∉ seen).
  { apply andb_false_iff in Eid as [Eid|Eid]; bool_simp; auto. }
  destruct (allowed_target rule) eqn:Et; simpl.
  2: { split; [done|]. intros [[Ht] _]. apply allowed_target_iff in Ht. congruence. }
  destruct (no_effective_fields rule) eqn:Ee.
  { split; [done|]. intros [[_ He] _]. apply effective_iff in He. congruence. }
  destruct (negb _ && negb _) eqn:Ety.
  { split; [done|]. intros [[_ _ Hty] _]. bool_simp. destruct Hty; done. }
  unfold validateRouteSelectors.
  assert (Hval : Forall (selector_ok "geoip:") (Route_Domain rule) →
    Forall (selector_ok "geosite:") (Route_IP rule) → rule_valid rule).
  { intros Hd Hi. constructor; try done; [by apply allowed_target_iff|by apply effective_iff|].
    apply andb_false_iff in Ety as [Ety|Ety]; apply negb_false_iff, String.eqb_eq in Ety; auto. }
  destruct (bad_selector "geoip:" _ (Route_Domain rule)) eqn:Ed.
  { split; [done|]. intros [[_ _ _ Hd _] _]. eapply bad_selector_none in Hd. rewrite Ed in Hd. done. }
  apply bad_selector_none in Ed.
  destruct (bad_selector "geosite:" _ (Route_IP rule)) eqn:Ei.
  { split; [done|]. intros [[_ _ _ _ Hi] _]. eapply bad_selector_none in Hi. rewrite Ei in Hi. done. }
  apply bad_selector_none in Ei. split; auto.
Qed.

(** The ids that count: those that are not blank. *)
Definition ids (rules : list UserRouteRule) : list string :=
  Route_ID <$> bfilter (λ r, negb (blank_id r)) rules.

Lemma validate_from_none i seen rules :
  validate_from i seen rules = None ↔
  Forall rule_valid rules ∧ NoDup (ids rules) ∧ (∀ x, x ∈ ids rules → x ∉ seen).
Proof.
  revert i seen. induction rules as [|rule rules IH]; intros i seen.
  - simpl. split; [intros _; split_and!; [constructor|constructor|set_solver]|done].
  - cbn [validate_from]. rewrite Forall_cons. unfold ids, blank_id in *. cbn [bfilter List.filter].
    destruct (rule_error i seen rule) eqn:Er.
    { split; [done|]. intros ([Hv _] & _ & Hs).
      assert (rule_error i seen rule = None); [|congruence]. apply rule_error_none. split; [done|].
      destruct (String.eqb_spec (TrimSpace (Route_ID rule)) ""); [by left|right; apply Hs; set_solver]. }
    apply rule_error_none in Er as [Hv Hid]. rewrite IH.
    destruct (String.eqb_spec (TrimSpace (Route_ID rule)) ""); simpl; [naive_solver|].
    destruct Hid as [|Hid]; [done|]. rewrite NoDup_cons. set_solver.
Qed.

(** C38: What the API accepts as a list of rules: exactly the lists in which
    every rule targets direct, proxy or block, matches on something, is of
    type field, has no geoip selector among its domains and no geosite
    selector among its addresses, and in which no two rules have the same
    (non-blank) id. *)
Theorem validateUserRoutes_iff rules :
  validateUserRoutes rules = None ↔ Forall rule_valid rules ∧ NoDup (ids rules).
Proof. unfold validateUserRoutes. rewrite validate_from_none. set_solver. Qed.

(** ** Ids *)

Lemma Hex_is_hex s : string_forallb is_hex (Hex s) = true.
Proof. induction s as [|c s IH]; simpl; [done|]. by rewrite hex_hi, hex_lo, IH. Qed.

Lemma Hex_nonblank c s : String.eqb (TrimSpace (Hex (String c s))) "" = false.
Proof.
  rewrite TrimSpace_no_space; [done|]. eapply string_forallb_impl; [|apply Hex_is_hex].
  clear. intros c. all_bytes c.
Qed.

(** A text between two bytes that are not white space is trimmed already. *)
Lemma trim_right_last a c : is_space c = false → trim_right (a +:+ String c "") = a +:+ String c "".
Proof.
  intros Hc. induction a as [|x a IH]; simpl; [by rewrite Hc|]. rewrite IH.
  assert (String.eqb (a +:+ String c "") "" = false) as -> by (by destruct a).
  by rewrite andb_false_r.
Qed.
Lemma TrimSpace_between c a d :
  is_space c = false → is_space d = false →
  TrimSpace (String c (a +:+ String d "")) = String c (a +:+ String d "").
Proof.
  intros Hc Hd. unfold TrimSpace. simpl. rewrite Hc. by apply (trim_right_last (String c a)).
Qed.
Lemma render_tail_close {A} sep (f : A → string) close l : ∃ a, render_tail sep f close l = a +:+ close.
Proof.
  induction l as [|x l [a IH]]; [by exists ""|]. simpl. rewrite IH.
  exists ("," +:+ sep +:+ f x +:+ a). by app_simp.
Qed.
Lemma TrimSpace_marshal_routes rules : TrimSpace (marshal_routes rules) = marshal_routes rules.
Proof.
  destruct rules as [|r rs]; [done|]. unfold marshal_routes, json_marshal. cbn [map render].
  match goal with |- context [render_tail ?a ?b ?c ?d] => destruct (render_tail_close a b c d) as [t ->] end.
  match goal with |- context ["[" +:+ "" +:+ ?x +:+ t +:+ "" +:+ "]"] =>
    change ("[" +:+ "" +:+ x +:+ t +:+ "" +:+ "]") with (String "[" (x +:+ t +:+ String "]" "")) end.
  rewrite string_app_assoc. by apply TrimSpace_between.
Qed.

(** A trimmed value is kept, unless it is empty and the default is not. *)
Lemma first_trimmed v d : TrimSpace v = v → v ≠ "" ∨ v = d → firstNonEmptyString [TrimSpace v; d] = v.
Proof.
  intros Hv Hd. unfold firstNonEmptyString. cbn [List.find]. rewrite !Hv.
  destruct (String.eqb_spec v "") as [->|]; [|done]. destruct Hd as [|<-]; done.
Qed.
Lemma first_or_default v d :
  TrimSpace d = d →
  let x := if String.eqb (TrimSpace v) "" then d else TrimSpace v in
  firstNonEmptyString [TrimSpace x; d] = x.
Proof.
  intros Hd. destruct (String.eqb_spec (TrimSpace v) ""); simpl; apply first_trimmed; auto using TrimSpace_idem.
Qed.
Lemma strategy_trimmed v : TrimSpace (normalizeBalancerStrategyInput v) = normalizeBalancerStrategyInput v.
Proof. unfold normalizeBalancerStrategyInput. repeat case_if; reflexivity. Qed.

Section RoutesProps.
Context {E : Type} (cfg : Config) (now : Z).

Lemma generateRouteID_run (s : State E) : ∃ c b s',
generateRouteID s = (inr (Hex (String c b)), s') ∧ sv_db s' = sv_db s.
Proof. do 3 eexists. split; reflexivity. Qed.

Lemma assignRouteIDs_db rules (s s' : State E) out :
assignRouteIDs rules s = (inr out, s') →
sv_db s' = sv_db s ∧ Forall (λ r, blank_id r = false) out.1.
Proof.
revert s s' out. induction rules as [|rule rules IH]; intros s s' out H; cbn [assignRouteIDs] in H.
- unfold ret in H. simplify_eq. by split; [|constructor].
- destruct (blank_id rule) eqn:Eb.
  + apply bind_ok in H as (id & s1 & Hid & H).
    apply bind_ok in H as (rest & s2 & Hr & H). apply IH in Hr as [Hdb Hf]. unfold ret in H. simplify_eq/=.
    destruct (generateRouteID_run s) as (c & b & s3 & Hg & Hs3). rewrite Hg in Hid. simplify_eq.
    split; [congruence|]. constructor; [|done]. apply Hex_nonblank.
  + apply bind_ok in H as (rest & s1 & Hr & H). apply IH in Hr as [Hdb Hf]. unfold ret in H. simplify_eq/=.
    by split; [|constructor].
Qed.

(** Nothing to assign when every rule has an id. *)
Lemma assignRouteIDs_id rules (s : State E) :
Forall (λ r, blank_id r = false) rules → assignRouteIDs rules s = (inr (rules, false), s).
Proof.
intros Hf. induction Hf as [|r rules Hr _ IH]; [done|]. cbn [assignRouteIDs]. rewrite Hr.
unfold bind. by rewrite IH.
Qed.

Lemma parse_marshal_slice rules : parseUserRoutes (marshal_slice rules) = inr (default [] rules).
Proof.
assert (Htrim : TrimSpace (marshal_slice rules) = marshal_slice rules).
{ destruct rules as [rs|]; [apply TrimSpace_marshal_routes|done]. }
unfold parseUserRoutes. rewrite Htrim.
assert (String.eqb (marshal_slice rules) "" = false) as ->.
{ destruct rules as [[|r rs]|]; done. }
destruct rules as [rs|]; [|done]. unfold marshal_slice.
pose proof (unmarshal_marshal_routes rs) as Hm. unfold Unmarshal, decode, d_list in *.
destruct (json_parse (marshal_routes rs)) as [j|]; [|done].
destruct (d_slice decode_UserRouteRule j) as [o ok]. by destruct ok; simplify_eq.
Qed.

(** ** What is stored is what is read back *)

(** Reading back, in any state whose users row holds the marshalled list. *)
Lemma stored_rules_reads now' rules user (s : State E) :
User_ClientRoutes user = marshal_slice rules →
Forall (λ r, blank_id r = false) (default [] rules) →
stored_rules now' user s = (inr (default [] rules), s).
Proof.
intros Hu Hf. unfold stored_rules. rewrite Hu, parse_marshal_slice.
unfold hbind, or_500, or_fail. by rewrite assignRouteIDs_id.
Qed.

Lemma update_user_inr userID f db db' :
update_user userID f db = (inr tt, db') →
t_users (db_tables db') = update_rows (λ r, Z.eqb (ur_id r) userID) f (t_users (db_tables db)).
Proof.
unfold update_user, write_users. intros H.
match type of H with Exec ?g db = _ => destruct (Exec_cases g db) as [(a & t & Hg & He)|(e & He)] end;
  rewrite He in H; simplify_eq.
cbn in Hg. unfold enforce in Hg. destruct (users_violation _); [done|]. by simplify_eq.
Qed.

(** C39: Setting a user's routes and reading them back: once [setUserRoutes]
  has answered with a list, a later [getUserRoutes] for the same user
  answers with the same rules in the same order, ids included, and changes
  nothing. *)
Theorem setUserRoutes_roundtrip r r' now' (s s' : State E) rules :
setUserRoutes now r s = (inr rules, s') → db_faults (sv_db s') = [] →
Vars r' "id" = Vars r "id" →
getUserRoutes now' r' s' = (inr (default [] rules), s').
Proof.
intros (u & s1 & Hu & H)%hbind_inr Hf Hid.
apply hbind_inr in H as (body & s2 & Hb & H).
apply hbind_inr in H as (x & s3 & Hc & H).
apply hbind_inr in H as (rules' & s4 & Ha%or_500_inr & H).
apply hbind_inr in H as ([] & s5 & (db' & Hw & Hdb)%or_500_inr%on_db_inr & [-> ->]%hret_inr).
apply getByID_inr in Hu as (Hne & Ht1 & row & Hrow & ->).
assert (s2 = s1) as -> by (destruct (decode_rules_payload _); simpl in Hb; unfold jsonError, hret in Hb; by simplify_eq).
assert (s3 = s1) as ->.
{ unfold checked in Hc. destruct (validateUserRoutes _); unfold jsonError, hret in Hc; by simplify_eq. }
assert (Hids : sv_db s4 = sv_db s1 ∧ Forall (λ r, blank_id r = false) (default [] rules)).
{ destruct body as [body|]; simpl in Ha; [|unfold ret in Ha; simplify_eq; by split; [|constructor]].
  apply bind_ok in Ha as (out & s6 & Ha & Hr). unfold ret in Hr. simplify_eq.
  by apply assignRouteIDs_db in Ha. }
destruct Hids as [Hs4 Hids]. subst db'. apply update_user_inr in Hw. rewrite Hs4, Ht1 in Hw.
unfold getUserRoutes, hbind.
erewrite getByID_run; [|by rewrite Hid|done|].
2: { rewrite Hw, find_update_rows.
     - unfold selects in *. rewrite Hid. by rewrite Hrow.
     - intros x0. unfold selects. by destruct (ParseInt _). }
cbn [fmap option_fmap option_map]. rewrite Z.eqb_refl. by apply stored_rules_reads.
Qed.

(** C40: The balancer override: once [setBalancerConfig] has answered, its
  strategy, probe URL and interval are the ones every subscription is
  generated with; after a reset those of the configuration file are. *)
Theorem setBalancerConfig_effective r (s s' : State E) override :
setBalancerConfig cfg r s = (inr override, s') → db_faults (sv_db s') = [] →
TrimSpace (C_BalancerProbeURL cfg) = C_BalancerProbeURL cfg →
TrimSpace (C_BalancerProbeFreq cfg) = C_BalancerProbeFreq cfg →
getEffectiveBalancerConfig cfg (sv_db s') =
(inr (match override with
      | Some o => (BRC_Strategy o, BRC_ProbeURL o, BRC_ProbeInterval o)
      | None => (C_BalancerStrategy cfg, C_BalancerProbeURL cfg, C_BalancerProbeFreq cfg)
      end), sv_db s') ∧
(∀ o, override = Some o → BRC_Strategy o ∈ ["random"; "roundRobin"; "leastPing"; "leastLoad"]).
Proof.
intros H Hf Hurl Hfreq. apply hbind_inr in H as ([req reset] & s1 & _ & H).
destruct reset.
{ apply hbind_inr in H as ([] & s2 & (db' & Hw & Hdb)%or_500_inr%on_db_inr & [<- <-]%hret_inr).
  split; [|done]. subst db'. destruct (sv_db s2) as [t fs]. simpl in Hf. subst fs.
  unfold DeleteBalancerRuntimeConfig, Run in Hw.
  match type of Hw with Exec ?g ?db = _ => destruct (Exec_cases g db) as [(a & t' & Hg & He)|(e & He)] end;
    rewrite He in Hw; simplify_eq.
  unfold getEffectiveBalancerConfig, GetBalancerRuntimeConfig, get_setting, bind. rewrite Query_run.
  cbn [t_settings with_settings]. by rewrite lookup_delete_eq. }
cbv beta iota zeta in H.
destruct (String.eqb_spec (normalizeBalancerStrategyInput (BRC_Strategy req)) "") as [|Hst]; [done|].
apply hbind_inr in H as ([] & s2 & (db' & Hw & Hdb)%or_500_inr%on_db_inr & [<- <-]%hret_inr).
subst db'. set (o := mkBalancerRuntime _ _ _) in *. split.
- destruct (sv_db s2) as [t fs]. simpl in Hf. subst fs.
  unfold SetBalancerRuntimeConfig, put_setting, Run in Hw.
  match type of Hw with Exec ?g ?db = _ => destruct (Exec_cases g db) as [(a & t' & Hg & He)|(e & He)] end;
    rewrite He in Hw; simplify_eq.
  unfold getEffectiveBalancerConfig, GetBalancerRuntimeConfig, get_setting, bind. rewrite Query_run.
  cbn [t_settings with_settings]. rewrite lookup_insert_eq.
  assert (Unmarshal decode_BRC (json_marshal (encode_BRC o)) = inr o) as ->.
  { rewrite Unmarshal_marshal by done. subst o. reflexivity. }
  cbn [of_result]. unfold ret. do 2 f_equal.
  subst o. cbn [BRC_Strategy BRC_ProbeURL BRC_ProbeInterval].
  rewrite (first_trimmed (normalizeBalancerStrategyInput _)) by (by auto using strategy_trimmed).
  rewrite (first_or_default (BRC_ProbeURL req)), (first_or_default (BRC_ProbeInterval req)) by done.
  done.
- intros ? [= <-]. subst o. cbn. unfold normalizeBalancerStrategyInput in *.
  repeat case_if; set_solver.
Qed.
End RoutesProps.

(** ** Examples behind the findings *)

Definition demo_state : State unit :=
  mkState (mkDB sample []) (mkHost ∅ [] (λ n, Ascii.ascii_of_nat (41 * n)) 0, tt) ∅ 0 (mkBackground new_status 0 []).
Definition demo_rule (id target : string) : UserRouteRule :=
  mkUserRouteRule id "" target ["domain:x.org"] [] "" "" [] [].
Definition route_request (vars : list (string * string)) (body : json) : Request :=
  mkRequest (list_to_map vars) ∅ ∅ "" "" false (json_marshal body).
Definition post_rule (rule : UserRouteRule) : Request := route_request [("id", "1")] (encode_UserRouteRule rule).

(** Posting two rules with one id is accepted, although the list they form is
    one the API refuses. *)
Lemma addUserRoute_allows_duplicate_id :
  let first := addUserRoute 5 (post_rule (demo_rule "r1" "direct")) demo_state in
  match addUserRoute 6 (post_rule (demo_rule "r1" "proxy")) first.2 with
  | (inr reply, _) => ids (Reply_Rules reply) = ["r1"; "r1"] ∧ validateUserRoutes (Reply_Rules reply) ≠ None
  | _ => False
  end.
Proof. vm_compute. done. Qed.

(** A rule for [DIRECT] is accepted and generated as it is, and no outbound has
    that tag. *)
Lemma mixed_case_target_kept :
  validateUserRoutes [demo_rule "r1" "DIRECT"] = None ∧
  match @GenerateClientConfig IdentityCurve "vpn.example" ∅ ∅
          (mkUser 1 "ann" "ann" "tok" "" None true true (marshal_routes [demo_rule "r1" "DIRECT"]) 0 0)
          [sample_client] "[]" "" "" "" 0 0 [] "" with
  | inr cfg => "DIRECT" ∈ map Rule_OutboundTag (Routing_Rules (Cfg_Routing cfg)) ∧
               "DIRECT" ∉ map Out_Tag (Cfg_Outbounds cfg)
  | inl _ => False
  end.
Proof.
  split; [reflexivity|].
  destruct (@GenerateClientConfig _ _ _ _ _ _ _ _ _ _ _ _ _ _) as [e|cfg] eqn:E;
    vm_compute in E; [discriminate E|]. injection E as <-. split; decide_closed.
Qed.

(** ** Witnesses *)

Lemma setUserRoutes_roundtrip_witness : ∃ rules s',
  setUserRoutes 5 (route_request [("id", "ann")] (JArr [encode_UserRouteRule (demo_rule "" "block")])) demo_state
    = (inr rules, s') ∧
  getUserRoutes 6 (route_request [("id", "ann")] JNull) s' = (inr (default [] rules), s').
Proof.
  set (r := route_request [("id", "ann")] (JArr [encode_UserRouteRule (demo_rule "" "block")])).
  destruct (setUserRoutes 5 r demo_state) as [[e|rules] s'] eqn:E; [exfalso; vm_compute in E; discriminate E|].
  exists rules, s'. split; [done|].
  assert (Hf : db_faults (sv_db s') = []) by (vm_compute in E; by simplify_eq).
  exact (setUserRoutes_roundtrip 5 r (route_request [("id", "ann")] JNull) 6 demo_state s' rules E Hf eq_refl).
Defined.

Definition balancer_request : Request :=
  route_request [] (JObj [("strategy", JStr "LeastLoad"); ("probe_url", JStr " http://p ")]).
Lemma setBalancerConfig_effective_witness : ∃ s',
  setBalancerConfig default_config balancer_request demo_state
    = (inr (Some (mkBalancerRuntime "leastLoad" "http://p" "30s")), s') ∧
  getEffectiveBalancerConfig default_config (sv_db s') = (inr ("leastLoad", "http://p", "30s"), sv_db s').
Proof.
  destruct (setBalancerConfig default_config balancer_request demo_state) as [[e|o] s'] eqn:E;
    [exfalso; vm_compute in E; discriminate E|].
  assert (o = Some (mkBalancerRuntime "leastLoad" "http://p" "30s") ∧ db_faults (sv_db s') = []) as [-> Hf]
    by (vm_compute in E; by simplify_eq).
  exists s'. split; [done|].
  exact (proj1 (setBalancerConfig_effective default_config balancer_request demo_state s' _ E Hf eq_refl eq_refl)).
Defined.
