(* ===== verification/NodesProps.v ===== *)
(** * What multi-node placement and reconciliation guarantee *)

From S2P Require Import Prelude GoString Json JsonDecode Models Config XrayTypes Schema Database DatabaseFacts.
From S2P Require Import DatabaseProps ConfigWriter ConfigWriterProps Admin AdminProps Server.
From S2P Require Import Syncer ServerFacts Nodes.

(** ** Expansion *)

(** The client [c] at the public endpoint of the node row [nr]. *)
Definition at_endpoint (c : UserClientFull) (nr : node_row) : UserClientFull :=
  UCF_with_node c (nr_name nr) (nr_public_host nr) (nr_public_port nr).

Lemma elem_of_serving allNodes placed tag n :
  n ∈ serving allNodes placed tag ↔
  n ∈ allNodes ∧ Node_Enabled n = true ∧ Node_ID n ∈ placed ∧ Node_InboundTag n = tag.
Proof.
  unfold serving. rewrite elem_of_bfilter, !andb_true_iff, bool_decide_eq_true, String.eqb_eq. tauto.
Qed.


Lemma elem_of_clientsToAdd want have w :
  w ∈ clientsToAdd want have ↔ w ∈ want ∧ Wanted_Email w ∉ have.
Proof. unfold clientsToAdd. rewrite elem_of_bfilter, negb_true_iff, bool_decide_eq_false. tauto. Qed.

(** ** Reconciliation *)

(** The clients the database wants on a node. *)
Definition wanted (t : Tables) (n : Node) : list WantedClient :=
  match (ListWantedClientsForNode (Node_ID n) (Node_InboundTag n) (mkDB t [])).1 with
  | inr l => l
  | inl _ => []
  end.

Section Reconcile.
Context {E : Type} `{HandlerServiceLaws E} (now : Z).

Lemma add_existing_keeps addr tag name stored (e : E) a t i acc :
account_at e a t i = Some acc →
account_at (AddExistingClientToInboundViaAPI addr tag name stored e).2 a t i = Some acc.
Proof.
intros Ha. unfold AddExistingClientToInboundViaAPI. repeat case_if; try done.
destruct (storedConfigToProtocolUser _ _) as [err|u]; [done|]. unfold wrap_err.
pose proof (add_keeps addr tag u e a t i acc Ha) as Hk.
by destruct (rpc_AddUser addr tag u e) as [[err|[]] e'].
Qed.

(** An addition that counts as applied leaves an account. *)
Lemma add_existing_present addr tag name stored (e : E) r e' u :
AddExistingClientToInboundViaAPI addr tag name stored e = (r, e') →
storedConfigToProtocolUser stored (TrimSpace name) = inr u →
accepted isBenignExists r = true → account_at e' addr tag (TrimSpace name) ≠ None.
Proof.
unfold AddExistingClientToInboundViaAPI. intros Hr Hu Hacc.
assert (He : PU_Email u = TrimSpace name).
{ unfold storedConfigToProtocolUser in Hu. destruct (Unmarshal _ _); [done|].
  destruct (account_of _ _ _ _ _ _); by simplify_eq. }
case_if; [unfold throw in Hr; by simplify_eq|]. case_if; [unfold throw in Hr; by simplify_eq|].
rewrite Hu in Hr. unfold wrap_err in Hr.
pose proof (add_present addr tag u e) as Hp. rewrite He in Hp.
destruct (rpc_AddUser addr tag u e) as [[err|[]] e1]; simplify_eq; by eapply Hp.
Qed.

Lemma apply_adds_spec n adds (e : E) :
∃ k e', apply_adds n adds e = (inr k, e') ∧ (0 <= k)%Z ∧
  (∀ a t i acc, account_at e a t i = Some acc → account_at e' a t i = Some acc) ∧
  (k = 0%Z → ∀ w u, w ∈ adds → storedConfigToProtocolUser (Wanted_ClientConfig w)
       (TrimSpace (Wanted_Email w)) = inr u →
     account_at e' (Node_APIAddr n) (Node_InboundTag n) (TrimSpace (Wanted_Email w)) ≠ None).
Proof.
revert e. induction adds as [|w adds IH]; intros e.
{ exists 0%Z, e. split_and!; try done. intros _ w u Hw. by apply elem_of_nil in Hw. }
cbn [apply_adds]. unfold bind, try.
pose proof (add_existing_keeps (Node_APIAddr n) (Node_InboundTag n) (Wanted_Email w)
  (Wanted_ClientConfig w) e) as Hkeep.
pose proof (add_existing_present (Node_APIAddr n) (Node_InboundTag n) (Wanted_Email w)
  (Wanted_ClientConfig w) e) as Hpres.
destruct (AddExistingClientToInboundViaAPI _ _ _ _ e) as [r e1].
destruct (IH e1) as (k & e2 & Hrun & Hk & Hkeep2 & Hall). rewrite Hrun. cbn [snd] in Hkeep.
exists (match r with inl err => if isBenignAddExists err then k else (k + 1)%Z | inr _ => k end), e2.
split_and!; [done|repeat case_match; lia|auto|].
intros Hz w' u [->|Hw]%elem_of_cons Hu.
- assert (Hacc : accepted isBenignExists r = true).
  { destruct r as [err|[]]; [|done]. simpl. unfold isBenignAddExists in Hz. unfold isBenignExists.
    destruct (Contains (ToLower err) "exist"); [done|lia]. }
  specialize (Hpres _ _ u eq_refl Hu Hacc).
  destruct (account_at e1 _ _ (TrimSpace (Wanted_Email w))) as [acc|] eqn:Ea; [|done].
  by rewrite (Hkeep2 _ _ _ _ Ea).
- eapply Hall; [|done|done]. destruct r as [err|[]]; [case_if; lia|done].
Qed.

Lemma get_users_spec addr tag (e : E) r e' :
GetInboundUsersViaAPI addr tag e = (r, e') →
e' = e ∧ ∀ users x, r = inr users → x ∈ users → ∃ u, x = TrimSpace u ∧ account_at e addr tag u ≠ None.
Proof.
unfold GetInboundUsersViaAPI. case_if; [by intros [= <- <-]|]. case_if; [by intros [= <- <-]|].
unfold bind, wrap_err. destruct (rpc_GetInboundUsers addr tag e) as [r1 e2] eqn:Er.
apply users_present in Er as [-> Hp]. destruct r1 as [err|us]; intros [= <- <-]; (split; [done|]).
- done.
- intros users x [= <-] [_ (u & -> & Hu)%list_elem_of_fmap]%elem_of_bfilter. eauto.
Qed.

(** C19: One reconcile pass over a node never takes an account away and never
  touches the database or another node's status; and when the status it
  stores reports success, every client the database wants on that node
  (with a credential that can be decoded) has an account there: a node
  that lost its users has recovered them. *)
Theorem reconcileOneNode_recovers n (s : State E) r s' :
reconcileOneNode now n s = (r, s') →
db_tables (sv_db s') = db_tables (sv_db s) ∧
(∀ a t i acc, account_at (sv_world s).2 a t i = Some acc → account_at (sv_world s').2 a t i = Some acc) ∧
∃ st, sv_nodeStatus s' = <[Node_Name n := st]> (sv_nodeStatus s) ∧
  (NS_LastApplyOK st = true → ∀ w u, w ∈ wanted (db_tables (sv_db s)) n →
     storedConfigToProtocolUser (Wanted_ClientConfig w) (TrimSpace (Wanted_Email w)) = inr u →
     ∃ x, TrimSpace x = TrimSpace (Wanted_Email w) ∧
       account_at (sv_world s').2 (Node_APIAddr n) (Node_InboundTag n) x ≠ None).
Proof.
unfold reconcileOneNode. unfold bind at 1, try at 1, on_db at 1.
destruct (ListWantedClientsForNode (Node_ID n) (Node_InboundTag n) (sv_db s)) as [[e|want] db1] eqn:Ew.
{ intros [= <- <-]. cbn. split; [by eapply (reads_run _ _ _ _ (reads_Query _)) in Ew|]. split; [done|].
  by eexists. }
assert (Hwant : want = wanted (db_tables (sv_db s)) n ∧ db_tables db1 = db_tables (sv_db s)).
{ apply Query_inr in Ew as [-> ?]. unfold wanted, ListWantedClientsForNode. by rewrite Query_run. }
destruct Hwant as [Hwant Ht]. rewrite <- Hwant. clear Ew Hwant. unfold bind at 1, try at 1, on_world at 1, on_engine at 1.
cbn [sv_world sv_db sv_nodeStatus].
destruct (GetInboundUsersViaAPI (Node_APIAddr n) (Node_InboundTag n) (sv_world s).2) as [r1 e1] eqn:Eg.
apply get_users_spec in Eg as [-> Hhave]. destruct r1 as [e|have].
{ intros [= <- <-]. cbn. split; [done|]. split; [done|]. by eexists. }
destruct (apply_adds_spec n (clientsToAdd want have) (sv_world s).2) as (k & e2 & Hrun & _ & Hkeep & Hadd).
unfold bind, on_world, on_engine. cbn [sv_world snd]. rewrite Hrun.
intros [= <- <-]. cbn. split; [done|]. split; [done|]. eexists. split; [done|].
intros Hk%Z.eqb_eq w u Hw Hu.
destruct (decide (Wanted_Email w ∈ have)) as [Hin|Hnew].
- destruct (Hhave _ _ eq_refl Hin) as (x & Hx & Ha). exists x. rewrite Hx, TrimSpace_idem. split; [done|].
  destruct (account_at _ _ _ x) as [acc|] eqn:Ea; [|done]. by rewrite (Hkeep _ _ _ _ Ea).
- exists (TrimSpace (Wanted_Email w)). split; [apply TrimSpace_idem|].
  eapply (Hadd Hk); [|exact Hu]. by apply elem_of_clientsToAdd.
Qed.
End Reconcile.

(** ** Witness: a node that came back empty *)

Definition one_node : node_row := mkNodeRow 1 "n1" "10.0.0.1:8080" "vless-in" "n1.example" 443 1 7.
Definition empty_node_state : State toy_engine :=
  mkState (mkDB (mkTables [bob_row] [mkInbound 1 "vless-in" "vless" 443 "a.json" "{}" 5]
    [mkUcRow 1 2 1 demo_stored 1] ∅ [] [one_node] [(2, 1)%Z] 2 1 1 0 1) []) (demo_host, ∅) ∅ 0 (mkBackground new_status 0 []).
Definition bob_wanted : WantedClient := mkWantedClient "b@x" demo_stored.

Lemma reconcileOneNode_recovers_witness : ∃ s' st,
  (reconcileOneNode 9 (scan_node one_node) empty_node_state).2 = s' ∧
  sv_nodeStatus s' = {["n1" := st]} ∧ NS_LastApplyOK st = true ∧
  ∃ x, TrimSpace x = "b@x" ∧ account_at (sv_world s').2 "10.0.0.1:8080" "vless-in" x ≠ None.
Proof.
  destruct (reconcileOneNode 9 (scan_node one_node) empty_node_state) as [r s'] eqn:E.
  destruct (reconcileOneNode_recovers _ _ _ _ _ E) as (_ & _ & st & Hst & Hall).
  exists s', st. split; [done|]. split; [exact Hst|].
  assert (Hok : NS_LastApplyOK st = true).
  { transitivity (match sv_nodeStatus (reconcileOneNode 9 (scan_node one_node) empty_node_state).2 !! "n1" with
                  | Some st => NS_LastApplyOK st | None => false end); [|vm_compute; reflexivity].
    rewrite E. cbn [snd]. rewrite Hst. cbn [Node_Name scan_node nr_name one_node]. by rewrite lookup_insert_eq. }
  split; [done|].
  assert (Hw : bob_wanted ∈ wanted (db_tables (sv_db empty_node_state)) (scan_node one_node)) by (vm_compute; left).
  destruct (storedConfigToProtocolUser demo_stored "b@x") as [e|u] eqn:Eu; [exfalso; vm_compute in Eu; discriminate Eu|].
  exact (Hall Hok bob_wanted u Hw Eu).
Defined.
