(* ===== verification/SyncerProps.v ===== *)
(** * What a synchronisation pass guarantees *)

From S2P Require Import Prelude GoString Json JsonDecode Models Config XrayTypes Parser.
From S2P Require Import ConfigWriter Admin Schema Database DatabaseFacts Server ServerFacts.
From S2P Require Import Syncer.
From Stdlib Require Import Ascii.

(** ** What a pass may do to the database *)

(** A user row the synchroniser creates. *)
Definition auto_created (u : user_row) : Prop :=
  ur_enabled u = 1%Z ∧ ∃ x, sanitizeUsername x ≠ "" ∧ ur_username u = TrimSpace (sanitizeUsername x).

(** The client row [c'] is the row [c], its credential apart. *)
Definition same_client (c c' : uc_row) : Prop :=
  uc_id c' = uc_id c ∧ uc_user_id c' = uc_user_id c ∧ uc_inbound_id c' = uc_inbound_id c ∧
  uc_enabled c' = uc_enabled c.

Record sync_keeps (t t' : Tables) : Prop := {
  keeps_wf : wf_tables t → wf_tables t';
  keeps_users : ∃ new, t_users t' = t_users t ++ new ∧ Forall auto_created new;
  keeps_uc_seq : (seq_user_clients t ≤ seq_user_clients t')%Z;
  keeps_clients : ∀ c', c' ∈ t_user_clients t' →
    (∃ c, c ∈ t_user_clients t ∧ same_client c c') ∨ ((seq_user_clients t < uc_id c')%Z ∧ uc_enabled c' = 1%Z);
  keeps_others : t_settings t' = t_settings t ∧ t_profiles t' = t_profiles t ∧ t_nodes t' = t_nodes t ∧
    t_user_nodes t' = t_user_nodes t }.

#[export] Instance sync_keeps_preorder : PreOrder sync_keeps.
Proof.
  split.
  - intros t. split; [done| |lia| |done].
    + exists []. by rewrite app_nil_r.
    + intros c Hc. left. by exists c.
  - intros t t1 t2 [W1 (n1 & U1 & F1) S1 C1 (O1 & P1 & Q1 & V1)] [W2 (n2 & U2 & F2) S2 C2 (O2 & P2 & Q2 & V2)].
    split; [auto| |lia| |split_and!; congruence].
    + exists (n1 ++ n2). rewrite U2, U1, app_assoc. split; [done|]. by apply Forall_app.
    + intros c2 [(c1 & [(c & Hc & H3)|[H3 H4]]%C1 & H5)|[H1 H2]]%C2.
      * left. exists c. split; [done|]. unfold same_client in *. intuition congruence.
      * right. unfold same_client in H5. destruct H5 as (-> & _ & _ & ->). done.
      * right. split; [lia|done].
Qed.

#[export] Hint Resolve sync_keeps_preorder : raven.

(** *** One statement *)

Lemma eq_preorder {T} : PreOrder (@eq T).
Proof. apply _. Qed.
#[export] Hint Resolve eq_preorder : raven.

Abbreviation db_advances R := (advances R db_tables).

Lemma advances_Exec (R : Tables → Tables → Prop) {HR : PreOrder R} {A} (f : Tables → error + (A * Tables)) :
  (∀ t a t', f t = inr (a, t') → R t t') → db_advances R (Exec f).
Proof.
  intros Hf [t fs]. unfold Exec. simpl. destruct fs as [|[] fs]; simpl; [|done|];
    (destruct (f t) as [e|[a t']] eqn:E; simpl; [done|by eapply Hf]).
Qed.
Lemma advances_Query (R : Tables → Tables → Prop) {HR : PreOrder R} {A} (q : Tables → A) :
  db_advances R (Query q).
Proof. apply (advances_Exec R). by intros t a t' [= _ <-]. Qed.
#[export] Hint Resolve advances_Query : raven.
Lemma advances_transaction (R : Tables → Tables → Prop) {HR : PreOrder R} (m : M DB ()) :
  db_advances R m → db_advances R (transaction m).
Proof.
  intros Hm. unfold transaction. apply (advances_bind _ _); [apply (advances_Query R)|]. intros [] s.
  assert (Hb : db_advances R (m ;;; Query (λ _, tt))) by (apply (advances_bind _ _); auto with raven).
  specialize (Hb s). cbv beta. by destruct ((m ;;; Query (λ _, tt)) s) as [[e|a] s1] eqn:E1.
Qed.
Lemma advances_weaken {S T A} (R R' : T → T → Prop) (π : S → T) (m : M S A) :
  (∀ t t', R t t' → R' t t') → advances R π m → advances R' π m.
Proof. intros Hw Hm s. apply Hw, Hm. Qed.

Lemma keeps_CreateUser now u e tk f x :
  u = sanitizeUsername x → u ≠ "" → db_advances sync_keeps (CreateUser now u e tk f).
Proof.
  intros -> Hne. apply (advances_bind _ _ _ _); [|intros; apply (advances_ret _)].
  apply (advances_Exec _). intros t a t' Hf. unfold enforce in Hf.
  destruct (users_violation _) eqn:Ev; simplify_eq. split; simpl; [| |lia| |done].
  - intros Hwf. pose proof (preserves_CreateUser now (sanitizeUsername x) e tk f (mkDB t []) Hwf) as H.
    unfold CreateUser, bind, write_users, Exec in H. cbn [db_faults db_tables] in H. unfold enforce in H.
    by rewrite Ev in H.
  - eexists. split; [done|]. apply Forall_singleton. split; [done|]. by exists x.
  - intros c Hc. left. by exists c.
Qed.

Lemma keeps_upsert_inbound now tag p port f raw : db_advances sync_keeps (UpsertInbound now tag p port f raw).
Proof.
  apply (advances_bind _ _ _ _).
  - apply (advances_Exec _). intros t a t' [= _ <-].
    assert (Hu : t_users (upsert_inbound_rows now tag p port f raw t) = t_users t ∧
      t_user_clients (upsert_inbound_rows now tag p port f raw t) = t_user_clients t ∧
      seq_user_clients (upsert_inbound_rows now tag p port f raw t) = seq_user_clients t)
      by (unfold upsert_inbound_rows; by case_if).
    destruct Hu as (Hu & Hc & Hs). split; rewrite ?Hc, ?Hs, ?Hu.
    + intros. by apply wf_upsert_inbound.
    + exists []. by rewrite app_nil_r.
    + lia.
    + intros c Hin. left. by exists c.
    + unfold upsert_inbound_rows. by case_if.
  - intros _. apply (advances_bind _ _ _ _); [auto with raven|]. intros o. destruct o; simpl; auto with raven.
Qed.

Lemma keeps_delete_inbound tag : db_advances sync_keeps (DeleteInboundByTag tag).
Proof.
  apply (advances_Exec _). intros t a t' [= <- <-]. split; simpl; [|by exists []; rewrite app_nil_r|lia| |done].
  - intros. by apply wf_delete_inbounds.
  - intros c [_ Hc]%elem_of_delete_rows. left. by exists c.
Qed.

Lemma keeps_upsert_client u i cfg : db_advances sync_keeps (UpsertUserClient u i cfg).
Proof.
  apply (advances_Exec _). intros t [] t' Hf. pose proof Hf as Hf0. unfold upsert_uc_rows in Hf.
  assert (Hrest : t_users t' = t_users t ∧ t_settings t' = t_settings t ∧ t_profiles t' = t_profiles t ∧
    t_nodes t' = t_nodes t ∧ t_user_nodes t' = t_user_nodes t).
  { repeat case_if; by simplify_eq. }
  destruct Hrest as (Hu & Ho). split; [| |repeat case_if; simplify_eq; simpl; lia| |done].
  - intros Hwf. by eapply wf_upsert_uc.
  - exists []. by rewrite app_nil_r.
  - intros c' Hc'. repeat case_if; simplify_eq; simpl in Hc'.
    + left. apply elem_of_update_rows in Hc' as (c & Hc & ->). exists c. split; [done|]. by case_if.
    + apply elem_of_app in Hc' as [Hc|Hc%list_elem_of_singleton]; [left; by exists c'|right]. subst. simpl. split; [lia|done].
Qed.
#[export] Hint Resolve keeps_upsert_inbound keeps_delete_inbound keeps_upsert_client : raven.

(** Wrapping, defaulting and logging change nothing. *)

Lemma advances_wrap_err {S T A} (R : T → T → Prop) (π : S → T) msg (m : M S A) :
advances R π m → advances R π (wrap_err msg m).
Proof. intros Hm s. unfold wrap_err. specialize (Hm s). by destruct (m s) as [[e|a] s']. Qed.
Lemma advances_or_zero {S T A} (R : T → T → Prop) {HR : PreOrder R} (π : S → T) (zero : A) (m : M S A) :
advances R π m → advances R π (or_zero zero m).
Proof. intros Hm. unfold or_zero. auto with raven. Qed.
Lemma advances_logged {S T A} (R : T → T → Prop) {HR : PreOrder R} (π : S → T) (m : M S A) :
advances R π m → advances R π (logged m).
Proof. intros Hm. unfold logged. auto with raven. Qed.
#[export] Hint Resolve advances_wrap_err advances_or_zero advances_logged : raven.

(** *** A pass

    What the synchroniser needs of a relation between tables: the four
    statements a pass writes with take the tables along it. *)

Class SyncRespects (R : Tables → Tables → Prop) := {
  sync_preorder :: PreOrder R;
  sync_upsert_inbound : ∀ now tag p port f raw, db_advances R (UpsertInbound now tag p port f raw);
  sync_delete_inbound : ∀ tag, db_advances R (DeleteInboundByTag tag);
  sync_upsert_client : ∀ u i cfg, db_advances R (UpsertUserClient u i cfg);
  sync_create_user : ∀ now x tk f, sanitizeUsername x ≠ "" →
    db_advances R (CreateUser now (sanitizeUsername x) (sanitizeUsername x) tk f) }.
#[export] Hint Resolve sync_preorder sync_upsert_inbound sync_delete_inbound sync_upsert_client : raven.
#[export] Instance sync_keeps_respected : SyncRespects sync_keeps.
Proof. split; [apply _|auto with raven..|]. intros. by eapply keeps_CreateUser. Qed.

(** More generally, a pass takes a part of its state along a relation when its
    database statements, its file operations and its health record do. *)
Class SyncAlong {E T : Type} (R : T → T → Prop) (π : SyncState E → T) := {
  along_preorder :: PreOrder R;
  along_query : ∀ A (q : Tables → A), advances R π (sy_on_db (Query q));
  along_upsert_inbound : ∀ now tag p port f raw, advances R π (sy_on_db (UpsertInbound now tag p port f raw));
  along_delete_inbound : ∀ tag, advances R π (sy_on_db (DeleteInboundByTag tag));
  along_upsert_client : ∀ u i cfg, advances R π (sy_on_db (UpsertUserClient u i cfg));
  along_create_user : ∀ now x tk f, sanitizeUsername x ≠ "" →
    advances R π (sy_on_db (CreateUser now (sanitizeUsername x) (sanitizeUsername x) tk f));
  along_host : ∀ A (m : M Host A), advances R π (sy_on_host m);
  along_record : ∀ f, advances R π (sy_record f) }.
#[export] Hint Resolve along_query along_upsert_inbound along_delete_inbound
  along_upsert_client along_host along_record : raven.

Section Keeps.
Context {E : Type} `{HandlerService E} `{FileOrder} (cfg : Config) (now : Z).
Context {T : Type} {R : T → T → Prop} {π : SyncState E → T} {SA : SyncAlong R π}.

Abbreviation sync_advances := (advances R π).
#[local] Instance along_here : PreOrder R := along_preorder.
#[local] Hint Resolve along_here : raven.
Lemma keeps_find_or_create x :
sanitizeUsername x ≠ "" → sync_advances (find_or_create now (sanitizeUsername x)).
Proof using SA.
intros Hne. apply (advances_bind _ _); [unfold GetUserByUsername, find_user; auto with raven|].
intros found. destruct found as [u|]; [auto with raven|].
do 2 (apply (advances_bind _ _); [auto with raven|intros ?]).
apply (advances_bind _ _); [|auto with raven]. by apply advances_wrap_err, along_create_user.
Qed.
Lemma keeps_syncClient id c : sync_advances (syncClient now id c).
Proof using SA.
unfold syncClient. destruct (String.eqb_spec (sanitizeUsername (PC_Identity c)) "") as [|Hne]; [auto with raven|].
apply (advances_bind _ _); [by apply keeps_find_or_create|auto with raven].
Qed.
Hint Resolve keeps_syncClient : raven.

Lemma keeps_import_clients id cs : sync_advances (import_clients now id cs).
Proof using SA. induction cs; simpl; auto 6 with raven. Qed.
Hint Resolve keeps_import_clients : raven.

Lemma keeps_import_inbounds file ibs : sync_advances (import_inbounds now file ibs).
Proof using SA.
induction ibs as [|ib ibs IH]; simpl; [auto with raven|].
apply (advances_bind _ _); [auto with raven|]. intros r. destruct r; [done|]. auto 7 with raven.
Qed.
Hint Resolve keeps_import_inbounds : raven.

Lemma keeps_remove_stale file ibs : sync_advances (remove_stale file ibs).
Proof using SA.
apply (advances_bind _ _); [unfold GetInboundTagsNotInFile; auto 7 with raven|auto 7 with raven].
Qed.
Hint Resolve keeps_remove_stale : raven.

Lemma keeps_import_files parsed : sync_advances (import_files now parsed).
Proof using SA.
induction parsed as [|[file ibs] parsed IH]; simpl; [auto with raven|]. auto 8 with raven.
Qed.

Lemma keeps_persist_inbound ib acc : sync_advances (persist_inbound cfg ib acc).
Proof using SA.
apply (advances_bind _ _); [unfold ListUserClientsByInboundTag; auto with raven|].
intros users. destruct users; [auto with raven|]. apply (advances_bind _ _); [auto with raven|].
intros s. destruct (existing_identities _ _ _); [auto with raven|]. auto 7 with raven.
Qed.
Lemma keeps_persist_users : sync_advances (persist_users cfg).
Proof using SA.
unfold persist_users. case_if; [auto with raven|]. apply (advances_bind _ _).
{ unfold ListInbounds, ListInboundsPaginated. auto with raven. }
intros ibs. generalize (mkPersisted [] "" 0 0). induction ibs as [|ib ibs IH]; intros acc; simpl; [auto with raven|].
apply (advances_bind _ _); [apply keeps_persist_inbound|auto].
Qed.
Hint Resolve keeps_import_files keeps_persist_users : raven.

Lemma keeps_syncXray : sync_advances (syncXray cfg now).
Proof using SA.
unfold syncXray. apply (advances_bind _ _); [auto with raven|]. intros s.
destruct (ParseConfigDirWith _ _ _); auto 7 with raven.
Qed.

Lemma keeps_Sync : sync_advances (Sync cfg now).
Proof using SA.
unfold Sync. apply (advances_bind _ _).
- unfold ensure_api_inbound. case_if; [auto with raven|].
  apply (advances_bind _ _); [unfold ListInbounds, ListInboundsPaginated; auto with raven|].
  intros ibs. repeat case_if; auto with raven.
- intros _. case_if; [apply keeps_syncXray|auto with raven].
Qed.
End Keeps.

(** A relation between tables that the statements respect is one instance. *)
Lemma advances_sy_on_db {E} (R : Tables → Tables → Prop) {A} (m : M DB A) :
  db_advances R m → advances R (λ s : SyncState E, db_tables (sy_db s)) (sy_on_db m).
Proof. intros Hm s. unfold sy_on_db. specialize (Hm (sy_db s)). by destruct (m (sy_db s)). Qed.
#[export] Instance respects_along {E} R : SyncRespects R → SyncAlong R (λ s : SyncState E, db_tables (sy_db s)).
Proof.
  intros SR. split; [apply _|..]; intros; try (apply advances_sy_on_db; auto using sync_create_user with raven).
  - intros s. unfold sy_on_host. by destruct (on_host m (sy_world s)).
  - by intros s.
Qed.
(** The engine is another: a pass does not touch it. *)
#[export] Instance engine_along {E} : SyncAlong eq (λ s : SyncState E, (sy_world s).2).
Proof.
  split; [apply _|..]; intros; intros s; unfold sy_on_db, sy_on_host, on_host, sy_record, modify;
    repeat case_match; by simplify_eq/=.
Qed.
Lemma Sync_engine {E} `{HandlerService E} `{FileOrder} (cfg : Config) (now : Z) (s : SyncState E) :
  (sy_world (Sync cfg now s).2).2 = (sy_world s).2.
Proof. symmetry. exact (keeps_Sync (π := λ s : SyncState E, (sy_world s).2) (R := eq) cfg now s). Qed.

