(* ===== verification/SyncerImport.v ===== *)
(** * What a synchronisation pass imports

    Every inbound and every client of the configuration files that the pass
    counts as synced is in the database afterwards, whatever came after it. *)

From S2P Require Import Prelude GoString Json JsonDecode Models Config XrayTypes Parser.
From S2P Require Import ConfigWriter Admin Schema Database DatabaseFacts DatabaseProps Server.
From S2P Require Import ServerFacts.
From S2P Require Import AdminProps Syncer SyncerProps.

(** The name the account of a client goes by. *)
Definition account_name (c : ParsedClient) : string := TrimSpace (sanitizeUsername (PC_Identity c)).

(** The user called [name] has the credential [cfg] on the inbound [id]. *)
Definition link_at (t : Tables) (id : Z) (name cfg : string) : Prop :=
  ∃ u uc, u ∈ t_users t ∧ TrimSpace (ur_username u) = name ∧ uc ∈ t_user_clients t ∧
    uc_user_id uc = ur_id u ∧ uc_inbound_id uc = id ∧ uc_client_config uc = cfg.

(** The inbound of a file is in the database, with all its clients. *)
Definition row_of (file : string) (ib : ParsedInbound) (r : Inbound) : Prop :=
  Inbound_Tag r = PI_Tag ib ∧ Inbound_Protocol r = PI_Protocol ib ∧ Inbound_Port r = PI_Port ib ∧
  Inbound_ConfigFile r = file ∧ Inbound_RawConfig r = PI_RawJSON ib.
Definition imported (t : Tables) (file : string) (ib : ParsedInbound) : Prop :=
  ∃ r, r ∈ t_inbounds t ∧ row_of file ib r ∧
    ∀ c, c ∈ PI_Clients ib → link_at t (Inbound_ID r) (account_name c) (PC_ConfigJSON c).

(** ** Statements *)

Lemma Exec_inr {A} (f : Tables → error + (A * Tables)) db a db' :
  Exec f db = (inr a, db') → f (db_tables db) = inr (a, db_tables db').
Proof. destruct (Exec_cases f db) as [(x & t & Hf & ->)|(e & ->)]; [|done]. by intros [= <- <-]. Qed.
Lemma Exec_inl {A} (f : Tables → error + (A * Tables)) db e db' :
  Exec f db = (inl e, db') → db_tables db' = db_tables db.
Proof. destruct (Exec_cases f db) as [(x & t & Hf & ->)|(e' & ->)]; [done|]. by intros [= <- <-]. Qed.
Lemma Exec_keep {A} (f : Tables → error + (A * Tables)) db r db' (P : Tables → Prop) :
  Exec f db = (r, db') → P (db_tables db) →
  (∀ a t, f (db_tables db) = inr (a, t) → P t) → P (db_tables db').
Proof.
  intros E Hp Hf. destruct r as [e|a]; [by rewrite (Exec_inl _ _ _ _ E)|].
  apply Exec_inr in E. by eapply Hf.
Qed.

Lemma upsert_client_links u i cfg db r db' :
  UpsertUserClient u i cfg db = (r, db') →
  t_users (db_tables db') = t_users (db_tables db) ∧ t_inbounds (db_tables db') = t_inbounds (db_tables db) ∧
  (∀ uc, uc ∈ t_user_clients (db_tables db) → uc_user_id uc ≠ u ∨ uc_inbound_id uc ≠ i →
     uc ∈ t_user_clients (db_tables db')) ∧
  (r = inr tt → ∃ uc, uc ∈ t_user_clients (db_tables db') ∧ uc_user_id uc = u ∧ uc_inbound_id uc = i ∧
     uc_client_config uc = cfg).
Proof.
  intros E. destruct r as [e|[]].
  { rewrite (Exec_inl _ _ _ _ E). done. }
  apply Exec_inr in E. unfold upsert_uc_rows in E. repeat case_if; try done; injection E as E; rewrite <- E; simpl.
  - split_and!; [done|done| |].
    + intros uc Hin Hne. apply elem_of_update_rows. exists uc. split; [done|].
      destruct (uc_key u i uc) eqn:Ek; [|done]. apply uc_key_iff in Ek. naive_solver.
    + intros _. apply existsb_exists in Heqb0 as (uc & Hin%list_elem_of_In & Hk).
      eexists. split; [apply elem_of_update_rows; exists uc; rewrite Hk; by split|].
      apply uc_key_iff in Hk as [? ?]. by split_and!.
  - split_and!; [done|done| |].
    + intros uc Hin _. apply elem_of_app. by left.
    + intros _. eexists. split; [apply elem_of_app; right; by apply list_elem_of_singleton|done].
Qed.

Lemma link_users_mono t t' id name cfg :
  (∀ u, u ∈ t_users t → u ∈ t_users t') → (∀ c, c ∈ t_user_clients t → c ∈ t_user_clients t') →
  link_at t id name cfg → link_at t' id name cfg.
Proof. intros Hu Hc (u & uc & H1 & H2 & H3 & H4). exists u, uc. auto. Qed.

Lemma create_user_rows now u e tk f db r db' :
  CreateUser now u e tk f db = (r, db') →
  t_inbounds (db_tables db') = t_inbounds (db_tables db) ∧
  t_user_clients (db_tables db') = t_user_clients (db_tables db) ∧
  (∀ x, x ∈ t_users (db_tables db) → x ∈ t_users (db_tables db')) ∧
  (∀ user, r = inr user → ∃ row, row ∈ t_users (db_tables db') ∧ ur_id row = User_ID user ∧
     ur_username row = TrimSpace u).
Proof.
  unfold CreateUser, bind.
  destruct (write_users _ db) as [r1 db1] eqn:E. intros Hr.
  assert (db1 = db') as -> by (destruct r1; unfold ret in Hr; by simplify_eq).
  destruct r1 as [err|id].
  - simplify_eq. rewrite (Exec_inl _ _ _ _ E). split_and!; [done|done|by intros|by intros].
  - apply Exec_inr in E. cbn in E. unfold enforce in E. destruct (users_violation _); [done|].
    injection E as <- E. rewrite <- E. simpl. split_and!; [done|done| |].
    + intros x Hx. apply elem_of_app. by left.
    + intros user ->. unfold ret in Hr. simplify_eq. simpl. eexists.
      split; [apply elem_of_app; right; by apply list_elem_of_singleton|done].
Qed.

(** ** Clients *)

Section Importing.
Context {E : Type} `{HandlerService E} (now : Z).

Abbreviation tables_of := (λ s : SyncState E, db_tables (sy_db s)).

Lemma sy_on_db_run {A} (m : M DB A) (s : SyncState E) r s' :
sy_on_db m s = (r, s') → m (sy_db s) = (r, sy_db s').
Proof using Type. unfold sy_on_db. destruct (m (sy_db s)) as [r1 db]. by intros [= <- <-]. Qed.
Lemma sy_on_host_run {A} (m : M Host A) (s : SyncState E) r s' :
sy_on_host m s = (r, s') → sy_db s' = sy_db s.
Proof using Type. unfold sy_on_host. destruct (on_host m (sy_world s)) as [r1 w]. by intros [= <- <-]. Qed.

Lemma find_or_create_spec identity (s : SyncState E) r s' :
find_or_create now identity s = (r, s') →
t_inbounds (tables_of s') = t_inbounds (tables_of s) ∧
t_user_clients (tables_of s') = t_user_clients (tables_of s) ∧
(∀ x, x ∈ t_users (tables_of s) → x ∈ t_users (tables_of s')) ∧
(∀ id, r = inr id → ∃ row, row ∈ t_users (tables_of s') ∧ ur_id row = id ∧
   TrimSpace (ur_username row) = TrimSpace identity).
Proof using Type.
unfold find_or_create, bind, wrap_err.
destruct (sy_on_db (GetUserByUsername identity) s) as [r1 s1] eqn:E1. apply sy_on_db_run in E1.
assert (Ht : tables_of s1 = tables_of s) by (by apply (reads_run _ _ _ _ (reads_Query _)) in E1).
destruct r1 as [e|[u|]].
- intros [= <- <-]. cbn. rewrite Ht. by split_and!.
- intros [= <- <-]. cbn. rewrite Ht. split_and!; [done..|]. intros id [= <-].
  apply find_user_inr in E1 as (_ & row & Hin & Hp%String.eqb_eq & ->). exists row. by rewrite Hp.
- destruct (sy_on_host generateToken s1) as [r2 s2] eqn:E2. pose proof E2 as H2%sy_on_host_run.
  destruct r2 as [e|tk]; [intros [= <- <-]; cbn; rewrite H2, Ht; by split_and!|].
  destruct (sy_on_host generateToken s2) as [r3 s3] eqn:E3. pose proof E3 as H3%sy_on_host_run.
  destruct r3 as [e|fb]; [intros [= <- <-]; cbn; rewrite H3, H2, Ht; by split_and!|].
  destruct (sy_on_db _ s3) as [r4 s4] eqn:E4. apply sy_on_db_run, create_user_rows in E4.
  rewrite H3, H2, Ht in E4. destruct E4 as (Hi & Hc & Hu & Hrow).
  destruct r4 as [e|user]; intros [= <- <-]; cbn; (split_and!; [done..|]); [done|].
  intros id [= <-]. destruct (Hrow _ eq_refl) as (row & H1 & H4 & H5). exists row.
  by rewrite H5, TrimSpace_idem.
Qed.

(** What syncing one client does: it succeeds only with the link in place,
  and it never breaks another link. *)
Lemma syncClient_spec id c (s : SyncState E) r s' :
syncClient now id c s = (r, s') → wf_tables (tables_of s) →
t_inbounds (tables_of s') = t_inbounds (tables_of s) ∧
(r = inr tt → link_at (tables_of s') id (account_name c) (PC_ConfigJSON c)) ∧
(∀ id' name cfg, id' ≠ id ∨ name ≠ account_name c →
   link_at (tables_of s) id' name cfg → link_at (tables_of s') id' name cfg).
Proof using Type.
unfold syncClient. destruct (String.eqb_spec (sanitizeUsername (PC_Identity c)) "") as [|Hne].
{ intros [= <- <-] _. by split_and!. }
intros Hr Hwf. unfold bind in Hr.
destruct (find_or_create now (sanitizeUsername (PC_Identity c)) s) as [r1 s1] eqn:E1.
pose proof (keeps_wf _ _ (keeps_find_or_create now _ Hne s)) as Hwf1. rewrite E1 in Hwf1.
specialize (Hwf1 Hwf). apply find_or_create_spec in E1 as (Hi & Hc & Hu & Hid). cbn [snd] in Hwf1.
assert (Hkeep : ∀ id name cfg, link_at (tables_of s) id name cfg → link_at (tables_of s1) id name cfg).
{ intros id' name cfg. apply link_users_mono; [done|]. by rewrite Hc. }
destruct r1 as [e|uid]; [simplify_eq; split_and!; [done|done|auto]|].
destruct (Hid _ eq_refl) as (row & Hrow & <- & Hname).
apply sy_on_db_run, upsert_client_links in Hr as (Hu2 & Hi2 & Hold & Hnew).
split_and!; [by rewrite Hi2|..].
- intros (uc & H1 & H2 & H3 & H4)%Hnew. exists row, uc. by rewrite Hu2.
- intros id' name cfg Hdiff (u & uc & H1 & H2 & H3 & H4 & H5 & H6)%Hkeep.
  exists u, uc. rewrite Hu2. split_and!; try done. apply Hold; [done|].
  destruct (decide (id' = id)) as [->|]; [left|right; congruence]. rewrite H4. intros Heq.
  assert (u = row) as -> by (eapply NoDup_map_inj_on; [apply (wf_user_ids _ Hwf1)|..]; done).
  unfold account_name in Hdiff. destruct Hdiff; congruence.
Qed.

(** The clients of one inbound. *)
Lemma import_clients_spec id cs (s : SyncState E) r s' :
import_clients now id cs s = (r, s') → wf_tables (tables_of s) →
t_inbounds (tables_of s') = t_inbounds (tables_of s) ∧
(∃ n, r = inr n ∧ (n ≤ length cs)%nat ∧
   (n = length cs → NoDup (account_name <$> cs) →
    ∀ c, c ∈ cs → link_at (tables_of s') id (account_name c) (PC_ConfigJSON c))) ∧
(∀ id' name cfg, id' ≠ id ∨ name ∉ account_name <$> cs →
   link_at (tables_of s) id' name cfg → link_at (tables_of s') id' name cfg).
Proof using Type.
revert s r s'. induction cs as [|c cs IH]; intros s r s' Hr Hwf; cbn [import_clients] in Hr.
{ unfold ret in Hr. simplify_eq. split_and!; [done| |done]. exists 0%nat. split_and!; [done|done|]. by intros _ _ c ?%elem_of_nil. }
unfold bind, try in Hr. destruct (syncClient now id c s) as [r1 s1] eqn:E1.
pose proof (keeps_wf _ _ (keeps_syncClient now id c s)) as Hwf1. rewrite E1 in Hwf1. cbn [snd] in Hwf1.
specialize (Hwf1 Hwf). apply syncClient_spec in E1 as (Hi1 & Hok1 & Hk1); [|done].
destruct (import_clients now id cs s1) as [r2 s2] eqn:E2.
destruct (IH _ _ _ E2 Hwf1) as (Hi2 & (n & -> & Hn & Hok2) & Hk2).
assert (s2 = s') as -> by (destruct r1; unfold ret in Hr; by simplify_eq).
split_and!; [congruence| |].
- exists (match r1 with inl _ => n | inr _ => S n end). simpl. split_and!.
  + destruct r1; unfold ret in Hr; by simplify_eq.
  + destruct r1; lia.
  + intros Hlen [Hnot Hnd]%NoDup_cons x. destruct r1 as [e|[]]; [lia|].
    intros [->|Hx]%elem_of_cons; [|apply Hok2; [lia|done..]]. apply Hk2; [by right|]. by apply Hok1.
- intros id' name cfg Hd Hl. rewrite fmap_cons, not_elem_of_cons in Hd. apply Hk2; [tauto|]. apply Hk1; [tauto|done].
Qed.

(** ** Inbounds *)

Lemma upsert_inbound_spec tag p port f raw db r db' :
UpsertInbound now tag p port f raw db = (r, db') →
t_users (db_tables db') = t_users (db_tables db) ∧
t_user_clients (db_tables db') = t_user_clients (db_tables db) ∧
(∀ row, row ∈ t_inbounds (db_tables db) → Inbound_Tag row ≠ tag → row ∈ t_inbounds (db_tables db')) ∧
(∀ id, r = inr id → ∃ row, row ∈ t_inbounds (db_tables db') ∧ Inbound_ID row = id ∧
   row_of f (mkParsedInbound tag p port raw []) row).
Proof using Type.
unfold UpsertInbound, bind. destruct (Run _ db) as [[e|[]] db1] eqn:E1.
{ intros [= <- <-]. rewrite (Exec_inl _ _ _ _ E1). split_and!; [done|done|by intros|by intros]. }
apply Exec_inr in E1. injection E1 as E1.
destruct (Query (inbound_id tag) db1) as [r2 db2] eqn:E2. intros Hr.
assert (Hdb : db' = db2 ∧ (∀ id, r = inr id → r2 = inr (Some id)))
  by (destruct r2 as [|[]]; unfold id_or_no_rows, ret, throw in Hr; simplify_eq; (split; [done|]); intros; by simplify_eq).
destruct Hdb as [-> Hr2]. clear Hr.
assert (Ht : db_tables db2 = db_tables db1) by (by apply (reads_run _ _ _ _ (reads_Query _)) in E2).
rewrite Ht, <- E1. unfold upsert_inbound_rows. split_and!.
- by case_if.
- by case_if.
- intros row Hrow Hne%String.eqb_neq. case_if; simpl.
  + apply elem_of_update_rows. exists row. by rewrite Hne.
  + apply elem_of_app. by left.
- intros id ->%Hr2. apply Query_inr in E2 as [Hid _]. unfold inbound_id in Hid.
  destruct (List.find _ (t_inbounds (db_tables db1))) as [row|] eqn:Ef; [|done]. injection Hid as ->.
  apply find_Some_iff in Ef as [Hin Htag%String.eqb_eq]. rewrite <- E1 in Hin. exists row.
  unfold upsert_inbound_rows in Hin. case_if; simpl in Hin; (split; [done|]); (split; [done|]).
  + apply elem_of_update_rows in Hin as (row0 & _ & Hrow). case_if; subst row; [done|].
    apply String.eqb_neq in Heqb0. done.
  + apply elem_of_app in Hin as [Hin|Hrow%list_elem_of_singleton]; [|by subst row].
    exfalso. apply not_true_iff_false in Heqb. apply Heqb, existsb_exists. exists row.
    split; [by apply list_elem_of_In|by apply String.eqb_eq].
Qed.

Definition client_count (ibs : list ParsedInbound) : nat := sum_list (map (λ ib, length (PI_Clients ib)) ibs).

(** Another inbound's clients leave an imported inbound alone. *)
Lemma imported_other_clients id row cs (s : SyncState E) r s' f ib :
import_clients now id cs s = (r, s') → wf_tables (tables_of s) →
row ∈ t_inbounds (tables_of s) → Inbound_ID row = id → Inbound_Tag row ≠ PI_Tag ib →
imported (tables_of s) f ib → imported (tables_of s') f ib.
Proof using Type.
intros Hr Hwf Hrow Hid Htag (x & Hx & Hof & Hl).
destruct (import_clients_spec _ _ _ _ _ Hr Hwf) as (Hi & _ & Hk).
exists x. rewrite Hi. split_and!; [done|done|]. intros c Hc. apply Hk; [|by apply Hl].
left. intros Heq. apply Htag. destruct Hof as [<- _].
enough (row = x) by congruence.
eapply NoDup_map_inj_on; [apply (wf_inbound_ids _ Hwf)|done..|congruence].
Qed.

Lemma import_inbounds_spec file ibs (s : SyncState E) r s' :
import_inbounds now file ibs s = (r, s') → wf_tables (tables_of s) → NoDup (PI_Tag <$> ibs) →
(∃ n, r = inr n ∧ (n.1 <= length ibs)%nat ∧ (n.2 <= client_count ibs)%nat ∧
   (n.1 = length ibs → n.2 = client_count ibs →
    ∀ ib, ib ∈ ibs → NoDup (account_name <$> PI_Clients ib) → imported (tables_of s') file ib)) ∧
(∀ f ib, PI_Tag ib ∉ PI_Tag <$> ibs → imported (tables_of s) f ib → imported (tables_of s') f ib).
Proof using Type.
revert s r s'. induction ibs as [|ib ibs IH]; intros s r s' Hr Hwf Hnd; cbn [import_inbounds] in Hr.
{ unfold ret in Hr. simplify_eq. split; [|done]. exists (0, 0)%nat.
  split_and!; [done|done|done|]. by intros _ _ ib ?%elem_of_nil. }
rewrite fmap_cons in Hnd. apply NoDup_cons in Hnd as [Hnot Hnd].
unfold bind at 1, try in Hr. destruct (sy_on_db _ s) as [r1 s1] eqn:E1.
pose proof (keeps_wf _ _ (advances_sy_on_db _ _ (keeps_upsert_inbound now (PI_Tag ib) (PI_Protocol ib)
  (PI_Port ib) file (PI_RawJSON ib)) s)) as Hwf1. rewrite E1 in Hwf1. cbn [snd] in Hwf1. specialize (Hwf1 Hwf).
apply sy_on_db_run, upsert_inbound_spec in E1 as (Hu1 & Hc1 & Hrows & Hnew).
assert (Hk1 : ∀ f x, PI_Tag x ≠ PI_Tag ib → imported (tables_of s) f x → imported (tables_of s1) f x).
{ intros f x Hx (y & Hy & Hof & Hl). exists y. split_and!; [apply Hrows; [done|by destruct Hof as [-> _]]|done|].
  intros c Hc. eapply link_users_mono; [| |by apply Hl]; by rewrite ?Hu1, ?Hc1. }
assert (Hcount : client_count (ib :: ibs) = (length (PI_Clients ib) + client_count ibs)%nat) by done.
rewrite Hcount. cbn [length].
destruct r1 as [e|id].
{ destruct (IH _ _ _ Hr Hwf1 Hnd) as ((n & -> & Hn1 & Hn2 & _) & Hk). split.
  - exists n. split_and!; [done|lia|lia|lia].
  - intros f x [Hx Hx']%not_elem_of_cons Himp. auto. }
destruct (Hnew _ eq_refl) as (row & Hrow & Hid & Hof).
unfold bind at 1 in Hr. destruct (import_clients now id (PI_Clients ib) s1) as [r2 s2] eqn:E2.
pose proof (keeps_wf _ _ (keeps_import_clients now id (PI_Clients ib) s1)) as Hwf2. rewrite E2 in Hwf2.
cbn [snd] in Hwf2. specialize (Hwf2 Hwf1).
destruct (import_clients_spec _ _ _ _ _ E2 Hwf1) as (Hi2 & (n & -> & Hn & Hok) & _).
unfold bind in Hr. destruct (import_inbounds now file ibs s2) as [r3 s3] eqn:E3.
destruct (IH _ _ _ E3 Hwf2 Hnd) as ((m & -> & Hm1 & Hm2 & Hall) & Hk3).
unfold ret in Hr. injection Hr as <- <-. split.
- exists (S m.1, n + m.2)%nat. simpl. split_and!; [done|lia|lia|].
  intros H1 H2 x [->|Hx]%elem_of_cons Hnames; [|apply Hall; [lia..|done|done]].
  apply Hk3; [done|]. exists row. rewrite Hi2. split_and!; [done|done|]. intros c Hc. rewrite Hid.
  apply Hok; [lia|done..].
- intros f x [Hx Hx']%not_elem_of_cons Himp. apply Hk3; [done|].
  eapply imported_other_clients; [exact E2|done|exact Hrow|done| |by apply Hk1].
  destruct Hof as [-> _]. done.
Qed.

(** ** Files *)

Lemma delete_inbound_keeps tag db r db' f ib :
DeleteInboundByTag tag db = (r, db') → wf_tables (db_tables db) → PI_Tag ib ≠ tag →
imported (db_tables db) f ib → imported (db_tables db') f ib.
Proof using Type.
intros Hr Hwf Hne Himp. eapply (Exec_keep _ _ _ _ (λ t, imported t f ib)); [exact Hr|done|].
intros a t [= _ <-]. destruct Himp as (x & Hx & Hof & Hl).
assert (Hxt : String.eqb (Inbound_Tag x) tag = false) by (apply String.eqb_neq; by destruct Hof as [-> _]).
exists x. unfold delete_inbound_rows. simpl. split_and!; [by apply elem_of_delete_rows|done|].
intros c Hc. destruct (Hl c Hc) as (u & uc & H1 & H2 & H3 & H4 & H5 & H6). exists u, uc.
split_and!; try done. simpl. apply elem_of_delete_rows. split; [|done].
apply bool_decide_eq_false. intros (y & Hy & [Hyt Hin]%elem_of_bfilter)%list_elem_of_fmap.
enough (x = y) by congruence.
eapply NoDup_map_inj_on; [apply (wf_inbound_ids _ Hwf)|done..|congruence].
Qed.

Lemma remove_stale_spec file ibs (s : SyncState E) r s' f ib :
remove_stale file ibs s = (r, s') → wf_tables (tables_of s) → f ≠ file →
imported (tables_of s) f ib → imported (tables_of s') f ib.
Proof using Type.
unfold remove_stale, or_zero. intros Hr Hwf Hf Himp. unfold bind at 1 2, try, ret in Hr.
destruct (sy_on_db _ s) as [r1 s1] eqn:E1. apply sy_on_db_run in E1.
assert (Ht : tables_of s1 = tables_of s) by (by apply (reads_run _ _ _ _ (reads_Query _)) in E1).
assert (Htags : ∀ tag, tag ∈ match r1 with inr a => a | inl _ => [] end → tag ≠ PI_Tag ib).
{ destruct r1 as [e|tags]; [by intros tag ?%elem_of_nil|]. apply Query_inr in E1 as [-> _].
  intros tag (y & -> & [[Hy _]%andb_true_iff Hin]%elem_of_bfilter)%list_elem_of_fmap Heq.
  apply String.eqb_eq in Hy. destruct Himp as (x & Hx & (H1 & _ & _ & H2 & _) & _).
  enough (x = y) by congruence. eapply NoDup_map_inj_on; [apply (wf_inbound_tags _ Hwf)|done..|congruence]. }
rewrite <- Ht in Hwf, Himp. clear E1 Ht. generalize dependent s1.
induction (match r1 with inr a => a | inl _ => [] end) as [|tag tags IH]; intros s1 Hr Hwf Himp; simpl in Hr.
{ unfold ret in Hr. by simplify_eq. }
unfold logged, bind at 1 2, try, ret in Hr.
pose proof (keeps_wf _ _ (advances_sy_on_db _ _ (keeps_delete_inbound tag) s1) Hwf) as Hwf2.
destruct (sy_on_db (DeleteInboundByTag tag) s1) as [r2 s2] eqn:E2. cbn [snd] in Hwf2.
apply sy_on_db_run in E2.
apply (IH ltac:(intros; apply Htags; by right) s2); [done|done|].
eapply delete_inbound_keeps; [exact E2|done| |done]. apply not_eq_sym, Htags. by left.
Qed.

(** The stale-row removal never stops the pass. *)
Lemma remove_stale_total file ibs (s : SyncState E) : ∃ s', remove_stale file ibs s = (inr tt, s').
Proof using Type.
unfold remove_stale, or_zero, bind at 1 2, try, ret. destruct (sy_on_db _ s) as [r1 s1].
generalize (match r1 with inr a => a | inl _ => [] end). intros tags. revert s1.
induction tags as [|tag tags IH]; intros s1; simpl; [by exists s1|].
unfold logged, bind at 1 2, try, ret. destruct (sy_on_db (DeleteInboundByTag tag) s1) as [r2 s2]. apply IH.
Qed.

Definition all_inbounds (parsed : list (string * list ParsedInbound)) : list ParsedInbound :=
concat (map snd parsed).

Lemma client_count_app l k : client_count (l ++ k) = (client_count l + client_count k)%nat.
Proof using Type. unfold client_count. induction l as [|x l IH]; simpl; [done|]. rewrite IH. lia. Qed.

Lemma import_files_spec parsed (s : SyncState E) r s' :
import_files now parsed s = (r, s') → wf_tables (tables_of s) →
NoDup parsed.*1 → NoDup (PI_Tag <$> all_inbounds parsed) →
(∃ n, r = inr n ∧ (n.1 <= length (all_inbounds parsed))%nat ∧ (n.2 <= client_count (all_inbounds parsed))%nat ∧
  (n.1 = length (all_inbounds parsed) → n.2 = client_count (all_inbounds parsed) →
   ∀ file ibs ib, (file, ibs) ∈ parsed → ib ∈ ibs → NoDup (account_name <$> PI_Clients ib) →
     imported (tables_of s') file ib)) ∧
(∀ f ib, f ∉ parsed.*1 → PI_Tag ib ∉ PI_Tag <$> all_inbounds parsed →
   imported (tables_of s) f ib → imported (tables_of s') f ib).
Proof using Type.
revert s r s'. induction parsed as [|[file ibs] parsed IH]; intros s r s' Hr Hwf Hnd Htags; cbn [import_files] in Hr.
{ unfold ret in Hr. simplify_eq. split; [|done]. exists (0, 0)%nat.
  split_and!; [done|done|done|]. by intros _ _ f l ib ?%elem_of_nil. }
cbn [fmap list_fmap fst] in Hnd. apply NoDup_cons in Hnd as [Hfile Hnd].
assert (Hall : all_inbounds ((file, ibs) :: parsed) = ibs ++ all_inbounds parsed) by done.
rewrite Hall in *. rewrite fmap_app in Htags. apply NoDup_app in Htags as (Hd1 & Hdis & Hd2).
rewrite length_app, client_count_app.
unfold bind at 1 in Hr. pose proof (keeps_wf _ _ (keeps_remove_stale file ibs s) Hwf) as Hwf1.
destruct (remove_stale file ibs s) as [r1 s1] eqn:E1. cbn [snd] in Hwf1.
assert (Hk1 : ∀ f x, f ≠ file → imported (tables_of s) f x → imported (tables_of s1) f x).
{ intros f x Hne Hx. by eapply remove_stale_spec. }
destruct r1 as [e|[]]; [by destruct (remove_stale_total file ibs s) as (s0 & E0); rewrite E0 in E1|].
unfold bind at 1 in Hr. pose proof (keeps_wf _ _ (keeps_import_inbounds now file ibs s1) Hwf1) as Hwf2.
destruct (import_inbounds now file ibs s1) as [r2 s2] eqn:E2. cbn [snd] in Hwf2.
destruct (import_inbounds_spec _ _ _ _ _ E2 Hwf1 Hd1) as ((n & -> & Hn1 & Hn2 & Hok) & Hk2).
unfold bind in Hr. destruct (import_files now parsed s2) as [r3 s3] eqn:E3.
destruct (IH _ _ _ E3 Hwf2 Hnd Hd2) as ((m & -> & Hm1 & Hm2 & Hrest) & Hk3).
unfold ret in Hr. injection Hr as <- <-. split.
- exists (n.1 + m.1, n.2 + m.2)%nat. simpl. split_and!; [done|lia|lia|].
  intros H1 H2 f l ib [[= -> ->]|Hin]%elem_of_cons Hib Hnames; [|by eapply Hrest; [lia..|exact Hin|done|done]].
  apply Hk3; [done| |apply Hok; [lia..|done|done]].
  intros Hin. eapply Hdis; [|exact Hin]. by apply list_elem_of_fmap_2.
- intros f ib Hf Htag Himp. cbn [fmap list_fmap fst] in Hf. apply not_elem_of_cons in Hf as [Hf Hf'].
  rewrite fmap_app in Htag. apply not_elem_of_app in Htag as [Ht1 Ht2]. auto.
Qed.

End Importing.

(** A file with one inbound of two clients, and an empty database. *)
Definition demo_parsed : list (string * list ParsedInbound) :=
  [("00.json", [mkParsedInbound "vless-in" "vless" 443 "{}"
     [mkParsedClient "ann" "{a}"; mkParsedClient "bob b" "{b}"]])].
Definition empty_sync : SyncState toy_engine :=
  mkSyncState (mkDB empty_tables []) (mkHost ∅ [] (λ n, Stdlib.Strings.Ascii.ascii_of_nat (n mod 251)) 0, ∅) new_status.

