(* ===== verification/SyncStatusProps.v ===== *)
(** * The health record of the synchroniser

    The ring of failure times that [GET /api/sync/status] counts. *)

From S2P Require Import Prelude GoString Config Syncer.

(** ** The error ring *)

Definition newer (cutoff : Z) (l : list Z) : list Z := bfilter (λ t, (cutoff <? t)%Z) l.
Definition last_n {A} (n : nat) (l : list A) : list A := drop (length l - n) l.

Lemma last_n_all {A} n (l : list A) : (length l <= n)%nat → last_n n l = l.
Proof. intros H. unfold last_n. by replace (length l - n)%nat with 0%nat by lia. Qed.
Lemma last_n_cons {A} n x (l : list A) : (n <= length l)%nat → last_n n (x :: l) = last_n n l.
Proof. intros H. unfold last_n. simpl length. by replace (S (length l) - n)%nat with (S (length l - n)) by lia. Qed.
Lemma length_last_n {A} n (l : list A) : length (last_n n l) = min n (length l).
Proof. unfold last_n. rewrite length_drop. lia. Qed.
Lemma last_n_snoc {A} n (l : list A) x : last_n (S n) (last_n (S n) l ++ [x]) = last_n (S n) (l ++ [x]).
Proof.
  destruct (decide (length l <= S n)%nat); [by rewrite (last_n_all (S n) l)|].
  unfold last_n. rewrite !length_app, length_drop. simpl.
  rewrite drop_app_le by (rewrite length_drop; lia). rewrite drop_drop.
  rewrite (drop_app_le l) by lia. do 2 f_equal. lia.
Qed.
Lemma StronglySorted_sublist {A} (R : relation A) l k : sublist l k → StronglySorted R k → StronglySorted R l.
Proof.
  induction 1 as [|x l k Hlk IH|x l k Hlk IH]; intros Hs; [done| |]; apply StronglySorted_inv in Hs as [Hs Hall]; [|auto].
  constructor; [auto|]. rewrite Forall_forall in *. intros y Hy. apply Hall. eapply elem_of_submseteq; [exact Hy|by apply sublist_submseteq].
Qed.

Lemma newer_app c l k : newer c (l ++ k) = newer c l ++ newer c k.
Proof. apply bfilter_app. Qed.
Lemma newer_newer c d l : (c <= d)%Z → newer d (newer c l) = newer d l.
Proof.
  intros H. induction l as [|x l IH]; [done|]. simpl. destruct (Z.ltb_spec c x); simpl.
  - by rewrite IH.
  - by rewrite IH, (proj2 (Z.ltb_ge d x)) by lia.
Qed.
Lemma newer_all c x l : StronglySorted Z.le (x :: l) → (c < x)%Z → newer c (x :: l) = x :: l.
Proof.
  intros [Hs Hall]%StronglySorted_inv Hx. apply bfilter_all. rewrite Forall_forall in Hall.
  intros y [->|Hy]%elem_of_cons; apply Z.ltb_lt; [done|]. specialize (Hall y Hy). lia.
Qed.
Lemma newer_last_n c n l : StronglySorted Z.le l → newer c (last_n n l) = last_n n (newer c l).
Proof.
  induction l as [|x l IH]; intros Hs; [by unfold last_n; rewrite !drop_nil|].
  pose proof Hs as [Hs' _]%StronglySorted_inv. specialize (IH Hs').
  destruct (Z.ltb_spec c x) as [Hx|Hx].
  - rewrite (newer_all c x l Hs Hx). apply bfilter_all. intros y Hy.
    assert (Hin : y ∈ newer c (x :: l)) by (rewrite newer_all by done; eapply elem_of_submseteq; [exact Hy|apply sublist_submseteq, sublist_drop]).
    by apply elem_of_bfilter in Hin as [? _].
  - assert (Hc : newer c (x :: l) = newer c l) by (simpl; by rewrite (proj2 (Z.ltb_ge c x)) by lia).
    rewrite Hc. pose proof (List.filter_length_le (λ t, (c <? t)%Z) l) as Hle. fold (newer c l) in Hle.
    destruct (decide (length l < n)%nat).
    + rewrite (last_n_all n (x :: l)) by (simpl; lia). by rewrite (last_n_all n (newer c l)) by lia.
    + rewrite last_n_cons by lia. apply IH.
Qed.

Lemma first_after_shift c i l : first_after c i l = if existsb (λ t, (c <? t)%Z) l then (i + first_after c 0 l)%nat else 0%nat.
Proof.
  revert i. induction l as [|x l IH]; intros i; [done|]. simpl. destruct (c <? x)%Z; simpl; [lia|].
  rewrite (IH (S i)), (IH 1%nat). destruct (existsb _ l); [lia|done].
Qed.
(** Dropping up to the first newer time stamp keeps exactly the newer ones. *)
Lemma drop_first_after c l x :
  StronglySorted Z.le (l ++ [x]) → (c < x)%Z → drop (first_after c 0 (l ++ [x])) (l ++ [x]) = newer c (l ++ [x]).
Proof.
  induction l as [|y l IH]; intros Hs Hx.
  { simpl. by rewrite (proj2 (Z.ltb_lt c x)). }
  cbn [app]. destruct (Z.ltb_spec c y) as [Hy|Hy].
  - rewrite newer_all by done. simpl. by rewrite (proj2 (Z.ltb_lt c y)).
  - cbn [app] in Hs. pose proof Hs as [Hs' _]%StronglySorted_inv. specialize (IH Hs' Hx).
    assert (Hc : newer c (y :: l ++ [x]) = newer c (l ++ [x])) by (simpl; by rewrite (proj2 (Z.ltb_ge c y)) by lia).
    rewrite Hc, <- IH. simpl first_after. rewrite (proj2 (Z.ltb_ge c y)) by lia. rewrite first_after_shift.
    replace (existsb _ (l ++ [x])) with true; [done|]. symmetry. apply existsb_exists. exists x.
    split; [apply in_or_app; right; by left|by apply Z.ltb_lt].
Qed.

(** ** The health record over a history of passes *)

(** The ring after failures at the given times. *)
Definition ring (failures : list Z) : list Z := foldl (λ l t, push t l) [] failures.

Lemma push_sorted t l :
  StronglySorted Z.le (l ++ [t]) → push t l = last_n 48 (newer (t - hour) (l ++ [t])).
Proof.
  intros Hs. unfold push. assert (Hh : (t - hour < t)%Z) by (unfold hour; lia).
  replace (if Nat.ltb 0 _ then _ else _) with (newer (t - hour) (l ++ [t])).
  - change (errorRingSize * 4)%nat with 48%nat. unfold last_n. destruct (Nat.ltb_spec 48 (length (newer (t - hour) (l ++ [t])))); [done|].
    by replace (length (newer (t - hour) (l ++ [t])) - 48)%nat with 0%nat by lia.
  - rewrite <- (drop_first_after _ _ _ Hs Hh). by destruct (first_after _ _ _).
Qed.

Lemma ring_spec hist t :
  StronglySorted Z.le (hist ++ [t]) → ring (hist ++ [t]) = last_n 48 (newer (t - hour) (hist ++ [t])).
Proof.
  revert t. induction hist as [|x hist IH] using rev_ind; intros t Hs.
  { apply (push_sorted t []). exact Hs. }
  unfold ring in *. rewrite foldl_app. cbn [foldl].
  assert (Hs1 : StronglySorted Z.le (hist ++ [x])) by (by apply StronglySorted_app_1_l in Hs).
  assert (Hxt : (x <= t)%Z).
  { eapply (StronglySorted_app_1_elem_of Z.le _ _ x t Hs); [apply elem_of_app; right|]; by apply list_elem_of_singleton. }
  rewrite (IH x Hs1). rewrite push_sorted.
  - rewrite newer_app, newer_last_n.
    + rewrite newer_newer by lia. rewrite (newer_app _ (hist ++ [x])).
      assert (Ht : newer (t - hour) [t] = [t]) by (simpl; by rewrite (proj2 (Z.ltb_lt (t - hour) t)) by (unfold hour; lia)).
      rewrite Ht. apply last_n_snoc.
    + eapply StronglySorted_sublist; [apply bfilter_sublist|done].
  - eapply StronglySorted_sublist; [|exact Hs]. apply sublist_app; [|done].
    etrans; [apply sublist_drop|apply bfilter_sublist].
Qed.

(** C23: The failure count of the health record is exact up to 48: whatever
    the history of failed passes (their times do not go back), the number that
    [GET /api/sync/status] reports at [now] is the number of failures in the
    last hour, or 48 when there were more; and the ring never holds more than
    48 time stamps. *)
Theorem ErrorsLastHour_counts hist now :
  StronglySorted Z.le (hist ++ [now]) →
  countSince (now - hour) (ring hist) = min 48 (countSince (now - hour) hist) ∧ (length (ring hist) <= 48)%nat.
Proof.
  intros Hs. destruct hist as [|x l] using rev_ind; [by split; simpl; [|lia]|]. clear IHl.
  assert (Hxt : (x <= now)%Z).
  { eapply (StronglySorted_app_1_elem_of Z.le _ _ x now Hs); [apply elem_of_app; right|]; by apply list_elem_of_singleton. }
  assert (Hs1 : StronglySorted Z.le (l ++ [x])) by (by apply StronglySorted_app_1_l in Hs).
  rewrite (ring_spec l x Hs1). split; [|rewrite length_last_n; lia].
  unfold countSince. fold (newer (now - hour) (last_n 48 (newer (x - hour) (l ++ [x])))).
  fold (newer (now - hour) (l ++ [x])).
  rewrite newer_last_n by (eapply StronglySorted_sublist; [apply bfilter_sublist|done]).
  rewrite length_last_n. by rewrite newer_newer by lia.
Qed.

(** One failure a minute for an hour: 59 are in the window, 48 are reported. *)
Definition minutely : list Z := map (λ i, (Z.of_nat i * 60000000000)%Z) (seq 0 60).
Lemma ErrorsLastHour_saturates :
  countSince (3600000000001 - hour) (ring minutely) = 48%nat ∧
  countSince (3600000000001 - hour) minutely = 59%nat.
Proof. vm_compute. done. Qed.

Lemma ErrorsLastHour_counts_witness :
  countSince (90 - hour) (ring [10; 20; 20]%Z) = min 48 (countSince (90 - hour) [10; 20; 20]%Z) ∧
  (length (ring [10; 20; 20]%Z) <= 48)%nat.
Proof. apply (ErrorsLastHour_counts [10; 20; 20]%Z 90). repeat constructor; lia. Defined.
