(* ===== verification/WrittenClients.v ===== *)
(** * Written clients are read back

    The configuration writer and the parser agree: a client that a pass adds to
    a file is found there by the next pass, so it is added once. *)

From S2P Require Import Prelude GoString Json JsonDecode JsonCanon XrayTypes Parser ConfigWriter.
From S2P Require Import ConfigWriterProps Admin AdminProps Syncer.
From Stdlib Require Import Ascii.

(** ** What the parser makes of a written file *)

Lemma file_inbounds_listed ibs root :
  lists_inbounds ibs root → file_inbounds (json_marshal_indent (JObj root)) = inr ibs.
Proof.
  intros [Hg Hm]. pose proof Hg as [Hs _]%good_obj. destruct Hg as [_ Hw]. unfold file_inbounds.
  rewrite Unmarshal_marshal_indent by done. unfold decode, d_object, dbind, d_field, d_list, d_slice, d_elems.
  rewrite (lookup_fold_canon _ _ _ eq_refl Hs Hm). cbn [default]. unfold d_raw.
  rewrite map_id. assert (forallb (λ j, (j, true).2) ibs = true) as -> by (by apply forallb_Forall, Forall_true).
  done.
Qed.

(** The inbound's tag and settings as the parser decodes them. *)
Lemma decode_tagged tag ib settings si :
  tag ≠ "" → good (JObj ib) → tagged tag (JObj ib) → map_get "settings" ib = Some settings →
  decode decode_ServerInbound (JObj ib) = inr si →
  TrimSpace (SI_Tag si) = tag ∧ SI_Settings si = Some settings.
Proof.
  intros Hne [Hs _]%good_obj Ht Hset Hd%decode_inr. inv_fields Hd. simpl in *.
  assert (∃ t, map_get "tag" ib = Some (JStr t) ∧ TrimSpace t = tag) as (t & Hg & Htt).
  { unfold tag_of, str_of in Ht. destruct (map_get "tag" ib) as [[]|]; simpl in Ht; try (by subst). eauto. }
  unfold d_field, d_raw_field, d_object in *. simplify_eq.
  rewrite (lookup_fold_canon _ _ _ eq_refl Hs Hg) in *. rewrite (lookup_fold_canon _ _ _ eq_refl Hs Hset) in *.
  by simplify_eq/=.
Qed.

Lemma string_field name c s v :
  ToLower name = name → good (JObj c) → map_get name c = Some (JStr s) →
  d_field d_string name c = (v, true) → v = s.
Proof.
  intros Hl [Hs _]%good_obj Hg. unfold d_field. rewrite (lookup_fold_canon _ _ _ Hl Hs Hg). by intros [= <-].
Qed.
Lemma client_listed {A} (d : decoder A) settings xs c :
  good (JObj settings) → d_field (d_list d) "clients" settings = (xs, true) → c ∈ clients_of settings →
  ∃ x, x ∈ xs ∧ d c = (x, true).
Proof.
  intros [Hs _]%good_obj Hd Hc. unfold clients_of in Hc.
  destruct (map_get "clients" settings) as [[| | | | |l|]|] eqn:Eg; try by apply elem_of_nil in Hc.
  unfold d_field in Hd. rewrite (lookup_fold_canon _ _ _ eq_refl Hs Eg) in Hd.
  unfold d_list, d_slice, d_elems in Hd. injection Hd as <- Hok. rewrite forallb_Forall, Forall_forall in Hok.
  exists (d c).1. split; [by apply (list_elem_of_fmap_2 (λ j, (d j).1))|]. specialize (Hok c Hc). by destruct (d c); simpl in *; subst.
Qed.

Lemma first_of email id : email ≠ "" → firstNonEmpty [email; id] = email.
Proof. intros H%String.eqb_neq. simpl. by rewrite H. Qed.

Lemma named_in_list {A} (d : decoder A) (mk : A → ParsedClient) settings xs c email :
  good (JObj settings) → d_field (d_list d) "clients" settings = (xs, true) → c ∈ clients_of settings →
  (∀ x, d c = (x, true) → PC_Identity (mk x) = email) → email ∈ map PC_Identity (map mk xs).
Proof.
  intros Hg Hd Hc Hmk. destruct (client_listed d settings xs c Hg Hd Hc) as (x & Hx & Hdx).
  rewrite <- (Hmk x Hdx). by do 2 apply list_elem_of_fmap_2.
Qed.
(** The fields of a successful struct decoding. *)
Ltac open_struct H := inv_fields H; unfold d_object in *; simplify_eq; cbn [fst snd] in *.

(** A decoder that finds the e-mail finds the one that was written. *)
Ltac named_by_email Hg Hc Hgc He Hne :=
  eapply named_in_list; [exact Hg|eassumption|exact Hc|];
  let x := fresh "x" in let Hd := fresh "Hd" in intros x Hd; open_struct Hd;
  match goal with H : d_field d_string "email" _ = _ |- _ =>
    apply (string_field _ _ _ _ eq_refl Hgc He) in H as -> end;
  unfold stored_client; simpl; by rewrite (proj2 (String.eqb_neq _ _) Hne).

(** Every extraction names a client of the file by its e-mail. *)
Lemma extracted_by_email encMap warn si settings c email w cs w' :
  managed_protocol (ToLower (SI_Protocol si)) = true →
  SI_Settings si = Some (JObj settings) → good (JObj settings) →
  JObj c ∈ clients_of settings → map_get "email" c = Some (JStr email) → email ≠ "" →
  extractClients encMap warn si w = (inr cs, w') → email ∈ map PC_Identity cs.
Proof.
  intros Hp Hset Hg Hc He Hne Hx. unfold extractClients in Hx.
  assert (Hgc : good (JObj c)).
  { pose proof (good_clients _ Hg) as Hcs. by apply (proj1 (Forall_forall _ _) Hcs). }
  unfold managed_protocol in Hp. apply bool_decide_eq_true in Hp.
  repeat (apply elem_of_cons in Hp as [Hp|Hp]); [..|by apply elem_of_nil in Hp]; rewrite Hp in Hx; cbn in Hx.
  - unfold extractVLESS in Hx. rewrite Hset in Hx. cbn [unmarshal_raw] in Hx.
    destruct (decode _ _) as [|s] eqn:Ed; [done|]. apply decode_inr in Ed. open_struct Ed.
    apply bind_ok in Hx as (enc & w1 & _ & Hx). injection Hx as <- _.
    named_by_email Hg Hc Hgc He Hne.
  - unfold extractVMess in Hx. rewrite Hset in Hx. cbn [unmarshal_raw] in Hx.
    destruct (decode _ _) as [|s] eqn:Ed; [done|]. apply decode_inr in Ed. open_struct Ed. injection Hx as <- _.
    named_by_email Hg Hc Hgc He Hne.
  - unfold extractTrojan in Hx. rewrite Hset in Hx. cbn [unmarshal_raw] in Hx.
    destruct (decode _ _) as [|s] eqn:Ed; [done|]. apply decode_inr in Ed. open_struct Ed. injection Hx as <- _.
    named_by_email Hg Hc Hgc He Hne.
  - unfold extractShadowsocks in Hx. rewrite Hset in Hx. cbn [unmarshal_raw] in Hx.
    destruct (decode _ _) as [|s] eqn:Ed; [done|]. apply decode_inr in Ed. open_struct Ed.
    match goal with H : d_field (d_list decode_ShadowsocksClient) _ _ = (?xs, _) |- _ =>
      destruct (client_listed _ _ _ _ Hg H Hc) as (y & Hy & _); destruct xs as [|y' l] end;
      [by apply elem_of_nil in Hy|apply lift_inr, (inj inr) in Hx as <-].
    named_by_email Hg Hc Hgc He Hne.
Qed.

(** ** The inbounds of a directory *)

(** The inbounds of the JSON files, in the order of the directory. *)
Definition raws_of (e : DirEntry) : list json :=
  if de_is_dir e || negb (HasSuffix (de_name e) ".json") then []
  else match de_content e with
       | inl _ => []
       | inr data => match file_inbounds data with inl _ => [] | inr raws => raws end
       end.
Definition dir_raws (h : Host) (dir : string) : list json :=
  match ReadDir h dir with DirEntries l => concat (map raws_of l) | _ => [] end.
Definition named (tag : string) (raw : json) : bool :=
  match raw with
  | JObj kvs => match lookup_fold "tag" kvs with
                | Some (JStr t) => String.eqb (TrimSpace t) tag
                | _ => false end
  | _ => false
  end.

Lemma named_field tag raw kvs t :
  tag ≠ "" → d_object raw = (kvs, true) → d_field d_string "tag" kvs = (t, true) →
  named tag raw = true ↔ TrimSpace t = tag.
Proof.
  intros Hne Ho Htag. unfold d_field in Htag.
  assert (Hempty : ("", true) = (t, true) → false = true ↔ TrimSpace t = tag).
  { intros [= <-]. by split; [|intros <-]. }
  destruct raw as [| | | | | |m]; simpl in Ho; injection Ho as Ho; subst kvs; try done; simpl in Htag; [by apply Hempty|].
  cbn [named]. destruct (lookup_fold "tag" m) as [[]|]; simpl in Htag; try done; try by apply Hempty.
  injection Htag as <-. apply String.eqb_eq.
Qed.
Lemma named_iff tag raw si :
  tag ≠ "" → decode decode_ServerInbound raw = inr si → named tag raw = true ↔ TrimSpace (SI_Tag si) = tag.
Proof.
  intros Hne Hd%decode_inr. apply dbind_inv in Hd as (kvs & Ho & Hd). apply dbind_inv in Hd as (t & Htag & Hd).
  inv_fields Hd. by apply named_field with kvs.
Qed.
Lemma named_head tag raw t p st :
  tag ≠ "" → decode d_inbound_head raw = inr (t, p, st) → TrimSpace t = tag → named tag raw = true.
Proof.
  intros Hne Hd%decode_inr Ht. apply dbind_inv in Hd as (kvs & Ho & Hd). apply dbind_inv in Hd as (t' & Htag & Hd).
  apply dbind_inv in Hd as (? & _ & Hd). apply dbind_inv in Hd as (? & _ & Hd). injection Hd as -> _ _.
  by apply (named_field tag raw kvs t).
Qed.
(** The writer's test on the tag implies the parser's. *)
Lemma tagged_named tag raw : tag ≠ "" → good raw → tagged tag raw → named tag raw = true.
Proof.
  intros Hne Hg Ht. destruct raw as [| | | | | |ib]; try done. simpl in Ht |- *. unfold tag_of, str_of in Ht.
  destruct (map_get "tag" ib) as [[]|] eqn:Eg; simpl in Ht; try (by subst).
  pose proof Hg as [Hs _]%good_obj. rewrite (lookup_fold_canon _ _ _ eq_refl Hs Eg). by apply String.eqb_eq.
Qed.

(** A client that every kind of inbound decodes. *)
Definition decodable (c : json) : Prop :=
  (∃ x, decode_VLESSClient c = (x, true)) ∧ (∃ x, decode_VMessClient c = (x, true)) ∧
  (∃ x, decode_TrojanClient c = (x, true)) ∧ (∃ x, decode_ShadowsocksClient c = (x, true)).

Lemma stored_alter_ok s st : Unmarshal decode_Stored s = inr st → int64_ok (Stored_AlterId st) = true.
Proof.
  unfold Unmarshal. destruct (json_parse s) as [j|]; [|done]. intros Hd%decode_inr. unfold decode_Stored in Hd.
  destruct (decode_Stored_alias j) as [a ok] eqn:Ea. destruct ok; [|done]. cbn [negb] in Hd.
  assert (Ha : int64_ok (Stored_AlterId a) = true).
  { inv_fields Ea. simpl. by eapply (d_field_int_ok int64_ok "alter_id"). }
  repeat case_match; simplify_eq; try done. simpl.
  match goal with H : d_int ?v = _ |- _ => pose proof (d_int_in_ok int64_ok v eq_refl) as Hv; unfold d_int in H; by rewrite H in Hv end.
Qed.
Lemma stored_decodable stored email m : storedConfigToClientMap stored email = inr m → decodable (JObj m).
Proof.
  unfold storedConfigToClientMap. destruct (Unmarshal _ _) as [|st] eqn:E; [done|]. apply stored_alter_ok in E.
  destruct st as [p id a fl em enc tp pw me us]. cbn [Stored_AlterId Stored_ID Stored_Flow Stored_Password Stored_Method] in *.
  intros H. assert (Hm : ∃ l, m = client_map l ∧
    (l = [("id", JStr id); ("flow", JStr fl); ("email", JStr email)] ∨
     l = [("id", JStr id); ("alterId", JInt a); ("email", JStr email)] ∨
     l = [("password", JStr pw); ("email", JStr email)] ∨
     ∃ v, l = [("password", JStr pw); ("method", JStr v); ("email", JStr email)])).
  { cbv beta iota zeta in H. repeat (case_if; [injection H as <-; eexists; (split; [reflexivity|]); eauto 6|]). done. }
  destruct Hm as (l & -> & [->|[->|[->|[v ->]]]]);
    match goal with |- decodable (JObj ?m) => let m' := eval vm_compute in m in change m with m' end;
    split_and!; eexists; unfold decode_VLESSClient, decode_VMessClient, decode_TrojanClient, decode_ShadowsocksClient;
    cbn [d_object];
    repeat (eapply dbind_ok; [first [reflexivity | read_field
      | unfold d_field; cbn [lookup_fold]; eval_keys; cbv iota; unfold d_int, d_int_in; rewrite E; reflexivity] | cbn beta]);
    reflexivity.
Qed.

(** ** A client in the directory *)

Lemma find_in_raws_elem tag raws r :
  tag ≠ "" → find_in_raws tag raws = Some r → ∃ raw, raw ∈ raws ∧ named tag raw = true.
Proof.
  intros Hne. induction raws as [|raw raws IH]; [done|]. cbn [find_in_raws]. intros H.
  assert (Hrest : find_in_raws tag raws = Some r → ∃ raw', raw' ∈ raw :: raws ∧ named tag raw' = true).
  { intros (raw' & ? & ?)%IH. exists raw'. split; [by right|done]. }
  destruct (decode d_inbound_head raw) as [|[[t p] st]] eqn:Ed; [auto|].
  destruct (String.eqb_spec (TrimSpace t) tag); [|auto]. exists raw. split; [by left|by eapply named_head].
Qed.
Lemma find_in_entries_elem tag l file protocol settings :
  tag ≠ "" → find_in_entries tag l = Some (file, protocol, settings) →
  ∃ e raw, e ∈ l ∧ de_name e = file ∧ de_is_dir e = false ∧ HasSuffix file ".json" = true ∧
    raw ∈ raws_of e ∧ named tag raw = true.
Proof.
  intros Hne. induction l as [|e l IH]; [done|]. cbn [find_in_entries]. intros H.
  assert (Hrest : find_in_entries tag l = Some (file, protocol, settings) →
    ∃ e' raw, e' ∈ e :: l ∧ de_name e' = file ∧ de_is_dir e' = false ∧ HasSuffix file ".json" = true ∧
      raw ∈ raws_of e' ∧ named tag raw = true).
  { intros (e' & raw & He' & ?)%IH. exists e', raw. split; [by right|done]. }
  destruct (de_is_dir e || negb (HasSuffix (de_name e) ".json")) eqn:Es; [auto|].
  pose proof Es as [Ed Esuf%negb_false_iff]%orb_false_iff.
  destruct (de_content e) as [|data] eqn:Ec; [auto|]. destruct (file_inbounds data) as [|raws] eqn:Ef; [auto|].
  destruct (find_in_raws tag raws) as [[p s]|] eqn:Er; [|auto]. simplify_eq.
  apply find_in_raws_elem in Er as (raw & Hraw & Hn); [|done].
  exists e, raw. split_and!; try done; [by left|]. unfold raws_of. by rewrite Es, Ec, Ef.
Qed.

(** What a restored client does to the directory. *)
Lemma AddExistingClientToInbound_writes dir tag username stored h h' :
  tag ≠ "" → AddExistingClientToInbound dir tag username stored h = (inr tt, h') →
  ∃ l e raw client ibs ibs' old root,
    ReadDir h dir = DirEntries l ∧ e ∈ l ∧ de_is_dir e = false ∧ HasSuffix (de_name e) ".json" = true ∧
    (raw ∈ raws_of e ∧ named tag raw = true) ∧ decodable (JObj client) ∧
    map_get "email" client = Some (JStr (TrimSpace username)) ∧
    file_inbounds_of h dir (de_name e) ibs ∧ lists_inbounds ibs' root ∧
    written dir (de_name e) (json_marshal_indent (JObj root)) h h' ∧
    inbound_edit tag old (old ++ [JObj client]) ibs ibs'.
Proof.
  intros Hne. unfold AddExistingClientToInbound. case_if; [done|]. intros H.
  apply bind_ok in H as (? & ? & [= <- <-] & H).
  apply bind_ok in H as ([[file protocol] settings] & ? & [Hfind ->]%lift_err_inr & H).
  apply bind_ok in H as (client & ? & [Hc ->]%lift_err_inr & H).
  unfold findInboundSettings in Hfind. destruct (ReadDir h dir) as [| |l] eqn:Ed; try done.
  destruct (find_in_entries tag l) as [[[f p] s]|] eqn:Ef; [|done]. simplify_eq.
  apply find_in_entries_elem in Ef as (e & raw & He & <- & Hd & Hsuf & Hraw); [|done].
  apply (edit_file_ok _ _ _ _ (λ old, old ++ [JObj client]) tag) in H
    as (ibs & Hi & [(_ & Hu & _)|(ibs' & old & root & Hl & Hw & _ & Hed & _)]); [done|..].
  - exists l, e, raw, client, ibs, ibs', old, root. do 6 (split; [first [done | exact Hraw | by eapply stored_decodable]|]).
    split_and!; try done. unfold storedConfigToClientMap in Hc. destruct (Unmarshal _ _); [done|]. repeat case_if; by simplify_eq.
  - intros. apply append_client_edits; [done| |done]. by eapply stored_map_good.
Qed.

(** ** Reading the directory back *)

(** What the parser makes of one inbound, warnings apart. *)
Definition inbound_of (raw : json) : option ParsedInbound :=
  match decode decode_ServerInbound raw with
  | inl _ => None
  | inr si =>
      match parsePort (SI_Port si) with
      | inl _ => None
      | inr port => Some (mkParsedInbound (SI_Tag si) (ToLower (SI_Protocol si)) port (json_marshal raw)
          (match (extractClients ∅ false si (mkWarn None [])).1 with inr cs => cs | inl _ => [] end))
      end
  end.

Lemma parse_inbound_run raw w :
  (parse_inbound ∅ false raw w).1 = inr (match inbound_of raw with Some ib => [ib] | None => [] end).
Proof.
  unfold parse_inbound, inbound_of. destruct (decode _ raw) as [e|si]; [done|].
  destruct (parsePort _) as [e|port]; [done|]. unfold bind, try.
  pose proof (oblivious_extractClients ∅ false si w (mkWarn None [])) as Ho.
  destruct (extractClients ∅ false si w) as [r w1]. simpl in Ho. rewrite <- Ho. by destruct r.
Qed.
Lemma parse_inbounds_run raws w : (parse_inbounds ∅ false raws w).1 = inr (omap inbound_of raws).
Proof.
  revert w. induction raws as [|raw raws IH]; intros w; [done|]. cbn [parse_inbounds]. unfold bind.
  pose proof (parse_inbound_run raw w) as Hr. destruct (parse_inbound ∅ false raw w) as [r w1]. simpl in Hr. subst r.
  specialize (IH w1). destruct (parse_inbounds ∅ false raws w1) as [r w2]. simpl in IH. subst r.
  csimpl. by destruct (inbound_of raw).
Qed.

Lemma parsed_inbounds dir l :
  ∃ parsed, ParseConfigDir dir (DirEntries l) = inr parsed ∧
    concat (map snd parsed) = omap inbound_of (concat (map raws_of l)).
Proof.
  unfold ParseConfigDir. destruct (parseConfigDirWith_isolated dir l ∅ false) as [-> _].
  eexists. split; [done|]. induction l as [|e l IH]; [done|]. csimpl. rewrite omap_app, <- IH.
  unfold entry_result at 1, raws_of. case_if; [done|]. destruct (de_content e) as [|data]; [done|].
  unfold parseConfigFileWith. destruct (file_inbounds data) as [|raws]; [done|]. by rewrite parse_inbounds_run.
Qed.

Section ReadBack.
Context `{FileOrder}.

Lemma elem_of_bfilter_singleton {A} (f : A → bool) l x y : bfilter f l = [x] → y ∈ l → f y = true → y = x.
Proof. intros Hl Hy Hf. assert (Hin : y ∈ bfilter f l) by by apply elem_of_bfilter. rewrite Hl in Hin. by apply list_elem_of_singleton in Hin. Qed.

(** The identities read are those of the inbound with the tag. *)
Lemma identities_readable dir tag h raw si port cs :
  tag ≠ "" → bfilter (named tag) (dir_raws h dir) = [raw] →
  decode decode_ServerInbound raw = inr si → parsePort (SI_Port si) = inr port →
  (extractClients ∅ false si (mkWarn None [])).1 = inr cs →
  existing_identities dir tag h =
  inr (list_to_set (bfilter (λ i, negb (String.eqb i "")) (map PC_Identity cs))).
Proof.
  intros Hne Hone Hsi Hport Hcs.
  assert (Hraw : raw ∈ dir_raws h dir ∧ named tag raw = true).
  { assert (Hin : raw ∈ bfilter (named tag) (dir_raws h dir)) by (rewrite Hone; by left). apply elem_of_bfilter in Hin. tauto. }
  destruct Hraw as [Hraw Hnamed]. unfold existing_identities, dir_raws in *.
  destruct (ReadDir h dir) as [| |l]; [done..|]. destruct (parsed_inbounds dir l) as (parsed & -> & Hp).
  set (ib := mkParsedInbound (SI_Tag si) (ToLower (SI_Protocol si)) port (json_marshal raw) cs).
  assert (Hib : inbound_of raw = Some ib) by (unfold inbound_of; by rewrite Hsi, Hport, Hcs).
  assert (Hmem : ∀ x, x ∈ concat (map snd (file_order parsed)) ↔ x ∈ omap inbound_of (concat (map raws_of l))).
  { intros x. rewrite <- Hp, !elem_of_concat. by setoid_rewrite (Permutation_map snd (file_order_perm parsed)). }
  unfold GetExistingIdentitiesInInbound, first_inbound.
  destruct (List.find _ _) as [ib'|] eqn:Ef.
  - apply find_Some_iff in Ef as [Hin Ht%String.eqb_eq]. apply Hmem in Hin.
    apply list_elem_of_omap in Hin as (raw' & Hin & Hib'). pose proof Hib' as Hof.
    unfold inbound_of in Hof. destruct (decode _ raw') as [|si'] eqn:Ed; [done|].
    destruct (parsePort (SI_Port si')) as [|port']; [done|]. injection Hof as Hof. rewrite <- Hof in Ht. simpl in Ht.
    assert (raw' = raw) as ->.
    { apply (elem_of_bfilter_singleton _ _ _ _ Hone Hin). by apply (named_iff _ _ _ Hne Ed). }
    rewrite Hib in Hib'. by injection Hib' as <-.
  - exfalso. assert (Hin : ib ∈ concat (map snd (file_order parsed))).
    { apply Hmem, list_elem_of_omap. by exists raw. }
    pose proof (List.find_none _ _ Ef ib) as Hno. rewrite <- list_elem_of_In in Hno. specialize (Hno Hin).
    apply (named_iff _ _ _ Hne Hsi), String.eqb_eq in Hnamed. simpl in Hno. by rewrite Hnamed in Hno.
Qed.

End ReadBack.

(** ** Passes settle

    A directory whose files the program has written keeps its shape under
    further additions, and an addition that finds all its clients adds none. *)

(** [settings'] is [settings] with one more client. The parser and the writer
    mean the same key by [clients]. *)
Record one_more (c : json) (settings settings' : list (string * json)) : Prop := {
  om_good : good (JObj settings); om_good' : good (JObj settings');
  om_key : lookup_fold "clients" settings = map_get "clients" settings;
  om_clients : clients_of settings' = clients_of settings ++ [c];
  om_rest : ∀ k, k ≠ "clients" → map_get k settings' = map_get k settings }.

Lemma one_more_field {A} (d : decoder A) c settings settings' name :
  one_more c settings settings' → EqualFold "clients" name = false →
  d_field d name settings' = d_field d name settings.
Proof.
  intros [Hg%good_obj Hg'%good_obj _ _ Hrest] Hn. unfold d_field.
  by rewrite (lookup_fold_ext name "clients" settings settings' (proj1 Hg) (proj1 Hg') Hrest Hn).
Qed.
Lemma one_more_key c settings settings' :
  one_more c settings settings' → lookup_fold "clients" settings' = map_get "clients" settings'.
Proof.
  intros [_ Hg'%good_obj _ Hcs _]. unfold clients_of in Hcs at 1.
  destruct (map_get "clients" settings') as [j|] eqn:E; [by apply lookup_fold_canon; [done|apply Hg'|]|].
  by destruct (clients_of settings).
Qed.
Lemma one_more_clients {A} (d : decoder A) c settings settings' xs x :
  one_more c settings settings' → d_field (d_list d) "clients" settings = (xs, true) → d c = (x, true) →
  d_field (d_list d) "clients" settings' = (xs ++ [x], true) ∧ length xs = length (clients_of settings).
Proof.
  intros Hom Hxs Hx. pose proof (one_more_key _ _ _ Hom) as Hkey'. destruct Hom as [_ _ Hkey Hcs _].
  assert (Hold : d_elems d (clients_of settings) = (xs, true)).
  { unfold d_field, clients_of in *. rewrite Hkey in Hxs. unfold d_list, d_slice in Hxs.
    destruct (map_get "clients" settings) as [[| | | | |l|]|]; try done; try (by injection Hxs as <-). }
  split; [|injection Hold as <- _; apply length_map].
  unfold d_field. rewrite Hkey'. unfold clients_of in Hcs at 1.
  destruct (map_get "clients" settings') as [[| | | | |l|]|]; try (by destruct (clients_of settings)). subst l.
  unfold d_list, d_slice, d_elems in *. injection Hold as <- Hok.
  by rewrite map_app, forallb_app, Hok; simpl; rewrite Hx.
Qed.

Lemma decode_ok {A} (d : decoder A) j a : d j = (a, true) → decode d j = inr a.
Proof. unfold decode. by intros ->. Qed.

Lemma lift_inr_run {A} (a b : A) w w' : lift (inr a) w = (inr b, w') → a = b ∧ w = w'.
Proof. by intros [= -> ->]. Qed.

(** Decode the settings again, with the new client at the end. *)
Ltac reread Hom x :=
  match goal with |- decode ?d _ = _ => unfold d end; apply decode_ok;
  repeat (eapply dbind_ok; [first
    [ reflexivity
    | match goal with |- d_field _ ?n _ = _ => rewrite (one_more_field _ _ _ _ n Hom eq_refl) end; eassumption
    | refine (proj1 (one_more_clients _ _ _ _ _ x Hom _ _)); eassumption ] | cbn beta]); reflexivity.

(** What the parser extracted it extracts again, and the new client. *)
Lemma extract_more encMap warn si si' settings settings' c w cs w' :
  SI_Protocol si' = SI_Protocol si → SI_Tag si' = SI_Tag si →
  SI_Settings si = Some (JObj settings) → SI_Settings si' = Some (JObj settings') →
  one_more c settings settings' → decodable c → managed_protocol (ToLower (SI_Protocol si)) = true →
  (clients_of settings = [] → ToLower (SI_Protocol si) ≠ "shadowsocks") →
  extractClients encMap warn si w = (inr cs, w') →
  ∃ cs', extractClients encMap warn si' w = (inr cs', w') ∧ cs ⊆ cs'.
Proof.
  intros Hproto Htag Hs Hs' Hom ((v1 & D1) & (v2 & D2) & (v3 & D3) & (v4 & D4)) Hp Hss Hx.
  unfold extractClients in *. rewrite Hproto.
  unfold managed_protocol in Hp. apply bool_decide_eq_true in Hp.
  repeat (apply elem_of_cons in Hp as [Hp|Hp]); [..|by apply elem_of_nil in Hp]; rewrite Hp in *; cbn in Hx |- *.
  - unfold extractVLESS in *. rewrite Hs in Hx. rewrite Hs', Htag. cbn [unmarshal_raw] in *.
    destruct (decode _ (JObj settings)) as [|s] eqn:Ed; [done|]. apply decode_inr in Ed. open_struct Ed.
    match goal with H : d_field (d_list decode_VLESSClient) _ _ = (?xs, _), H1 : d_field d_string _ _ = (?de, _),
      H2 : d_field d_uint32 _ _ = (?tp, _) |- _ =>
      assert (decode decode_VLESSInboundSettings (JObj settings') = inr (mkVLESSInboundSettings (xs ++ [v1]) de tp)) as ->
        by reread Hom v1 end.
    apply bind_ok in Hx as (enc & w1 & He & Hx). injection Hx as <- <-. cbn [VLESSIn_Clients VLESSIn_Testpre] in *.
    eexists. unfold bind at 1. split; [unfold uses_encryption in *; simpl in *; by rewrite He|].
    cbn [VLESSIn_Clients]. rewrite map_app. set_solver.
  - unfold extractVMess in *. rewrite Hs in Hx. rewrite Hs'. cbn [unmarshal_raw] in *.
    destruct (decode _ (JObj settings)) as [|s] eqn:Ed; [done|]. apply decode_inr in Ed. open_struct Ed.
    match goal with H : d_field (d_list _) _ _ = (?xs, _) |- _ =>
      assert (decode decode_VMessInboundSettings (JObj settings') = inr (mkVMessInboundSettings (xs ++ [v2]))) as ->
        by reread Hom v2 end.
    injection Hx as <- <-. eexists. split; [done|]. cbn [VMessIn_Clients TrojanIn_Clients]. rewrite map_app. set_solver.
  - unfold extractTrojan in *. rewrite Hs in Hx. rewrite Hs'. cbn [unmarshal_raw] in *.
    destruct (decode _ (JObj settings)) as [|s] eqn:Ed; [done|]. apply decode_inr in Ed. open_struct Ed.
    match goal with H : d_field (d_list _) _ _ = (?xs, _) |- _ =>
      assert (decode decode_TrojanInboundSettings (JObj settings') = inr (mkTrojanInboundSettings (xs ++ [v3]))) as ->
        by reread Hom v3 end.
    injection Hx as <- <-. eexists. split; [done|]. cbn [VMessIn_Clients TrojanIn_Clients]. rewrite map_app. set_solver.
  - unfold extractShadowsocks in *. rewrite Hs in Hx. rewrite Hs'. cbn [unmarshal_raw] in *.
    destruct (decode _ (JObj settings)) as [|s] eqn:Ed; [done|]. apply decode_inr in Ed. open_struct Ed.
    match goal with H : d_field (d_list _) _ _ = (?xs, _) |- _ => destruct xs as [|y xs] end.
    + exfalso. apply Hss; [|done].
      match goal with H : d_field (d_list _) _ _ = _ |- _ =>
        pose proof (proj2 (one_more_clients _ _ _ _ _ _ Hom H D4)) as Hl end.
      by apply nil_length_inv.
    + match goal with H : d_field d_string "method" _ = (?m, _), H1 : d_field d_string "password" _ = (?p, _),
        H2 : d_field (d_list _) _ _ = (?xs, _), H3 : d_field d_string "network" _ = (?n, _) |- _ =>
        assert (decode decode_ShadowsocksInboundSettings (JObj settings')
                = inr (mkShadowsocksInboundSettings m p (xs ++ [v4]) n)) as -> by reread Hom v4 end.
      apply lift_inr_run in Hx as [<- <-]. eexists. split; [reflexivity|]. cbn [SSIn_Clients SSIn_Method app].
      rewrite app_comm_cons, map_app. set_solver.
Qed.

(** The one inbound of the directory with the tag: where it is, in a file as
    the program writes it, and what the parser makes of it. *)
Record layout := mkLayout {
  l_before : list DirEntry; l_entry : DirEntry; l_after : list DirEntry;
  l_root : list (string * json); l_pre : list json; l_inbound : list (string * json); l_post : list json;
  l_settings : list (string * json); l_server : ServerInbound; l_port : Z; l_parsed : list ParsedClient }.
Record settled (dir tag : string) (h : Host) (y : layout) : Prop := {
  se_dir : ReadDir h dir = DirEntries (l_before y ++ l_entry y :: l_after y);
  se_name : Forall (λ e, de_name e ≠ de_name (l_entry y)) (l_before y ++ l_after y);
  se_file : de_is_dir (l_entry y) = false;
  se_json : HasSuffix (de_name (l_entry y)) ".json" = true;
  se_content : de_content (l_entry y) = inr (json_marshal_indent (JObj (l_root y)));
  se_root : lists_inbounds (l_pre y ++ JObj (l_inbound y) :: l_post y) (l_root y);
  se_tag : tagged tag (JObj (l_inbound y));
  se_unique : Forall (λ raw, named tag raw = false)
    (concat (map raws_of (l_before y ++ l_after y)) ++ l_pre y ++ l_post y);
  se_settings : map_get "settings" (l_inbound y) = Some (JObj (l_settings y));
  se_key : lookup_fold "clients" (l_settings y) = map_get "clients" (l_settings y);
  se_decoded : decode decode_ServerInbound (JObj (l_inbound y)) = inr (l_server y);
  se_port : parsePort (SI_Port (l_server y)) = inr (l_port y);
  se_protocol : managed_protocol (ToLower (SI_Protocol (l_server y))) = true;
  se_multi : clients_of (l_settings y) = [] → ToLower (SI_Protocol (l_server y)) ≠ "shadowsocks";
  se_parsed : (extractClients ∅ false (l_server y) (mkWarn None [])).1 = inr (l_parsed y) }.

Definition identities (cs : list ParsedClient) : gset string :=
  list_to_set (bfilter (λ i, negb (String.eqb i "")) (map PC_Identity cs)).

Lemma settled_good dir tag h y : settled dir tag h y → Forall good (l_pre y ++ JObj (l_inbound y) :: l_post y).
Proof. intros Hy. destruct (se_root _ _ _ _ Hy) as [Hg%good_obj Hm]. by apply good_arr, (map_get_gomap good "inbounds" _ (l_root y)). Qed.

(** What a pass reads in such a directory. *)
Lemma settled_identities `{FileOrder} dir tag h y :
  tag ≠ "" → settled dir tag h y → existing_identities dir tag h = inr (identities (l_parsed y)).
Proof.
  intros Hne Hy. pose proof (settled_good _ _ _ _ Hy) as Hg.
  eapply (identities_readable dir tag h (JObj (l_inbound y)));
    [done| |apply Hy|apply Hy|apply Hy]. unfold dir_raws. rewrite (se_dir _ _ _ _ Hy).
  pose proof (se_unique _ _ _ _ Hy) as Hu. rewrite map_app, concat_app, !Forall_app in Hu.
  rewrite !Forall_forall in Hu. destruct Hu as ([U1 U2] & U3 & U4).
  assert (Hraws : raws_of (l_entry y) = l_pre y ++ JObj (l_inbound y) :: l_post y).
  { unfold raws_of. rewrite (se_file _ _ _ _ Hy), (se_json _ _ _ _ Hy), (se_content _ _ _ _ Hy). cbn [negb orb].
    by rewrite (file_inbounds_listed _ _ (se_root _ _ _ _ Hy)). }
  rewrite map_app, concat_app. cbn [map concat]. rewrite Hraws, !bfilter_app.
  rewrite (bfilter_none _ (concat (map raws_of (l_before y)))), (bfilter_none _ (l_pre y)) by done.
  cbn [bfilter app].
  rewrite (tagged_named _ _ Hne) by (apply Hy || (rewrite Forall_forall in Hg; apply Hg; set_solver)).
  by rewrite (bfilter_none _ (l_post y)), (bfilter_none _ (concat (map raws_of (l_after y)))) by done.
Qed.

Lemma set_content_other name text l : Forall (λ e, de_name e ≠ name) l → set_content name text l = l.
Proof.
  unfold set_content. induction 1 as [|e l Hn _ IH]; [done|]. simpl. rewrite IH.
  by rewrite (proj2 (String.eqb_neq _ _) Hn).
Qed.

(** An inbound of which only the settings changed decodes as before. *)
Lemma decode_new_settings ib ib' settings si :
  good (JObj ib) → good (JObj ib') → (∀ k, k ≠ "settings" → map_get k ib' = map_get k ib) →
  map_get "settings" ib' = Some settings → decode decode_ServerInbound (JObj ib) = inr si →
  decode decode_ServerInbound (JObj ib') = inr (mkServerInbound (SI_Tag si) (SI_Listen si) (SI_Port si)
    (SI_Protocol si) (Some settings) (SI_StreamSettings si)).
Proof.
  intros [Hs _]%good_obj [Hs' _]%good_obj Hk Hset Hd%decode_inr.
  apply dbind_inv in Hd as (? & [= <-] & Hd). inv_fields Hd.
  assert (Hf : ∀ name, EqualFold "settings" name = false → lookup_fold name ib' = lookup_fold name ib).
  { intros name. by apply lookup_fold_ext. }
  unfold decode_ServerInbound. apply decode_ok. eapply dbind_ok; [reflexivity|cbn beta]. unfold d_field, d_raw_field in *.
  repeat (eapply dbind_ok; [first
    [ rewrite Hf by reflexivity; eassumption | rewrite (lookup_fold_canon _ _ _ eq_refl Hs' Hset); reflexivity ] | cbn beta]).
  reflexivity.
Qed.

Section Step.
Context (dir tag : string).

(** The file a restored client goes to is the one with the inbound. *)
Lemma settled_entry h y e raw :
  settled dir tag h y → e ∈ l_before y ++ l_entry y :: l_after y → raw ∈ raws_of e → named tag raw = true →
  e = l_entry y.
Proof.
  intros Hy He Hr Hn. apply elem_of_app in He as [He|[->|He]%elem_of_cons]; [|done|]; exfalso;
    pose proof (se_unique _ _ _ _ Hy) as Hu; rewrite Forall_forall in Hu;
    (rewrite (Hu raw) in Hn; [done|]); apply elem_of_app; left; apply elem_of_concat; exists (raws_of e);
    (split; [apply (list_elem_of_fmap_2 raws_of); set_solver|done]).
Qed.
Lemma settled_ReadFile h y :
  settled dir tag h y → ReadFile h dir (de_name (l_entry y)) = inr (json_marshal_indent (JObj (l_root y))).
Proof.
  intros Hy. unfold ReadFile. rewrite (se_dir _ _ _ _ Hy). pose proof (se_name _ _ _ _ Hy) as Hn.
  apply Forall_app in Hn as [Hn _]. unfold find_entry.
  assert (List.find (λ e, String.eqb (de_name e) (de_name (l_entry y))) (l_before y ++ l_entry y :: l_after y)
    = Some (l_entry y)) as ->; [|apply Hy].
  induction Hn as [|e l Hn _ IH]; simpl; [by rewrite String.eqb_refl|]. by rewrite (proj2 (String.eqb_neq _ _) Hn).
Qed.
Context (Hne : tag ≠ "").

Lemma settled_first h y : settled dir tag h y → Forall (λ j, ¬ tagged tag j) (l_pre y).
Proof using Hne.
  intros Hy. pose proof (settled_good _ _ _ _ Hy) as Hg. pose proof (se_unique _ _ _ _ Hy) as Hu.
  rewrite Forall_forall in *. intros raw Hraw Ht. apply tagged_named in Ht; [|done|apply Hg; set_solver].
  rewrite Hu in Ht; [done|set_solver].
Qed.

(** An addition that succeeds keeps the layout: the clients read before are
    read after, and the new one with them. *)
Lemma settled_step h y username stored h' :
  AddExistingClientToInbound dir tag username stored h = (inr tt, h') → settled dir tag h y →
  ∃ y', settled dir tag h' y' ∧ l_parsed y ⊆ l_parsed y' ∧
    (TrimSpace username ≠ "" → TrimSpace username ∈ identities (l_parsed y')).
Proof using Hne.
  intros (l & e & raw & client & ibs & ibs' & old & root & Hl & He & _ & _ & [Hraw Hn] & Hdec & Hmail &
    (text & f & Hread & Hopen) & Hroot & (l' & Hl' & Hw) & Hed)%AddExistingClientToInbound_writes Hy; [|done].
  rewrite (se_dir _ _ _ _ Hy) in Hl, Hl'. injection Hl as <-. injection Hl' as <-.
  pose proof (settled_entry _ _ _ _ Hy He Hraw Hn) as ->.
  rewrite (settled_ReadFile _ _ Hy) in Hread. injection Hread as <-.
  destruct (open_config_listed _ _ (se_root _ _ _ _ Hy)) as [f' Ho]; [by destruct (l_pre y)|].
  rewrite Hopen in Ho. injection Ho as -> _.
  destruct Hed as (pre & ib & s & ib' & s' & post & Heq & -> & Hp & Ht & Hs & Hs' & <- & Hc & Hk & Hk').
  destruct (first_tagged_split _ _ _ _ _ _ _ Heq (settled_first _ _ Hy) Hp (se_tag _ _ _ _ Hy) Ht)
    as (<- & [= <-] & <-).
  rewrite (se_settings _ _ _ _ Hy) in Hs. injection Hs as <-.
  pose proof (settled_good _ _ _ _ Hy) as Hg. apply Forall_app in Hg as [_ [Hgib _]%Forall_cons].
  assert (Hgib' : good (JObj ib')).
  { destruct Hroot as [Hg%good_obj Hm]. pose proof (map_get_gomap _ _ _ _ Hg Hm) as Hall%good_arr.
    by apply Forall_app in Hall as [_ [? _]%Forall_cons]. }
  assert (Hom : one_more (JObj client) (l_settings y) s').
  { apply good_obj in Hgib, Hgib'. split; [..|apply Hy|done|done];
      [by eapply (map_get_gomap good), (se_settings _ _ _ _ Hy)|by eapply (map_get_gomap good)]. }
  pose proof (decode_new_settings _ _ _ _ Hgib Hgib' Hk Hs' (se_decoded _ _ _ _ Hy)) as Hdecoded.
  set (si' := mkServerInbound _ _ _ _ _ _) in Hdecoded.
  destruct (decode_tagged tag _ _ _ Hne Hgib Ht (se_settings _ _ _ _ Hy) (se_decoded _ _ _ _ Hy)) as [_ Hset].
  pose proof (se_parsed _ _ _ _ Hy) as Hcs.
  destruct (extractClients ∅ false (l_server y) (mkWarn None [])) as [r w'] eqn:Ex. simpl in Hcs. subst r.
  destruct (extract_more ∅ false (l_server y) si' (l_settings y) s' (JObj client) _ _ _ eq_refl eq_refl Hset eq_refl
    Hom Hdec (se_protocol _ _ _ _ Hy) (se_multi _ _ _ _ Hy) Ex) as (cs' & Ex' & Hsub).
  exists (mkLayout (l_before y) (mkDirEntry (de_name (l_entry y)) (de_is_dir (l_entry y)) (inr (json_marshal_indent (JObj root))))
    (l_after y) root (l_pre y) ib' (l_post y) s' si' (l_port y) cs').
  split; [|split; [done|]].
  - pose proof (se_name _ _ _ _ Hy) as Hnames. pose proof Hnames as [N1 N2]%Forall_app.
    split; cbn [l_before l_entry l_after l_root l_pre l_inbound l_post l_settings l_server l_port l_parsed
      de_name de_is_dir de_content]; try done; try apply Hy.
    + unfold ReadDir. rewrite Hw, lookup_insert_eq. cbn [default]. f_equal. unfold set_content.
      rewrite map_app. fold (set_content (de_name (l_entry y)) (json_marshal_indent (JObj root)) (l_before y)).
      cbn [map]. rewrite String.eqb_refl.
      fold (set_content (de_name (l_entry y)) (json_marshal_indent (JObj root)) (l_after y)).
      by rewrite !set_content_other.
    + simpl in *. unfold tag_of in *. by rewrite Hk.
    + by eapply one_more_key.
    + rewrite Hc. by destruct (clients_of (l_settings y)).
    + by rewrite Ex'.
  - intros Hname. cbn [l_parsed]. apply elem_of_list_to_set, elem_of_bfilter. split; [by apply negb_true_iff, String.eqb_neq|].
    eapply (extracted_by_email ∅ false si' s' client); [apply Hy|done|apply Hom| |done|done|done].
    rewrite Hc. apply elem_of_app. right. by left.
Qed.
End Step.

Lemma identities_mono cs cs' : cs ⊆ cs' → identities cs ⊆ identities cs'.
Proof.
  intros Hsub x. unfold identities. rewrite !elem_of_list_to_set, !elem_of_bfilter. intros [Hx Hin]. split; [done|].
  apply elem_of_map in Hin as (c & Hc & ->). by apply (list_elem_of_fmap_2 PC_Identity), Hsub.
Qed.
Lemma settled_dirs dir tag h h' y : h_dirs h' = h_dirs h → settled dir tag h y → settled dir tag h' y.
Proof. intros Hd []. split; try done. by rewrite (ReadDir_dirs _ _ _ Hd). Qed.

(** The pass as a whole keeps the layout and is read back. *)
Lemma sync_users_settled dir tag users ex res0 h y res ex' h' :
  tag ≠ "" → sync_users dir tag users ex res0 h = (inr (res, ex'), h') →
  settled dir tag h y → ex ⊆ identities (l_parsed y) →
  ∃ y', settled dir tag h' y' ∧ ex' ⊆ identities (l_parsed y').
Proof.
  intros Hne. revert ex res0 h y. induction users as [|u users IH]; intros ex res0 h y H Hy Hex; cbn [sync_users] in H.
  { unfold ret in H. simplify_eq. by exists y. }
  destruct (String.eqb_spec (TrimSpace (RU_Username u)) "") as [|Hname]; cbn [orb] in H;
    [exact (IH _ _ _ _ H Hy Hex)|].
  destruct (bool_decide _) eqn:Eb in H; [exact (IH _ _ _ _ H Hy Hex)|].
  apply bind_ok in H as (r & h1 & E & H). apply try_run in E. destruct r as [e|[]].
  - apply AddExistingClientToInbound_err in E. refine (IH _ _ _ _ H (settled_dirs _ _ _ _ _ E Hy) Hex).
  - apply (settled_step _ _ Hne _ y) in E as (y1 & Hy1 & Hsub & Hnew); [|done]. rewrite TrimSpace_idem in Hnew.
    refine (IH _ _ _ _ H Hy1 _). intros x [->%elem_of_singleton|Hx]%elem_of_union; [by apply Hnew|].
    apply (identities_mono _ _ Hsub). by apply Hex.
Qed.

(** A pass that finds every user adds nobody. *)
Lemma sync_users_idle dir tag users ids res h :
  (∀ u, u ∈ users → TrimSpace (RU_Username u) = "" ∨ TrimSpace (RU_Username u) ∈ ids) →
  sync_users dir tag users ids res h = (inr (res, ids), h).
Proof.
  induction users as [|u users IH]; intros Hall; [done|]. cbn [sync_users].
  assert (String.eqb (TrimSpace (RU_Username u)) "" || bool_decide (TrimSpace (RU_Username u) ∈ ids) = true) as ->.
  { destruct (Hall u (list_elem_of_here _ _)) as [->|Hin]; [done|]. rewrite (bool_decide_eq_true_2 _ Hin). apply orb_true_r. }
  apply IH. set_solver.
Qed.


(** ** A directory with one file *)

Definition canonical_inbound (clients : list json) : list (string * json) :=
  [("port", JInt 443); ("protocol", JStr "VLESS");
   ("settings", JObj [("clients", JArr clients); ("decryption", JStr "none")]); ("tag", JStr " vless-in")].
Definition canonical_root : list (string * json) :=
  [("inbounds", JArr [JObj [("port", JInt 1); ("protocol", JStr "dokodemo-door"); ("tag", JStr "api")];
      JObj (canonical_inbound [JObj [("email", JStr "alice"); ("id", JStr "u1")]])])].
Definition canonical_entry : DirEntry :=
  mkDirEntry "10-in.json" false (inr (json_marshal_indent (JObj canonical_root))).
Definition canonical_host : Host :=
  mkHost {["/etc/xray" := DirEntries [mkDirEntry "00.json" false (inr "broken"); canonical_entry]]} [WriteOK; RenameFails "disk full"]
    (λ n, ascii_of_nat (37 * n)) 0.
Definition canonical_layout : layout :=
  let ib := canonical_inbound [JObj [("email", JStr "alice"); ("id", JStr "u1")]] in
  mkLayout [mkDirEntry "00.json" false (inr "broken")] canonical_entry [] canonical_root
    [JObj [("port", JInt 1); ("protocol", JStr "dokodemo-door"); ("tag", JStr "api")]] ib []
    [("clients", JArr [JObj [("email", JStr "alice"); ("id", JStr "u1")]]); ("decryption", JStr "none")]
    (mkServerInbound " vless-in" "" (Some (JInt 443)) "VLESS"
      (Some (JObj [("clients", JArr [JObj [("email", JStr "alice"); ("id", JStr "u1")]]); ("decryption", JStr "none")])) None)
    443 [vless_client "none" 0 (mkVLESSClient "u1" "" "alice" 0)].

Lemma good_by v : normalize v = v → json_wf v = true → good v.
Proof. intros Hn Hw. split; [|done]. rewrite <- Hn. apply normalize_canon. Qed.
Lemma canonical_settled : settled "/etc/xray" "vless-in" canonical_host canonical_layout.
Proof.
  split; try done.
  - repeat constructor. discriminate.
  - split; [apply good_by|]; done.
  - vm_compute. repeat constructor.
Qed.

Definition name_order : FileOrder := {| file_order := λ l, l; file_order_perm := λ l, reflexivity l |}.
Definition wanted_users : list RestoreUser :=
  map (λ name, mkRestoreUser name demo_stored "vless") ["alice"; "bob "; "carol"].


(** ** Where passes do not settle

    An inbound the parser reads no clients from - its protocol has none, or one
    of its entries does not decode - gets every user again in every pass. *)
Definition raw_pass (users : list RestoreUser) (h : Host) : Host :=
  match existing_identities (H0 := name_order) "/etc/xray" "vless-in" h with
  | inl _ => h
  | inr ids => (SyncDBToConfig "/etc/xray" "vless-in" users ids h).2
  end.
Definition listed_emails (h : Host) : list string :=
  match dir_raws h "/etc/xray" with
  | JObj ib :: _ =>
      match map_get "settings" ib with
      | Some (JObj settings) =>
          map (λ c, match c with JObj m => str_of (map_get "email" m) | _ => "" end) (clients_of settings)
      | _ => []
      end
  | _ => []
  end.
Definition host_with (protocol : string) (clients : list json) : Host :=
  mkHost {["/etc/xray" := DirEntries [mkDirEntry "00.json" false (inr (json_marshal
    (JObj [("inbounds", JArr [JObj [("tag", JStr "vless-in"); ("protocol", JStr protocol); ("port", JInt 443);
      ("settings", JObj [("clients", JArr clients)])]])])))]]} [] (λ n, ascii_of_nat n) 0.

Lemma unread_inbounds_grow :
  let bob := [mkRestoreUser "bob" demo_stored "vless"] in
  listed_emails (raw_pass bob (raw_pass bob (raw_pass bob (host_with "vless" [])))) = ["bob"] ∧
  listed_emails (raw_pass bob (raw_pass bob (raw_pass bob (host_with "dokodemo-door" [])))) = ["bob"; "bob"; "bob"] ∧
  listed_emails (raw_pass bob (raw_pass bob (raw_pass bob (host_with "vless"
    [JObj [("id", JInt 5); ("email", JStr "ann")]])))) = ["ann"; "bob"; "bob"; "bob"].
Proof. vm_compute. done. Qed.
