(* ===== verification/Users.v ===== *)
(** * Users, clients and inbounds over HTTP: the user handlers of
    [internal/api/server.go] and the two Hysteria2 switches of
    [internal/api/hysteria.go]

    A handler runs over the server's [State]; [go Sync()] is [go_Sync], which
    asks the schedule of the state whether the pass runs at once or stays
    pending ([run_pending] is the goroutine running later). Log lines, headers
    and the JSON layout of the answers are not modelled. *)

From S2P Require Import Prelude GoString Json JsonDecode Models Config XrayTypes Parser.
From S2P Require Import ConfigWriter Admin Schema Database Syncer Server Nodes.
From Stdlib Require Import Ascii.

(** A listing answers with the whole list or with one page of it. *)
Inductive Listing (A : Type) :=
  | Whole (items : list A)
  | Page (items : list A) (total limit offset : Z).
Arguments Whole {A}. Arguments Page {A}.

(** An entry of [GET /api/inbounds]; [raw_config] is a JSON value, or the text
    itself when it does not parse; the made-up entry has no [fallback_only]. *)
Record InboundItem := mkInboundItem {
  Item_ID : Z; Item_Tag : string; Item_Protocol : string; Item_Port : Z; Item_ConfigFile : string;
  Item_UpdatedAt : Z; Item_FallbackOnly : option bool; Item_RawConfig : json }.

Section Users.
Context {E : Type} `{HandlerService E} `{FileOrder} (cfg : Config) (now : Z).

(** ** The synchroniser in the background *)

Definition syncer_Sync : M (State E) () := on_syncer (Sync cfg now).
Definition with_background (f : Background → Background) (s : State E) : State E :=
  mkState (sv_db s) (sv_world s) (sv_nodeStatus s) (sv_fallbackDenied s) (f (sv_background s)).
Definition add_pending (bg : Background) : Background :=
  mkBackground (bg_status bg) (S (bg_pending bg)) (bg_schedule bg).
Definition next_turn (bg : Background) : Background :=
  mkBackground (bg_status bg) (bg_pending bg) (tail (bg_schedule bg)).

(** [go func() { _ = s.syncer.Sync() }()] *)
Definition go_Sync : M (State E) () := λ s,
  match bg_schedule (sv_background s) with
  | true :: _ => logged syncer_Sync (with_background next_turn s)
  | _ => (inr tt, with_background (λ bg, add_pending (next_turn bg)) s)
  end.
(** A pending pass gets its turn. *)
Definition run_pending : M (State E) () := λ s,
  match bg_pending (sv_background s) with
  | O => (inr tt, s)
  | S n => logged syncer_Sync
             (with_background (λ bg, mkBackground (bg_status bg) n (bg_schedule bg)) s)
  end.

(** ** The engine *)

Definition admin : AdminAPI (Host * E) := buildAdmin cfg.

Definition removeUserFromXray (userID : Z) (username : string) : M (State E) () :=
  let username := TrimSpace username in
  if String.eqb username "" then ret tt
  else
    clients <-- try (on_db (GetUserClients userID));;
    match clients with
    | inl _ | inr [] => ret tt
    | inr clients =>
        for_each clients (λ c, logged (on_world (RemoveClient admin (UCF_InboundTag c) username))) ;;;
        go_Sync
    end.

Definition addClientToXray (username tag clientConfig : string) : M (State E) () :=
  let username := TrimSpace username in
  if String.eqb username "" || String.eqb tag "" then ret tt
  else
    logged (on_world (AddExistingClient admin tag username clientConfig)) ;;;
    if String.eqb (TrimSpace (C_XrayAPIAddr cfg)) "" then go_Sync else ret tt.

Definition removeClientFromXray (username tag : string) : M (State E) () :=
  let username := TrimSpace username in
  if String.eqb username "" || String.eqb tag "" then ret tt
  else
    logged (on_world (RemoveClient admin tag username)) ;;;
    go_Sync.

Definition addUserToXray (userID : Z) (username : string) : M (State E) () :=
  let username := TrimSpace username in
  if String.eqb username "" then ret tt
  else
    clients <-- try (on_db (GetUserClients userID));;
    match clients with
    | inl _ | inr [] => ret tt
    | inr clients =>
        for_each clients (λ c, logged (on_world
          (AddExistingClient admin (UCF_InboundTag c) username (UC_ClientConfig c)))) ;;;
        if String.eqb (TrimSpace (C_XrayAPIAddr cfg)) "" then go_Sync else ret tt
    end.

(** *** A client on one inbound *)

Definition all_inbounds_or_none : M (State E) (list Inbound) := or_zero [] (on_db ListInbounds).
Definition with_tag (tag : string) (inbounds : list Inbound) : option Inbound :=
  List.find (λ ib, String.eqb (Inbound_Tag ib) tag) inbounds.

(** The loop over the inbounds: [true] when one has the tag. *)
Definition link_by_tag (userID : Z) (tag clientConfig : string) : M (State E) bool :=
  inbounds <-- all_inbounds_or_none;;
  match with_tag tag inbounds with
  | Some ib => logged (on_db (UpsertUserClient userID (Inbound_ID ib) clientConfig)) ;;; ret true
  | None => ret false
  end.
(** An inbound row made here and now, and the client linked to it. *)
Definition link_new_inbound (userID : Z) (tag protocol : string) (port : Z)
    (configFile rawJSON clientConfig : string) : M (State E) bool :=
  ibID <-- try (on_db (UpsertInbound now tag protocol port configFile rawJSON));;
  match ibID with
  | inl _ => ret false
  | inr id => logged (on_db (UpsertUserClient userID id clientConfig)) ;;; ret true
  end.
(** The inbound is in the configuration directory. *)
Definition link_from_files (userID : Z) (tag clientConfig : string) : M (State E) bool :=
  s <-- get;;
  match ParseConfigDir (C_ConfigDir cfg) (ReadDir (sv_world s).1 (C_ConfigDir cfg)) with
  | inl _ => ret false
  | inr parsed =>
      match Parser.GetInboundByTag (file_order parsed) tag with
      | None => ret false
      | Some (ib, configFile) =>
          link_new_inbound userID (PI_Tag ib) (PI_Protocol ib) (PI_Port ib) configFile
            (PI_RawJSON ib) clientConfig
      end
  end.
(** The inbound is nowhere: the server makes one up. *)
Definition link_managed (userID : Z) (tag protocolFallback clientConfig : string) : M (State E) bool :=
  if String.eqb protocolFallback "" then ret false
  else
    let protocol := ToLower (TrimSpace protocolFallback) in
    if managed_protocol protocol then
      link_new_inbound userID tag protocol (managed_port cfg) "api-managed"
        (managed_raw tag protocol (managed_port cfg)) clientConfig
    else ret false.

(** [if !found { found = m }] *)
Definition or_else (found : bool) (m : M (State E) bool) : M (State E) bool :=
  if found then ret true else m.

Definition addUserToInbound (user : User) (tag protocolFallback : string) : M (State E) () :=
  let identity := ClientIdentity (Some user) in
  let hint := mkHint protocolFallback (default "" (C_VLESSClientEncryption cfg !! tag)) in
  clientConfig <-- try (on_world (AddClient admin tag identity hint));;
  match clientConfig with
  | inl _ => ret tt
  | inr clientConfig =>
      found <-- link_by_tag (User_ID user) tag clientConfig;;
      found <-- or_else found (logged syncer_Sync ;;; link_by_tag (User_ID user) tag clientConfig);;
      found <-- or_else found (link_from_files (User_ID user) tag clientConfig);;
      or_else found (link_managed (User_ID user) tag protocolFallback clientConfig) ;;;
      ret tt
  end.

(** The protocol of an inbound that a request or the configuration names. *)
Definition protocol_for (tag protocol : string) (inbounds : list Inbound) : string :=
  let protocol := TrimSpace protocol in
  let protocol := if String.eqb protocol ""
                  then match with_tag tag inbounds with Some ib => Inbound_Protocol ib | None => "" end
                  else protocol in
  if String.eqb protocol "" then TrimSpace (C_APIUserInboundProtocol cfg) else protocol.

(** ** Users *)

Definition user_response (u : User) : UserResponse :=
  mkUserResponse u (SubURL cfg (User_Token u))
    (SubURLsWithFallback cfg (User_Token u) (User_FallbackToken u)).

(** The handlers that answer with a listing. *)
Definition listing {A B} (r : Request) (all : M DB (list A)) (page : Z → Z → M DB (list A))
    (count : M DB Z) (render : list A → list B) (whole : list B → list B)
    : Server.H (State E) (Listing B) :=
  let '(limit, offset, usePagination) := parsePagination r in
  if usePagination : bool then
    items <== or_500 (on_db (page limit offset));;
    total <== or_500 (on_db count);;
    hret (Page (render items) total limit offset)
  else
    items <== or_500 (on_db all);;
    hret (Whole (whole (render items))).

Definition listUsers (r : Request) : Server.H (State E) (Listing UserResponse) :=
  listing r ListUsers ListUsersPaginated CountUsers (map user_response) id.

(** The inbounds a new user gets. *)
Definition inbounds_to_add (req : CreateUserRequest) : list InboundSpec :=
  match Req_Inbounds req with
  | [] => let tag := TrimSpace (C_APIUserInboundTag cfg) in
          if String.eqb tag "" then []
          else [mkInboundSpec tag (TrimSpace (C_APIUserInboundProtocol cfg))]
  | specs => specs
  end.
Definition add_to_spec (user : User) (inbounds : list Inbound) (spec : InboundSpec) : M (State E) () :=
  let tag := TrimSpace (Spec_Tag spec) in
  if String.eqb tag "" then ret tt
  else addUserToInbound user tag (protocol_for tag (Spec_Protocol spec) inbounds).

(** Unknown node names are refused before anything is created. *)
Definition check_placement (nodes : list string) : Server.H (State E) () :=
  match C_Nodes cfg, nodes with
  | _ :: _, _ :: _ =>
      resolved <== or_500 (on_db (resolveNodeNames nodes));;
      match resolved.2 with
      | [] => hret tt
      | bad => jsonError (unknown_nodes bad) StatusBadRequest
      end
  | _, _ => hret tt
  end.

Definition createUser (r : Request) : Server.H (State E) UserResponse :=
  req <== decode_body decode_CreateUserRequest r;;
  _ <== or_400 (validateUsername (Req_Username req));;
  let username := TrimSpace (Req_Username req) in
  existing <== attempt (on_db (GetUserByUsername username));;
  match existing with
  | inr (Some _) => jsonError "username already exists" StatusConflict
  | _ =>
      _ <== check_placement (Req_Nodes req);;
      token <== or_500 Server.generateToken;;
      fallbackToken <== or_500 Server.generateToken;;
      user <== or_500 (on_db (CreateUser now username "" token fallbackToken));;
      let specs := inbounds_to_add req in
      inbounds <== or_500 all_inbounds_or_none;;
      _ <== or_500 (for_each specs (add_to_spec user inbounds));;
      _ <== or_500 (match specs with
                    | _ :: _ => if String.eqb (C_XrayAPIAddr cfg) "" then go_Sync else ret tt
                    | [] => ret tt
                    end);;
      _ <== attempt (on_db (placeUserOnNodes cfg (User_ID user) (Req_Nodes req)));;
      hret (user_response user)
  end.

Definition getUser (r : Request) : Server.H (State E) UserResponse :=
  user <== getByID r;; hret (user_response user).

Definition getUserByTokenHandler (r : Request) : Server.H (State E) UserResponse :=
  let token := Vars r "token" in
  if String.eqb (TrimSpace token) "" then jsonError "token required" StatusBadRequest
  else
    user <== or_500 (on_db (GetUserByToken token));;
    match user with
    | None => jsonError "user not found" StatusNotFound
    | Some u => hret (user_response u)
    end.

Definition deleteUser (r : Request) : Server.H (State E) () :=
  user <== getByID r;;
  _ <== or_500 (removeUserFromXray (User_ID user) (ClientIdentity (Some user)));;
  or_500 (on_db (DeleteUser (User_ID user))).

Definition setUserEnabled (r : Request) (enabled : bool) : Server.H (State E) bool :=
  user <== getByID r;;
  _ <== or_500 (on_db (SetUserEnabled now (User_ID user) enabled));;
  _ <== or_500 ((if enabled then addUserToXray else removeUserFromXray)
                  (User_ID user) (ClientIdentity (Some user)));;
  hret enabled.
Definition enableUser (r : Request) : Server.H (State E) bool := setUserEnabled r true.
Definition disableUser (r : Request) : Server.H (State E) bool := setUserEnabled r false.

(** The new token and its subscription URL. *)
Definition regenerateToken (r : Request) : Server.H (State E) (string * string) :=
  user <== getByID r;;
  newToken <== or_500 Server.generateToken;;
  _ <== or_500 (on_db (UpdateUserToken now (User_ID user) newToken));;
  hret (newToken, SubURL cfg newToken).

(** ** Clients *)

Definition getUserClients (r : Request) : Server.H (State E) (list UserClientFull) :=
  user <== getByID r;; or_500 (on_db (GetUserClients (User_ID user))).

Definition UCF_enabled (c : UserClientFull) : UserClientFull :=
  mkUserClientFull (mkUserClient (UC_ID c) (UC_UserID c) (UC_InboundID c) (UC_ClientConfig c) true)
    (UCF_InboundTag c) (UCF_InboundProtocol c) (UCF_InboundPort c) (UCF_InboundRaw c)
    (UCF_NodeName c) (UCF_NodeHost c) (UCF_NodePort c).
Definition client_on (tag : string) (clients : list UserClientFull) : option UserClientFull :=
  List.find (λ c, String.eqb (UCF_InboundTag c) tag) clients.

Definition addUserClient (r : Request) : Server.H (State E) UserClientFull :=
  user <== getByID r;;
  req <== decode_body decode_InboundSpec r;;
  let tag := TrimSpace (Spec_Tag req) in
  if String.eqb tag "" then jsonError "tag is required" StatusBadRequest
  else
    existingClients <== attempt (on_db (GetAllUserClients (User_ID user)));;
    match client_on tag (match existingClients with inr cs => cs | inl _ => [] end) with
    | Some c =>
        if UC_Enabled c then hret c
        else
          _ <== or_500 (on_db (SetUserClientEnabled (User_ID user) (UC_InboundID c) true));;
          _ <== or_500 (addClientToXray (ClientIdentity (Some user)) tag (UC_ClientConfig c));;
          hret (UCF_enabled c)
    | None =>
        inbounds <== or_500 (if String.eqb (TrimSpace (Spec_Protocol req)) ""
                             then all_inbounds_or_none else ret []);;
        _ <== or_500 (addUserToInbound user tag (protocol_for tag (Spec_Protocol req) inbounds));;
        clients <== or_fail (on_db (GetUserClients (User_ID user)))
                      (λ _, mkStatus StatusInternalServerError "failed to load created client");;
        match client_on tag clients with
        | Some c => hret c
        | None => jsonError "failed to add user to inbound" StatusInternalServerError
        end
    end.

Definition setClientEnabled (r : Request) (enabled : bool) : Server.H (State E) bool :=
  user <== getByID r;;
  match ParseInt (TrimSpace (Vars r "inboundId")) with
  | None => jsonError "invalid inbound id" StatusBadRequest
  | Some inboundID =>
      row <== or_500 (on_db (GetUserClientByUserAndInbound (User_ID user) inboundID));;
      let '(tag, clientConfig) := row in
      if String.eqb tag "" then jsonError "client not found" StatusNotFound
      else
        _ <== or_500 (on_db (SetUserClientEnabled (User_ID user) inboundID enabled));;
        _ <== or_500 (if enabled then addClientToXray (ClientIdentity (Some user)) tag clientConfig
                      else removeClientFromXray (ClientIdentity (Some user)) tag);;
        hret enabled
  end.
Definition enableUserClient (r : Request) : Server.H (State E) bool := setClientEnabled r true.
Definition disableUserClient (r : Request) : Server.H (State E) bool := setClientEnabled r false.

(** ** Inbounds *)

Definition inbound_item (ib : Inbound) : InboundItem :=
  mkInboundItem (Inbound_ID ib) (Inbound_Tag ib) (Inbound_Protocol ib) (Inbound_Port ib)
    (Inbound_ConfigFile ib) (Inbound_UpdatedAt ib)
    (Some (bool_decide (Inbound_Tag ib ∈ C_FallbackInboundTags cfg)))
    (match json_parse (Inbound_RawConfig ib) with
     | None => JStr (Inbound_RawConfig ib) | Some raw => normalize raw end).
Definition hysteriaPseudoInbound (h : HysteriaConfig) : InboundItem :=
  mkInboundItem 0 "hysteria2-reserve" "hysteria2" (Hy_Port h) "native-daemon" zero_time None
    (JObj [("tag", JStr "hysteria2-reserve"); ("protocol", JStr "hysteria2");
           ("port", JInt (Hy_Port h)); ("pseudo", JBool true)]).
Definition with_hysteria (items : list InboundItem) : list InboundItem :=
  match C_Hysteria cfg with
  | Some h => if Hy_Enabled h then items ++ [hysteriaPseudoInbound h] else items
  | None => items
  end.
Definition listInbounds (r : Request) : Server.H (State E) (Listing InboundItem) :=
  listing r ListInbounds ListInboundsPaginated CountInbounds (map inbound_item) with_hysteria.

(** ** Synchronisation *)

Definition triggerSync : Server.H (State E) () := or_500 go_Sync.
Definition handleSyncStatus : Server.H (State E) (SyncStatus * option (gmap string nodeSyncStatus)) :=
  λ s, (inr (snapshot now (bg_status (sv_background s)), snapshotNodeStatus cfg s), s).

(** ** The Hysteria2 switch of a user *)

Definition getUserHy2 (r : Request) : Server.H (State E) bool :=
  user <== getByID r;; hret (User_Hy2Enabled user).
Definition d_enabled : decoder bool := λ j, kvs <~ d_object j;; d_field d_bool "enabled" kvs.
Definition setUserHy2 (r : Request) : Server.H (State E) bool :=
  user <== getByID r;;
  enabled <== decode_body d_enabled r;;
  _ <== or_500 (on_db (SetUserHy2Enabled now (User_ID user) enabled));;
  hret enabled.
End Users.
