(* ===== verification/Emergency.v ===== *)
(** * Emergency rotation over HTTP: [internal/api/emergency.go]

    Database errors of these handlers are answered with a fixed text and
    logged; bodies are read without a size limit. *)

From S2P Require Import Prelude GoString Json JsonDecode Models Schema Database Server.

(** [json.NewDecoder(r.Body).Decode(&req)] *)
Definition decode_whole_body {S A} (d : decoder A) (r : Request) : H S A :=
  match Decode d (R_Body r) with
  | inl _ => jsonError "invalid request body" StatusBadRequest
  | inr a => hret a
  end.
(** A failure that is logged and answered with [internal error]. *)
Definition or_internal {S A} (m : M S A) : H S A :=
  or_fail m (λ _, mkStatus StatusInternalServerError "internal error").
(** The same where a violated [UNIQUE] constraint is a conflict. *)
Definition or_conflict {S A} (m : M S A) : H S A :=
  or_fail m (λ e, if Contains e "UNIQUE constraint"
                  then mkStatus StatusConflict "profile name already exists"
                  else mkStatus StatusInternalServerError "internal error").

Definition d_profile_id : decoder Z := λ j, kvs <~ d_object j;; d_field d_int "profile_id" kvs.

Record ProfileRequest := mkProfileRequest {
  PReq_Name : string; PReq_Description : string; PReq_InboundTags : list string }.
Definition d_profile_request : decoder ProfileRequest := λ j,
  kvs <~ d_object j;;
  name <~ d_field d_string "name" kvs;;
  description <~ d_field d_string "description" kvs;;
  tags <~ d_field (d_list d_string) "inbound_tags" kvs;;
  dret (mkProfileRequest name description tags).

Section Emergency.
Context `{Clock} {E : Type} (now : Z).

Definition getEmergencyStatus : H (State E) EmergencyStatus := or_internal (on_db GetEmergencyStatus).

(** The answer is [null] when the status cannot be read back. *)
Definition activateEmergency (r : Request) : H (State E) (option EmergencyStatus) :=
  id <== decode_whole_body d_profile_id r;;
  if (id <=? 0)%Z then jsonError "profile_id is required" StatusBadRequest
  else
    profile <== or_internal (on_db (GetEmergencyProfile id));;
    match profile with
    | None => jsonError "profile not found" StatusNotFound
    | Some _ =>
        _ <== or_internal (on_db (ActivateEmergency now id));;
        status <== attempt (on_db GetEmergencyStatus);;
        hret (match status with inr st => Some st | inl _ => None end)
    end.

Definition deactivateEmergency : H (State E) bool :=
  _ <== or_internal (on_db DeactivateEmergency);; hret false.

Definition listEmergencyProfiles : H (State E) (list EmergencyProfile) :=
  or_internal (on_db ListEmergencyProfiles).

(** The body of a creation or an update, its name trimmed and not blank. *)
Definition profile_request (r : Request) : H (State E) ProfileRequest :=
  req <== decode_whole_body d_profile_request r;;
  let name := TrimSpace (PReq_Name req) in
  if String.eqb name "" then jsonError "name is required" StatusBadRequest
  else hret (mkProfileRequest name (PReq_Description req) (PReq_InboundTags req)).

Definition createEmergencyProfile (r : Request) : H (State E) EmergencyProfile :=
  req <== profile_request r;;
  or_conflict (on_db (CreateEmergencyProfile now (PReq_Name req) (PReq_Description req)
                        (PReq_InboundTags req))).

Definition parseProfileID (r : Request) : H (State E) Z :=
  match ParseInt (Vars r "id") with
  | Some id => if (id <=? 0)%Z then jsonError "invalid profile id" StatusBadRequest else hret id
  | None => jsonError "invalid profile id" StatusBadRequest
  end.

Definition found_profile (p : option EmergencyProfile) : H (State E) EmergencyProfile :=
  match p with None => jsonError "profile not found" StatusNotFound | Some p => hret p end.

Definition getEmergencyProfileByID (r : Request) : H (State E) EmergencyProfile :=
  id <== parseProfileID r;;
  profile <== or_internal (on_db (GetEmergencyProfile id));;
  found_profile profile.

Definition updateEmergencyProfile (r : Request) : H (State E) EmergencyProfile :=
  id <== parseProfileID r;;
  req <== profile_request r;;
  profile <== or_conflict (on_db (UpdateEmergencyProfile now id (PReq_Name req)
                                    (PReq_Description req) (PReq_InboundTags req)));;
  found_profile profile.

(** The active profile is not deleted. *)
Definition is_active_profile (id : Z) (em : error + EmergencyStatus) : bool :=
  match em with
  | inr st => Emergency_Active st && bool_decide (Emergency_ProfileID st = Some id)
  | inl _ => false
  end.
Definition deleteEmergencyProfile (r : Request) : H (State E) () :=
  id <== parseProfileID r;;
  em <== attempt (on_db GetEmergencyStatus);;
  if is_active_profile id em then
    jsonError "cannot delete the currently active emergency profile" StatusConflict
  else or_internal (on_db (DeleteEmergencyProfile id)).
End Emergency.
