(* ===== verification/Killswitch.v ===== *)
(** * The fallback subscription and its kill switch: the management handlers
    of [internal/api/fallback.go]

    The mutex [killSwitchMu] makes each toggle and each reconciliation one
    step. The ticker of [ReconcileKillSwitchLoop] is not modelled; what a tick
    does is [reconcileKillSwitch], and [killswitch_loop_runs] says when the
    loop ticks at all. *)

From S2P Require Import Prelude GoString Models Config ConfigWriter Admin Schema Database.
From S2P Require Import Syncer Server.

(** An entry of [GET /api/fallback/accessed]. *)
Record AccessEntry := mkAccessEntry {
  Access_ID : Z; Access_Username : string; Access_FallbackToken : string;
  Access_At : Z; Access_FallbackURL : string }.

Section Killswitch.
Context {E : Type} `{HandlerService E} (cfg : Config) (now : Z).

Definition regenerateFallbackToken (r : Request) : Server.H (State E) (string * string) :=
  user <== getByID r;;
  newToken <== or_500 Server.generateToken;;
  _ <== or_500 (on_db (UpdateFallbackToken now (User_ID user) newToken));;
  hret (newToken, FallbackURL cfg newToken).

Definition getFallbackStatus : Server.H (State E) bool := or_500 (on_db GetFallbackEnabled).

(** One tag of the loop; the outcome is only logged. *)
Definition enable_inbound (apiAddr tag : string) : M (State E) () :=
  ib <-- try (on_db (GetInboundByTag tag));;
  match ib with
  | inl _ | inr None => ret tt
  | inr (Some ib) => logged (on_world (on_engine (AddInboundFromJSONViaAPI apiAddr (Inbound_RawConfig ib))))
  end.
Definition disable_inbound (apiAddr tag : string) : M (State E) () :=
  logged (on_world (on_engine (RemoveInboundViaAPI apiAddr tag))).

Definition applyKillSwitchInboundsLocked (enable : bool) : M (State E) () :=
  let apiAddr := TrimSpace (C_XrayAPIAddr cfg) in
  if String.eqb apiAddr "" then ret tt
  else for_each (KillSwitchTags cfg) (λ tag,
    let tag := TrimSpace tag in
    if String.eqb tag "" then ret tt
    else if enable then enable_inbound apiAddr tag else disable_inbound apiAddr tag).

Definition enableFallback : Server.H (State E) bool :=
  _ <== or_500 (on_db (SetFallbackEnabled true));;
  _ <== or_500 (applyKillSwitchInboundsLocked true);;
  hret true.
Definition disableFallback : Server.H (State E) bool :=
  _ <== or_500 (on_db (SetFallbackEnabled false));;
  _ <== or_500 (applyKillSwitchInboundsLocked false);;
  hret false.

Definition reconcileKillSwitchLocked : M (State E) () :=
  enabled <-- try (on_db GetFallbackEnabled);;
  match enabled with
  | inl _ | inr true => ret tt
  | inr false => applyKillSwitchInboundsLocked false
  end.
Definition ReconcileKillSwitchOnStartup : M (State E) () := reconcileKillSwitchLocked.

(** The guards of [ReconcileKillSwitchLoop]; [interval] is its period. *)
Definition killswitch_loop_runs (interval : Z) : bool :=
  (0 <? interval)%Z && negb (String.eqb (TrimSpace (C_XrayAPIAddr cfg)) "")
  && negb (Nat.eqb (length (KillSwitchTags cfg)) 0).

(** ** Who fetched the fallback subscription *)

Definition access_entry (u : User) : option AccessEntry :=
  match User_FallbackAccessedAt u with
  | None => None
  | Some at_ => Some (mkAccessEntry (User_ID u) (User_Username u) (User_FallbackToken u) at_
                        (FallbackURL cfg (User_FallbackToken u)))
  end.
(** The newest access first; [sort.Slice] leaves the order of equal times
    open, [stable_sort] keeps it. *)
Definition newest_first (a b : AccessEntry) : bool := (Access_At b <=? Access_At a)%Z.
Definition listFallbackAccessedUsers : Server.H (State E) (list AccessEntry) :=
  users <== or_500 (on_db ListUsers);;
  hret (stable_sort newest_first (omap access_entry users)).
End Killswitch.
