(* ===== verification/RateLimit.v ===== *)
(** * Rate limiting: [internal/api/ratelimit.go] and [rateLimitWrap] of
    [internal/api/server.go]

    [golang.org/x/time/rate] is a parameter ([RateLimiter]): a limiter made
    for an interval and a burst, and [Allow] at a time. The mutex makes the
    table lookup of a request one step, and so is each round of the cleanup
    goroutine. Times and durations are nanoseconds. *)

From S2P Require Import Prelude GoString Net Config Server.
From Stdlib Require Import Ascii.

Class RateLimiter := {
  Limiter : Type;
  NewLimiter : Z → Z → Limiter;             (** [rate.NewLimiter(rate.Every(interval), burst)] *)
  Allow : Z → Limiter → bool * Limiter }.   (** [Allow()] called at a time *)

Definition Minute : Z := (60 * 1000000000)%Z.

(** [interval] and [burst] of a positive [perMin] (Go's [/] truncates). *)
Definition limit_interval (perMin : Z) : Z := Z.quot Minute perMin.
Definition limit_burst (perMin : Z) : Z :=
  let burst := Z.quot perMin 6 in
  let burst := if (burst <? 2)%Z then 2%Z else burst in
  if (20 <? burst)%Z then 20%Z else burst.

(** [xff[:strings.IndexAny(xff, ", ")]], all of [xff] when there is none. *)
Fixpoint first_element (s : string) : string :=
  match s with
  | EmptyString => ""
  | String c r => if Ascii.eqb c ","%char || Ascii.eqb c " "%char then "" else String c (first_element r)
  end.
Definition clientIP (r : Request) : string :=
  let host := match SplitHostPort (R_RemoteAddr r) with Some (h, _) => h | None => R_RemoteAddr r end in
  if String.eqb host "127.0.0.1" || String.eqb host "::1" then
    let xff := HeaderGet r "X-Forwarded-For" in
    let xri := HeaderGet r "X-Real-IP" in
    if negb (String.eqb xff "") then TrimSpace (first_element xff)
    else if negb (String.eqb xri "") then TrimSpace xri
    else host
  else host.

Section RateLimit.
Context `{RateLimiter}.

Record ipLimiter := mkIpLimiter { IL_limiter : Limiter; IL_last : Z }.
Definition Limiters : Type := gmap string ipLimiter.

(** A request of [ip]: [true] lets it through, [false] answers 429. *)
Definition allow_request (perMin now : Z) (ip : string) (limiters : Limiters) : bool * Limiters :=
  let il := match limiters !! ip with
            | Some il => il
            | None => mkIpLimiter (NewLimiter (limit_interval perMin) (limit_burst perMin)) now
            end in
  let '(ok, l) := Allow now (IL_limiter il) in
  (ok, <[ip := mkIpLimiter l now]> limiters).
(** A round of the cleanup goroutine, every five minutes. *)
Definition cleanup (now : Z) (limiters : Limiters) : Limiters :=
  filter (λ kv, (now - IL_last kv.2 <= 10 * Minute)%Z) limiters.

(** The middleware: [None] lets the request through. *)
Definition rateLimitMiddleware (perMin now : Z) (r : Request) (limiters : Limiters)
    : option Status * Limiters :=
  if (perMin <=? 0)%Z then (None, limiters)
  else
    let '(ok, limiters) := allow_request perMin now (clientIP r) limiters in
    (if ok : bool then None else Some (mkStatus 429 "rate limit exceeded"), limiters).

(** The two tables of [rateLimitWrap], and what a path is limited by. *)
Record RateTables := mkRateTables { RT_sub : Limiters; RT_admin : Limiters }.
Definition rateLimitWrap (cfg : Config) (now : Z) (path : string) (r : Request) (t : RateTables)
    : option Status * RateTables :=
  if String.eqb path "/health" then (None, t)
  else if HasPrefix path "/api" then
    let '(st, l) := rateLimitMiddleware (C_RateLimitAdminPerMin cfg) now r (RT_admin t) in
    (st, mkRateTables (RT_sub t) l)
  else if HasPrefix path "/sub" || HasPrefix path "/c" then
    let '(st, l) := rateLimitMiddleware (C_RateLimitSubPerMin cfg) now r (RT_sub t) in
    (st, mkRateTables l (RT_admin t))
  else (None, t).
End RateLimit.
