(* ===== verification/Liveness.v ===== *)
(** * Subscription liveness and the metrics endpoint:
    [internal/api/liveness.go], [internal/api/metrics.go]

    The tracker is a map from fetch keys to times; its mutex makes each of its
    operations one step. SHA-256 and the order in which Go ranges over the
    snapshot are parameters. The Prometheus text around the values is not
    modelled. *)

From S2P Require Import Prelude GoString Models Schema Database ConfigWriter Config Server.

Record fetchKey := mkFetchKey { FK_token : string; FK_fallback : bool; FK_client : string }.
#[export] Instance fetchKey_eq_dec : EqDecision fetchKey.
Proof. solve_decision. Defined.
#[export] Program Instance fetchKey_countable : Countable fetchKey :=
  inj_countable' (λ k, (FK_token k, FK_fallback k, FK_client k))
    (λ k, mkFetchKey k.1.1 k.1.2 k.2) _.
Next Obligation. by intros []. Qed.

Definition fetchTracker : Type := gmap fetchKey Z.
Definition record_fetch (k : fetchKey) (at_ : Z) (t : fetchTracker) : fetchTracker := <[k := at_]> t.
Definition forget (maxAge now : Z) (t : fetchTracker) : fetchTracker :=
  filter (λ kv, (now - kv.2 <= maxAge)%Z) t.
Definition fetchForgetAfter : Z := (14 * 24 * 3600 * 1000000000)%Z.

(** The families, with the texts that identify them, in the order of the switch. *)
Definition client_families : list (string * list string) :=
  [("happ", ["happ"]); ("v2rayng", ["v2rayng"]); ("v2rayn", ["v2rayn"]); ("hiddify", ["hiddify"]);
   ("v2box", ["v2box"]); ("streisand", ["streisand"]); ("shadowrocket", ["shadowrocket"]);
   ("nekobox", ["nekobox"; "nekoray"]); ("karing", ["karing"]);
   ("singbox", ["sing-box"; "sfa"; "sfi"]); ("clash", ["clash"; "mihomo"; "stash"]);
   ("incy", ["incy"]); ("browser", ["mozilla"; "curl"; "wget"])].
Definition clientFamily (ua : string) : string :=
  let u := ToLower ua in
  if String.eqb u "" then "none"
  else match List.find (λ f : string * list string, existsb (Contains u) f.2) client_families with
       | Some f => f.1
       | None => "other"
       end.

(** Whether the route serves a subscription, and whether it is a fallback one. *)
Definition isSubscriptionRoute (tpl : string) : bool * bool :=
  if HasPrefix tpl "/sub/fallback/" || HasPrefix tpl "/c/fallback/" then (true, true)
  else if HasPrefix tpl "/sub/{token}" || HasPrefix tpl "/c/{token}" then (true, false)
  else (false, false).

(** What [subscriptionMiddleware] does once the handler has answered with
    [status] ([0] when it wrote nothing): the route of the request is [tpl].
    The token is read after the handler, so on a fallback route it is still
    the fallback token of the URL. *)
Definition subscriptionMiddleware (tpl : string) (r : Request) (status now : Z) (t : fetchTracker)
    : fetchTracker :=
  let '(isSub, fallback) := isSubscriptionRoute tpl in
  if negb isSub then t
  else if Z.eqb (Z.quot status 100) 2 then
    let tok := Vars r "token" in
    if String.eqb tok "" then t
    else record_fetch (mkFetchKey tok fallback (clientFamily (R_UserAgent r))) now t
  else t.

(** [sha256.Sum256], and the order of [range snap]. *)
Class Liveness := {
  Sum256 : string → string;
  fetch_order : fetchTracker → list (fetchKey * Z);
  fetch_order_perm : ∀ t, fetch_order t ≡ₚ map_to_list t }.

(** A line of the metric. *)
Record row := mkRow { row_email : string; row_path : string; row_client : string; row_ts : Z }.

Section Metrics.
Context `{Liveness}.

Definition obscureEmail (secret email : string) : string :=
  if String.eqb secret "" || String.eqb email "" then email
  else Hex (String.substring 0 8 (Sum256 (secret +:+ ":" +:+ email))).

(** The user a fetch belongs to; a failing lookup counts as none. *)
Definition fetch_email (k : fetchKey) : M DB string :=
  user <-- try (if FK_fallback k then GetUserByFallbackToken (FK_token k)
                else GetUserByToken (FK_token k));;
  ret (match user with inr (Some u) => ClientIdentity (Some u) | _ => "" end).
Definition Unix (at_ : Z) : Z := at_ / 1000000000.
Definition row_id (r : row) : string := row_email r +:+ "|" +:+ row_path r +:+ "|" +:+ row_client r.
(** The row of a fetch, kept when it is newer than the one before. *)
Definition keep_newest (r : row) (best : gmap string row) : gmap string row :=
  match best !! row_id r with
  | Some cur => if (row_ts cur <? row_ts r)%Z then <[row_id r := r]> best else best
  | None => <[row_id r := r]> best
  end.
Definition fetch_row (secret : string) (k : fetchKey) (at_ : Z) (email : string) : row :=
  mkRow (obscureEmail secret email) (if FK_fallback k then "fallback" else "primary")
    (FK_client k) (Unix at_).
Fixpoint best_rows (secret : string) (snap : list (fetchKey * Z)) (best : gmap string row)
    : M DB (gmap string row) :=
  match snap with
  | [] => ret best
  | (k, at_) :: r =>
      email <-- fetch_email k;;
      best_rows secret r (if String.eqb email "" then best
                          else keep_newest (fetch_row secret k at_ email) best)
  end.

(** The rows in the order of their ids, and the tracker without old fetches. *)
Definition writeLivenessMetrics (cfg : Config) (now : Z) (t : fetchTracker)
    : M DB (list row * fetchTracker) :=
  let t := forget fetchForgetAfter now t in
  best <-- best_rows (C_MetricsAnonymizeSecret cfg) (fetch_order t) ∅;;
  ret (omap (λ id, best !! id) (sort_strings (map fst (map_to_list best))), t).

(** [MetricsHandler]: the two gauges of the fallback and the liveness rows. *)
Definition MetricsHandler (cfg : Config) (now fallbackDenied : Z) (t : fetchTracker)
    : Server.H DB (Z * Z * list row * fetchTracker) :=
  enabled <== or_fail GetFallbackEnabled (λ _, mkStatus StatusInternalServerError "db error");;
  rows <== or_500 (writeLivenessMetrics cfg now t);;
  hret (if enabled : bool then 1%Z else 0%Z, fallbackDenied, rows.1, rows.2).
End Metrics.
