(* ===== verification/Startup.v ===== *)
(** * Start-up: [main.go] and [internal/xray/tls.go]

    The order in which [main] brings the parts up, from a loaded configuration
    to the state the first request finds. Opening the database, the HTTP
    servers and the shutdown are not modelled. [crypto/tls] and [crypto/x509]
    are a parameter ([TLSLibrary]) that reads the certificate files. *)

From S2P Require Import Prelude GoString Net Models Config XrayTypes Parser ConfigWriter.
From S2P Require Import Admin Schema Database Syncer Server Nodes Killswitch.

(** ** Transport credentials *)

Class TLSLibrary := {
  CertPool : Type; Certificate : Type;
  (** [os.ReadFile] of a PEM file, then [NewCertPool] and [AppendCertsFromPEM];
      [None] when the text holds no certificate. *)
  ReadPEM : string → error + string;
  AppendCertsFromPEM : string → option CertPool;
  LoadX509KeyPair : string → string → error + Certificate }.

Section Credentials.
Context `{TLSLibrary}.

(** [credentials.NewTLS] of the client certificate, the roots and the server
    name, with TLS 1.3 as the minimum; or [insecure.NewCredentials]. *)
Inductive TransportCredentials :=
  | NewTLS (cert : Certificate) (roots : CertPool) (serverName : string)
  | Insecure.

Definition BuildTLSCredentials (caCertPath clientCertPath clientKeyPath serverName : string)
    : error + TransportCredentials :=
  match ReadPEM caCertPath with
  | inl e => inl ("read ca_cert " +:+ caCertPath +:+ ": " +:+ e)
  | inr caPEM =>
      match AppendCertsFromPEM caPEM with
      | None => inl ("ca_cert " +:+ caCertPath +:+ ": no PEM certificates found")
      | Some pool =>
          match LoadX509KeyPair clientCertPath clientKeyPath with
          | inl e => inl ("load client keypair (" +:+ clientCertPath +:+ " / " +:+ clientKeyPath +:+ "): " +:+ e)
          | inr cert => inr (NewTLS cert pool serverName)
          end
      end
  end.

Definition NodeCredentials : Type := gmap string TransportCredentials.
(** [nodeCreds[apiAddr]], plaintext without an entry. *)
Definition resolveCredentials (nodeCreds : NodeCredentials) (apiAddr : string) : TransportCredentials :=
  default Insecure (nodeCreds !! apiAddr).

(** The name the server certificate is matched against. *)
Definition tls_server_name (n : NodeConfig) (tls : NodeTLS) : string :=
  if String.eqb (NTLS_ServerName tls) "" then
    match SplitHostPort (NC_APIAddr n) with Some (host, _) => host | None => NC_APIAddr n end
  else NTLS_ServerName tls.
(** The loop of [configureNodeCredentials]; an error is fatal. *)
Fixpoint node_credentials (nodes : list NodeConfig) (creds : NodeCredentials) : error + NodeCredentials :=
  match nodes with
  | [] => inr creds
  | n :: r =>
      match NC_TLS n with
      | None => node_credentials r creds
      | Some tls =>
          match BuildTLSCredentials (NTLS_CACert tls) (NTLS_ClientCert tls) (NTLS_ClientKey tls)
                  (tls_server_name n tls) with
          | inl e => inl ("Node " +:+ Quote (NC_Name n) +:+ " mTLS: " +:+ e)
          | inr c => node_credentials r (<[NC_APIAddr n := c]> creds)
          end
      end
  end.
Definition configureNodeCredentials (cfg : Config) : error + NodeCredentials :=
  node_credentials (C_Nodes cfg) ∅.
End Credentials.

(** ** The nodes table *)

Definition desired_node (n : NodeConfig) : Node :=
  mkNode 0 (NC_Name n) (NC_APIAddr n) (NC_InboundTag n) (NC_PublicHost n) (NC_PublicPort n)
    (IsEnabled n) 0.
Definition reconcileNodes (cfg : Config) (now : Z) : M DB () :=
  ReconcileNodes now (map desired_node (ResolvedNodes cfg)) ;;;
  BackfillUserNodesToEnabled.

(** ** [main] *)

Section Main.
Context {E : Type} `{HandlerService E} `{FileOrder} `{TLSLibrary} (cfg : Config) (now : Z).

Definition update_status (f : statusState → statusState) : M (State E) () :=
  on_syncer (sy_record f).

(** What runs between the opened database and the first request;
    [probe] is the outcome of writing the probe file. *)
Definition startup (probe : option error) : M (State E) () :=
  logged (on_db (reconcileNodes cfg now)) ;;;
  update_status (Probe cfg probe) ;;;
  logged (on_syncer (Sync cfg now)) ;;;
  on_syncer (RestoreOnStartup cfg) ;;;
  ReconcileKillSwitchOnStartup cfg.

(** [main]: a failure of the credentials ends the process before the database
    is opened; otherwise the credentials every later dial uses. *)
Definition main (probe : option error) (s : State E) : error + (NodeCredentials * State E) :=
  match configureNodeCredentials cfg with
  | inl e => inl e
  | inr creds => inr (creds, (startup probe s).2)
  end.

(** When the reconcile loop of the nodes runs, and its first pass. *)
Definition nodes_loop_runs : bool :=
  negb (single_node cfg) && (0 <? C_SyncInterval cfg)%Z.
Definition ReconcileNodesLoop : M (State E) () :=
  if nodes_loop_runs then reconcileNodesOnce now else ret tt.
End Main.
