(* ===== verification/Router.v ===== *)
(** * The request path: [Router], [adminAuth] and [rateLimitWrap] of
    [internal/api/server.go]

    The routing table as data, matched the way gorilla/mux does it: the
    segments of the path against those of the template, in the order of
    registration, the first route that also allows the method serving. Paths
    are assumed clean (mux redirects the others). A request goes through the
    rate limiter, the match, the subscription middleware and, under [/api],
    the admin authentication. *)

From S2P Require Import Prelude GoString Json JsonDecode Models Config Schema Database.
From S2P Require Import Generator ConfigWriter Admin Syncer Server Routes Nodes Subscription.
From S2P Require Import Users Emergency Killswitch RateLimit Liveness.
From Stdlib Require Import Ascii.

(** ** Matching *)

(** The segments between the slashes. *)
Fixpoint segments (s : string) : list string :=
  match s with
  | EmptyString => [""]
  | String c r =>
      if Ascii.eqb c "/"%char then "" :: segments r
      else match segments r with
           | seg :: segs => String c seg :: segs
           | [] => [String c ""]
           end
  end.

(** The name of a variable segment: the text after the brace up to the
    pattern or the closing brace. *)
Fixpoint var_name (s : string) : string :=
  match s with
  | EmptyString => ""
  | String c r => if Ascii.eqb c ":"%char || Ascii.eqb c "}"%char then "" else String c (var_name r)
  end.
(** [{name}] stands for one non-empty segment, [{name:[0-9]+}] for digits. *)
Definition match_segment (tpl seg : string) : option (list (string * string)) :=
  match tpl with
  | String "{"%char rest =>
      if String.eqb seg "" then None
      else if Contains rest ":[0-9]+" && negb (string_forallb is_digit seg) then None
      else Some [(var_name rest, seg)]
  | _ => if String.eqb tpl seg then Some [] else None
  end.
Fixpoint match_segments (tpl path : list string) : option (list (string * string)) :=
  match tpl, path with
  | [], [] => Some []
  | t :: tpl, p :: path =>
      match match_segment t p, match_segments tpl path with
      | Some vars, Some rest => Some (vars ++ rest)
      | _, _ => None
      end
  | _, _ => None
  end.
Definition match_path (tpl path : string) : option (list (string * string)) :=
  match_segments (segments tpl) (segments path).

Definition set_vars (r : Request) (vars : list (string * string)) : Request :=
  mkRequest (list_to_map vars) (R_Query r) (R_Headers r) (R_UserAgent r) (R_RemoteAddr r)
    (R_Fallback r) (R_Body r).

(** ** The routing table *)

(** What a handler answers with, of whatever type. *)
Record Answer := mkAnswer { Answer_type : Type; Answer_value : Answer_type }.

Record Route (E : Type) := mkRoute {
  Rt_method : string; Rt_template : string; Rt_handler : Request → Server.H (State E) Answer }.
Arguments mkRoute {E}. Arguments Rt_method {E}. Arguments Rt_template {E}. Arguments Rt_handler {E}.

Section Router.
Context {E : Type} `{HandlerService E} `{FileOrder} `{Curve} `{Clock} `{RateLimiter}.
Context (cfg : Config) (now : Z).

Definition on_db_h {A} (m : Server.H DB A) : Server.H (State E) A := λ s,
  let '(r, db) := m (sv_db s) in
  (r, mkState db (sv_world s) (sv_nodeStatus s) (sv_fallbackDenied s) (sv_background s)).
Definition answers {A} (m : Server.H (State E) A) : Server.H (State E) Answer :=
  a <== m;; hret (mkAnswer A a).

Definition GET {A} (tpl : string) (h : Request → Server.H (State E) A) : Route E :=
  mkRoute "GET" tpl (λ r, answers (h r)).
Definition POST {A} (tpl : string) (h : Request → Server.H (State E) A) : Route E :=
  mkRoute "POST" tpl (λ r, answers (h r)).
Definition PUT {A} (tpl : string) (h : Request → Server.H (State E) A) : Route E :=
  mkRoute "PUT" tpl (λ r, answers (h r)).
Definition DELETE {A} (tpl : string) (h : Request → Server.H (State E) A) : Route E :=
  mkRoute "DELETE" tpl (λ r, answers (h r)).
(** A subscription handler works on the database only. *)
Definition sub {A} (tpl : string) (h : Request → Server.H DB A) : Route E :=
  GET tpl (λ r, on_db_h (h r)).

(** [s.fallbackDenied.Add(1)]: the refusal while the flag is off is counted. *)
Definition denied_by_flag (st : Status) : bool :=
  Z.eqb (Code st) StatusForbidden && String.eqb (Msg st) "fallback subscription disabled".
Definition fb {A} (tpl : string) (h : Request → Server.H DB A) : Route E :=
  GET tpl (λ r s,
    let '(res, s) := on_db_h (withFallbackAuth now h r) s in
    (res, match res with
          | inl st => if denied_by_flag st
                      then mkState (sv_db s) (sv_world s) (sv_nodeStatus s) (sv_fallbackDenied s + 1)
                             (sv_background s)
                      else s
          | inr _ => s
          end)).

Definition links (b64 : bool) (forcedProtocol : string) (r : Request) : Server.H DB string :=
  handleSubscriptionLinksByFormatAndProtocol cfg r b64 forcedProtocol.
Definition compact_links (b64 : bool) (r : Request) : Server.H DB string :=
  links b64 "" (mobile_request r).

Definition fallback_routes : list (Route E) :=
  [fb "/sub/fallback/{token}" (handleSubscription cfg);
   fb "/sub/fallback/{token}/links.txt" (links false "");
   fb "/sub/fallback/{token}/links.b64" (links true "");
   fb "/c/fallback/{token}" (handleCompactSubscription cfg);
   fb "/c/fallback/{token}/links.txt" (compact_links false);
   fb "/c/fallback/{token}/links.b64" (compact_links true)].

Definition subscription_routes : list (Route E) :=
  [sub "/sub/{token}" (handleSubscription cfg);
   sub "/sub/{token}/links" (handleSubscriptionLinks cfg);
   sub "/sub/{token}/links.txt" (links false "");
   sub "/sub/{token}/links.b64" (links true "");
   sub "/c/{token}" (handleCompactSubscription cfg);
   sub "/c/{token}/links.txt" (compact_links false);
   sub "/c/{token}/links.b64" (compact_links true);
   sub "/sub/{token}/vless" (links false "vless");
   sub "/sub/{token}/vless.b64" (links true "vless");
   sub "/sub/{token}/vless/list" (handleVLESSList cfg);
   sub "/sub/{token}/vless/{vlessTag}" (λ r, handleVLESSLinkByTag cfg r false);
   sub "/sub/{token}/vless/{vlessTag}/b64" (λ r, handleVLESSLinkByTag cfg r true);
   sub "/sub/{token}/vmess" (links false "vmess");
   sub "/sub/{token}/vmess.b64" (links true "vmess");
   sub "/sub/{token}/trojan" (links false "trojan");
   sub "/sub/{token}/trojan.b64" (links true "trojan");
   sub "/sub/{token}/ss" (links false "shadowsocks");
   sub "/sub/{token}/ss.b64" (links true "shadowsocks");
   sub "/sub/{token}/shadowsocks" (links false "shadowsocks");
   sub "/sub/{token}/shadowsocks.b64" (links true "shadowsocks");
   sub "/sub/{token}/protocol/{protocol}" (handleSubscription cfg);
   sub "/sub/{token}/protocol/{protocol}/links.txt" (links false "");
   sub "/sub/{token}/protocol/{protocol}/links.b64" (links true "");
   sub "/sub/{token}/inbound/{inboundTag}" (handleSubscription cfg);
   sub "/sub/{token}/inbound/{inboundTag}/links.txt" (links false "");
   sub "/sub/{token}/inbound/{inboundTag}/links.b64" (links true "");
   sub "/sub/{token}/hy2" (λ r, handleHysteriaSub cfg r false);
   sub "/sub/{token}/hy2.b64" (λ r, handleHysteriaSub cfg r true);
   POST "/hysteria/auth" (λ r, on_db_h (handleHysteriaAuth r))].

Definition user_routes : list (Route E) :=
  [GET "/users" (listUsers cfg);
   POST "/users" (createUser cfg now);
   GET "/users/{id}" (getUser cfg);
   GET "/users/by-token/{token}" (getUserByTokenHandler cfg);
   DELETE "/users/{id}" (deleteUser cfg now);
   PUT "/users/{id}/enable" (enableUser cfg now);
   PUT "/users/{id}/disable" (disableUser cfg now);
   POST "/users/{id}/token" (regenerateToken cfg now);
   GET "/users/{id}/routes" (getUserRoutes now);
   POST "/users/{id}/routes" (addUserRoute now);
   PUT "/users/{id}/routes" (setUserRoutes now);
   PUT "/users/{id}/routes/{index}" (updateUserRoute now);
   DELETE "/users/{id}/routes/{index}" (deleteUserRoute now);
   PUT "/users/{id}/routes/id/{routeId}" (updateUserRouteByID now);
   DELETE "/users/{id}/routes/id/{routeId}" (deleteUserRouteByID now);
   GET "/users/{id}/clients" getUserClients;
   POST "/users/{id}/clients" (addUserClient cfg now);
   PUT "/users/{id}/clients/{inboundId}/enable" (enableUserClient cfg now);
   PUT "/users/{id}/clients/{inboundId}/disable" (disableUserClient cfg now);
   GET "/users/{id}/hy2" getUserHy2;
   PUT "/users/{id}/hy2" (setUserHy2 now)].

Definition service_routes : list (Route E) :=
  [GET "/inbounds" (listInbounds cfg);
   GET "/routes/global" (λ _, getGlobalRoutes);
   PUT "/routes/global" setGlobalRoutes;
   POST "/routes/global" addGlobalRoute;
   DELETE "/routes/global" (λ _, deleteGlobalRoutes);
   GET "/config/balancer" (λ _, getBalancerConfig cfg);
   PUT "/config/balancer" (setBalancerConfig cfg);
   POST "/sync" (λ _, triggerSync cfg now);
   GET "/sync/status" (λ _, handleSyncStatus cfg now);
   GET "/nodes" (λ _, listNodes);
   GET "/users/{id}/nodes" getUserNodes;
   POST "/users/{id}/nodes" (setUserNodes cfg);
   DELETE "/users/{id}/nodes/{nodeName}" (deleteUserNode cfg);
   POST "/users/{id}/fallback/token" (regenerateFallbackToken cfg now);
   GET "/fallback/status" (λ _, getFallbackStatus);
   POST "/fallback/enable" (λ _, enableFallback cfg);
   POST "/fallback/disable" (λ _, disableFallback cfg);
   GET "/fallback/accessed" (λ _, listFallbackAccessedUsers cfg);
   GET "/emergency/status" (λ _, getEmergencyStatus);
   POST "/emergency/activate" (activateEmergency now);
   POST "/emergency/deactivate" (λ _, deactivateEmergency);
   GET "/emergency/profiles" (λ _, listEmergencyProfiles);
   POST "/emergency/profiles" (createEmergencyProfile now);
   GET "/emergency/profiles/{id:[0-9]+}" getEmergencyProfileByID;
   PUT "/emergency/profiles/{id:[0-9]+}" (updateEmergencyProfile now);
   DELETE "/emergency/profiles/{id:[0-9]+}" deleteEmergencyProfile].

(** [api.Use(s.adminAuth)] on the subrouter of [/api]. *)
Definition guarded (rt : Route E) : Route E :=
  mkRoute (Rt_method rt) ("/api" +:+ Rt_template rt) (λ r,
    match adminAuth cfg r with
    | Some st => λ s, (inl st, s)
    | None => Rt_handler rt r
    end).
Definition public_routes : list (Route E) := fallback_routes ++ subscription_routes.
Definition admin_routes : list (Route E) := map guarded (user_routes ++ service_routes).
Definition health_route : Route E := GET "/health" (λ _, hret ()).
Definition routes : list (Route E) := public_routes ++ admin_routes ++ [health_route].

(** ** Serving a request *)

Definition matches (path : string) (rt : Route E) : bool := bool_decide (is_Some (match_path (Rt_template rt) path)).
Inductive RouteMatch :=
  | Matched (rt : Route E) (vars : list (string * string))
  | MethodNotAllowed
  | NotFound.
Definition find_route (method path : string) : RouteMatch :=
  match List.find (λ rt, String.eqb (Rt_method rt) method && matches path rt) routes with
  | Some rt => Matched rt (default [] (match_path (Rt_template rt) path))
  | None => if existsb (matches path) routes then MethodNotAllowed else NotFound
  end.

(** The process behind the listener: the server, the fetch tracker and the
    limiters. *)
Record Site := mkSite { site_server : State E; site_fetches : fetchTracker; site_limits : RateTables }.

Definition status_of {A} (res : Status + A) : Z := match res with inl st => Code st | inr _ => 200 end.

Definition dispatch (method path : string) (r : Request) (s : State E) (fetches : fetchTracker)
    : (Status + Answer) * State E * fetchTracker :=
  match find_route method path with
  | NotFound => (inl (mkStatus StatusNotFound "404 page not found"), s, fetches)
  | MethodNotAllowed => (inl (mkStatus 405 ""), s, fetches)
  | Matched rt vars =>
      let r := set_vars r vars in
      let '(res, s) := Rt_handler rt r s in
      (res, s, subscriptionMiddleware (Rt_template rt) r (status_of res) now fetches)
  end.

Definition serve (method path : string) (r : Request) (w : Site) : (Status + Answer) * Site :=
  match rateLimitWrap cfg now path r (site_limits w) with
  | (Some st, limits) => (inl st, mkSite (site_server w) (site_fetches w) limits)
  | (None, limits) =>
      let '(res, s, fetches) := dispatch method path r (site_server w) (site_fetches w) in
      (res, mkSite s fetches limits)
  end.
End Router.
