(* ===== verification/SystemFacts.v ===== *)
(** * Handlers as sequences of data-access calls

    Whatever a handler or a background pass does to the tables, it does
    through the data-access methods: each takes the tables along [calls P], the
    sequences of such calls from a class [P], any of their statements failing. *)

From S2P Require Import Prelude GoString Json JsonDecode Models Config XrayTypes Parser.
From S2P Require Import ConfigWriter Admin Schema Database DatabaseFacts Syncer SyncerProps.
From S2P Require Import Server ServerFacts Routes Nodes Users Emergency Killswitch Startup.

Section Calls.
Context `{Clock}.

(** The calls apart from the switch of the fallback, which only its two
    handlers use; a class of calls that has all of these. *)
Definition routine (op : dbop) : Prop := match op with OpSetFallbackEnabled _ => False | _ => True end.
Definition Routine (P : dbop → Prop) : Prop := ∀ op, routine op → P op.
Definition any_call (op : dbop) : Prop := True.
Lemma routine_any : Routine any_call. Proof. done. Qed.
Lemma routine_routine : Routine routine. Proof. by intros op. Qed.

(** A call of the class [P], any of whose statements may fail. *)
Inductive call_step (P : dbop → Prop) (t t' : Tables) : Prop :=
  | call_step_op op faults (_ : P op) (_ : t' = db_tables (run_op op (mkDB t faults)).2).
Definition calls (P : dbop → Prop) : Tables → Tables → Prop := rtc (call_step P).
#[export] Instance calls_preorder P : PreOrder (calls P).
Proof. unfold calls. apply _. Qed.
Lemma calls_db_steps P t t' : calls P t t' → rtc db_step t t'.
Proof. induction 1 as [|t t1 t2 [op faults _ Ht] _ IH]; [done|]. eapply rtc_l; [by exists op faults|done]. Qed.

Lemma calls_op P op : P op → db_advances (calls P) (run_op op).
Proof. intros Hop [t fs]. apply rtc_once. by exists op fs. Qed.
Lemma calls_unit P {A} (m : M DB A) : db_advances (calls P) (m ;;; ret tt) → db_advances (calls P) m.
Proof. intros Hm s. specialize (Hm s). unfold bind in Hm. by destruct (m s) as [[e|a] s']. Qed.
Lemma reads_advances (R : Tables → Tables → Prop) `{!PreOrder R} {A} (m : M DB A) :
  reads m → db_advances R m.
Proof. intros Hm s. by rewrite Hm. Qed.

(** The write operations the server uses. *)
Section Writes.
Context {P : dbop → Prop} (HP : Routine P).
Abbreviation writes m := (db_advances (calls P) m).
Lemma calls_CreateUser now u e t f : writes (CreateUser now u e t f).
Proof using HP. apply (calls_unit P), (calls_op P (OpCreateUser now u e t f)), HP; exact I. Qed.
Lemma calls_SetUserHy2Enabled now u b : writes (SetUserHy2Enabled now u b).
Proof using HP. apply (calls_op P (OpSetUserHy2Enabled now u b)), HP; exact I. Qed.
Lemma calls_UpdateUserToken now u t : writes (UpdateUserToken now u t).
Proof using HP. apply (calls_op P (OpUpdateUserToken now u t)), HP; exact I. Qed.
Lemma calls_UpdateFallbackToken now u t : writes (UpdateFallbackToken now u t).
Proof using HP. apply (calls_op P (OpUpdateFallbackToken now u t)), HP; exact I. Qed.
Lemma calls_SetFallbackAccessedAt u a : writes (SetFallbackAccessedAt u a).
Proof using HP. apply (calls_op P (OpSetFallbackAccessedAt u a)), HP; exact I. Qed.
Lemma calls_SetUserEnabled now u b : writes (SetUserEnabled now u b).
Proof using HP. apply (calls_op P (OpSetUserEnabled now u b)), HP; exact I. Qed.
Lemma calls_UpdateUserClientRoutes now u r : writes (UpdateUserClientRoutes now u r).
Proof using HP. apply (calls_op P (OpUpdateUserClientRoutes now u r)), HP; exact I. Qed.
Lemma calls_DeleteUser u : writes (DeleteUser u).
Proof using HP. apply (calls_op P (OpDeleteUser u)), HP; exact I. Qed.
Lemma calls_UpdateGlobalClientRoutes r : writes (UpdateGlobalClientRoutes r).
Proof using HP. apply (calls_op P (OpUpdateGlobalClientRoutes r)), HP; exact I. Qed.
Lemma calls_SetBalancerRuntimeConfig c : writes (SetBalancerRuntimeConfig c).
Proof using HP. apply (calls_op P (OpSetBalancerRuntimeConfig c)), HP; exact I. Qed.
Lemma calls_DeleteBalancerRuntimeConfig : writes DeleteBalancerRuntimeConfig.
Proof using HP. apply (calls_op P OpDeleteBalancerRuntimeConfig), HP; exact I. Qed.
Lemma calls_UpsertInbound now tag p port f raw : writes (UpsertInbound now tag p port f raw).
Proof using HP. apply (calls_unit P), (calls_op P (OpUpsertInbound now tag p port f raw)), HP; exact I. Qed.
Lemma calls_DeleteInboundByTag tag : writes (DeleteInboundByTag tag).
Proof using HP. apply (calls_op P (OpDeleteInboundByTag tag)), HP; exact I. Qed.
Lemma calls_UpsertUserClient u i c : writes (UpsertUserClient u i c).
Proof using HP. apply (calls_op P (OpUpsertUserClient u i c)), HP; exact I. Qed.
Lemma calls_SetUserClientEnabled u i b : writes (SetUserClientEnabled u i b).
Proof using HP. apply (calls_op P (OpSetUserClientEnabled u i b)), HP; exact I. Qed.
Lemma calls_CreateEmergencyProfile now n d tags : writes (CreateEmergencyProfile now n d tags).
Proof using HP. apply (calls_unit P), (calls_op P (OpCreateEmergencyProfile now n d tags)), HP; exact I. Qed.
Lemma calls_UpdateEmergencyProfile now i n d tags :
  writes (UpdateEmergencyProfile now i n d tags).
Proof using HP. apply (calls_unit P), (calls_op P (OpUpdateEmergencyProfile now i n d tags)), HP; exact I. Qed.
Lemma calls_DeleteEmergencyProfile i : writes (DeleteEmergencyProfile i).
Proof using HP. apply (calls_op P (OpDeleteEmergencyProfile i)), HP; exact I. Qed.
Lemma calls_ActivateEmergency now i : writes (ActivateEmergency now i).
Proof using HP. apply (calls_op P (OpActivateEmergency now i)), HP; exact I. Qed.
Lemma calls_DeactivateEmergency : writes DeactivateEmergency.
Proof using HP. apply (calls_op P OpDeactivateEmergency), HP; exact I. Qed.
Lemma calls_ReconcileNodes now d : writes (ReconcileNodes now d).
Proof using HP. apply (calls_op P (OpReconcileNodes now d)), HP; exact I. Qed.
Lemma calls_Backfill : writes BackfillUserNodesToEnabled.
Proof using HP. apply (calls_op P OpBackfill), HP; exact I. Qed.
Lemma calls_SetUserNodes u ns : writes (SetUserNodes u ns).
Proof using HP. apply (calls_op P (OpSetUserNodes u ns)), HP; exact I. Qed.
Lemma calls_RemoveUserFromNode u n : writes (RemoveUserFromNode u n).
Proof using HP. apply (calls_op P (OpRemoveUserFromNode u n)), HP; exact I. Qed.
End Writes.
Lemma calls_SetFallbackEnabled P b : (∀ b, P (OpSetFallbackEnabled b)) → db_advances (calls P) (SetFallbackEnabled b).
Proof. intros HP. apply (calls_op P (OpSetFallbackEnabled b)), HP. Qed.
Lemma any_switch b : any_call (OpSetFallbackEnabled b). Proof. done. Qed.
End Calls.

#[export] Hint Resolve routine_any routine_routine any_switch calls_preorder calls_CreateUser calls_SetUserHy2Enabled calls_UpdateUserToken
  calls_UpdateFallbackToken calls_SetFallbackAccessedAt calls_SetUserEnabled
  calls_UpdateUserClientRoutes calls_DeleteUser calls_SetFallbackEnabled
  calls_UpdateGlobalClientRoutes calls_SetBalancerRuntimeConfig calls_DeleteBalancerRuntimeConfig
  calls_UpsertInbound calls_DeleteInboundByTag calls_UpsertUserClient calls_SetUserClientEnabled
  calls_CreateEmergencyProfile calls_UpdateEmergencyProfile calls_DeleteEmergencyProfile
  calls_ActivateEmergency calls_DeactivateEmergency calls_ReconcileNodes calls_Backfill
  calls_SetUserNodes calls_RemoveUserFromNode : raven.

Lemma calls_sync `{Clock} {P} : Routine P → SyncRespects (calls P).
Proof. split; [apply _|auto with raven..]. Qed.
#[export] Hint Resolve calls_sync : raven.

(** ** Reads *)

Lemma reads_GetUserByID i : reads (GetUserByID i). Proof. apply reads_Query. Qed.
Lemma reads_GetUserByToken t : reads (GetUserByToken t). Proof. apply reads_Query. Qed.
Lemma reads_GetUserByUsername u : reads (GetUserByUsername u). Proof. apply reads_Query. Qed.
Lemma reads_GetUserByFallbackToken t : reads (GetUserByFallbackToken t).
Proof. unfold GetUserByFallbackToken. case_if; [apply reads_ret|apply reads_Query]. Qed.
Lemma reads_ListUsers : reads ListUsers. Proof. apply reads_Query. Qed.
Lemma reads_ListUsersPaginated l o : reads (ListUsersPaginated l o). Proof. apply reads_Query. Qed.
Lemma reads_CountUsers : reads CountUsers. Proof. apply reads_Query. Qed.
Lemma reads_ListInbounds : reads ListInbounds. Proof. apply reads_Query. Qed.
Lemma reads_ListInboundsPaginated l o : reads (ListInboundsPaginated l o). Proof. apply reads_Query. Qed.
Lemma reads_CountInbounds : reads CountInbounds. Proof. apply reads_Query. Qed.
Lemma reads_GetInboundByTag t : reads (Database.GetInboundByTag t). Proof. apply reads_Query. Qed.
Lemma reads_GetUserClients u : reads (Database.GetUserClients u). Proof. apply reads_Query. Qed.
Lemma reads_GetAllUserClients u : reads (GetAllUserClients u). Proof. apply reads_Query. Qed.
Lemma reads_GetUserClientByUserAndInbound u i : reads (GetUserClientByUserAndInbound u i).
Proof. apply reads_Query. Qed.
Lemma reads_ListNodes : reads ListNodes. Proof. apply reads_Query. Qed.
Lemma reads_ListNodesForUser u : reads (ListNodesForUser u). Proof. apply reads_Query. Qed.
Lemma reads_ListNodeIDsForUser u : reads (ListNodeIDsForUser u). Proof. apply reads_Query. Qed.
Lemma reads_GetNodeByName n : reads (GetNodeByName n). Proof. apply reads_Query. Qed.
Lemma reads_EnabledNodeIDs : reads EnabledNodeIDs. Proof. apply reads_Query. Qed.
Lemma reads_ListWantedClientsForNode n t : reads (ListWantedClientsForNode n t).
Proof. apply reads_Query. Qed.
Lemma reads_of_result {A} (r : error + A) : reads (of_result r). Proof. by destruct r. Qed.
Lemma reads_get_setting k : reads (get_setting k). Proof. apply reads_Query. Qed.
#[export] Hint Resolve reads_of_result reads_get_setting : raven.
Lemma reads_GetFallbackEnabled : reads GetFallbackEnabled.
Proof. unfold GetFallbackEnabled. auto with raven. Qed.
Lemma reads_GetGlobalClientRoutes : reads GetGlobalClientRoutes.
Proof. unfold GetGlobalClientRoutes. auto with raven. Qed.
Lemma reads_GetBalancerRuntimeConfig : reads GetBalancerRuntimeConfig.
Proof. unfold GetBalancerRuntimeConfig. apply reads_bind; [auto with raven|]. intros o. destruct o; auto with raven. Qed.
Lemma reads_GetEmergencyProfile i : reads (GetEmergencyProfile i).
Proof. unfold GetEmergencyProfile. apply reads_bind; [auto with raven|]. intros o. destruct o; auto with raven. Qed.
Lemma reads_ListEmergencyProfiles : reads ListEmergencyProfiles.
Proof.
  unfold ListEmergencyProfiles. apply reads_bind; [auto with raven|]. intros rows.
  induction rows; simpl; auto with raven.
Qed.
#[export] Hint Resolve reads_GetEmergencyProfile : raven.
Lemma reads_GetEmergencyStatus `{Clock} : reads GetEmergencyStatus.
Proof.
  unfold GetEmergencyStatus, read_profile_id. apply reads_bind; [auto with raven|]. intros o.
  destruct o; [|auto with raven]. case_if; [auto with raven|].
  apply reads_bind; [|auto with raven].
  apply reads_bind; [auto with raven|]. intros raw. destruct raw as [|o]; [auto with raven|].
  destruct o; [|auto with raven]. case_if; [auto with raven|]. destruct (Sscanf_d _); auto with raven.
Qed.
Lemma reads_resolveNodeNames names : reads (resolveNodeNames names).
Proof. induction names; simpl; [auto with raven|]. case_if; [done|]. apply reads_bind; [apply reads_Query|auto with raven]. Qed.
#[export] Hint Resolve reads_advances reads_GetUserByID reads_GetUserByToken reads_GetUserByUsername
  reads_GetUserByFallbackToken reads_ListUsers reads_ListUsersPaginated reads_CountUsers
  reads_ListInbounds reads_ListInboundsPaginated reads_CountInbounds reads_GetInboundByTag
  reads_GetUserClients reads_GetAllUserClients reads_GetUserClientByUserAndInbound reads_ListNodes
  reads_ListNodesForUser reads_ListNodeIDsForUser reads_GetNodeByName reads_EnabledNodeIDs
  reads_ListWantedClientsForNode reads_GetFallbackEnabled reads_GetGlobalClientRoutes
  reads_GetBalancerRuntimeConfig reads_ListEmergencyProfiles reads_GetEmergencyStatus
  reads_resolveNodeNames : raven.
