(* ===== verification/SystemSteps.v ===== *)
(** * What the handlers and passes do to the tables

    Every handler and every background pass takes the tables along the
    data-access calls of [SystemFacts]. *)

From S2P Require Import Prelude GoString Json JsonDecode Models Config XrayTypes Parser.
From S2P Require Import ConfigWriter Admin Schema Database DatabaseFacts Syncer SyncerProps.
From S2P Require Import Server ServerFacts Routes Nodes Users Emergency Killswitch Startup SystemFacts.

(** ** The lenses of the server's state *)

(** Go through the binds and the cases of a computation. *)
Ltac steps := repeat first
  [ progress intros
  | match goal with
    | |- h_advances _ _ (hbind _ _) => apply (h_advances_bind _ _)
    | |- advances _ _ (bind _ _) => apply (advances_bind _ _)
    | |- advances _ _ (for_each _ _) => apply (advances_for _ _)
    | |- h_advances _ _ (or_500 _) => apply h_advances_or_500
    | |- h_advances _ _ (attempt _) => apply h_advances_attempt
    | |- h_advances _ _ (match ?x with _ => _ end) => destruct x
    | |- advances _ _ (match ?x with _ => _ end) => destruct x
    end
  | solve [auto with raven] ].

Abbreviation tables_of := (λ s, db_tables (sv_db s)).

Section Lenses.
Context {E : Type} (R : Tables → Tables → Prop) {HR : PreOrder R}.
Abbreviation server_advances := (advances R (λ s : State E, db_tables (sv_db s))).

Lemma advances_on_db {A} (m : M DB A) : db_advances R m → server_advances (on_db m).
Proof using Type. intros Hm s. unfold on_db. specialize (Hm (sv_db s)). by destruct (m (sv_db s)). Qed.
Lemma advances_on_world {A} (m : M (Host * E) A) : server_advances (on_world m).
Proof using HR. intros s. unfold on_world. by destruct (m (sv_world s)). Qed.
Lemma advances_random {A} (m : M Host A) : server_advances (random m).
Proof using HR. apply advances_on_world. Qed.
Lemma advances_on_syncer {A} (m : M (SyncState E) A) :
  advances R (λ s, db_tables (sy_db s)) m → server_advances (on_syncer m).
Proof using Type.
  intros Hm s. unfold on_syncer.
  specialize (Hm (mkSyncState (sv_db s) (sv_world s) (bg_status (sv_background s)))). by destruct (m _).
Qed.
Lemma advances_storeNodeStatus name st : server_advances (storeNodeStatus name st).
Proof using HR. by intros s. Qed.
Lemma advances_generateToken : server_advances Server.generateToken.
Proof using HR. unfold Server.generateToken. auto using advances_random with raven. Qed.
Lemma advances_generateRouteID : server_advances generateRouteID.
Proof using HR. unfold generateRouteID. auto using advances_random with raven. Qed.
Lemma h_advances_decode_body {A} (d : decoder A) r :
  h_advances R (λ s : State E, db_tables (sv_db s)) (decode_body d r).
Proof using HR. unfold decode_body. destruct (Decode _ _); auto with raven. Qed.
Lemma h_advances_decode_whole_body {S A} (π : S → Tables) (d : decoder A) r :
  h_advances R π (decode_whole_body d r).
Proof using HR. unfold decode_whole_body. destruct (Decode _ _); auto with raven. Qed.
Lemma h_advances_or_internal {S A} (π : S → Tables) (m : M S A) :
  advances R π m → h_advances R π (or_internal m).
Proof using Type. apply h_advances_or_fail. Qed.
Lemma h_advances_or_conflict {S A} (π : S → Tables) (m : M S A) :
  advances R π m → h_advances R π (or_conflict m).
Proof using Type. apply h_advances_or_fail. Qed.
End Lenses.
#[export] Hint Resolve advances_on_db advances_on_world advances_random advances_on_syncer
  advances_storeNodeStatus advances_generateToken advances_generateRouteID h_advances_decode_body
  h_advances_decode_whole_body h_advances_or_internal h_advances_or_conflict : raven.

(** ** The passes and what the user handlers are made of

    All they write is what a synchronisation pass writes, so they respect
    every relation that such a pass respects. *)

Section Provisioning.
Context {E : Type} `{HandlerService E} `{FileOrder} (cfg : Config) (now : Z).
Context (R : Tables → Tables → Prop) {SR : SyncRespects R}.
Abbreviation state_advances := (advances R (λ s : State E, db_tables (sv_db s))).
#[local] Instance provisioning_preorder : PreOrder R := sync_preorder.
#[local] Hint Resolve provisioning_preorder : raven.

(** *** Synchronisation *)

Lemma keeps_syncer_Sync : state_advances (syncer_Sync cfg now).
Proof using SR. apply (advances_on_syncer R), (keeps_Sync cfg now). Qed.
Hint Resolve keeps_syncer_Sync : raven.
Lemma keeps_go_Sync : state_advances (go_Sync cfg now).
Proof using SR.
  intros s. unfold go_Sync. destruct (bg_schedule (sv_background s)) as [|[] ?]; [done| |done].
  exact (advances_logged _ _ _ keeps_syncer_Sync (with_background next_turn s)).
Qed.
Lemma keeps_run_pending : state_advances (run_pending cfg now).
Proof using SR.
  intros s. unfold run_pending. destruct (bg_pending (sv_background s)) as [|n]; [done|].
  exact (advances_logged _ _ _ keeps_syncer_Sync (with_background _ s)).
Qed.
Hint Resolve keeps_go_Sync : raven.

(** *** Users and clients *)

Lemma keeps_removeUserFromXray id u : state_advances (removeUserFromXray cfg now id u).
Proof using SR. unfold removeUserFromXray. steps. Qed.
Lemma keeps_addUserToXray id u : state_advances (addUserToXray cfg now id u).
Proof using SR. unfold addUserToXray. steps. Qed.
Lemma keeps_addClientToXray u t c : state_advances (addClientToXray cfg now u t c).
Proof using SR. unfold addClientToXray. steps. Qed.
Lemma keeps_removeClientFromXray u t : state_advances (removeClientFromXray cfg now u t).
Proof using SR. unfold removeClientFromXray. steps. Qed.
Hint Resolve keeps_removeUserFromXray keeps_addUserToXray keeps_addClientToXray keeps_removeClientFromXray : raven.

Lemma keeps_all_inbounds : state_advances all_inbounds_or_none.
Proof using SR. unfold all_inbounds_or_none. auto with raven. Qed.
Hint Resolve keeps_all_inbounds : raven.
Lemma keeps_link_by_tag id t c : state_advances (link_by_tag id t c).
Proof using SR. unfold link_by_tag. steps. Qed.
Lemma keeps_link_new_inbound id t p n f raw c : state_advances (link_new_inbound now id t p n f raw c).
Proof using SR. unfold link_new_inbound. steps. Qed.
Hint Resolve keeps_link_by_tag keeps_link_new_inbound : raven.
Lemma keeps_addUserToInbound u t p : state_advances (addUserToInbound cfg now u t p).
Proof using SR. unfold addUserToInbound, or_else, link_from_files, link_managed. steps. Qed.
Hint Resolve keeps_addUserToInbound : raven.
End Provisioning.

(** ** Handlers and passes *)

Section Handlers.
Context {E : Type} `{HandlerService E} `{FileOrder} `{Clock} (cfg : Config) (now : Z).
Context {P : dbop → Prop} (HP : Routine P).
#[local] Instance calls_sync_here : SyncRespects (calls P) := calls_sync HP.

Abbreviation state_calls := (advances (calls P) (λ s : State E, db_tables (sv_db s))).
Abbreviation handler_calls := (h_advances (calls P) (λ s : State E, db_tables (sv_db s))).

Lemma calls_getByID r : handler_calls (getByID r).
Proof using HP. unfold getByID. steps. destruct (ParseInt _); auto with raven. Qed.
Hint Resolve calls_getByID : raven.

(** *** Users and clients *)

Lemma calls_syncer_Sync : state_calls (syncer_Sync cfg now).
Proof using HP. apply (keeps_syncer_Sync cfg now (calls P)). Qed.
Lemma calls_go_Sync : state_calls (go_Sync cfg now).
Proof using HP. apply (keeps_go_Sync cfg now (calls P)). Qed.
Lemma calls_run_pending : state_calls (run_pending cfg now).
Proof using HP. apply (keeps_run_pending cfg now (calls P)). Qed.
Hint Resolve keeps_removeUserFromXray keeps_addUserToXray keeps_addClientToXray
  keeps_removeClientFromXray keeps_all_inbounds keeps_addUserToInbound calls_go_Sync : raven.
Lemma calls_placeUserOnNodes id names : db_advances (calls P) (placeUserOnNodes cfg id names).
Proof using HP. unfold placeUserOnNodes. steps. Qed.
Hint Resolve calls_placeUserOnNodes : raven.

Lemma calls_listing {A B} r (all : M DB (list A)) page count (render : list A → list B) whole :
  reads all → (∀ l o, reads (page l o)) → reads count → handler_calls (listing r all page count render whole).
Proof using HP. intros. unfold listing. steps. Qed.
Hint Resolve calls_listing : raven.

Lemma calls_createUser r : handler_calls (createUser cfg now r).
Proof using HP. unfold createUser, check_placement, add_to_spec. steps. Qed.
Lemma calls_deleteUser r : handler_calls (deleteUser cfg now r).
Proof using HP. unfold deleteUser. steps. Qed.
Lemma calls_setUserEnabled r b : handler_calls (setUserEnabled cfg now r b).
Proof using HP. unfold setUserEnabled. destruct b; steps. Qed.
Lemma calls_addUserClient r : handler_calls (addUserClient cfg now r).
Proof using HP. unfold addUserClient. steps. Qed.
Lemma calls_setClientEnabled r b : handler_calls (setClientEnabled cfg now r b).
Proof using HP. unfold setClientEnabled. steps. Qed.
Lemma calls_regenerateToken r : handler_calls (regenerateToken cfg now r).
Proof using HP. unfold regenerateToken. steps. Qed.
Lemma calls_getUserByTokenHandler r : handler_calls (getUserByTokenHandler cfg r).
Proof using HP. unfold getUserByTokenHandler. steps. Qed.
Lemma calls_listUsers r : handler_calls (listUsers cfg r).
Proof using HP. apply calls_listing; auto with raven. Qed.
Lemma calls_listInbounds r : handler_calls (listInbounds cfg r).
Proof using HP. apply calls_listing; auto with raven. Qed.
Lemma calls_handleSyncStatus : handler_calls (handleSyncStatus cfg now).
Proof using HP. by intros s. Qed.
Lemma calls_setUserHy2 r : handler_calls (setUserHy2 now r).
Proof using HP. unfold setUserHy2. steps. Qed.
Lemma calls_getUser r : handler_calls (getUser cfg r).
Proof using HP. unfold getUser. steps. Qed.
Lemma calls_getUserHy2 r : handler_calls (getUserHy2 r).
Proof using HP. unfold getUserHy2. steps. Qed.
Lemma calls_getUserClients r : handler_calls (Users.getUserClients r).
Proof using HP. unfold Users.getUserClients. steps. Qed.

(** *** Routes and the balancer *)

Lemma calls_assignRouteIDs rules : state_calls (assignRouteIDs rules).
Proof using HP. induction rules; simpl; steps. Qed.
Hint Resolve calls_assignRouteIDs : raven.
Lemma calls_assign_slice rules : state_calls (assign_slice rules).
Proof using HP. unfold assign_slice. steps. Qed.
Lemma calls_saveUserRoutes id rules : state_calls (saveUserRoutes now id rules).
Proof using HP. unfold saveUserRoutes. auto with raven. Qed.
Hint Resolve calls_assign_slice calls_saveUserRoutes : raven.
Lemma calls_stored_rules u : handler_calls (stored_rules now u).
Proof using HP. unfold stored_rules. steps. Qed.
Lemma calls_checked rules : handler_calls (checked rules).
Proof using HP. unfold checked. steps. Qed.
Lemma calls_save_global rules : handler_calls (save_global rules).
Proof using HP. unfold save_global. auto with raven. Qed.
Hint Resolve calls_stored_rules calls_checked calls_save_global : raven.
Lemma calls_stored_global_rules : handler_calls stored_global_rules.
Proof using HP. unfold stored_global_rules. steps. Qed.
Hint Resolve calls_stored_global_rules : raven.
Lemma calls_delete_at u i rules : handler_calls (delete_at now u i rules).
Proof using HP. unfold delete_at. steps. Qed.
Hint Resolve calls_delete_at : raven.
Lemma calls_getUserRoutes r : handler_calls (getUserRoutes now r).
Proof using HP. unfold getUserRoutes. steps. Qed.
Lemma calls_setUserRoutes r : handler_calls (setUserRoutes now r).
Proof using HP. unfold setUserRoutes. steps. Qed.
Lemma calls_addUserRoute r : handler_calls (addUserRoute now r).
Proof using HP. unfold addUserRoute. steps. Qed.
Lemma calls_updateUserRoute r : handler_calls (updateUserRoute now r).
Proof using HP. unfold updateUserRoute. steps. Qed.
Lemma calls_updateUserRouteByID r : handler_calls (updateUserRouteByID now r).
Proof using HP. unfold updateUserRouteByID. steps. Qed.
Lemma calls_deleteUserRoute r : handler_calls (deleteUserRoute now r).
Proof using HP. unfold deleteUserRoute. steps. Qed.
Lemma calls_deleteUserRouteByID r : handler_calls (deleteUserRouteByID now r).
Proof using HP. unfold deleteUserRouteByID. steps. Qed.
Lemma calls_setGlobalRoutes r : handler_calls (setGlobalRoutes r).
Proof using HP. unfold setGlobalRoutes. steps. Qed.
Lemma calls_addGlobalRoute r : handler_calls (addGlobalRoute r).
Proof using HP. unfold addGlobalRoute. steps. Qed.
Lemma calls_deleteGlobalRoutes : handler_calls deleteGlobalRoutes.
Proof using HP. unfold deleteGlobalRoutes. auto with raven. Qed.
Lemma calls_getBalancerConfig : handler_calls (getBalancerConfig cfg).
Proof using HP. unfold getBalancerConfig, getEffectiveBalancerConfig. steps. Qed.
Lemma calls_setBalancerConfig r : handler_calls (setBalancerConfig cfg r).
Proof using HP. unfold setBalancerConfig. steps. Qed.

(** *** Nodes *)

Lemma calls_listNodes : handler_calls listNodes.
Proof using HP. unfold listNodes. auto with raven. Qed.
Lemma calls_getUserNodes r : handler_calls (getUserNodes r).
Proof using HP. unfold getUserNodes. steps. Qed.
Lemma calls_setUserNodes r : handler_calls (Nodes.setUserNodes cfg r).
Proof using HP. unfold Nodes.setUserNodes. steps. Qed.
Lemma calls_deleteUserNode r : handler_calls (deleteUserNode cfg r).
Proof using HP. unfold deleteUserNode. steps. Qed.
Lemma calls_reconcileOneNode n : state_calls (reconcileOneNode now n).
Proof using HP. unfold reconcileOneNode. steps. Qed.
Hint Resolve calls_reconcileOneNode : raven.
Lemma calls_reconcileNodesOnce : state_calls (reconcileNodesOnce now).
Proof using HP. unfold reconcileNodesOnce. steps. Qed.

(** *** Emergency and fallback *)

Lemma calls_getEmergencyStatus : handler_calls getEmergencyStatus.
Proof using HP. unfold getEmergencyStatus. auto with raven. Qed.
Lemma calls_activateEmergency r : handler_calls (activateEmergency now r).
Proof using HP. unfold activateEmergency. steps. Qed.
Lemma calls_deactivateEmergency : handler_calls deactivateEmergency.
Proof using HP. unfold deactivateEmergency. steps. Qed.
Lemma calls_listEmergencyProfiles : handler_calls listEmergencyProfiles.
Proof using HP. unfold listEmergencyProfiles. auto with raven. Qed.
Lemma calls_profile_request r : handler_calls (profile_request r).
Proof using HP. unfold profile_request. steps. Qed.
Lemma calls_parseProfileID r : handler_calls (parseProfileID r).
Proof using HP. unfold parseProfileID. steps. Qed.
Lemma calls_found_profile p : handler_calls (found_profile p).
Proof using HP. unfold found_profile. steps. Qed.
Hint Resolve calls_profile_request calls_parseProfileID calls_found_profile : raven.
Lemma calls_createEmergencyProfile r : handler_calls (createEmergencyProfile now r).
Proof using HP. unfold createEmergencyProfile. steps. Qed.
Lemma calls_getEmergencyProfileByID r : handler_calls (getEmergencyProfileByID r).
Proof using HP. unfold getEmergencyProfileByID. steps. Qed.
Lemma calls_updateEmergencyProfile r : handler_calls (updateEmergencyProfile now r).
Proof using HP. unfold updateEmergencyProfile. steps. Qed.
Lemma calls_deleteEmergencyProfile r : handler_calls (deleteEmergencyProfile r).
Proof using HP. unfold deleteEmergencyProfile. steps. Qed.
Lemma calls_regenerateFallbackToken r : handler_calls (regenerateFallbackToken cfg now r).
Proof using HP. unfold regenerateFallbackToken. steps. Qed.
Lemma calls_getFallbackStatus : handler_calls getFallbackStatus.
Proof using HP. unfold getFallbackStatus. auto with raven. Qed.
Lemma calls_applyKillSwitch b : state_calls (applyKillSwitchInboundsLocked cfg b).
Proof using HP. unfold applyKillSwitchInboundsLocked, enable_inbound, disable_inbound. steps. Qed.
Hint Resolve calls_applyKillSwitch : raven.
Lemma calls_enableFallback : (∀ b, P (OpSetFallbackEnabled b)) → handler_calls (enableFallback cfg).
Proof using HP. unfold enableFallback. steps. Qed.
Lemma calls_disableFallback : (∀ b, P (OpSetFallbackEnabled b)) → handler_calls (disableFallback cfg).
Proof using HP. unfold disableFallback. steps. Qed.
Lemma calls_reconcileKillSwitch : state_calls (reconcileKillSwitchLocked cfg).
Proof using HP. unfold reconcileKillSwitchLocked. steps. Qed.
Lemma calls_listFallbackAccessedUsers : handler_calls (listFallbackAccessedUsers cfg).
Proof using HP. unfold listFallbackAccessedUsers. steps. Qed.

(** *** Start-up *)

Lemma calls_RestoreOnStartup : advances (calls P) (λ s : SyncState E, db_tables (sy_db s)) (RestoreOnStartup cfg).
Proof using HP.
  assert (He : ∀ A (m : M E A), advances (calls P) (λ s : SyncState E, db_tables (sy_db s)) (sy_on_engine m)).
  { intros A m s. unfold sy_on_engine. by destruct (on_engine m (sy_world s)). }
  assert (Hl : ∀ tag, reads (ListUserClientsByInboundTag tag)) by (intros; apply reads_Query).
  assert (Hd : ∀ A (m : M DB A), reads m → advances (calls P) (λ s : SyncState E, db_tables (sy_db s)) (sy_on_db m)).
  { intros A m Hm. apply advances_sy_on_db, reads_advances; [apply _|done]. }
  unfold RestoreOnStartup, restore_inbound. steps.
Qed.
Hint Resolve calls_reconcileKillSwitch calls_RestoreOnStartup : raven.
Lemma calls_startup probe : state_calls (startup cfg now probe).
Proof using HP.
  unfold startup, ReconcileKillSwitchOnStartup, update_status, reconcileNodes.
  pose proof calls_syncer_Sync as Hs. unfold syncer_Sync in Hs.
  assert (Hp : advances (calls P) (λ s : SyncState E, db_tables (sy_db s)) (sy_record (Probe cfg probe))) by (by intros s).
  repeat (apply (advances_bind _ _); [|intros _]); auto 7 with raven.
Qed.
End Handlers.

#[export] Hint Resolve calls_getByID calls_syncer_Sync calls_go_Sync calls_run_pending calls_createUser
  calls_deleteUser calls_setUserEnabled calls_addUserClient calls_setClientEnabled
  calls_regenerateToken calls_getUserByTokenHandler calls_listUsers calls_listInbounds
  calls_handleSyncStatus calls_setUserHy2 calls_getUser calls_getUserHy2 calls_getUserClients
  calls_stored_global_rules calls_getUserRoutes calls_setUserRoutes calls_addUserRoute
  calls_updateUserRoute calls_updateUserRouteByID calls_deleteUserRoute calls_deleteUserRouteByID
  calls_setGlobalRoutes calls_addGlobalRoute calls_deleteGlobalRoutes calls_getBalancerConfig
  calls_setBalancerConfig calls_listNodes calls_getUserNodes calls_setUserNodes
  calls_deleteUserNode calls_reconcileNodesOnce calls_getEmergencyStatus calls_activateEmergency
  calls_deactivateEmergency calls_listEmergencyProfiles calls_createEmergencyProfile
  calls_getEmergencyProfileByID calls_updateEmergencyProfile calls_deleteEmergencyProfile
  calls_regenerateFallbackToken calls_getFallbackStatus calls_enableFallback calls_disableFallback
  calls_reconcileKillSwitch calls_listFallbackAccessedUsers calls_startup : raven.
