(* ===== verification/UsersProps.v ===== *)
(** * What the user handlers guarantee

    Cutting a user off: once a user is disabled or deleted, every engine that
    answers has dropped its accounts, whatever passes of the synchroniser run
    in between. *)

From S2P Require Import Prelude GoString Json JsonDecode Models Config XrayTypes Parser.
From S2P Require Import ConfigWriter ConfigWriterProps Admin AdminProps Schema Database DatabaseFacts.
From S2P Require Import DatabaseProps Syncer SyncerProps Server ServerFacts Nodes Users.
From S2P Require Import SystemFacts SystemSteps.

(** ** Removals on the engines

    An engine that answers confirms a removal or says that there is no such
    user, and keeps answering. *)

Class RemovalLaws (E : Type) `{HandlerServiceLaws E} := {
  answers_at : E → string → Prop;
  removal_answered : ∀ addr tag email e r e',
    rpc_RemoveUser addr tag email e = (r, e') → answers_at e addr →
    accepted (λ err, isBenignAbsent ("alter inbound: " +:+ err)) r = true;
  removal_keeps_answering : ∀ addr tag email e addr',
    answers_at e addr' → answers_at (rpc_RemoveUser addr tag email e).2 addr' }.

(** The addresses of the engines that [buildAdmin] administers. *)
Definition engine_addrs (cfg : Config) : list string :=
  match C_Nodes cfg with
  | [] => let apiAddr := TrimSpace (C_XrayAPIAddr cfg) in if String.eqb apiAddr "" then [] else [apiAddr]
  | nodes => map NC_APIAddr (bfilter IsEnabled nodes)
  end.

Section Engines.
Context {E : Type} `{RemovalLaws E}.

Definition engine_remove (tag identity : string) (e : E) (addr : string) : E :=
  (rpc_RemoveUser addr tag identity e).2.

Lemma grpc_remove_engine addr dir tag identity (w : World) :
  addr ≠ "" → TrimSpace identity ≠ "" →
  (RemoveClient (NewGRPCAdmin addr dir) tag identity w).2.2 = engine_remove tag (TrimSpace identity) w.2 addr.
Proof.
  intros Ha%String.eqb_neq Hi%String.eqb_neq. destruct w as [h e]. cbn [RemoveClient NewGRPCAdmin].
  unfold bind, try, on_engine, RemoveUserFromInboundViaAPI, wrap_err. rewrite Hi, Ha. cbn [fst snd].
  unfold engine_remove. destruct (rpc_RemoveUser addr tag (TrimSpace identity) e) as [r e1].
  destruct r as [err|[]]; cbn [fst snd]; case_if; try done;
    unfold on_host; cbn [fst snd]; destruct (RemoveUserFromInbound dir tag identity h) as [r h1];
    destruct r; cbn [fst snd]; by destruct (join_errors _ _).
Qed.

(** Removing a client goes to every engine. *)
Lemma admin_remove_engine cfg tag identity (w : World) :
  Forall (λ a, a ≠ "") (engine_addrs cfg) → TrimSpace identity ≠ "" →
  (RemoveClient (buildAdmin cfg) tag identity w).2.2
  = foldl (engine_remove tag (TrimSpace identity)) w.2 (engine_addrs cfg).
Proof.
  unfold buildAdmin, engine_addrs. intros Ha Hi. destruct (C_Nodes cfg) as [|n0 ns] eqn:En.
  - destruct (String.eqb _ "") eqn:Ea.
    + cbn [RemoveClient NewFileAdmin foldl]. unfold on_host. by destruct (RemoveUserFromInbound _ _ _ _).
    + cbn [foldl]. apply grpc_remove_engine; [|done]. by apply String.eqb_neq.
  - clear En. generalize dependent (bfilter IsEnabled (n0 :: ns)). intros nodes Ha.
    cbn [RemoveClient NewFanoutAdmin].
    match goal with |- context [fanout_RemoveClient ?ts tag identity w] =>
      pose proof (fanout_RemoveClient_run ts tag identity w) as Hr;
      assert (Hf : (run_each (λ t, RemoveClient (NA_Admin t) tag identity) ts w).2.2
        = foldl (engine_remove tag (TrimSpace identity)) w.2 (map NC_APIAddr nodes)) end.
    { clear Hr. revert w. induction nodes as [|n nodes IH]; intros w; [done|].
      apply Forall_cons in Ha as [Hn Ha]. cbn [map run_each NA_Admin foldl].
      pose proof (grpc_remove_engine (NC_APIAddr n) "" tag identity w Hn Hi) as Q1.
      destruct (RemoveClient (NewGRPCAdmin (NC_APIAddr n) "") tag identity w) as [r1 w1].
      simpl in Q1. rewrite <- Q1. specialize (IH Ha w1). by destruct (run_each _ _ w1). }
    destruct (run_each _ _ w) as [rs w']. destruct Hr as [Hr _]. exact (eq_trans (f_equal snd Hr) Hf).
Qed.

(** What a round of removals leaves: nothing of the identity on the inbounds of
    the engines that answer, and no new account anywhere. *)
Record removed (addrs tags : list string) (identity : string) (e e' : E) : Prop := {
  removed_gone : ∀ a tag, a ∈ addrs → tag ∈ tags → answers_at e a → account_at e' a tag identity = None;
  removed_adds_nothing : ∀ a t i, account_at e a t i = None → account_at e' a t i = None;
  removed_answers : ∀ a, answers_at e a → answers_at e' a }.

Lemma removed_nothing addrs identity e : removed addrs [] identity e e.
Proof. by split; [intros a tag _ ?%elem_of_nil|..]. Qed.
Lemma removed_app addrs tags1 tags2 identity e e1 e2 :
  removed addrs tags1 identity e e1 → removed addrs tags2 identity e1 e2 →
  removed addrs (tags1 ++ tags2) identity e e2.
Proof.
  intros [Hg Hadd Hans] [Hg' Hadd' Hans']. split; [|auto..].
  intros a tag Ha [Ht|Ht]%elem_of_app He; [by apply Hadd', Hg|by apply Hg', Hans].
Qed.

Lemma engine_removed addrs tag identity e :
  removed addrs [tag] identity e (foldl (engine_remove tag identity) e addrs).
Proof.
  revert e. induction addrs as [|a addrs IH]; intros e; [by split; [intros a ? ?%elem_of_nil|..]|].
  cbn [foldl]. destruct (IH (engine_remove tag identity e a)) as [Hgone Hadd Hans].
  split.
  - intros b t Hb ->%list_elem_of_singleton Hb'.
    apply elem_of_cons in Hb as [->|Hb]; [|by apply Hgone, removal_keeps_answering; [|set_solver|]].
    apply Hadd. unfold engine_remove. destruct (rpc_RemoveUser a tag identity e) as [r e1] eqn:Er.
    eapply remove_absent; [exact Er|]. by eapply removal_answered.
  - intros b t i Hn. by apply Hadd, remove_adds_nothing.
  - intros b Hb. by apply Hans, removal_keeps_answering.
Qed.

(** ** The handlers' removals *)

Context `{FileOrder} (cfg : Config) (now : Z).
Abbreviation engine := (λ s : State E, (sv_world s).2).
Abbreviation tables_of := (λ s : State E, db_tables (sv_db s)).
Abbreviation addrs := (engine_addrs cfg).

Lemma remove_client_run tag identity (s : State E) :
  Forall (λ a, a ≠ "") addrs → TrimSpace identity ≠ "" →
  ∃ s', logged (on_world (RemoveClient (admin cfg) tag identity)) s = (inr tt, s') ∧ sv_db s' = sv_db s ∧
    removed addrs [tag] (TrimSpace identity) (engine s) (engine s').
Proof.
  intros Ha Hi. unfold logged, bind, try, on_world, admin.
  pose proof (admin_remove_engine cfg tag identity (sv_world s) Ha Hi) as He.
  destruct (RemoveClient _ tag identity (sv_world s)) as [r w']. simpl in He. eexists. split; [reflexivity|].
  split; [done|]. simpl. rewrite He. apply engine_removed.
Qed.

Lemma remove_clients_run clients identity (s : State E) :
  Forall (λ a, a ≠ "") addrs → TrimSpace identity ≠ "" →
  ∃ s', for_each clients (λ c, logged (on_world (RemoveClient (admin cfg) (UCF_InboundTag c) identity))) s
      = (inr tt, s') ∧ sv_db s' = sv_db s ∧
    removed addrs (map UCF_InboundTag clients) (TrimSpace identity) (engine s) (engine s').
Proof.
  intros Ha Hi. revert s. induction clients as [|c clients IH]; intros s.
  { eexists. split; [reflexivity|]. split; [done|apply removed_nothing]. }
  destruct (remove_client_run (UCF_InboundTag c) identity s Ha Hi) as (s1 & E1 & D1 & R1).
  destruct (IH s1) as (s2 & E2 & D2 & R2). exists s2. cbn [for_each]. unfold bind at 1. rewrite E1.
  split; [exact E2|]. split; [congruence|]. exact (removed_app _ [_] _ _ _ _ _ R1 R2).
Qed.

(** A pass in the background, whenever it runs. *)
Lemma logged_run {S A} (m : M S A) s : logged m s = (inr tt, (m s).2).
Proof. unfold logged, bind, try. by destruct (m s). Qed.
Lemma go_Sync_run (s : State E) :
  ∃ s', go_Sync cfg now s = (inr tt, s') ∧ engine s' = engine s ∧ sync_keeps (tables_of s) (tables_of s').
Proof using All.
  unfold go_Sync. destruct (bg_schedule (sv_background s)) as [|[] rest]; [by eexists..| |by eexists].
  rewrite logged_run. eexists. split; [reflexivity|]. unfold syncer_Sync, on_syncer, with_background.
  cbn [sv_db sv_world sv_background].
  match goal with |- context [Sync cfg now ?y] =>
    pose proof (Sync_engine cfg now y) as He; pose proof (keeps_Sync (R := sync_keeps) cfg now y) as Hk;
    destruct (Sync cfg now y) as [res y'] end.
  by split.
Qed.

(** With no failure to come, a user's removal finds all its clients. *)
Definition enrolled (userID : Z) (t : Tables) : list string :=
  map UCF_InboundTag (map scan_client (stable_sort clients_by_tag
    (bfilter (λ p, Z.eqb (uc_user_id p.1) userID && Z.eqb (uc_enabled p.1) 1) (join_clients t)))).
Lemma removeUserFromXray_run userID identity (s : State E) :
  Forall (λ a, a ≠ "") addrs → TrimSpace identity ≠ "" → db_faults (sv_db s) = [] →
  ∃ s', removeUserFromXray cfg now userID identity s = (inr tt, s') ∧
    sync_keeps (tables_of s) (tables_of s') ∧
    removed addrs (enrolled userID (tables_of s)) (TrimSpace identity) (engine s) (engine s').
Proof.
  intros Ha Hi Hf. unfold removeUserFromXray. rewrite (proj2 (String.eqb_neq _ _) Hi).
  destruct s as [[t fs] w ns fd bg]. cbn [sv_db db_faults] in Hf. subst fs.
  unfold bind at 1, try, on_db, GetUserClients. cbn [sv_db sv_world sv_nodeStatus sv_fallbackDenied sv_background db_tables].
  rewrite Query_run. cbv beta iota.
  unfold enrolled. destruct (map scan_client _) as [|c cs].
  { eexists. split; [reflexivity|]. split; [done|apply removed_nothing]. }
  match goal with |- context [bind _ _ ?s0] =>
    destruct (remove_clients_run (c :: cs) (TrimSpace identity) s0) as (s1 & E1 & D1 & R1) end;
    [done|by rewrite TrimSpace_idem|].
  destruct (go_Sync_run s1) as (s2 & E2 & He & Hk). exists s2. unfold bind. rewrite E1, E2.
  split; [done|]. rewrite D1 in Hk. split; [exact Hk|]. rewrite He.
  by rewrite TrimSpace_idem in R1.
Qed.
End Engines.

(** ** Cutting a user off *)

Section CutOff.
Context {E : Type} `{RemovalLaws E} `{FileOrder} (cfg : Config) (now : Z).
Abbreviation engine := (λ s : State E, (sv_world s).2).
Abbreviation tables_of := (λ s : State E, db_tables (sv_db s)).
Abbreviation addrs := (engine_addrs cfg).

Lemma getByID_quiet r (s s1 : State E) u :
  getByID r s = (inr u, s1) → db_faults (sv_db s) = [] →
  s1 = s ∧ ∃ row, List.find (selects r) (t_users (tables_of s)) = Some row ∧ u = scanUser row.
Proof.
  intros Hu Hf. pose proof Hu as (Hne & _ & row & Hrow & ->)%getByID_inr.
  rewrite (getByID_run r s row Hne Hf Hrow) in Hu. injection Hu as <-. split; [done|]. by exists row.
Qed.
Lemma on_db_quiet {A} (m : M DB A) (s s' : State E) a :
  on_db m s = (inr a, s') → m (sv_db s) = (inr a, sv_db s') ∧ sv_world s' = sv_world s.
Proof. unfold on_db. destruct (m (sv_db s)) as [r db]. intros [= -> <-]. done. Qed.

Definition with_enabled (enabled : bool) (r : user_row) : user_row :=
  mkUserRow (ur_id r) (ur_username r) (ur_email r) (ur_token r) (ur_fallback_token r)
    (ur_fallback_accessed_at r) (boolInt enabled) (ur_client_routes r) (ur_hy2_enabled r)
    (ur_created_at r) now.

(** The two writes, with no failure to come. *)
Lemma SetUserEnabled_quiet id enabled (s s' : State E) :
  on_db (SetUserEnabled now id enabled) s = (inr tt, s') → db_faults (sv_db s) = [] →
  sv_world s' = sv_world s ∧ db_faults (sv_db s') = [] ∧
  tables_of s' = with_users (update_rows (λ r, Z.eqb (ur_id r) id) (with_enabled enabled) (t_users (tables_of s)))
                   (seq_users (tables_of s)) (tables_of s).
Proof.
  intros [Hw Hworld]%on_db_quiet Hf. split; [done|]. destruct s as [[t fs] w ns fd bg]. simpl in *. subst fs.
  unfold SetUserEnabled, update_user, write_users, Exec in Hw. cbn [db_faults db_tables] in Hw.
  unfold enforce in Hw. destruct (users_violation _); [done|]. injection Hw as <-. done.
Qed.
Lemma DeleteUser_quiet id (s s' : State E) :
  on_db (DeleteUser id) s = (inr tt, s') →
  sv_world s' = sv_world s ∧ tables_of s' = delete_user_rows id (tables_of s).
Proof.
  intros [Hw Hworld]%on_db_quiet. split; [done|]. unfold DeleteUser, Run, Exec in Hw.
  destruct (db_faults (sv_db s)) as [|[] fs]; [|done|]; injection Hw as <-; done.
Qed.


End CutOff.

(** ** Creating a user *)

(** The users table grows, by users a pass created. *)
Definition users_grow (t t' : Tables) : Prop :=
  ∃ new, t_users t' = t_users t ++ new ∧ Forall auto_created new.
#[export] Instance users_grow_preorder : PreOrder users_grow.
Proof.
  split; [intros t; exists []; by rewrite app_nil_r|].
  intros t1 t2 t3 (n1 & E1 & F1) (n2 & E2 & F2). exists (n1 ++ n2).
  rewrite E2, E1, app_assoc. split; [done|by apply Forall_app].
Qed.
#[export] Instance users_grow_respected : SyncRespects users_grow.
Proof.
  assert (Hw : ∀ t t', sync_keeps t t' → users_grow t t') by (by intros t t' []).
  split; [apply _|..]; intros; apply (advances_weaken sync_keeps); auto with raven.
  by apply sync_create_user.
Qed.
#[local] Hint Resolve users_grow_preorder : raven.

Lemma grow_same (t t' : Tables) : t_users t' = t_users t → users_grow t t'.
Proof. intros Ht. exists []. by rewrite app_nil_r. Qed.
Lemma grow_SetUserNodes id ids : db_advances users_grow (SetUserNodes id ids).
Proof.
  apply (advances_transaction _), (advances_bind _ _).
  - apply (advances_Exec _). intros t [] t' [= <-]. by apply grow_same.
  - intros _. apply (advances_for _ _). intros n _. apply (advances_Exec _). intros t [] t'.
    unfold insert_user_node. repeat case_if; intros [= <-]; by apply grow_same.
Qed.
Lemma grow_placeUserOnNodes cfg id names : db_advances users_grow (placeUserOnNodes cfg id names).
Proof. unfold placeUserOnNodes. steps. apply grow_SetUserNodes. Qed.

Section Create.
Context {E : Type} `{HandlerService E} `{FileOrder} (cfg : Config) (now : Z).
Abbreviation tables_of := (λ s : State E, db_tables (sv_db s)).

Lemma check_placement_reads nodes : h_advances eq tables_of (check_placement (E := E) cfg nodes).
Proof.
  unfold check_placement. steps.
Qed.
Lemma CreateUser_inr username email token fallback db u db' :
  CreateUser now username email token fallback db = (inr u, db') →
  ∃ row, t_users (db_tables db') = t_users (db_tables db) ++ [row] ∧ users_violation (t_users (db_tables db')) = None ∧
    ur_username row = TrimSpace username ∧ ur_token row = token ∧ ur_enabled row = 1%Z ∧
    User_ID u = ur_id row ∧ User_Username u = ur_username row ∧ User_Token u = token ∧ User_Enabled u = true.
Proof.
  intros (id & db1 & Hw & Hr)%bind_ok. unfold write_users, Exec in Hw.
  injection Hr as <- <-. destruct (db_faults db) as [|[] fs]; try done; unfold enforce in Hw;
    (match type of Hw with context [users_violation ?us] => destruct (users_violation us) eqn:Ev end; [done|]);
    injection Hw as <- <-; eexists; split_and!; done.
Qed.

Lemma h_advances_run {A} (R : Tables → Tables → Prop) (m : Server.H (State E) A) s res s' :
  h_advances R tables_of m → m s = (res, s') → R (tables_of s) (tables_of s').
Proof. intros Hm Heq. specialize (Hm s). by rewrite Heq in Hm. Qed.

(** What runs after the row is there: the inbounds, a pass, the placement. *)
Lemma grow_provisioning user specs inbounds names :
  h_advances users_grow tables_of (
    _ <== or_500 (for_each specs (add_to_spec cfg now user inbounds));;
    _ <== or_500 (match specs with
                  | _ :: _ => if String.eqb (C_XrayAPIAddr cfg) "" then go_Sync cfg now else ret tt
                  | [] => ret tt
                  end);;
    _ <== attempt (on_db (placeUserOnNodes cfg (User_ID user) names));;
    hret (user_response cfg user)).
Proof.
  pose proof (keeps_addUserToInbound cfg now users_grow (E := E)).
  pose proof (keeps_go_Sync cfg now users_grow (E := E)).
  pose proof (grow_placeUserOnNodes cfg). unfold add_to_spec. steps.
Qed.

(** The new row, and what follows it in the table. *)
Definition created (username : string) (resp : UserResponse) (t t' : Tables) : Prop :=
  ∃ row new, t_users t' = t_users t ++ row :: new ∧ Forall auto_created new ∧
    ur_username row = TrimSpace username ∧ ur_enabled row = 1%Z ∧
    User_ID (Resp_User resp) = ur_id row ∧ User_Token (Resp_User resp) = ur_token row ∧
    ur_username row ∉ ur_username <$> t_users t ∧ ur_token row ∉ ur_token <$> t_users t.

Lemma create_rest req (s s' : State E) resp :
  (_ <== check_placement cfg (Req_Nodes req);;
   token <== or_500 Server.generateToken;;
   fallbackToken <== or_500 Server.generateToken;;
   user <== or_500 (on_db (CreateUser now (TrimSpace (Req_Username req)) "" token fallbackToken));;
   inbounds <== or_500 all_inbounds_or_none;;
   _ <== or_500 (for_each (inbounds_to_add cfg req) (add_to_spec cfg now user inbounds));;
   _ <== or_500 (match inbounds_to_add cfg req with
                 | _ :: _ => if String.eqb (C_XrayAPIAddr cfg) "" then go_Sync cfg now else ret tt
                 | [] => ret tt
                 end);;
   _ <== attempt (on_db (placeUserOnNodes cfg (User_ID user) (Req_Nodes req)));;
   hret (user_response cfg user)) s = (inr resp, s') →
  created (Req_Username req) resp (tables_of s) (tables_of s').
Proof.
  intros ([] & s1 & ->%(h_advances_run eq) & H)%hbind_inr; [|apply check_placement_reads].
  apply hbind_inr in H as (token & s2 & ->%(h_advances_run eq) & H); [|steps].
  apply hbind_inr in H as (fallback & s3 & ->%(h_advances_run eq) & H); [|steps].
  apply hbind_inr in H as (user & s4 & Hc%or_500_inr%on_db_quiet & H). destruct Hc as [Hc _].
  apply CreateUser_inr in Hc as (row & Hrows & Hv & Hn & Ht & He & Hid & _ & Htok & _).
  apply hbind_inr in H as (inbounds & s5 & Hib%(h_advances_run eq) & H);
    [|unfold all_inbounds_or_none; steps].
  assert (Hresp : Resp_User resp = user).
  { repeat (apply hbind_inr in H as (? & ? & _ & H)). by apply hret_inr in H as [<- _]. }
  apply (h_advances_run users_grow) in H as (new & Hnew & Hauto); [|apply grow_provisioning].
  apply users_violation_None in Hv as (Hd1 & Hd2 & _). rewrite Hrows, fmap_app in Hd1, Hd2.
  apply NoDup_app in Hd1 as (_ & Hd1 & _), Hd2 as (_ & Hd2 & _).
  exists row, new. rewrite TrimSpace_idem in Hn. rewrite Hnew, <- Hib, Hrows, <- app_assoc, Hresp.
  split_and!; try done; try congruence.
  - intros Hin. by apply (Hd1 _ Hin), list_elem_of_singleton.
  - intros Hin. by apply (Hd2 _ Hin), list_elem_of_singleton.
Qed.

End Create.
