(* ===== verification/TokenRotation.v ===== *)
(** * What a new token changes

    Rotating the token of a user through the API moves the subscription to the
    new URL and does nothing else to it. *)

From S2P Require Import Prelude GoString Json JsonDecode Models Config XrayTypes Schema Database.
From S2P Require Import DatabaseFacts DatabaseProps Generator GeneratorProps ConfigWriter Admin Server ServerFacts Routes.
From S2P Require Import Syncer Nodes SubLinks Subscription SubscriptionProps Users RoutesProps.
From Stdlib Require Import Ascii.

(** ** Computations that do not look at the users table *)

(** No statement fails; the outcome is the same whatever the users are, and
    the tables stay as they are. *)
Definition blind {X A} (m : DB → (X + A) * DB) : Prop := ∀ t us sq, ∃ a,
  m (mkDB t []) = (a, mkDB t []) ∧ m (mkDB (with_users us sq t) []) = (a, mkDB (with_users us sq t) []).

Lemma blind_Query {A} (q : Tables → A) : (∀ t us sq, q (with_users us sq t) = q t) → blind (Query q).
Proof. intros Hq t us sq. exists (inr (q t)). split; [done|]. by rewrite Query_run, Hq. Qed.
Lemma blind_ret {A} (a : A) : blind (X := error) (ret a).
Proof. intros t us sq. by eexists. Qed.
Lemma blind_throw {A} e : blind (throw (A := A) e).
Proof. intros t us sq. by eexists. Qed.
Lemma blind_bind {A B} (m : M DB A) (k : A → M DB B) : blind m → (∀ a, blind (k a)) → blind (bind m k).
Proof.
  intros Hm Hk t us sq. destruct (Hm t us sq) as ([e|a] & E1 & E2); unfold bind; rewrite E1, E2;
    [by eexists|apply Hk].
Qed.
Lemma blind_try {A} (m : M DB A) : blind m → blind (try m).
Proof. intros Hm t us sq. destruct (Hm t us sq) as (a & E1 & E2). unfold try. rewrite E1, E2. by eexists. Qed.
Lemma blind_of_result {A} (r : error + A) : blind (of_result r).
Proof. destruct r; [apply blind_throw|apply blind_ret]. Qed.
Lemma blind_hret {A} (a : A) : blind (X := Status) (hret a).
Proof. intros t us sq. by eexists. Qed.
Lemma blind_jsonError {A} msg code : blind (jsonError (A := A) msg code).
Proof. intros t us sq. by eexists. Qed.
Lemma blind_hbind {A B} (m : Server.H DB A) (k : A → Server.H DB B) :
  blind m → (∀ a, blind (k a)) → blind (hbind m k).
Proof.
  intros Hm Hk t us sq. destruct (Hm t us sq) as ([e|a] & E1 & E2); unfold hbind; rewrite E1, E2;
    [by eexists|apply Hk].
Qed.
Lemma blind_attempt {A} (m : M DB A) : blind m → blind (attempt m).
Proof. intros Hm t us sq. destruct (Hm t us sq) as (a & E1 & E2). unfold attempt. rewrite E1, E2. by eexists. Qed.
Lemma blind_or_fail {A} (m : M DB A) answer : blind m → blind (or_fail m answer).
Proof.
  intros Hm t us sq. destruct (Hm t us sq) as ([e|a] & E1 & E2); unfold or_fail; rewrite E1, E2; by eexists.
Qed.
Lemma blind_or_500 {A} (m : M DB A) : blind m → blind (or_500 m).
Proof. apply blind_or_fail. Qed.
Lemma blind_internal_error {A} (m : M DB A) : blind m → blind (internal_error m).
Proof. apply blind_or_fail. Qed.
#[export] Hint Resolve blind_ret blind_throw blind_bind blind_try blind_of_result blind_hret
  blind_jsonError blind_hbind blind_attempt blind_or_fail blind_or_500 blind_internal_error : raven.

Lemma blind_get_setting k : blind (get_setting k).
Proof. by apply blind_Query. Qed.
Lemma blind_GetUserClients u : blind (Database.GetUserClients u).
Proof. by apply blind_Query. Qed.
Lemma blind_ListNodes : blind ListNodes.
Proof. by apply blind_Query. Qed.
Lemma blind_ListNodeIDsForUser u : blind (ListNodeIDsForUser u).
Proof. by apply blind_Query. Qed.
#[export] Hint Resolve blind_get_setting blind_GetUserClients blind_ListNodes blind_ListNodeIDsForUser : raven.
Lemma blind_GetGlobalClientRoutes : blind GetGlobalClientRoutes.
Proof. unfold GetGlobalClientRoutes. auto with raven. Qed.
Lemma blind_getEffectiveBalancerConfig cfg : blind (getEffectiveBalancerConfig cfg).
Proof.
  unfold getEffectiveBalancerConfig, GetBalancerRuntimeConfig. apply blind_bind; [|auto with raven].
  apply blind_bind; [auto with raven|]. intros [raw|]; auto with raven.
Qed.
Lemma blind_GetEmergencyProfile id : blind (GetEmergencyProfile id).
Proof.
  unfold GetEmergencyProfile. apply blind_bind; [by apply blind_Query|]. intros [r|]; auto with raven.
Qed.
#[export] Hint Resolve blind_GetGlobalClientRoutes blind_getEffectiveBalancerConfig blind_GetEmergencyProfile : raven.
Lemma blind_GetEmergencyStatus `{Clock} : blind GetEmergencyStatus.
Proof.
  unfold GetEmergencyStatus, read_profile_id. apply blind_bind; [auto with raven|]. intros [a|]; [|auto with raven].
  case_if; [auto with raven|]. apply blind_bind; [|auto with raven]. apply blind_bind; [auto with raven|].
  intros [e|[s|]]; [auto with raven| |auto with raven]. case_if; [auto with raven|].
  destruct (Sscanf_d s); auto with raven.
Qed.
Lemma blind_expandClientsForNodes cfg u clients : blind (expandClientsForNodes cfg u clients).
Proof.
  unfold expandClientsForNodes. destruct (C_Nodes cfg); [auto with raven|]. apply blind_bind; [auto with raven|].
  intros [e|[|i ids]]; [auto with raven..|]. apply blind_bind; [auto with raven|]. intros [e|ns]; auto with raven.
Qed.
#[export] Hint Resolve @blind_GetEmergencyStatus blind_expandClientsForNodes : raven.

(** ** Requests that differ in the token *)

Definition with_token (token : string) (q : Request) : Request :=
  mkRequest (<["token" := token]> (R_Vars q)) (R_Query q) (R_Headers q) (R_UserAgent q)
    (R_RemoteAddr q) (R_Fallback q) (R_Body q).
Lemma Vars_with_token token q : Vars (with_token token q) "token" = token.
Proof. unfold Vars, with_token. cbn. by rewrite lookup_insert_eq. Qed.
Lemma Vars_with_token_ne token q k : k ≠ "token" → Vars (with_token token q) k = Vars q k.
Proof. intros Hk. unfold Vars, with_token. cbn. by rewrite lookup_insert_ne. Qed.
Lemma filters_with_token token q clients proto :
  applySubscriptionFiltersWithProtocol clients (with_token token q) proto
  = applySubscriptionFiltersWithProtocol clients q proto.
Proof.
  unfold applySubscriptionFiltersWithProtocol, extractProtocolFilter, extractInboundTagFilter.
  by rewrite !Vars_with_token_ne by done.
Qed.

Section Rotation.
Context {E : Type} `{Curve} `{Clock} (cfg : Config) (now : Z).

Lemma blind_generate q user clients : blind (generate cfg q user clients).
Proof.
unfold generate. destruct clients; [auto with raven|]. apply blind_hbind; [auto with raven|]. intros g.
apply blind_hbind; [auto with raven|]. intros [[a b] c]. apply blind_hbind; [auto with raven|].
intros [|x cs]; [auto with raven|]. destruct (GenerateClientConfig _ _ _ _ _ _ _ _ _ _ _ _ _); auto with raven.
Qed.
Lemma blind_subscription_clients q user : blind (subscription_clients cfg q user).
Proof. unfold subscription_clients. auto with raven. Qed.
Hint Resolve blind_generate blind_subscription_clients : raven.

(** Users who are the same account under another token. *)
Definition same_account (u u' : User) : Prop := User_ID u = User_ID u' ∧ User_ClientRoutes u = User_ClientRoutes u'.
Lemma generate_with_token a b q u u' clients :
same_account u u' →
generate cfg (with_token a q) u clients = generate cfg (with_token b q) u' clients.
Proof. intros [Hid Hr]. unfold generate, GenerateClientConfig. by rewrite Hid, Hr. Qed.
Lemma subscription_clients_with_token a b q u u' db :
same_account u u' →
subscription_clients cfg (with_token a q) u db = subscription_clients cfg (with_token b q) u' db.
Proof.
intros [Hid _]. unfold subscription_clients. rewrite Hid. unfold hbind.
destruct (internal_error _ _) as [[st|cs] db1]; [done|]. destruct (attempt _ _) as [[st|em] db2]; [done|].
by rewrite !filters_with_token.
Qed.

(** The configuration behind the link lists, without the user it comes with. *)
Definition served (q : Request) (proto : string) (t : Tables) : Status + ClientConfig :=
match (generateConfigForSubscriptionRequestWithForcedProtocol cfg q proto (mkDB t [])).1 with
| inr (c, _) => inr c
| inl st => inl st
end.

Lemma admitted_run t row :
NoDup (ur_token <$> t_users t) → row ∈ t_users t → ur_token row ≠ "" →
admitted (ur_token row) (mkDB t [])
= (if User_Enabled (scanUser row) then inr (scanUser row)
   else inl (mkStatus StatusForbidden "user disabled"), mkDB t []).
Proof.
intros Hd Hr Hne%String.eqb_neq. unfold admitted. rewrite Hne. unfold hbind, attempt.
pose proof (GetUserByToken_Some t row Hd Hr) as Hg.
assert (Hq : (GetUserByToken (ur_token row) (mkDB t [])).2 = mkDB t []) by done.
destruct (GetUserByToken _ _) as [x db]. cbn [fst snd] in *. subst. by destruct (User_Enabled _).
Qed.
(** The user of the two tokens, before and after. *)
Section Moved.
Context (t : Tables) (us : list user_row) (sq : Z) (row row' : user_row).
Context (Hd : NoDup (ur_token <$> t_users t)) (Hrow : row ∈ t_users t) (Hne : ur_token row ≠ "").
Context (Hd' : NoDup (ur_token <$> us)) (Hrow' : row' ∈ us) (Hne' : ur_token row' ≠ "").
Context (Hsame : same_account (scanUser row) (scanUser row')) (Hen : ur_enabled row' = ur_enabled row).
Let t' := with_users us sq t.

Lemma admitted_moved :
  admitted (ur_token row') (mkDB t' []) = (if User_Enabled (scanUser row) then inr (scanUser row')
     else inl (mkStatus StatusForbidden "user disabled"), mkDB t' []).
Proof using Hd' Hrow' Hne' Hen. rewrite admitted_run by done. cbn. by rewrite Hen. Qed.

Lemma served_moved q proto :
  served (with_token (ur_token row') q) proto t' = served (with_token (ur_token row) q) proto t.
Proof using All.
  unfold served, generateConfigForSubscriptionRequestWithForcedProtocol.
  unfold hbind at 1 4. rewrite !Vars_with_token, admitted_moved, admitted_run by done.
  destruct (User_Enabled (scanUser row)); [|done].
  destruct (blind_internal_error _ (blind_GetUserClients (User_ID (scanUser row))) t us sq) as (a & E1 & E2).
  destruct Hsame as [Hid _]. unfold hbind at 1 3. rewrite <- Hid, E1. fold t' in E2. rewrite E2.
  destruct a as [st|clients]; [done|]. rewrite !filters_with_token. cbn [with_token R_Fallback].
  set (cs := applySubscriptionFiltersWithProtocol _ q proto).
  destruct (blind_generate (with_token (ur_token row) q) (scanUser row) cs t us sq) as (g & E3 & E4).
  unfold hbind. rewrite E3. fold t' in E4.
  rewrite (generate_with_token (ur_token row') (ur_token row) q (scanUser row') (scanUser row)), E4 by (by destruct Hsame).
  by destruct g.
Qed.

Lemma handleSubscription_moved q :
  C_Hysteria cfg = None →
  (handleSubscription cfg (with_token (ur_token row') q) (mkDB t' [])).1
  = (handleSubscription cfg (with_token (ur_token row) q) (mkDB t [])).1.
Proof using All.
  intros Hy. unfold handleSubscription, hysteriaMainSubExtra. rewrite Hy.
  unfold hbind at 1 5. rewrite !Vars_with_token, admitted_moved, admitted_run by done.
  destruct (User_Enabled (scanUser row)); [|done].
  destruct (blind_subscription_clients (with_token (ur_token row) q) (scanUser row) t us sq) as (a & E1 & E2).
  unfold hbind at 1 4. rewrite E1. fold t' in E2.
  rewrite (subscription_clients_with_token (ur_token row') (ur_token row) q (scanUser row') (scanUser row)), E2
    by (by destruct Hsame).
  destruct a as [st|clients]; [done|].
  destruct (blind_generate (with_token (ur_token row) q) (scanUser row) clients t us sq) as (g & E3 & E4).
  unfold hbind at 1 3. rewrite E3. fold t' in E4.
  rewrite (generate_with_token (ur_token row') (ur_token row) q (scanUser row') (scanUser row)), E4 by (by destruct Hsame).
  destruct g as [st|c]; [done|]. unfold hbind, or_500, or_fail, ret, hret, isMobileProfileRequest, QueryGet.
  cbn [with_token R_Query R_UserAgent]. by repeat case_if.
Qed.
End Moved.

(** *** The handler *)

Lemma update_user_tables id f db db' :
  update_user id f db = (inr tt, db') →
  let us := update_rows (λ r, Z.eqb (ur_id r) id) f (t_users (db_tables db)) in
  db_tables db' = with_users us (seq_users (db_tables db)) (db_tables db) ∧ users_violation us = None.
Proof using Type.
  intros Hu us. unfold update_user, write_users in Hu.
  match type of Hu with Exec ?g db = _ => destruct (Exec_cases g db) as [(a & t & Hg & He)|(e & He)] end;
    rewrite He in Hu; simplify_eq.
  cbn in Hg. unfold enforce in Hg. destruct (users_violation _) eqn:Ev; [done|]. by simplify_eq.
Qed.
Lemma generateToken_inr (s : State E) tok s' :
  Server.generateToken s = (inr tok, s') → sv_db s' = sv_db s ∧ tok ≠ "".
Proof using Type.
  intros (b & s1 & Hb & Hr)%bind_ok. apply (f_equal fst) in Hr as Hb'. apply (f_equal snd) in Hr.
  cbn in Hr, Hb'. subst s'. unfold random, on_world, RandRead in Hb. apply (f_equal snd) in Hb as Hs.
  apply (f_equal fst) in Hb. cbn [fst snd] in Hs, Hb. split; [by subst|].
  intros ->. assert (b = "") as -> by (destruct b; [done|by injection Hb']). done.
Qed.
Definition retoken (token : string) (r : user_row) : user_row :=
  mkUserRow (ur_id r) (ur_username r) (ur_email r) token (ur_fallback_token r) (ur_fallback_accessed_at r)
    (ur_enabled r) (ur_client_routes r) (ur_hy2_enabled r) (ur_created_at r) now.
Lemma regenerateToken_tables r (s s' : State E) tok url :
  regenerateToken cfg now r s = (inr (tok, url), s') →
  ∃ row, List.find (selects r) (t_users (db_tables (sv_db s))) = Some row ∧ tok ≠ "" ∧ url = SubURL cfg tok ∧
    let t := db_tables (sv_db s) in
    let us := update_rows (λ x, Z.eqb (ur_id x) (ur_id row)) (retoken tok) (t_users t) in
    db_tables (sv_db s') = with_users us (seq_users t) t ∧ users_violation us = None.
Proof using Type.
  intros (u & s1 & (_ & Ht1 & row & Hrow & ->)%getByID_inr & Hk)%hbind_inr.
  apply hbind_inr in Hk as (tok' & s2 & Hg%or_500_inr & Hk). apply generateToken_inr in Hg as [Hs2 Hne].
  apply hbind_inr in Hk as ([] & s3 & Hup%or_500_inr & Hk). apply on_db_inr in Hup as (db' & Hup & <-).
  apply hret_inr in Hk as [[= <- <-] <-]. rewrite Hs2 in Hup. apply update_user_tables in Hup.
  rewrite Ht1 in Hup. by exists row.
Qed.

End Rotation.

(** Ann gets a new token; her subscription is at the new URL. *)
Definition rotation_state : State unit :=
  mkState (mkDB demo_tables []) (mkHost ∅ [] (λ n, Ascii.ascii_of_nat (37 * n mod 251)) 0, ()) ∅ 0
    (mkBackground new_status 0 []).
Definition for_ann : Request := mkRequest {["id" := "1"]} ∅ ∅ "" "10.1.2.3:999" false "".
