(* ===== verification/LivenessProps.v ===== *)
(** * What a scrape says about the fetches

    The liveness rows of a scrape as a function of the history of requests and
    scrapes since the start, whatever the order in which Go ranges over the
    tracker. [System.perform_fetches] shows that the tracker of the running
    process has such a history. *)

From S2P Require Import Prelude GoString Models Config Schema Database DatabaseFacts DatabaseProps.
From S2P Require Import ConfigWriter Server ServerFacts Liveness.

(** ** The history of the tracker *)

(** A request answered with a status, or a scrape. *)
Inductive liveness_event :=
  | Answered (tpl : string) (r : Request) (status at_ : Z)
  | Scraped (at_ : Z).
Definition time_of (e : liveness_event) : Z := match e with Answered _ _ _ at_ | Scraped at_ => at_ end.
Definition track (t : gmap fetchKey Z) (e : liveness_event) : gmap fetchKey Z :=
  match e with
  | Answered tpl r status at_ => subscriptionMiddleware tpl r status at_ t
  | Scraped at_ => forget fetchForgetAfter at_ t
  end.
Definition tracked : list liveness_event → gmap fetchKey Z := foldl track ∅.
(** The fetch an event is: a subscription route answered with success. *)
Definition fetch_of (e : liveness_event) : option fetchKey :=
  match e with
  | Answered tpl r status _ =>
      let '(isSub, fallback) := isSubscriptionRoute tpl in
      if isSub && Z.eqb (Z.quot status 100) 2 && negb (String.eqb (Vars r "token") "")
      then Some (mkFetchKey (Vars r "token") fallback (clientFamily (R_UserAgent r))) else None
  | Scraped _ => None
  end.

Lemma track_answered t e :
  (∀ at_, e ≠ Scraped at_) →
  track t e = match fetch_of e with Some k => <[k := time_of e]> t | None => t end.
Proof.
  destruct e as [tpl r status at_|]; [intros _|by intros Hn; destruct (Hn at_)]. cbn [track fetch_of time_of].
  unfold subscriptionMiddleware. destruct (isSubscriptionRoute tpl) as [[] fb]; cbn [negb andb]; [|done].
  destruct (Z.eqb _ 2); cbn [andb]; [|done]. by destruct (String.eqb _ "").
Qed.

Lemma tracked_from h k at_ :
  tracked h !! k = Some at_ → ∃ e, e ∈ h ∧ fetch_of e = Some k ∧ time_of e = at_.
Proof.
  unfold tracked. induction h as [|e h IH] using rev_ind; [cbn [foldl]; by rewrite lookup_empty|].
  rewrite foldl_app. cbn [foldl]. intros Hl.
  assert (Hcase : (fetch_of e = Some k ∧ time_of e = at_) ∨ foldl track ∅ h !! k = Some at_).
  { destruct e as [tpl r status at'|at']; [|right; by apply map_lookup_filter_Some in Hl as [? _]].
    rewrite track_answered in Hl by done. destruct (fetch_of _) as [k'|]; [|by right].
    apply lookup_insert_Some in Hl as [[-> ?]|[_ ?]]; auto. }
  destruct Hcase as [[? ?]|(e' & ? & ? & ?)%IH]; [exists e|exists e']; rewrite elem_of_app; set_solver.
Qed.
Lemma tracked_recent h now e k :
  StronglySorted Z.le (time_of <$> h) → (∀ x, x ∈ h → time_of x ≤ now)%Z →
  e ∈ h → fetch_of e = Some k → (now - time_of e ≤ fetchForgetAfter)%Z →
  ∃ at_, tracked h !! k = Some at_ ∧ (time_of e ≤ at_ ≤ now)%Z.
Proof.
  unfold tracked. intros Hs Hnow. induction h as [|e0 h IH] using rev_ind; [by intros ?%not_elem_of_nil|].
  rewrite fmap_app, StronglySorted_app in Hs. destruct Hs as (Hle & Hs & _).
  intros He Hk Hrec. rewrite foldl_app. cbn [foldl].
  assert (H0 : (time_of e0 ≤ now)%Z) by (apply Hnow; set_solver).
  apply elem_of_app in He as [He|He%list_elem_of_singleton].
  - destruct (IH Hs) as (at_ & Hat & Hb); [set_solver|done..|].
    assert (Hlt : (time_of e ≤ time_of e0)%Z) by (apply Hle; set_solver).
    destruct e0 as [tpl r status at'|at'].
    + rewrite track_answered by done. destruct (fetch_of (Answered _ _ _ _)) as [k'|]; [|by exists at_].
      destruct (decide (k' = k)) as [->|Hne]; [|exists at_; by rewrite lookup_insert_ne].
      eexists. rewrite lookup_insert_eq. split; [done|]. lia.
    + exists at_. split; [|done]. apply map_lookup_filter_Some. split; [done|]. cbn in *. lia.
  - subst e0. destruct e as [tpl r status at'|]; [|done]. rewrite track_answered, Hk by done.
    exists at'. rewrite lookup_insert_eq. split; [done|]. cbn in *. lia.
Qed.

(** ** The newest fetch of each row *)

Section Rows.
Context `{Liveness} (secret : string) (t : Tables).

(** The identity a fetch resolves to, empty when its token is nobody's. *)
Definition email_of (k : fetchKey) : string :=
match (fetch_email k (mkDB t [])).1 with inr e => e | inl _ => "" end.
Lemma fetch_email_run k : fetch_email k (mkDB t []) = (inr (email_of k), mkDB t []).
Proof.
unfold email_of, fetch_email, GetUserByFallbackToken. destruct (FK_fallback k); [|done].
by destruct (String.eqb _ "").
Qed.

Definition row_of (k : fetchKey) (at_ : Z) : row := fetch_row secret k at_ (email_of k).
(** The rows hold, for each id met so far, a fetch that is the newest. *)
Definition newest (seen : list (fetchKey * Z)) (best : gmap string row) : Prop :=
(∀ id r, best !! id = Some r → row_id r = id ∧
   ∃ k at_, (k, at_) ∈ seen ∧ email_of k ≠ "" ∧ r = row_of k at_) ∧
(∀ k at_, (k, at_) ∈ seen → email_of k ≠ "" →
   ∃ r, best !! row_id (row_of k at_) = Some r ∧ (Unix at_ ≤ row_ts r)%Z).

Lemma keep_newest_step seen best k at_ :
newest seen best → email_of k ≠ "" → newest (seen ++ [(k, at_)]) (keep_newest (row_of k at_) best).
Proof.
intros [Hb1 Hb2] He. unfold keep_newest. set (r0 := row_of k at_).
assert (Hkeep : ∀ b, (b = best ∧ (∃ c, best !! row_id r0 = Some c ∧ row_ts r0 ≤ row_ts c)%Z)
  ∨ (b = <[row_id r0 := r0]> best ∧ ∀ c, best !! row_id r0 = Some c → (row_ts c ≤ row_ts r0)%Z) →
  newest (seen ++ [(k, at_)]) b).
{ intros b [[-> (c & Hc & Hts)]|[-> Hts]]; split.
  - intros id r Hr. destruct (Hb1 id r Hr) as (? & k' & at' & ? & ?). split; [done|].
    exists k', at'. rewrite elem_of_app. auto.
  - intros k' at' Hin Hne. apply elem_of_app in Hin as [Hin|[= -> ->]%list_elem_of_singleton]; [by apply Hb2|].
    by exists c.
  - intros id r [[<- <-]|[Hid Hr]]%lookup_insert_Some.
    + split; [done|]. exists k, at_. rewrite elem_of_app, list_elem_of_singleton. auto.
    + destruct (Hb1 id r Hr) as (? & k' & at' & ? & ?). split; [done|]. exists k', at'. rewrite elem_of_app. auto.
  - intros k' at' Hin Hne. apply elem_of_app in Hin as [Hin|[= -> ->]%list_elem_of_singleton].
    + destruct (Hb2 k' at' Hin Hne) as (r & Hr & Hle).
      destruct (decide (row_id (row_of k' at') = row_id r0)) as [E|E].
      * exists r0. rewrite E, lookup_insert_eq. split; [done|]. rewrite E in Hr. specialize (Hts r Hr). lia.
      * exists r. by rewrite lookup_insert_ne.
    + exists r0. rewrite lookup_insert_eq. by split. }
apply Hkeep. destruct (best !! row_id r0) as [c|] eqn:Ec.
- destruct (Z.ltb_spec (row_ts c) (row_ts r0)) as [Hlt|Hge]; [right|left].
  + split; [done|]. intros c' [= <-]. lia.
  + split; [done|]. by exists c.
- right. by split.
Qed.
Lemma best_rows_newest snap seen best :
newest seen best → ∃ best', best_rows secret snap best (mkDB t []) = (inr best', mkDB t [])
  ∧ newest (seen ++ snap) best'.
Proof.
revert seen best. induction snap as [|[k at_] snap IH]; intros seen best Hb.
{ exists best. by rewrite app_nil_r. }
cbn [best_rows]. unfold bind at 1. rewrite fetch_email_run.
destruct (String.eqb_spec (email_of k) "") as [E|E].
- destruct (IH (seen ++ [(k, at_)]) best) as (b & Eb & Hn); [|exists b; by rewrite <- (assoc_L app) in Hn].
  destruct Hb as [Hb1 Hb2]. split.
  + intros id r Hr. destruct (Hb1 id r Hr) as (? & k' & at' & ? & ?). split; [done|].
    exists k', at'. rewrite elem_of_app. auto.
  + intros k' at' [Hin|[= -> ->]%list_elem_of_singleton]%elem_of_app; [by apply Hb2|done].
- destruct (IH (seen ++ [(k, at_)]) (keep_newest (row_of k at_) best)) as (b & Eb & Hn);
    [by apply keep_newest_step|]. exists b. by rewrite <- (assoc_L app) in Hn.
Qed.

(** The rendered list: the rows of the map, in the order of their ids. *)
Lemma rendered best :
(∀ id r, best !! id = Some r → row_id r = id) →
let rows := omap (λ id, best !! id) (sort_strings (map fst (map_to_list best))) in
row_id <$> rows = sort_strings (map fst (map_to_list best)) ∧
∀ r, r ∈ rows ↔ best !! row_id r = Some r.
Proof.
intros Hid rows.
assert (Hin : ∀ id, id ∈ sort_strings (map fst (map_to_list best)) ↔ is_Some (best !! id)).
{ intros id. unfold sort_strings. rewrite elem_of_stable_sort. change (map fst ?l) with (fst <$> l).
  rewrite list_elem_of_fmap. split.
  - intros ([i r] & -> & Hr%elem_of_map_to_list). by exists r.
  - intros [r Hr]. exists (id, r). by rewrite elem_of_map_to_list. }
split.
- unfold rows. clear rows. assert (Hall : ∀ id, id ∈ sort_strings (map fst (map_to_list best)) → is_Some (best !! id))
    by (intros; by apply Hin).
  clear Hin. induction (sort_strings _) as [|id l IH]; [done|]. cbn.
  destruct (Hall id) as [r Hr]; [apply list_elem_of_here|]. rewrite Hr. cbn. rewrite (Hid id r Hr). f_equal.
  apply IH. intros id' Hid'. by apply Hall, list_elem_of_further.
- intros r. unfold rows. rewrite list_elem_of_omap. split.
  + intros (id & _ & Hr). by rewrite (Hid id r Hr).
  + intros Hr. exists (row_id r). split; [|done]. apply Hin. by exists r.
Qed.
End Rows.

Section Scrape.
Context `{Liveness} (cfg : Config).
Let secret := C_MetricsAnonymizeSecret cfg.

(** C24: A scrape reports the last fetches. Take any history of requests and
    scrapes since the process started, in the order of their times, and a
    scrape none of whose queries fails. Its rows have distinct ids in order;
    each is a subscription fetch of the last fourteen days, answered with
    success under a token that still resolves to a user; and for every such
    fetch there is the row of that user, path and client, at least as recent.
    The order in which Go ranges over the tracker plays no part. *)
Theorem scrape_reports_last_fetches now denied h t :
  StronglySorted Z.le (time_of <$> h) → (∀ e, e ∈ h → time_of e ≤ now)%Z →
  ∃ flag rows tr, MetricsHandler cfg now denied (tracked h) (mkDB t [])
      = (inr (flag, denied, rows, tr), mkDB t []) ∧
    NoDup (row_id <$> rows) ∧ Sorted (λ a b, string_leb a b = true) (row_id <$> rows) ∧
    (∀ r, r ∈ rows → ∃ e k, e ∈ h ∧ fetch_of e = Some k ∧ (now - time_of e ≤ fetchForgetAfter)%Z
       ∧ email_of t k ≠ "" ∧ r = row_of secret t k (time_of e)) ∧
    (∀ e k, e ∈ h → fetch_of e = Some k → (now - time_of e ≤ fetchForgetAfter)%Z → email_of t k ≠ "" →
       ∃ r, r ∈ rows ∧ row_id r = row_id (row_of secret t k (time_of e)) ∧ (Unix (time_of e) ≤ row_ts r)%Z).
Proof.
  intros Hs Hnow. set (tr := forget fetchForgetAfter now (tracked h)).
  assert (Htr : ∀ k at_, (k, at_) ∈ fetch_order tr ↔
    tracked h !! k = Some at_ ∧ (now - at_ ≤ fetchForgetAfter)%Z).
  { intros k at_. rewrite fetch_order_perm. unfold tr, forget, fetchTracker.
    by rewrite elem_of_map_to_list, map_lookup_filter_Some. }
  destruct (best_rows_newest secret t (fetch_order tr) [] ∅) as (best & Eb & Hb1 & Hb2).
  { split; [by intros id r ?%lookup_empty_Some|by intros k at_ ?%not_elem_of_nil]. }
  destruct (rendered best) as [Hids Hrows]; [intros id r Hr; by apply Hb1|].
  set (rows := omap _ _) in *.
  assert (Ew : writeLivenessMetrics cfg now (tracked h) (mkDB t []) = (inr (rows, tr), mkDB t [])).
  { unfold writeLivenessMetrics, bind. fold tr secret. by rewrite Eb. }
  eexists _, rows, tr. split_and!.
  - unfold MetricsHandler, hbind, or_500, or_fail. cbn [GetFallbackEnabled]. unfold GetFallbackEnabled, bind.
    cbn [get_setting Query Exec db_faults db_tables tail ret]. by rewrite Ew.
  - cbn [fst snd]. rewrite Hids. unfold sort_strings. rewrite stable_sort_perm. apply NoDup_fst_map_to_list.
  - cbn [fst snd]. rewrite Hids. apply stable_sort_sorted, string_leb_total.
  - cbn [fst snd]. intros r Hr%Hrows. destruct (Hb1 _ _ Hr) as (_ & k & at_ & Hin & He & ->).
    apply Htr in Hin as [(e & Hin & Hk & <-)%tracked_from Hrec]. by exists e, k.
  - cbn [fst snd]. intros e k Hin Hk Hrec He.
    destruct (tracked_recent h now e k Hs Hnow Hin Hk Hrec) as (at_ & Hat & Hle & _).
    destruct (Hb2 k at_) as (r & Hr & Hts); [apply Htr; split; [done|lia]|done|].
    destruct (Hb1 _ _ Hr) as (Hid & _). exists r. split; [apply Hrows; by rewrite Hid|]. split; [done|].
    etrans; [|exact Hts]. unfold Unix. by apply Z.div_le_mono.
Qed.
End Scrape.
