(* ===== verification/RouterProps.v ===== *)
(** * What a request can do

    The public routes only read, the fallback ones apart from the time of the
    access; everything else is behind the admin token. *)

From S2P Require Import Prelude GoString Json JsonDecode Models Config XrayTypes Parser.
From S2P Require Import Generator ConfigWriter Admin Schema Database DatabaseFacts Syncer SyncerProps.
From S2P Require Import Server ServerFacts Routes Nodes SubLinks Subscription Users Emergency.
From S2P Require Import Killswitch RateLimit Liveness Startup SystemFacts SystemSteps Router.
From Stdlib Require Import Ascii.

(** ** The public handlers read the database *)

Abbreviation db_reads := (h_advances eq db_tables).


Section PublicReads.
Context `{Curve} `{Clock} (cfg : Config).

Lemma reads_eq {A} (m : M DB A) : reads m → db_advances eq m.
Proof using Type. apply (reads_advances eq). Qed.
Hint Resolve reads_eq : raven.

Lemma reads_admitted token : db_reads (admitted token).
Proof using Type. unfold admitted. steps. Qed.
Lemma reads_internal_error {A} (m : M DB A) : reads m → db_reads (internal_error m).
Proof using Type. intros. apply h_advances_or_fail. auto with raven. Qed.
Hint Resolve reads_admitted reads_internal_error : raven.
Lemma reads_getEffectiveBalancerConfig : reads (getEffectiveBalancerConfig cfg).
Proof using Type.
  unfold getEffectiveBalancerConfig. apply reads_bind; [auto with raven|]. intros o. destruct o; auto with raven.
Qed.
Lemma reads_expandClientsForNodes id clients : reads (expandClientsForNodes cfg id clients).
Proof using Type.
  unfold expandClientsForNodes. destruct (C_Nodes cfg); [auto with raven|].
  apply reads_bind; [auto with raven|]. intros r. destruct r as [|ids]; [auto with raven|].
  destruct ids; [auto with raven|]. apply reads_bind; [auto with raven|]. intros r. destruct r; auto with raven.
Qed.
Lemma reads_hysteriaMainSubExtra token : reads (hysteriaMainSubExtra cfg token).
Proof using Type.
  unfold hysteriaMainSubExtra. destruct (C_Hysteria cfg); [|auto with raven]. case_if; auto with raven.
Qed.
Hint Resolve reads_getEffectiveBalancerConfig reads_expandClientsForNodes reads_hysteriaMainSubExtra : raven.
Lemma reads_generate r u clients : db_reads (generate cfg r u clients).
Proof using Type. unfold generate. steps. Qed.
Hint Resolve reads_generate : raven.
Lemma reads_subscription_clients r u : db_reads (subscription_clients cfg r u).
Proof using Type. unfold subscription_clients. steps. Qed.
Hint Resolve reads_subscription_clients : raven.
Lemma reads_handleSubscription r : db_reads (handleSubscription cfg r).
Proof using Type. unfold handleSubscription. steps. Qed.
Lemma reads_generateForced r p : db_reads (generateConfigForSubscriptionRequestWithForcedProtocol cfg r p).
Proof using Type. unfold generateConfigForSubscriptionRequestWithForcedProtocol. steps. Qed.
Lemma reads_as_not_found {A} (m : Server.H DB A) : db_reads m → db_reads (as_not_found m).
Proof using Type. intros Hm s. unfold as_not_found. specialize (Hm s). by destruct (m s) as [[?|?] ?]. Qed.
Hint Resolve reads_generateForced reads_as_not_found : raven.
Lemma reads_links r b p : db_reads (links cfg b p r).
Proof using Type. unfold links, handleSubscriptionLinksByFormatAndProtocol. steps. Qed.
Lemma reads_handleVLESSLinkByTag r b : db_reads (handleVLESSLinkByTag cfg r b).
Proof using Type. unfold handleVLESSLinkByTag. steps. Qed.
Lemma reads_handleVLESSList r : db_reads (handleVLESSList cfg r).
Proof using Type. unfold handleVLESSList. steps. Qed.
Lemma reads_handleSubscriptionLinks r : db_reads (handleSubscriptionLinks cfg r).
Proof using Type. unfold handleSubscriptionLinks. steps. Qed.
Lemma reads_handleHysteriaSub r b : db_reads (handleHysteriaSub cfg r b).
Proof using Type. unfold handleHysteriaSub. steps. Qed.
Lemma reads_handleHysteriaAuth r : db_reads (handleHysteriaAuth r).
Proof using Type. unfold handleHysteriaAuth. steps. Qed.
End PublicReads.
#[export] Hint Resolve reads_handleSubscription reads_links reads_handleVLESSLinkByTag
  reads_handleVLESSList reads_handleSubscriptionLinks reads_handleHysteriaSub
  reads_handleHysteriaAuth : raven.

(** ** What a request without the admin token can do *)

(** The users with the time of their last fallback access forgotten. *)
Definition forget_access (u : user_row) : user_row :=
  mkUserRow (ur_id u) (ur_username u) (ur_email u) (ur_token u) (ur_fallback_token u) None
    (ur_enabled u) (ur_client_routes u) (ur_hy2_enabled u) (ur_created_at u) (ur_updated_at u).

(** Nothing but access times changed, and that through data-access calls. *)
Record quiet `{Clock} (t t' : Tables) : Prop := {
  same_users : forget_access <$> t_users t' = forget_access <$> t_users t;
  same_rest : t' = with_users (t_users t') (seq_users t) t;
  by_calls : calls routine t t' }.
(** The same of the server, where a refusal may also have been counted. *)
Record untouched `{Clock} {E} (s s' : State E) : Prop := {
  same_tables : quiet (db_tables (sv_db s)) (db_tables (sv_db s'));
  same_world : sv_world s' = sv_world s;
  same_nodes : sv_nodeStatus s' = sv_nodeStatus s;
  same_background : sv_background s' = sv_background s }.

#[export] Instance quiet_preorder `{Clock} : PreOrder quiet.
Proof.
  split.
  - intros t. split; try done. by destruct t.
  - intros t1 t2 t3 [A1 B1 C1] [A2 B2 C2]. split; [congruence| |by transitivity t2].
    rewrite B2 at 1. by rewrite B1.
Qed.
#[export] Instance untouched_preorder `{Clock} {E} : PreOrder (untouched (E := E)).
Proof.
  split; [by intros s|]. intros s1 s2 s3 [] []. split; [|congruence..].
  by transitivity (db_tables (sv_db s2)).
Qed.
#[export] Hint Resolve quiet_preorder : raven.

Section Harmless.
Context {E : Type} `{HandlerService E} `{FileOrder} `{Curve} `{Clock} `{RateLimiter}.
Context (cfg : Config) (now : Z).

Definition harmless (h : Request → Server.H (State E) Answer) : Prop := ∀ r s, untouched s (h r s).2.

Lemma on_db_h_quiet {A} (m : Server.H DB A) (s : State E) :
  h_advances quiet db_tables m → untouched s (on_db_h m s).2.
Proof using Type.
  intros Hm. specialize (Hm (sv_db s)). unfold on_db_h. destruct (m (sv_db s)) as [r db]. by split.
Qed.
Lemma reads_quiet {A} (m : Server.H DB A) : db_reads m → h_advances quiet db_tables m.
Proof using Type. intros Hm s. by rewrite (Hm s). Qed.
Lemma answers_run {A} (m : Server.H (State E) A) s : (answers m s).2 = (m s).2.
Proof using Type. unfold answers, hbind. by destruct (m s) as [[?|?] ?]. Qed.

Lemma sub_harmless {A} tpl (h : Request → Server.H DB A) :
  (∀ r, db_reads (h r)) → harmless (Rt_handler (sub tpl h)).
Proof using Type. intros Hh r s. cbn [sub GET Rt_handler]. rewrite answers_run. by apply on_db_h_quiet, reads_quiet. Qed.

Lemma post_harmless {A} tpl (h : Request → Server.H DB A) :
  (∀ r, db_reads (h r)) → harmless (Rt_handler (POST tpl (λ r, on_db_h (h r)))).
Proof using Type. apply (sub_harmless tpl). Qed.

(** Noting the access rewrites one column. *)
Lemma SetFallbackAccessedAt_quiet id at_ : db_advances quiet (SetFallbackAccessedAt id at_).
Proof using Type.
  intros db. pose proof (calls_SetFallbackAccessedAt routine_routine id at_ db) as Hc. revert Hc.
  unfold SetFallbackAccessedAt, update_user, write_users, Exec.
  destruct (db_faults db) as [|[] fs]; [|done|]; cbn zeta;
    (destruct (enforce _ _) as [e|[a t']] eqn:Ef; [done|]); simpl; intros Hc; (split; [| |done]);
    unfold enforce in Ef; (destruct (users_violation _); [done|]); injection Ef as _ <-; simpl; try done;
    by apply update_rows_fmap.
Qed.

Lemma fallback_auth_quiet {A} (h : Request → Server.H DB A) r :
  (∀ r, db_reads (h r)) → h_advances quiet db_tables (withFallbackAuth now h r).
Proof using Type.
  intros Hh. unfold withFallbackAuth, internal_error.
  assert (Hn : ∀ r, h_advances quiet db_tables (h r)) by auto using reads_quiet.
  pose proof SetFallbackAccessedAt_quiet. steps.
Qed.

Lemma fb_harmless {A} tpl (h : Request → Server.H DB A) :
  (∀ r, db_reads (h r)) → harmless (Rt_handler (fb now tpl h)).
Proof using Type.
  intros Hh r s. cbn [fb GET Rt_handler]. rewrite answers_run.
  pose proof (on_db_h_quiet _ s (fallback_auth_quiet h r Hh)) as Hq.
  destruct (on_db_h _ s) as [[st|a] s1]; simpl in *; [case_if|]; [|done..]. by destruct Hq.
Qed.

Lemma public_harmless : Forall (λ rt, harmless (Rt_handler rt)) (public_routes cfg now).
Proof using Type.
  unfold public_routes, fallback_routes, subscription_routes. simpl app.
  repeat (apply Forall_cons; split; [first [apply fb_harmless|apply sub_harmless|apply post_harmless]; intros r;
    unfold handleCompactSubscription, compact_links; eauto with raven|]).
  by constructor.
Qed.

(** *** The admin token *)

Lemma adminAuth_set_vars r vars : adminAuth cfg (set_vars r vars) = adminAuth cfg r.
Proof using Type. done. Qed.

Lemma guarded_refuses (rt : Route E) r st s :
  adminAuth cfg r = Some st → Rt_handler (guarded cfg rt) r s = (inl st, s).
Proof using Type. intros Hst. cbn [guarded Rt_handler]. by rewrite Hst. Qed.

Lemma routes_harmless r (rt : Route E) s :
  adminAuth cfg r ≠ None → rt ∈ routes cfg now → untouched s (Rt_handler rt r s).2.
Proof using Type.
  intros Ha Hin. unfold routes in Hin. rewrite !elem_of_app in Hin. destruct Hin as [Hin|[Hin|Hin]].
  - pose proof public_harmless as Hp. rewrite Forall_forall in Hp. by apply Hp.
  - apply list_elem_of_fmap in Hin as (rt0 & -> & _). destruct (adminAuth cfg r) as [st|] eqn:Est; [|done].
    by rewrite (guarded_refuses _ _ st).
  - by apply list_elem_of_singleton in Hin as ->.
Qed.

Lemma find_route_elem method path rt vars :
  find_route cfg now method path = Matched rt vars → rt ∈ routes cfg now ∧
  match_path (Rt_template rt) path = Some vars.
Proof using Type.
  unfold find_route. destruct (List.find _ _) as [rt0|] eqn:Ef; [|by case_if]. intros [= <- <-].
  apply find_Some_iff in Ef as [Hin Hm]. bool_simp. split; [done|].
  unfold matches in *. bool_simp. by destruct H5 as [v ->].
Qed.

(** *** Paths under [/api] *)

(** The first segment after the leading slash, when it is a literal. *)
Definition area (tpl : string) : option string :=
  match segments tpl with
  | _ :: (String c _ as seg) :: _ => if Ascii.eqb c "{"%char then None else Some seg
  | _ => None
  end.
Lemma match_literal c seg p :
  Ascii.eqb c "{"%char = false →
  match_segment (String c seg) p = if String.eqb (String c seg) p then Some [] else None.
Proof using Type. destruct c as [[] [] [] [] [] [] [] []]; done. Qed.
Lemma match_area tpl path vars a :
  match_path tpl path = Some vars → area tpl = Some a → ∃ p r, segments path = p :: a :: r.
Proof using Type.
  unfold match_path, area. destruct (segments tpl) as [|t [|t2 tr]]; [done..|].
  destruct t2 as [|c seg]; [done|]. destruct (Ascii.eqb c "{"%char) eqn:Ec; [done|]. intros Hm [= <-].
  destruct (segments path) as [|p [|p2 pr]]; cbn [match_segments] in Hm; [done|by destruct (match_segment _ _)|].
  destruct (match_segment t p); [|done]. destruct (match_segment (String c seg) p2) as [v|] eqn:E2; [|done].
  rewrite (match_literal c seg p2 Ec) in E2. destruct (String.eqb_spec (String c seg) p2) as [<-|]; [|done].
  by eexists _, _.
Qed.
Lemma segments_api path : HasPrefix path "/api" = true → ∃ x r, segments path = "" :: String "a" x :: r.
Proof using Type.
  unfold HasPrefix. intros Hp.
  destruct path as [|c0 path]; [done|].
  change (String.prefix _ _) with (if Ascii.ascii_dec "/" c0 then String.prefix "api" path else false) in Hp.
  destruct (Ascii.ascii_dec "/" c0) as [<-|]; [|done]. destruct path as [|c1 path]; [done|].
  change (String.prefix _ _) with (if Ascii.ascii_dec "a" c1 then String.prefix "pi" path else false) in Hp.
  destruct (Ascii.ascii_dec "a" c1) as [<-|]; [|done]. simpl.
  destruct (segments path) as [|seg segs]; by do 2 eexists.
Qed.
Definition open_areas : list string := ["sub"; "c"; "hysteria"; "health"].
Lemma public_areas :
  Forall (λ rt : Route E, ∃ a, area (Rt_template rt) = Some a ∧ a ∈ open_areas) (public_routes cfg now ++ [health_route]).
Proof using Type.
  unfold public_routes, fallback_routes, subscription_routes, fb, sub, GET, POST, health_route. simpl app.
  repeat (apply Forall_cons; split; [eexists; split; [reflexivity|unfold open_areas; set_solver]|]).
  by constructor.
Qed.

Lemma dispatch_refused method path r (s : State E) fetches st res s' fetches' :
  dispatch cfg now method path r s fetches = (res, s', fetches') → adminAuth cfg r = Some st →
  HasPrefix path "/api" = true → res ∈ [inl st; inl (mkStatus StatusNotFound "404 page not found"); inl (mkStatus 405 "")].
Proof using Type.
  unfold dispatch. intros Hd Hst Hp. destruct (find_route cfg now method path) as [rt vars| |] eqn:Ef;
    [|injection Hd as <- _ _; repeat (apply elem_of_cons; (by left) || right)..].
  apply find_route_elem in Ef as [Hin Hm]. unfold routes in Hin.
  assert (Hcase : rt ∈ public_routes cfg now ++ [health_route] ∨ rt ∈ admin_routes cfg now)
    by (rewrite elem_of_app; rewrite !elem_of_app in Hin; tauto).
  destruct Hcase as [Hpub|Hadm].
  - exfalso. pose proof public_areas as Ha. rewrite Forall_forall in Ha.
    destruct (Ha _ Hpub) as (a & Harea & Hin'). destruct (match_area _ _ _ _ Hm Harea) as (p & r' & Hseg).
    destruct (segments_api _ Hp) as (x & r'' & Hseg'). rewrite Hseg' in Hseg. simplify_eq.
    unfold open_areas in Hin'. set_solver.
  - apply list_elem_of_fmap in Hadm as (rt0 & -> & _).
    rewrite (guarded_refuses _ _ st) in Hd by done. injection Hd as <- _ _. apply elem_of_cons. by left.
Qed.
End Harmless.

Section Unauthenticated.
Context {E : Type} `{HandlerService E} `{FileOrder} `{Curve} `{Clock} `{RateLimiter}.

(** C1: Without the admin token nobody can change anything. Whatever a request
    that does not carry it asks for, the tables keep every row, the users'
    last fallback access apart; the configuration files, the engines, the
    node status and the synchroniser are untouched; and a path under [/api]
    is answered with 401 (503 when no token is configured), 404, 405 or 429,
    never by a handler. *)
Theorem unauthenticated_requests_harmless cfg now method path r (w : Site) res w' :
  serve cfg now method path r w = (res, w') → adminAuth cfg r ≠ None →
  untouched (site_server w) (site_server w') ∧
  (HasPrefix path "/api" = true → ∃ st, res = inl st ∧ Code st ∈ [401; 503; 404; 405; 429]%Z).
Proof.
  intros Hs Ha. destruct (adminAuth cfg r) as [st|] eqn:Est; [clear Ha|done].
  assert (Hcode : Code st ∈ [401; 503]%Z).
  { unfold adminAuth in Est. repeat case_if; simplify_eq; set_solver. }
  unfold serve in Hs. destruct (rateLimitWrap cfg now path r (site_limits w)) as [[lim|] limits] eqn:El.
  - injection Hs as <- <-. split; [done|]. intros _. exists lim. split; [done|].
    unfold rateLimitWrap, rateLimitMiddleware in El. repeat case_if; simplify_eq;
      destruct (allow_request _ _ _ _) as [[] ?]; simplify_eq; set_solver.
  - destruct (dispatch _ _ _ _ _ _ _) as [[res0 s'] fetches'] eqn:Ed. injection Hs as <- <-. simpl. split.
    + unfold dispatch in Ed. destruct (find_route _ _ _ _) as [rt vars| |] eqn:Ef; [|by simplify_eq..].
      destruct (Rt_handler rt _ _) as [res1 s1] eqn:Er. injection Ed as _ <- _.
      apply find_route_elem in Ef as [Hin _].
      pose proof (routes_harmless cfg now (set_vars r vars) rt (site_server w)) as Hu.
      rewrite Er in Hu. apply Hu; [|done]. rewrite adminAuth_set_vars. by rewrite Est.
    + intros Hp. pose proof (dispatch_refused _ _ _ _ _ _ _ st _ _ _ Ed Est Hp) as Hres.
      assert (Hc : ∃ st', res0 = inl st' ∧ st' ∈ [st; mkStatus StatusNotFound "404 page not found"; mkStatus 405 ""])
        by set_solver.
      destruct Hc as (st' & -> & Hst'). exists st'. split; [done|].
      rewrite !elem_of_cons in Hst'. destruct Hst' as [->|[->|[->|[]%elem_of_nil]]]; set_solver.
Qed.
End Unauthenticated.
