(* ===== verification/System.v ===== *)
(** * The running system

    The process as a transition system: requests, the background passes that
    [main] starts, restarts, and an environment that edits the configuration
    directory, restarts the engines and makes database statements fail. Its
    steps are whole handlers and passes; inside a handler a pass may run at a
    [go] statement (see [go_Sync]). *)

From S2P Require Import Prelude GoString Json JsonDecode Models Config XrayTypes Parser.
From S2P Require Import Generator ConfigWriter Admin Schema Database DatabaseFacts Syncer SyncerProps.
From S2P Require Import Server ServerFacts Routes Nodes SubLinks Subscription Users Emergency.
From S2P Require Import Killswitch RateLimit Liveness Startup SystemFacts SystemSteps Router RouterProps.
From S2P Require Import Directory DirectoryProps LivenessProps.

Section System.
Context {E : Type} `{HandlerService E} `{FileOrder} `{Curve} `{Clock} `{RateLimiter} `{Liveness}.
Context (cfg : Config).

Abbreviation site_tables := (λ w : Site (E := E), db_tables (sv_db (site_server w))).

Definition on_server (m : M (State E) ()) (w : Site (E := E)) : Site (E := E) :=
  mkSite (m (site_server w)).2 (site_fetches w) (site_limits w).
(** A scrape of the metrics listener. *)
Definition scrape (now : Z) (w : Site (E := E)) : Site (E := E) :=
  let s := site_server w in
  let '(res, db) := MetricsHandler cfg now (sv_fallbackDenied s) (site_fetches w) (sv_db s) in
  mkSite (mkState db (sv_world s) (sv_nodeStatus s) (sv_fallbackDenied s) (sv_background s))
    (match res with inr (_, _, _, fetches) => fetches | inl _ => site_fetches w end) (site_limits w).
(** The process after a restart: memory is lost, the database is kept. *)
Definition restarted (w : Site (E := E)) : Site (E := E) :=
  let s := site_server w in
  mkSite (mkState (sv_db s) (sv_world s) ∅ 0 (mkBackground new_status 0 []))
    ∅ (mkRateTables ∅ ∅).
(** Everything outside the process may change. *)
Definition environment (world : Host * E) (faults schedule : list bool) (w : Site (E := E)) : Site (E := E) :=
  let s := site_server w in
  mkSite (mkState (mkDB (db_tables (sv_db s)) faults) world (sv_nodeStatus s) (sv_fallbackDenied s)
            (mkBackground (bg_status (sv_background s)) (bg_pending (sv_background s)) schedule))
    (site_fetches w) (site_limits w).

Inductive action :=
  | HTTPRequest (now : Z) (method path : string) (r : Request)
  | SyncPass (now : Z)                      (** the ticker or the file watcher *)
  | PendingPass (now : Z)                   (** a [go Sync()] gets its turn *)
  | NodesPass (now : Z)
  | KillSwitchTick (interval : Z)
  | Scrape (now : Z)
  | CleanupRound (now : Z)
  | Restart (now : Z) (probe : option error)
  | Environment (world : Host * E) (faults schedule : list bool).

(** The loops that [main] starts run only when configured. *)
Definition allowed (a : action) : bool :=
  match a with
  | NodesPass _ => nodes_loop_runs cfg
  | KillSwitchTick interval => killswitch_loop_runs cfg interval
  | _ => true
  end.
Definition perform (a : action) (w : Site) : Site :=
  match a with
  | HTTPRequest now method path r => (serve cfg now method path r w).2
  | SyncPass now => on_server (logged (syncer_Sync cfg now)) w
  | PendingPass now => on_server (run_pending cfg now) w
  | NodesPass now => on_server (reconcileNodesOnce now) w
  | KillSwitchTick _ => on_server (reconcileKillSwitchLocked cfg) w
  | Scrape now => scrape now w
  | CleanupRound now => mkSite (site_server w) (site_fetches w)
      (mkRateTables (cleanup now (RT_sub (site_limits w))) (cleanup now (RT_admin (site_limits w))))
  | Restart now probe => on_server (startup cfg now probe) (restarted w)
  | Environment world faults schedule => environment world faults schedule w
  end.

Inductive site_step (w : Site (E := E)) : Site (E := E) → Prop :=
  | site_step_action a (_ : allowed a = true) : site_step w (perform a w).
(** The site after the first [n] actions of a schedule. *)
Fixpoint run (schedule : nat → action) (w : Site) (n : nat) : Site :=
  match n with O => w | S n => perform (schedule n) (run schedule w n) end.

(** Sites with a database that was migrated empty and run by the program since. *)
Definition site_reachable (w : Site (E := E)) : Prop :=
  ∃ w0, db_tables (sv_db (site_server w0)) = empty_tables ∧ rtc site_step w0 w.

(** *** Actions as data-access calls *)

(** The request is matched by a route with one of the templates. *)
Definition requests_route (templates : list string) (a : action) : Prop :=
  match a with
  | HTTPRequest now method path _ =>
      match find_route (E := E) cfg now method path with
      | Matched rt _ => Rt_template rt ∈ templates
      | _ => False
      end
  | _ => False
  end.
Definition switches : list string := ["/api/fallback/enable"; "/api/fallback/disable"].

Section Class.
Context {P : dbop → Prop} (HP : Routine P).
Definition called (h : Request → Server.H (State E) Answer) : Prop :=
  ∀ r, h_advances (calls P) (λ s, db_tables (sv_db s)) (h r).
Lemma called_answers {A} (h : Request → Server.H (State E) A) :
  (∀ r, h_advances (calls P) (λ s, db_tables (sv_db s)) (h r)) → called (λ r, answers (h r)).
Proof using Type. intros Hh r s. rewrite answers_run. apply Hh. Qed.

(** Every route makes calls of the class, the two switches if it has them. *)
Definition permitted (rt : Route E) : Prop :=
  ("/api" +:+ Rt_template rt ∈ switches → ∀ b, P (OpSetFallbackEnabled b)) → called (Rt_handler rt).
Lemma admin_called now : Forall permitted (user_routes cfg now ++ service_routes cfg now).
Proof using HP.
  unfold user_routes, service_routes. simpl app.
  repeat (apply Forall_cons; split; [intros Hsw; apply called_answers; intros r;
    first [apply (calls_enableFallback cfg HP), Hsw; unfold switches; cbn; set_solver
          |apply (calls_disableFallback cfg HP), Hsw; unfold switches; cbn; set_solver
          |clear Hsw; unfold enableUser, disableUser, enableUserClient, disableUserClient, triggerSync,
             getGlobalRoutes; auto with raven]|]).
  by constructor.
Qed.
Lemma calls_weaken (P1 P2 : dbop → Prop) t t' : (∀ op, P1 op → P2 op) → calls P1 t t' → calls P2 t t'.
Proof using Type.
  intros Hw. induction 1 as [|t t1 t2 [op faults Hop Ht] _ IH]; [done|].
  eapply rtc_l; [exists op faults; [by apply Hw|done]|done].
Qed.
Lemma routes_called now (rt : Route E) :
  rt ∈ routes cfg now → (Rt_template rt ∈ switches → ∀ b, P (OpSetFallbackEnabled b)) → called (Rt_handler rt).
Proof using HP.
  unfold routes. rewrite !elem_of_app. intros [Hin|[Hin|Hin]] Hsw r s.
  - pose proof (public_harmless (E := E) cfg now) as Hp. rewrite Forall_forall in Hp.
    pose proof (by_calls _ _ (same_tables _ _ (Hp _ Hin r s))) as Hc. by apply (calls_weaken routine P).
  - apply list_elem_of_fmap in Hin as (rt0 & -> & Hin). cbn [guarded Rt_handler].
    destruct (adminAuth cfg r); [done|]. pose proof (admin_called now) as Hc. rewrite Forall_forall in Hc.
    by apply Hc.
  - by apply list_elem_of_singleton in Hin as ->.
Qed.

Lemma serve_calls now method path r w :
  (requests_route switches (HTTPRequest now method path r) → ∀ b, P (OpSetFallbackEnabled b)) →
  calls P (site_tables w) (site_tables (serve cfg now method path r w).2).
Proof using HP.
  cbn [requests_route]. intros Hsw.
  unfold serve. destruct (rateLimitWrap _ _ _ _ _) as [[st|] limits]; [done|].
  unfold dispatch. destruct (find_route _ _ _ _) as [rt vars| |] eqn:Ef; [|done..].
  apply find_route_elem in Ef as [Hin _].
  pose proof (routes_called now rt Hin Hsw (set_vars r vars) (site_server w)) as Hc.
  by destruct (Rt_handler rt _ _).
Qed.
Lemma best_rows_reads secret snap best : reads (best_rows secret snap best).
Proof using Type.
  revert best. induction snap as [|[k at_] snap IH]; intros best; simpl; [auto with raven|].
  apply reads_bind; [unfold fetch_email; case_if; auto with raven|auto].
Qed.
Lemma scrape_tables now w : site_tables (scrape now w) = site_tables w.
Proof using Type.
  unfold scrape. set (s := site_server w).
  assert (Hr : h_advances eq db_tables (MetricsHandler cfg now (sv_fallbackDenied s) (site_fetches w))).
  { unfold MetricsHandler. apply (h_advances_bind _ _); [|intros b; apply (h_advances_bind _ _)].
    - apply h_advances_or_fail, reads_eq. auto with raven.
    - apply h_advances_or_500, reads_eq. unfold writeLivenessMetrics. auto using best_rows_reads with raven.
    - auto with raven. }
  specialize (Hr (sv_db s)). by destruct (MetricsHandler _ _ _ _ (sv_db s)).
Qed.

Lemma perform_calls a w :
  (requests_route switches a → ∀ b, P (OpSetFallbackEnabled b)) → calls P (site_tables w) (site_tables (perform a w)).
Proof using HP.
  destruct a; intros Hsw; simpl; try done.
  - by apply serve_calls.
  - apply (advances_logged _ _ _ (calls_syncer_Sync cfg now HP) (site_server w)).
  - apply (calls_run_pending cfg now HP (site_server w)).
  - apply (calls_reconcileNodesOnce now HP (site_server w)).
  - apply (calls_reconcileKillSwitch cfg HP (site_server w)).
  - by rewrite scrape_tables.
  - apply (calls_startup cfg now HP probe (site_server (restarted w))).
Qed.
End Class.

(** *** The tracker of the running system *)

(** Each action adds at most one event to the history of the tracker, at its
    own time; a restart begins a new history. *)
Lemma perform_fetches a w :
  site_fetches (perform a w) = site_fetches w
  ∨ (∃ e, site_fetches (perform a w) = track (site_fetches w) e ∧
       match a with HTTPRequest now _ _ _ | Scrape now => time_of e = now | _ => False end)
  ∨ (∃ now probe, a = Restart now probe ∧ site_fetches (perform a w) = tracked []).
Proof using Type.
  destruct a as [now method path r| | | | |now| |now probe|]; try (by left); cbn [perform].
  - unfold serve. destruct (rateLimitWrap _ _ _ _ _) as [[st|] limits]; [by left|]. unfold dispatch.
    destruct (find_route _ _ _ _) as [rt vars| |]; [|by left..]. destruct (Rt_handler rt _ _) as [res s].
    right; left. by exists (Answered (Rt_template rt) (set_vars r vars) (status_of res) now).
  - unfold scrape, MetricsHandler, hbind, or_500, or_fail, writeLivenessMetrics, bind.
    destruct (GetFallbackEnabled _) as [[e|b] db]; [by left|]. destruct (best_rows _ _ _ db) as [[e|best] db']; [by left|].
    right; left. by exists (Scraped now).
  - right; right. by exists now, probe.
Qed.

(** Calls replay as events of the directory. *)
Lemma calls_trace {P t t'} :
  calls P t t' → wf_tables t → wf_tables t' ∧ ∃ es, trace (directory t) es (directory t').
Proof using Type.
  induction 1 as [t|t t1 t' [op faults _ ->] _ IH]; intros Hwf; [split; [done|]; exists []; constructor|].
  destruct (plays_op op (mkDB t faults) Hwf) as (Hwf1 & es & _ & Htr & _).
  destruct (IH Hwf1) as (Hwf' & es' & Htr'). split; [done|]. exists (es ++ es'). by eapply trace_app.
Qed.

(** C2: The tables of the running system are always well formed, and what they
    stand for is the outcome of allowed events. However requests,
    synchronisation and reconciliation passes, restarts, edits of the
    configuration directory, engine restarts and failing statements interleave
    from an empty database on, every constraint of the schema holds: ids, names
    and tokens are unique, every client and placement belongs to an existing
    user, inbound and node, and flags are 0 or 1; and the directory of users
    replays from the empty one by allowed events. *)
Theorem system_wf w :
  site_reachable w →
  wf_tables (site_tables w) ∧
  ∃ es, trace (directory empty_tables) es (directory (site_tables w)).
Proof using Type.
  intros (w0 & H0w & Hrun). rewrite <- H0w.
  assert (Hwf : wf_tables (site_tables w0)) by (rewrite H0w; apply wf_empty_tables).
  refine (calls_trace (P := any_call) _ Hwf). clear H0w Hwf.
  induction Hrun as [|w w1 w2 [a _] _ IH]; [done|]. etrans; [|exact IH].
  apply perform_calls; auto with raven.
Qed.
End System.
