(* ===== verification/RateLimitProps.v ===== *)
(** * What the rate limiter guarantees

    Forgetting idle clients is invisible: the table of limiters behaves as if
    every client had a token bucket of its own for ever. *)

From S2P Require Import Prelude GoString Net Config Server RateLimit.

(** ** What is relied on of [golang.org/x/time/rate]

    A limiter is a token bucket: full when made, refilled at one token per
    interval. [used i b t l]: [l] was made for the interval [i] and the burst
    [b] and not asked after [t]. [same t l k]: from [t] on nothing tells [l]
    and [k] apart. *)

Class RateLimiterLaws `{RateLimiter} := {
  used : Z → Z → Z → Limiter → Prop;
  same : Z → Limiter → Limiter → Prop;
  same_equiv t :: Equivalence (same t);
  used_new : ∀ i b t, used i b t (NewLimiter i b);
  used_allow : ∀ i b t now l, used i b t l → (t <= now)%Z → used i b now (Allow now l).2;
  same_later : ∀ t t' l k, same t l k → (t <= t')%Z → same t' l k;
  same_allow : ∀ now l k, same now l k →
    (Allow now l).1 = (Allow now k).1 ∧ same now (Allow now l).2 (Allow now k).2;
  idle_full : ∀ i b t now l, used i b t l → (t + b * i <= now)%Z → same now l (NewLimiter i b) }.

(** The textbook bucket, as the time at which it will be full again. *)
Record Bucket := mkBucket { B_interval : Z; B_burst : Z; B_full_at : option Z }.
Definition full_from (now : Z) (b : Bucket) : Z :=
  match B_full_at b with Some t => Z.max now t | None => now end.
#[export] Instance token_bucket : RateLimiter := {|
  Limiter := Bucket;
  NewLimiter := λ i b, mkBucket i b None;
  Allow := λ now l,
    let t := full_from now l in
    if (t - now <=? (B_burst l - 1) * B_interval l)%Z
    then (true, mkBucket (B_interval l) (B_burst l) (Some (t + B_interval l)%Z))
    else (false, l) |}.
#[export] Program Instance token_bucket_laws : RateLimiterLaws := {|
  used := λ i b t l, B_interval l = i ∧ B_burst l = b ∧
    match B_full_at l with Some f => (f <= t + b * i)%Z | None => True end;
  same := λ t l k, B_interval l = B_interval k ∧ B_burst l = B_burst k ∧ full_from t l = full_from t k |}.
Next Obligation.
  intros t. split.
  - by intros l.
  - by intros l k (? & ? & ?).
  - intros l k m (? & ? & ?) (? & ? & ?). split_and!; congruence.
Qed.
Next Obligation. done. Qed.
Next Obligation.
  intros i b t now [i' b' f] (Hi & Hb & Hf) Ht. simpl in *. subst.
  unfold full_from; simpl. destruct f as [f|]; case_if; simpl; (split_and!; [done..|]); lia.
Qed.
Next Obligation.
  intros t t' [] [] (? & ? & Hs) Ht. simpl in *. subst. split_and!; [done..|].
  unfold full_from in *; simpl in *. destruct B_full_at0, B_full_at1; lia.
Qed.
Next Obligation.
  intros now [i b f] [i' b' f'] (? & ? & Hs). simpl in *. subst. rewrite Hs.
  case_if; simpl; [|done]. split; [done|]. split_and!; [done..|]. unfold full_from. simpl. lia.
Qed.
Next Obligation.
  intros i b t now [i' b' f] (? & ? & Hf) Ht. simpl in *. subst. split_and!; [done..|].
  unfold full_from; simpl. destruct f; lia.
Qed.

(** ** Bounds *)

Lemma limit_burst_bounds perMin : (2 <= limit_burst perMin <= 20)%Z.
Proof. unfold limit_burst. repeat case_if; lia. Qed.

(** A bucket refills within the ten minutes after which it is forgotten. *)
Lemma refill_time perMin :
  (0 < perMin)%Z → (limit_burst perMin * limit_interval perMin <= 10 * Minute)%Z.
Proof.
  intros Hp. unfold limit_interval, limit_burst, Minute.
  rewrite !Z.quot_div_nonneg by lia.
  pose proof (Z.mul_div_le (60 * 1000000000) perMin Hp) as H1.
  pose proof (Z.div_pos (60 * 1000000000) perMin ltac:(lia) Hp) as H0.
  pose proof (Z.mul_div_le perMin 6 ltac:(lia)) as H2.
  repeat case_if; nia.
Qed.

Section Limits.
Context `{RateLimiterLaws}.

(** ** The middleware and the cleanup goroutine, over time *)

Inductive limit_event := Asked (t : Z) (ip : string) | Cleaned (t : Z).
Definition event_time (e : limit_event) : Z := match e with Asked t _ | Cleaned t => t end.

(** The decisions the middleware takes, with the client of each. *)
Fixpoint limit_run (perMin : Z) (evs : list limit_event) (limiters : Limiters) : list (string * bool) :=
  match evs with
  | [] => []
  | Cleaned t :: r => limit_run perMin r (cleanup t limiters)
  | Asked t ip :: r =>
      let '(ok, limiters) := allow_request perMin t ip limiters in
      (ip, ok) :: limit_run perMin r limiters
  end.
Definition decisions_for (ip : string) (ds : list (string * bool)) : list bool :=
  map snd (bfilter (λ d, String.eqb d.1 ip) ds).

(** The specification: one bucket, asked at the times of one client. *)
Definition asked_times (ip : string) (evs : list limit_event) : list Z :=
  omap (λ e, match e with Asked t x => if String.eqb x ip then Some t else None | Cleaned _ => None end) evs.
Fixpoint bucket_run (l : Limiter) (times : list Z) : list bool :=
  match times with
  | [] => []
  | t :: r => let '(ok, l) := Allow t l in ok :: bucket_run l r
  end.

(** The bucket [l] of the specification and the table agree on [ip] at [now]. *)
Definition bucket_sim (perMin now : Z) (ip : string) (limiters : Limiters) (l : Limiter) : Prop :=
  let fresh := NewLimiter (limit_interval perMin) (limit_burst perMin) in
  match limiters !! ip with
  | Some il => same now (IL_limiter il) l ∧ (IL_last il <= now)%Z ∧
      used (limit_interval perMin) (limit_burst perMin) (IL_last il) (IL_limiter il)
  | None => same now fresh l
  end.

Lemma sim_later perMin now now' ip limiters l :
  bucket_sim perMin now ip limiters l → (now <= now')%Z → bucket_sim perMin now' ip limiters l.
Proof using Type.
  unfold bucket_sim. intros Hs Hle. destruct (limiters !! ip) as [il|]; [|by eapply same_later].
  destruct Hs as (Q1 & Q2 & Q3). split_and!; [by eapply same_later|lia|done].
Qed.
Lemma sim_cleaned perMin t ip limiters l :
  (0 < perMin)%Z → bucket_sim perMin t ip limiters l → bucket_sim perMin t ip (cleanup t limiters) l.
Proof using Type.
  unfold bucket_sim, cleanup, Limiters in *. intros Hp Hs. destruct (limiters !! ip) as [il|] eqn:Eil.
  - destruct Hs as (Q1 & Q2 & Q3). destruct (decide (t - IL_last il <= 10 * Minute)%Z) as [Hd|Hd].
    + by rewrite (proj2 (map_lookup_filter_Some _ _ _ il)).
    + rewrite (proj2 (map_lookup_filter_None _ _ _)).
      2:{ right. intros x Hx. rewrite Eil in Hx. by injection Hx as <-. }
      pose proof (refill_time perMin Hp). symmetry. etrans; [by symmetry|]. eapply idle_full; [exact Q3|lia].
  - rewrite (proj2 (map_lookup_filter_None _ _ _)); [done|by left].
Qed.
Lemma sim_asked perMin t ip limiters l ok limiters' :
  bucket_sim perMin t ip limiters l → allow_request perMin t ip limiters = (ok, limiters') →
  ok = (Allow t l).1 ∧ bucket_sim perMin t ip limiters' (Allow t l).2.
Proof using Type.
  unfold bucket_sim, allow_request, Limiters in *. intros Hs Ha.
  set (il := match limiters !! ip with Some il => il | None => _ end) in Ha.
  assert (Hil : same t (IL_limiter il) l ∧ (IL_last il <= t)%Z ∧
    used (limit_interval perMin) (limit_burst perMin) (IL_last il) (IL_limiter il)).
  { unfold il. destruct (limiters !! ip); [done|]. simpl. split_and!; [done|lia|apply used_new]. }
  destruct Hil as (Q1 & Q2 & Q3). pose proof (same_allow _ _ _ Q1) as [Q4 Q5].
  pose proof (used_allow _ _ _ t _ Q3 Q2) as Q6.
  destruct (Allow t (IL_limiter il)) as [ok0 l0]. injection Ha as <- <-. simpl in *. split; [done|].
  rewrite lookup_insert_eq. simpl. split_and!; [done|lia|done].
Qed.
Lemma sim_asked_other perMin t ip ip' limiters l ok limiters' :
  ip' ≠ ip → bucket_sim perMin t ip limiters l → allow_request perMin t ip' limiters = (ok, limiters') →
  bucket_sim perMin t ip limiters' l.
Proof using Type.
  unfold bucket_sim, allow_request, Limiters in *. intros Hne Hs Ha. destruct (Allow _ _) as [ok0 l0]. injection Ha as <- <-.
  by rewrite lookup_insert_ne.
Qed.

Lemma limit_run_refines perMin evs now ip limiters l :
  (0 < perMin)%Z → StronglySorted Z.le (now :: map event_time evs) → bucket_sim perMin now ip limiters l →
  decisions_for ip (limit_run perMin evs limiters) = bucket_run l (asked_times ip evs).
Proof using Type.
  intros Hp. unfold decisions_for. revert now limiters l. induction evs as [|e evs IH]; intros now limiters l Hsort Hsim; [done|].
  cbn [map] in Hsort. apply StronglySorted_inv in Hsort as [Hsort Hall]. inversion_clear Hall as [|? ? Hle _].
  apply (sim_later _ _ _ _ _ _ Hsim) in Hle as Hsim'. destruct e as [t ip'|t]; simpl in *.
  - destruct (allow_request perMin t ip' limiters) as [ok limiters'] eqn:Ea. unfold decisions_for. simpl.
    destruct (String.eqb_spec ip' ip) as [->|Hne].
    + destruct (sim_asked _ _ _ _ _ _ _ Hsim' Ea) as [Hok Hs]. simpl. destruct (Allow t l) as [ok' l']. simpl in *.
      subst ok'. f_equal. exact (IH t limiters' l' Hsort Hs).
    + eapply IH; [exact Hsort|]. by eapply sim_asked_other.
  - eapply IH; [exact Hsort|]. by apply sim_cleaned.
Qed.
End Limits.

(** C12: The rate limiter refines one token bucket per client. Whatever
    requests and cleanup rounds interleave (their times do not go back), the
    decisions a client gets are those of a single bucket of its own that is
    never thrown away, asked at the times of its own requests: no other client
    can use up its tokens, and dropping idle entries neither resets nor
    forgets a bucket that matters. *)
Theorem ratelimit_refines_buckets `{RateLimiterLaws} perMin evs ip :
  (0 < perMin)%Z → StronglySorted Z.le (map event_time evs) →
  decisions_for ip (limit_run perMin evs ∅)
  = bucket_run (NewLimiter (limit_interval perMin) (limit_burst perMin)) (asked_times ip evs).
Proof.
  intros Hp Hsort.
  assert (Hstart : ∃ now, StronglySorted Z.le (now :: map event_time evs)).
  { destruct evs as [|e evs]; [by exists 0%Z; repeat constructor|]. exists (event_time e).
    constructor; [done|]. apply StronglySorted_inv in Hsort as [_ Hall]. simpl. by constructor. }
  destruct Hstart as [now Hnow]. eapply (limit_run_refines perMin evs now); [done|done|].
  unfold bucket_sim, Limiters. rewrite lookup_empty. reflexivity.
Qed.

(** Twelve a minute: bursts of two, one more token every five seconds. *)
Lemma ratelimit_refines_buckets_witness :
  let evs := [Asked 0 "a"; Asked 1 "b"; Asked 2 "a"; Asked 3 "a"; Cleaned 700000000000; Asked 700000000001 "a"]%Z in
  decisions_for "a" (limit_run 12 evs ∅) = [true; true; false; true] ∧
  decisions_for "a" (limit_run 12 evs ∅)
  = bucket_run (NewLimiter (limit_interval 12) (limit_burst 12)) (asked_times "a" evs).
Proof.
  intros evs. split; [vm_compute; reflexivity|]. apply (ratelimit_refines_buckets 12 evs "a"); [lia|].
  subst evs. cbn [map event_time]. repeat first [apply SSorted_cons|apply SSorted_nil|apply Forall_cons; split|apply Forall_nil_2]; lia.
Defined.
