(* ===== verification/StartupProps.v ===== *)
(** * What start-up establishes

    The nodes the control plane talks to are those of the validated
    configuration, and none is dialled in the clear over a public address. *)

From S2P Require Import Prelude GoString Net Models Config XrayTypes Parser ConfigWriter.
From S2P Require Import Admin Schema Database DatabaseFacts DatabaseProps Syncer Server Nodes.
From S2P Require Import Killswitch Startup.

Section Credentials.
Context `{TLSLibrary}.

Definition uses_tls (creds : NodeCredentials) (addr : string) : Prop :=
  ∃ cert roots name, resolveCredentials creds addr = NewTLS cert roots name.

(** Every dial of the node is encrypted, or its address is private, or the
    operator has taken responsibility. Deploy mode [ssh_rsync] is not checked. *)
Definition guarded_dial (creds : NodeCredentials) (n : NodeConfig) : Prop :=
  DeployMode n = "grpc" →
  uses_tls creds (NC_APIAddr n) ∨ isPrivateHostPort (NC_APIAddr n) = true ∨ NC_AllowPublicGRPC n = true.

Lemma BuildTLSCredentials_tls ca cert key name c :
  BuildTLSCredentials ca cert key name = inr c → ∃ x p, c = NewTLS x p name.
Proof using Type.
  unfold BuildTLSCredentials. destruct (ReadPEM ca); [done|]. destruct (AppendCertsFromPEM _); [|done].
  destruct (LoadX509KeyPair _ _); [done|]. intros [= <-]. by do 2 eexists.
Qed.

Lemma node_credentials_spec nodes acc creds :
  node_credentials nodes acc = inr creds →
  (∀ addr, uses_tls acc addr → uses_tls creds addr) ∧
  (∀ n, n ∈ nodes → NC_TLS n ≠ None → uses_tls creds (NC_APIAddr n)).
Proof using Type.
  revert acc. induction nodes as [|n nodes IH]; intros acc Hc; cbn [node_credentials] in Hc.
  { injection Hc as <-. split; [done|]. by intros n ?%elem_of_nil. }
  destruct (NC_TLS n) as [tls|] eqn:Et.
  - destruct (BuildTLSCredentials _ _ _ _) as [e|c] eqn:Eb; [done|].
    apply BuildTLSCredentials_tls in Eb as (x & p & ->). destruct (IH _ Hc) as [Hk Hn].
    assert (Hhere : uses_tls (<[NC_APIAddr n := NewTLS x p (tls_server_name n tls)]> acc) (NC_APIAddr n)).
    { unfold uses_tls, resolveCredentials, NodeCredentials. rewrite lookup_insert_eq. simpl. eauto. }
    split; [|intros m [->|Hm]%elem_of_cons Hm'; auto].
    intros addr Ha. apply Hk. destruct (decide (addr = NC_APIAddr n)) as [->|Hne]; [done|].
    unfold uses_tls, resolveCredentials, NodeCredentials in *. by rewrite lookup_insert_ne.
  - destruct (IH _ Hc) as [Hk Hn]. split; [done|]. intros m [->|Hm]%elem_of_cons Hm'; [done|auto].
Qed.

Lemma configured_guarded cfg creds n :
  validateNodes (C_Nodes cfg) = None → configureNodeCredentials cfg = inr creds →
  n ∈ C_Nodes cfg → guarded_dial creds n.
Proof using Type.
  intros [_ Hok]%validateNodes_iff [_ Htls]%node_credentials_spec Hn Hmode.
  destruct (NC_TLS n) eqn:Et; [left; apply Htls; [done|by rewrite Et]|].
  destruct (Hok n Hn) as (_ & _ & _ & _ & Hpriv). destruct (NC_AllowPublicGRPC n) eqn:Ea; auto.
Qed.
End Credentials.

Lemma reconcileNodes_wf cfg now : preserves db_ok (reconcileNodes cfg now).
Proof.
  apply preserves_bind; [apply preserves_ReconcileNodes|]. intros _. apply preserves_Run, wf_backfill.
Qed.

(** The enabled rows of the table are enabled nodes of the configuration. *)
Lemma reconciled_nodes cfg now t :
  wf_tables t → C_Nodes cfg ≠ [] → NoDup (NC_Name <$> C_Nodes cfg) →
  ∃ t', reconcileNodes cfg now (mkDB t []) = (inr tt, mkDB t' []) ∧
  ∀ r, r ∈ t_nodes t' → nr_enabled r = 1%Z →
    ∃ n, n ∈ C_Nodes cfg ∧ IsEnabled n = true ∧ node_matches (desired_node n) r.
Proof.
  intros Hwf Hne Hnd. unfold reconcileNodes.
  assert (Hres : ResolvedNodes cfg = C_Nodes cfg) by (unfold ResolvedNodes; by destruct (C_Nodes cfg)).
  rewrite Hres. assert (Hnames : Node_Name <$> map desired_node (C_Nodes cfg) = NC_Name <$> C_Nodes cfg).
  { clear. induction (C_Nodes cfg) as [|n l IH]; [done|]. simpl. by f_equal. }
  destruct (ReconcileNodes_correct t now (map desired_node (C_Nodes cfg)) Hwf) as (t1 & E1 & _ & Hm & _ & Hon & _).
  { by rewrite Hnames. }
  pose proof (preserves_ReconcileNodes now (map desired_node (C_Nodes cfg)) (mkDB t []) Hwf) as Hwf1.
  rewrite E1 in Hwf1. unfold db_ok in Hwf1. cbn [snd db_tables] in Hwf1.
  unfold bind. rewrite E1. eexists. split; [reflexivity|]. cbn [with_user_nodes t_nodes]. intros r Hr He.
  apply Hon in He as Hin; [|done]. apply list_elem_of_fmap in Hin as (d & Hname & Hd).
  destruct (Hm d Hd) as (r' & Hr' & Hmatch). pose proof Hmatch as (Hn' & _).
  assert (r = r') as <-.
  { eapply (NoDup_map_inj_on nr_name (t_nodes t1)); [apply Hwf1|done..|]. by rewrite Hn'. }
  apply list_elem_of_fmap in Hd as (n & -> & Hn). exists n. split_and!; [done| |done].
  destruct Hmatch as (_ & _ & _ & _ & _ & Hen). rewrite He in Hen. simpl in Hen.
  by destruct (IsEnabled n).
Qed.


(** A library that accepts every certificate, and two nodes: one over mutual
    TLS at a public address, one private. *)
Definition any_tls : TLSLibrary := {|
  CertPool := string; Certificate := string; ReadPEM := inr; AppendCertsFromPEM := Some;
  LoadX509KeyPair := λ cert key, inr (cert +:+ key) |}.
Definition two_node_config : Config :=
  mkConfig ":8080" "" "" 0 "vpn.example" "/etc/xray/config.d" "db.sqlite" 60
    "http://localhost:8080" "" "" None [] [] [] None "" "leastPing"
    "https://www.gstatic.com/generate_204" "30s" 0 0 0 0 "" "" "" 0 "" ∅ ∅ "" [] ∅ None 30
    [mkNodeConfig "eu" "203.0.113.7:8443" "vless-in" "eu.example" 443 None None false
       (Some (mkNodeTLS "ca.pem" "cert.pem" "key.pem" ""));
     mkNodeConfig "lan" "10.0.0.2:8080" "vless-in" "lan.example" 443 None None false None] 0.


(** The reserved deploy mode [ssh_rsync] switches the check off, but nothing
    else: the node is still dialled, in the clear, at its public address. *)
Lemma ssh_rsync_dialled_in_the_clear :
  let n := mkNodeConfig "eu" "203.0.113.7:8080" "vless-in" "eu.example" 443 None
             (Some (mkNodeDeploy "ssh_rsync")) false None in
  validateNodes [n] = None ∧ isPrivateHostPort (NC_APIAddr n) = false ∧
  @node_credentials any_tls [n] ∅ = inr ∅ ∧ @resolveCredentials any_tls ∅ (NC_APIAddr n) = Insecure ∧
  Node_Enabled (desired_node n) = true ∧ Node_APIAddr (desired_node n) = NC_APIAddr n.
Proof. vm_compute. done. Qed.
