(* ===== verification/Demo.v ===== *)
(** * A small deployment, to evaluate the definitions

    Concrete instances of the parameters and a configuration, on which the
    theorems about the whole system are instantiated. *)

From S2P Require Import Prelude GoString Json JsonDecode Models Config XrayTypes Parser ConfigWriter.
From S2P Require Import Admin Schema Database DatabaseFacts DatabaseProps Generator GeneratorProps Syncer.
From S2P Require Import Server RateLimit RateLimitProps Liveness Router.

Definition demo_order : FileOrder := {| file_order := λ l, l; file_order_perm := λ l, reflexivity l |}.
Definition demo_liveness : Liveness :=
  {| Sum256 := λ s, s; fetch_order := map_to_list; fetch_order_perm := λ t, reflexivity _ |}.
#[export] Existing Instances demo_order demo_liveness IdentityCurve DecimalClock.

Definition demo_deployment (api_addr admin_token : string) (kill_tags : list string) : Config :=
  mkConfig ":8080" "" "" 0 "vpn.example" "/etc/xray" "db.sqlite" 60
    "http://localhost:8080" "" "" None ["fb-in"] kill_tags [] None admin_token "leastPing"
    "https://www.gstatic.com/generate_204" "30s" 0 0 0 0 "vless-in" api_addr "vless" 443 "" ∅ ∅ "" [] ∅
    None 30 [] 0.

Definition empty_request : Request := mkRequest ∅ ∅ ∅ "" "10.1.2.3:999" false "".
Definition demo_site {E} (t : Tables) (h : Host) (e : E) : Site (E := E) :=
  mkSite (mkState (mkDB t []) (h, e) ∅ 0 (mkBackground new_status 0 [])) ∅ (mkRateTables ∅ ∅).

(** An engine that knows its listening inbounds only. *)
Definition listeners : Type := gset (string * string).
#[export] Instance listeners_service : HandlerService listeners := {|
  InboundHandlerConfig := string;
  LoadJSONConfig := λ s, inr [s];
  rpc_AddUser := λ _ _ _, ret tt;
  rpc_RemoveUser := λ _ _ _, ret tt;
  rpc_AddInbound := λ addr tag m, (inr tt, {[(addr, tag)]} ∪ m);
  rpc_RemoveInbound := λ addr tag m,
    if bool_decide ((addr, tag) ∈ m) then (inr tt, m ∖ {[(addr, tag)]})
    else (inl "not enough information for making a decision", m);
  rpc_GetInboundUsers := λ _ _, ret [] |}.
