(* ===== verification/KillswitchProps.v ===== *)
(** * What the kill switch guarantees

    While the fallback is disabled its inbounds do not stay open: the toggle
    closes them, and the periodic reconciliation closes them again whenever an
    engine has reloaded them. *)

From S2P Require Import Prelude GoString Json JsonDecode Models Config XrayTypes Parser ConfigWriter.
From S2P Require Import Admin AdminProps Schema Database DatabaseFacts DatabaseProps Syncer Server ServerFacts.
From S2P Require Import Generator SyncerProps Killswitch RateLimit Liveness SystemFacts SystemSteps.
From S2P Require Import Router System Demo.

(** ** What is relied on of a running engine

    An engine that is up answers a removal with success, or says that there is
    no such handler, and stays up; after that the inbound is closed, and
    removing one inbound opens no other. *)

Class InboundLaws (E : Type) `{HandlerService E} := {
  listening : E → string → string → Prop;
  up : E → string → Prop;
  remove_answers : ∀ addr tag e r e',
    rpc_RemoveInbound addr tag e = (r, e') → up e addr →
    up e' addr ∧ accepted (λ err, isBenignAbsent ("remove inbound: " +:+ err)) r = true;
  remove_closes : ∀ addr tag e r e',
    rpc_RemoveInbound addr tag e = (r, e') →
    accepted (λ err, isBenignAbsent ("remove inbound: " +:+ err)) r = true → ¬ listening e' addr tag;
  remove_opens_nothing : ∀ addr tag e addr' tag',
    ¬ listening e addr' tag' → ¬ listening (rpc_RemoveInbound addr tag e).2 addr' tag' }.

Section Killswitch.
Context {E : Type} `{InboundLaws E} (cfg : Config).

Abbreviation apiAddr := (TrimSpace (C_XrayAPIAddr cfg)).
Abbreviation engine := (λ s : State E, (sv_world s).2).

(** Every kill-switch inbound is closed on the engine. *)
Definition severed (s : State E) : Prop :=
  ∀ tag, tag ∈ KillSwitchTags cfg → TrimSpace tag ≠ "" → ¬ listening (engine s) apiAddr (TrimSpace tag).
Definition flag_off (s : State E) : Prop := t_settings (db_tables (sv_db s)) !! "fallback_enabled" = Some "false".

Lemma disable_inbound_run addr tag (s : State E) :
  addr ≠ "" → TrimSpace tag ≠ "" → up (engine s) addr →
  ∃ e', disable_inbound addr tag s
    = (inr tt, mkState (sv_db s) ((sv_world s).1, e') (sv_nodeStatus s) (sv_fallbackDenied s) (sv_background s))
  ∧ up e' addr ∧ ¬ listening e' addr tag ∧
  (∀ a t, ¬ listening (engine s) a t → ¬ listening e' a t).
Proof using Type.
  intros Ha Ht Hup. unfold disable_inbound, logged, try, bind, on_world, on_engine, RemoveInboundViaAPI.
  rewrite (proj2 (String.eqb_neq addr "") Ha), (proj2 (String.eqb_neq (TrimSpace tag) "") Ht). unfold wrap_err.
  pose proof (remove_answers addr tag (sv_world s).2) as Hans.
  pose proof (remove_closes addr tag (sv_world s).2) as Hcl.
  pose proof (remove_opens_nothing addr tag (sv_world s).2) as Hop.
  destruct (rpc_RemoveInbound addr tag (sv_world s).2) as [r e']. destruct (Hans _ _ eq_refl Hup) as [Hup' Hacc].
  specialize (Hcl _ _ eq_refl Hacc). exists e'. by destruct r.
Qed.

Definition disable_tag (tag : string) : M (State E) () :=
  if String.eqb (TrimSpace tag) "" then ret tt else disable_inbound apiAddr (TrimSpace tag).
Lemma disable_tags_run tags (s : State E) :
  apiAddr ≠ "" → up (engine s) apiAddr →
  ∃ e', for_each tags disable_tag s
    = (inr tt, mkState (sv_db s) ((sv_world s).1, e') (sv_nodeStatus s) (sv_fallbackDenied s) (sv_background s))
  ∧ (∀ tag, tag ∈ tags → TrimSpace tag ≠ "" → ¬ listening e' apiAddr (TrimSpace tag)) ∧
  (∀ a t, ¬ listening (engine s) a t → ¬ listening e' a t).
Proof using Type.
  intros Ha. revert s. induction tags as [|tag tags IH]; intros s Hup.
  { exists (engine s). split; [by destruct s as [? [] ? ? ?]|]. split; [by intros t ?%elem_of_nil|done]. }
  cbn [for_each]. unfold bind, disable_tag at 1. destruct (String.eqb_spec (TrimSpace tag) "") as [Hb|Hb].
  - destruct (IH s Hup) as (e' & E1 & Hcl & Hop). exists e'. split; [done|]. split; [|done].
    intros t [->|Ht]%elem_of_cons; auto.
  - destruct (disable_inbound_run apiAddr (TrimSpace tag) s) as (e1 & -> & Hup1 & Hcl1 & Hop1);
      [done|by rewrite TrimSpace_idem|done|].
    destruct (IH (mkState (sv_db s) ((sv_world s).1, e1) (sv_nodeStatus s) (sv_fallbackDenied s) (sv_background s)) Hup1)
      as (e' & E1 & Hcl & Hop). exists e'. split; [done|]. simpl in Hop. split; [|auto].
    intros t [->|Ht]%elem_of_cons Hne; auto.
Qed.

(** A removal round closes every inbound and keeps the database. *)
Lemma applyKillSwitch_severs (s : State E) :
  apiAddr ≠ "" → up (engine s) apiAddr →
  ∃ s', applyKillSwitchInboundsLocked cfg false s = (inr tt, s') ∧ sv_db s' = sv_db s ∧ severed s'.
Proof using Type.
  intros Ha Hup. unfold applyKillSwitchInboundsLocked.
  rewrite (proj2 (String.eqb_neq apiAddr "") Ha). cbv zeta.
  destruct (disable_tags_run (KillSwitchTags cfg) s Ha Hup) as (e' & E1 & Hcl & _).
  eexists. split; [exact E1|]. split; [done|]. exact Hcl.
Qed.

(** A tick with the flag off closes every inbound, whatever had opened it. *)
Lemma reconcile_severs (s : State E) :
  apiAddr ≠ "" → up (engine s) apiAddr → flag_off s → head (db_faults (sv_db s)) ≠ Some true →
  severed (reconcileKillSwitchLocked cfg s).2.
Proof using Type.
  intros Ha Hup Hoff Hf. unfold reconcileKillSwitchLocked, bind at 1, try, on_db, GetFallbackEnabled, get_setting.
  unfold bind at 1, Query, Exec. unfold flag_off in Hoff.
  destruct (db_faults (sv_db s)) as [|[] fs]; [|done|]; rewrite Hoff; cbn [ret fst snd String.eqb Ascii.eqb Bool.eqb negb];
    match goal with |- context [applyKillSwitchInboundsLocked cfg false ?s1] =>
      destruct (applyKillSwitch_severs s1 Ha Hup) as (s' & -> & _ & Hs); exact Hs end.
Qed.

(** C8: Disabling the fallback cuts it off at once. When the call succeeds and
    the engine is up, the flag is off, so the fallback routes refuse everyone
    (see [withFallbackAuth_gate]), and every kill-switch inbound is closed; the
    rest of the database is unchanged. *)
Theorem disableFallback_severs (s s' : State E) b :
  disableFallback cfg s = (inr b, s') → apiAddr ≠ "" → up (engine s) apiAddr →
  b = false ∧ flag_off s' ∧ severed s' ∧
  db_tables (sv_db s')
    = with_settings (<["fallback_enabled" := "false"]> (t_settings (db_tables (sv_db s)))) (db_tables (sv_db s)).
Proof using Type.
  intros Hd Ha Hup. apply hbind_inr in Hd as ([] & s1 & E1%or_fail_inr & Hd).
  unfold on_db, SetFallbackEnabled, put_setting, Run, Exec in E1.
  destruct (db_faults (sv_db s)) as [|[] fs]; [|discriminate E1|]; injection E1 as <-;
    apply hbind_inr in Hd as ([] & s2 & E2%or_fail_inr & [<- <-]%hret_inr);
    (match type of E2 with applyKillSwitchInboundsLocked _ _ ?s3 = _ =>
       destruct (applyKillSwitch_severs s3 Ha Hup) as (s4 & E4 & Hdb & Hs) end; rewrite E4 in E2; injection E2 as ->;
     split; [done|]; unfold flag_off; rewrite Hdb; split_and!; [apply lookup_insert_eq|done|done]).
Qed.
End Killswitch.

(** ** Runs of the whole system *)

(** *** The calls that leave the flag alone *)

Definition same_flag (t t' : Tables) : Prop :=
  t_settings t' !! "fallback_enabled" = t_settings t !! "fallback_enabled".
#[export] Instance same_flag_preorder : PreOrder same_flag.
Proof. unfold same_flag. split; [done|]. intros t1 t2 t3 -> ->. done. Qed.
#[local] Hint Resolve same_flag_preorder : raven.

Lemma flag_Run f : (∀ t, same_flag t (f t)) → db_advances same_flag (Run f).
Proof. intros Hf. apply (advances_Exec same_flag). by intros t [] t' [= <-]. Qed.
Lemma flag_write_users {A} (f : Tables → A * list user_row * Z) : db_advances same_flag (write_users f).
Proof.
  apply (advances_Exec same_flag). intros t a t'. destruct (f t) as [[a0 us] sq]. unfold enforce.
  destruct (users_violation us); [done|]. by intros [= _ <-].
Qed.
Lemma flag_write_profiles {A} (f : Tables → A * list profile_row * Z) : db_advances same_flag (write_profiles f).
Proof.
  apply (advances_Exec same_flag). intros t a t'. destruct (f t) as [[a0 ps] sq]. unfold enforce.
  destruct (profiles_violation ps); [done|]. by intros [= _ <-].
Qed.
Lemma flag_put_setting k v : k ≠ "fallback_enabled" → db_advances same_flag (put_setting k v).
Proof. intros Hk. apply flag_Run. intros t. by apply lookup_insert_ne. Qed.
Lemma flag_insert_user_node u n : db_advances same_flag (Exec (insert_user_node u n)).
Proof.
  apply (advances_Exec same_flag). intros t a t'. unfold insert_user_node. repeat case_if; by intros [= _ <-].
Qed.
Lemma flag_wrap {A} msg (m : M DB A) : db_advances same_flag m → db_advances same_flag (wrap msg m).
Proof. intros Hm s. unfold wrap. specialize (Hm s). by destruct (m s) as [[e|a] s']. Qed.
Lemma flag_id_or_no_rows o : db_advances same_flag (id_or_no_rows o).
Proof. destruct o; simpl; auto with raven. Qed.
Lemma flag_UpsertNode now n : db_advances same_flag (UpsertNode now n).
Proof.
  apply (advances_bind _ _).
  - apply flag_Run. intros t. unfold upsert_node_rows. by case_if.
  - intros _. apply (advances_bind _ _); [auto with raven|apply flag_id_or_no_rows].
Qed.
Lemma flag_upsert_uc u i c : db_advances same_flag (Exec (upsert_uc_rows u i c)).
Proof.
  apply (advances_Exec same_flag). intros t a t'. unfold upsert_uc_rows. repeat case_if; by intros [= _ <-].
Qed.
#[local] Hint Resolve flag_id_or_no_rows flag_UpsertNode flag_upsert_uc flag_write_users flag_write_profiles flag_insert_user_node flag_wrap advances_transaction : raven.

Lemma call_step_flag `{Clock} t t' : call_step routine t t' → same_flag t t'.
Proof.
  intros [op faults Hop ->]. revert faults. cut (db_advances same_flag (run_op op)).
  { intros Ha faults. apply (Ha (mkDB t faults)). }
  assert (Hdel : ∀ k m, k ≠ "fallback_enabled" → delete k m !! "fallback_enabled" = (m : gmap string string) !! "fallback_enabled")
    by (intros; by apply lookup_delete_ne).
  destruct op; try done; cbn [run_op]; unfold CreateUser, CreateEmergencyProfile, UpdateEmergencyProfile, UpsertInbound,
    AssignUserToNodes, SetUserNodes, ReconcileNodes, ActivateEmergency, disable_node, UpsertUserClient; steps;
    try first [ by apply flag_put_setting | by apply flag_write_users | apply flag_Run; intros t0; done ].
  - apply flag_Run. intros t0. by apply Hdel.
  - apply flag_Run. intros t0. unfold upsert_inbound_rows. by case_if.
  - apply flag_Run. intros t0. unfold same_flag. simpl. by rewrite !Hdel.
  - apply flag_wrap. by apply flag_Run.
  - apply (advances_transaction same_flag), (advances_bind _ _); [by apply flag_Run|]. intros _. steps.
Qed.

Section Liveness.
Context {E : Type} `{InboundLaws E} `{FileOrder} `{Curve} `{Clock} `{RateLimiter} `{Liveness}.
Context (cfg : Config) (schedule : nat → action (E := E)) (w : Site (E := E)).

Abbreviation site n := (run cfg schedule w n).
(** The reconciliation ticks at step [n], with the engine and the database up. *)
Definition ticks_at (n : nat) : Prop :=
  (∃ interval, schedule n = KillSwitchTick interval) ∧
  up (sv_world (site_server (site n))).2 (TrimSpace (C_XrayAPIAddr cfg)) ∧
  head (db_faults (sv_db (site_server (site n)))) ≠ Some true.

Lemma flag_stays k n :
  (∀ m, k <= m → ¬ requests_route cfg switches (schedule m))%nat → flag_off (site_server (site k)) → (k <= n)%nat →
  flag_off (site_server (site n)).
Proof using Type.
  intros Hno Hoff. induction 1 as [|n Hkn IH]; [done|]. cbn [run].
  pose proof (perform_calls cfg routine_routine (schedule n) (site n)) as Hc.
  assert (Hcalls : calls routine (db_tables (sv_db (site_server (site n))))
    (db_tables (sv_db (site_server (perform cfg (schedule n) (site n)))))).
  { apply Hc. intros Hr. exfalso. by eapply Hno. }
  unfold flag_off in *. rewrite <- IH. clear -Hcalls. induction Hcalls as [|t t1 t2 Hs _ IH]; [done|].
  rewrite IH. by apply call_step_flag.
Qed.

(** C4: A disabled fallback is always cut off again. Take any run of the whole
    system (requests, passes, restarts, engine reloads, edits of the
    configuration directory, failing statements) in which the flag is off at
    step [k], nobody uses the two switches from then on, and the
    reconciliation keeps ticking with engine and database up. Then the flag
    stays off for ever and the kill-switch inbounds are closed again and again:
    after every step there is a later one at which none of them is open. *)
Theorem killswitch_recurs k :
  TrimSpace (C_XrayAPIAddr cfg) ≠ "" →
  (∀ m, k <= m → ¬ requests_route cfg switches (schedule m))%nat → flag_off (site_server (site k)) →
  (∀ n, ∃ m, n <= m ∧ ticks_at m)%nat →
  (∀ n, k <= n → flag_off (site_server (site n)))%nat ∧
  (∀ n, ∃ m, n <= m ∧ severed cfg (site_server (site m)))%nat.
Proof using Type.
  intros Ha Hno Hoff Hfair. assert (Hstay : ∀ n, (k <= n)%nat → flag_off (site_server (site n))).
  { intros n. by apply flag_stays. }
  split; [done|]. intros n. destruct (Hfair (max n k)) as (m & Hm & (interval & Hs) & Hup & Hf).
  exists (S m). split; [lia|]. cbn [run]. rewrite Hs. cbn [perform].
  apply (reconcile_severs cfg); [done|done| |done]. apply Hstay. lia.
Qed.
End Liveness.

(** ** An engine that reloads its inbounds *)

#[export] Program Instance listeners_laws : InboundLaws listeners :=
  {| listening := λ m addr tag, (addr, tag) ∈ m; up := λ _ _, True |}.
Next Obligation. intros addr tag m r m'. simpl. case_if; intros [= <- <-] _; (split; [done|by vm_compute]). Qed.
Next Obligation.
  intros addr tag m r m'. simpl. case_if; intros [= <- <-] _; bool_simp; [|done]. intros [_ Hn]%elem_of_difference.
  by apply Hn, elem_of_singleton.
Qed.
Next Obligation. intros addr tag m addr' tag'. simpl. case_if; simpl; [|done]. intros Hn [? _]%elem_of_difference. done. Qed.

Definition ks_config : Config := demo_deployment "127.0.0.1:10085" "secret" ["fb-in"].
Definition ks_open : listeners := {[("127.0.0.1:10085", "fb-in")]}.
Definition ks_site (flag : string) : Site :=
  demo_site (with_settings {["fallback_enabled" := flag]} sample) (mkHost ∅ [] (λ _, Ascii.zero) 0) ks_open.

Lemma disableFallback_severs_witness : ∃ s',
  disableFallback ks_config (site_server (ks_site "true")) = (inr false, s') ∧ flag_off s' ∧ severed ks_config s'.
Proof.
  destruct (disableFallback ks_config (site_server (ks_site "true"))) as [[e|b] s'] eqn:E;
    [exfalso; vm_compute in E; discriminate E|].
  destruct (disableFallback_severs ks_config _ _ _ E) as (-> & H1 & H2 & _); [done|done|]. by exists s'.
Defined.

(** The engine restarts, and opens the inbound again, before every tick. *)
Definition ks_schedule (n : nat) : action (E := listeners) :=
  if Nat.even n then Environment (mkHost ∅ [] (λ _, Ascii.zero) 0, ks_open) [] [] else KillSwitchTick 30.

Lemma killswitch_recurs_witness :
  ∃ m, (5 <= m)%nat ∧ severed ks_config (site_server (run ks_config ks_schedule (ks_site "false") m)).
Proof.
  refine (proj2 (killswitch_recurs ks_config ks_schedule (ks_site "false") 0 _ _ _ _) 5%nat).
  - done.
  - intros m _. unfold ks_schedule. by destruct (Nat.even m); intros [].
  - reflexivity.
  - intros k. exists (S (2 * k)). split; [lia|]. unfold ticks_at. cbn [run].
    assert (Hodd : ks_schedule (S (2 * k)) = KillSwitchTick 30).
    { unfold ks_schedule. by rewrite Nat.even_succ, Nat.odd_mul. }
    assert (Heven : ks_schedule (2 * k) = Environment (mkHost ∅ [] (λ _, Ascii.zero) 0, ks_open) [] []).
    { unfold ks_schedule. by rewrite Nat.even_mul. }
    split; [by exists 30%Z|]. split; [exact I|]. by rewrite Heven.
Defined.
