(* ===== verification/SystemWitness.v ===== *)
(** * The system theorems on a small deployment *)

From S2P Require Import Prelude GoString Json JsonDecode Models Config XrayTypes Parser ConfigWriter.
From S2P Require Import Admin AdminProps Schema Database DatabaseFacts DatabaseProps Syncer Server.
From S2P Require Import ConfigWriterProps Nodes SubscriptionProps SyncerProps Users UsersProps RateLimit.
From S2P Require Import RateLimitProps Liveness LivenessProps SystemFacts Router RouterProps System Demo.
From S2P Require Import WrittenClients.

Definition sys_config : Config := demo_deployment "" "secret" [].
Definition sys_host : Host := mkHost ∅ [] (λ n, Ascii.ascii_of_nat (37 * n mod 251)) 0.
Definition admin_request (token body : string) : Request :=
  mkRequest ∅ ∅ {["X-Admin-Token" := token]} "" "10.1.2.3:999" false body.
Definition create_ann : string :=
  json_marshal (JObj [("username", JStr "ann"); ("inbounds", JArr [])]).
Definition start_site : Site := demo_site empty_tables sys_host (∅ : toy_engine).

(** Ann is created by a request, and the tables are well formed after it. *)
Lemma system_wf_witness :
  let w := perform sys_config (HTTPRequest 5 "POST" "/api/users" (admin_request "secret" create_ann)) start_site in
  map ur_username (t_users (db_tables (sv_db (site_server w)))) = ["ann"] ∧
  wf_tables (db_tables (sv_db (site_server w))).
Proof.
  intros w. split; [vm_compute; reflexivity|]. apply (system_wf sys_config). exists start_site.
  split; [reflexivity|]. apply rtc_once. by apply (site_step_action sys_config start_site).
Defined.

(** The same request without the token changes nothing. *)
Lemma unauthenticated_requests_harmless_witness :
  let got := serve sys_config 5 "POST" "/api/users" (admin_request "guess" create_ann) start_site in
  untouched (site_server start_site) (site_server got.2) ∧
  ∃ st, got.1 = inl st ∧ Code st ∈ [401; 503; 404; 405; 429]%Z.
Proof.
  intros got. destruct (unauthenticated_requests_harmless sys_config 5 "POST" "/api/users"
    (admin_request "guess" create_ann) start_site got.1 got.2) as [H1 H2].
  - unfold got. by destruct (serve _ _ _ _ _ _).
  - vm_compute. discriminate.
  - split; [done|]. by apply H2.
Defined.

(** ** A user is cut off

    Alice is enrolled on the inbound of the file and has an account on the
    engine. *)

#[export] Program Instance toy_removals : RemovalLaws toy_engine := {| answers_at := λ _ _, True |}.
Next Obligation.
  intros addr tag email m r m' Hr _. cbn in Hr. destruct (m !! (addr, tag, email)); simplify_eq; [done|].
  vm_compute. reflexivity.
Qed.
Next Obligation. done. Qed.

Definition cut_config : Config := demo_deployment "127.0.0.1:10085" "secret" [].
Definition alice_row : user_row :=
  mkUserRow 1 "alice" "alice" "tok-alice" (Some "fb-alice") None 1 "[]" 1 100 100.
Definition cut_tables : Tables :=
  mkTables [alice_row] [mkInbound 1 "vless-in" "vless" 443 "/etc/xray/00.json" "{}" 100]
    [mkUcRow 1 1 1 demo_client_config 1] ∅ [] [] [] 1 1 1 0 0.
Lemma cut_tables_wf : wf_tables cut_tables.
Proof.
  split; simpl; try apply NoDup_nil_2; try apply NoDup_singleton; try lia;
    try (intros x ->%list_elem_of_singleton; simpl; set_solver by lia); by intros x ?%elem_of_nil.
Qed.
Definition alice_engine : toy_engine := {[("127.0.0.1:10085", "vless-in", "alice") := VLESSAccount "u1" ""]}.
(** [race]: whether the pass that the removal starts runs before the answer. *)
Definition cut_state (race : bool) : State toy_engine :=
  mkState (mkDB cut_tables []) (demo_host, alice_engine) ∅ 0 (mkBackground new_status 0 [race]).
Definition for_alice : Request :=
  mkRequest {["id" := "1"]} ∅ {["X-Admin-Token" := "secret"]} "" "10.1.2.3:999" false "".



(** The removal starts a pass before the row is deleted. If the pass runs first
    it finds the user in the database and not in the file, and writes it back;
    the next pass imports the file and creates the user anew, with a fresh
    token. *)
Lemma deleteUser_race_resurrects :
  let s := (deleteUser cut_config 9 for_alice (cut_state true)).2 in
  let s' := (syncer_Sync cut_config 10 s).2 in
  t_users (db_tables (sv_db s)) = [] ∧
  map ur_username (t_users (db_tables (sv_db s'))) = ["alice"] ∧
  length (t_user_clients (db_tables (sv_db s'))) = 1%nat.
Proof. vm_compute. done. Qed.


(** A client of the file is imported under its cleaned-up name; the same pass
    does not find that name in the file and writes the client a second time. *)
Definition spaced_host : Host :=
  host_with "vless" [JObj [("id", JStr "u1"); ("email", JStr "bob smith")]].
Lemma cleaned_name_written_twice :
  let s := mkState (mkDB empty_tables []) (spaced_host, (∅ : toy_engine)) ∅ 0 (mkBackground new_status 0 []) in
  let s' := (syncer_Sync cut_config 10 s).2 in
  map ur_username (t_users (db_tables (sv_db s'))) = ["bob_smith"] ∧
  listed_emails (sv_world s').1 = ["bob smith"; "bob_smith"].
Proof. vm_compute. done. Qed.

(** Ann fetches twice and once with an unknown token; the scrape has one row. *)
Definition fetch_by (token ua : string) (at_ : Z) : liveness_event :=
  Answered "/sub/{token}" (mkRequest {["token" := token]} ∅ ∅ ua "10.1.2.3:999" false "") 200 at_.
Definition ann_history : list liveness_event :=
  [fetch_by "tok-a" "Happ/2.0" 5000000000; Scraped 6000000000; fetch_by "nobody" "curl" 7000000000;
   fetch_by "tok-a" "Happ/2.1" 9000000000].
Lemma scrape_reports_last_fetches_witness : ∃ flag rows tr,
  MetricsHandler sys_config 10000000000 0 (tracked ann_history) (mkDB sample [])
    = (inr (flag, 0%Z, rows, tr), mkDB sample []) ∧
  ∃ r, r ∈ rows ∧ row_id r = "ann|primary|happ" ∧ (9 ≤ row_ts r)%Z.
Proof.
  destruct (scrape_reports_last_fetches sys_config 10000000000 0 ann_history sample)
    as (flag & rows & tr & E & _ & _ & _ & Hall).
  - repeat constructor; vm_compute; discriminate.
  - apply Forall_forall. repeat constructor; vm_compute; discriminate.
  - exists flag, rows, tr. split; [exact E|].
    apply (Hall (fetch_by "tok-a" "Happ/2.1" 9000000000) (mkFetchKey "tok-a" false "happ")).
    + do 3 apply list_elem_of_further. apply list_elem_of_here.
    + vm_compute. reflexivity.
    + vm_compute. discriminate.
    + vm_compute. discriminate.
Defined.
